(* ===== verification/_CoqProject ===== *)
-Q . S2P
Prelude.v
Common.v
Bitset.v
Frames.v
Pmm.v
PmmFrames.v
Cstring.v
Cpu.v
Vm.v
VmList.v
VmRanges.v
VmFree.v
VmFreeProps.v
VmPaging.v
VmInit.v
Boot.v
VmAlloc.v
VmProps.v
Liballoc.v
LiballocList.v
LiballocHeap.v
LiballocOps.v
LiballocProofs.v
HeapFirst.v
LiballocFree.v
LiballocSpec.v
LiballocBump.v
LiballocProps.v
Stdlib.v
HeapPages.v
HeapErase.v
KernelHeap.v
Port.v
Tty.v
Float.v
Math.v
Colors.v
Animation.v
Printf.v
PrintfSpec.v
PrintfProps.v
Tables.v
Devices.v
Serial.v
Panic.v
Timer.v
Keyboard.v
KeyboardProps.v
Isr.v
Entry.v
Sleep.v
Debug.v
Pci.v
KernelInit.v
Graphics.v
Kernel.v
