(* ===== verification/Prelude.v ===== *)
(** * MaOS: a verification of the kernel and its C library

    MaOS is a small operating system kernel for i386: kernel/ holds the kernel, libc/ the
    part of the C library it links, libmath/ its floating-point functions.  This development
    translates the C and C++ code, and the assembly code around it, into Rocq definitions
    and proves what they do.  This file is the root: it documents the
    development and holds what all files share.

    ** The program and the files

    At the bottom there are two memory managers and the devices; the heap and the
    formatted output stand on them; interrupts come in between; boot.asm enters
    [kernel_main], which starts everything.

    - The processor, as far as the assembly files use it: [Cpu] (registers, instructions,
      the class [Bus] of what is behind a memory access; halt, nop, sti, cli of common.c).
      boot.asm and paging.asm: [Boot], where an access goes through the page tables to
      physical memory.  isr.asm: [Entry], where it goes to the linear memory of the kernel.

    - The macros of kernel/common.h and memory.h, the error codes and the symbols of
      kernel/linker.ld: [Common].  The symbols that depend on the linked image are the
      class [Layout].
    - libc/bitset: [Bitset] (arrays of 32-bit words in a memory of words).
    - kernel/memory/pmm.c, the buddy allocator of page frames: [Pmm].  Its client sees it
      through the class [FrameAllocator] and its laws (file [Frames], after memory.h);
      [PmmFrames] shows that the buddy allocator satisfies them.
    - libc/string: [Cstring], over a map from addresses to bytes.
    - kernel/memory/vm.c, kernel pages and address translation: the definitions in [Vm];
      the doubly linked lists of free ranges in [VmList] and [VmRanges], the set of free
      pages they stand for in [VmFree] and [VmFreeProps]; page tables seen through the
      processor's walk ([mmu]) in [VmPaging]; [VmInit], [VmAlloc] and [VmProps] have
      [vm_init], [vm_alloc_kpages], [vm_free_kpages] and the composition with pmm.c.
    - libc/liballoc, the heap: definitions in [Liballoc] over the class [PageSource] of its
      hooks; lists of free blocks in [LiballocList]; the heap as chains of adjacent blocks
      and its invariant in [LiballocHeap]; the steps of merging and splitting in
      [LiballocOps]; [malloc] and [free] in [LiballocProofs] and [LiballocFree]; the
      abstract specification (a finite map from pointers in use to sizes) in
      [LiballocSpec]; [LiballocBump] is a page source that satisfies the laws; the
      theorems are in [LiballocProps]; [HeapFirst] follows the first request.  [Stdlib] has the hooks of libc/stdlib, which put
      the heap on the kernel's pages, the C++ operators of libc/cpp/new.cpp and strdup.
    - The layers of the memory together: [HeapPages] records the regions the kernel's pages
      hand out and shows that they satisfy the laws the heap assumes; [HeapErase] shows
      that the heap behaves alike when nothing is recorded; [KernelHeap] composes liballoc,
      vm.c and pmm.c in one state.
    - kernel/io/port.c: [Port].  The devices behind the ports are the class [Machine]: a
      state, and what reading and writing a port does to it.  [framed] and [only_at] say
      which ports an operation has accessed; with the laws of the devices ([UartLaws],
      [PicLaws], [KbcLaws], [PciLaws], their documented behaviour) they keep the devices
      apart.
    - kernel/io/tty.c: [Tty].  libc/stdio: definitions in [Printf] over any sink of
      characters (class [CharSink]), numerals and the meaning of formats in [PrintfSpec],
      theorems in [PrintfProps].
    - kernel/kernel/tables.c and tables.asm: [Tables] (segments, interrupt gates, the
      interrupt controllers).
    - The state the drivers share (the variables of serial.c, isr.c, timer.c): [Devices].
      kernel/io/serial.c and the [putchar] of libc/stdio/putchar.c, which makes screen and
      serial line the console of the kernel: [Serial].
    - [kernel_panic] of kernel/kernel/common.c: [Panic].  kernel/kernel/timer.c: [Timer] and
      [Sleep].  kernel/io/keyboard.c: [Keyboard], [KeyboardProps].  kernel/kernel/isr.c:
      [Isr].  kernel/io/pci.c: [Pci].  The macro [DEBUG], [pmm_debug], [vm_debug],
      [debug_as] and [print_stacktrace], which print the state of the memory: [Debug].
    - Floating-point numbers: [Float] (the registers of the coprocessor with the Standard
      Library's SpecFloat, bounds and errors of its roundings), [Math] (libmath), [Colors]
      (kernel/gfx/colors.cpp), [Animation] (the pictures kernel.cpp draws).  The precision
      of the registers, how far one fprem reduces, the sine and the cosine are parameters
      (class [X87]) with the coprocessor's documented behaviour as laws.
    - kernel/kernel/kernel.cpp and kernel/gfx/gfx.cpp: [KernelInit] (all the components as
      parts of one state, their initialisation), [Graphics] (the frame buffer and the rounds
      of the animation) and [Kernel] ([kernel_main]).

    ** How code becomes definitions

    An operation is a function of the state monad [M] below; its outcome [res] is a result
    with the new state, a panic, undefined behaviour, or lack of fuel.  Integers are [Z],
    reduced to their width where the C code can leave it; an overflow of a signed [int],
    an index out of range and a NULL dereference are [Undef].  Definitions keep the names
    and the order of the code, and each is executable.  Structures linked by pointers are
    maps from addresses to records.  Where a panic is the outcome [Panic], [Panic.v] shows
    what is printed before.

    ** What the theorems show

    - Refinement: [malloc], [free], [calloc], [realloc] implement operations on the map of
      blocks in use; blocks never overlap, and a client cannot make the heap fail.
    - Memory: any sequence of buddy operations accounts for every frame; allocation and
      release of frames, of free page ranges and of kernel pages do exactly what they
      should, down to the translation the processor sees; initialisation establishes the
      invariants.
    - Boot: from the boot loader's state boot.asm reaches [kernel_main] without a fault,
      with the translation, the empty page tables and the argument that the C code starts
      from ([boot_enters_kernel]); the layout vm.c assumes ([layout_ok]) follows from where
      the linker puts the image ([boot_layout_ok]).
    - Output: [printf] renders a format as the pieces it is made of, printed numbers read
      back, and on the kernel's console the text reaches the serial line and a screen
      that stays well formed.
    - Interrupts: the entry points and the common stub hand over the vector and the error
      code and resume what was interrupted ([isr_transparent], [irq_serviced]); every
      request is acknowledged and handled to its end, a page fault is
      reported without faulting again, [sleep] returns in time whatever interrupts come,
      and the descriptor tables, interrupt masks, timer and keyboard are set up as the
      processor and the devices expect.
    - Floating point: [fmod] ends with the exact remainder, a colour is the one of its hue up
      to a rounding error, bit casts round-trip.
    - Composition: in text mode [kernel_main] runs to its end; in graphical mode it shows
      picture after picture in the frame buffer, through heap, page tables, floating-point
      arithmetic, interrupts and clock.  The bytes of the kernel's heap are mapped to frames
      in use that no other byte shares.
    - Defects: theorems that exhibit them state exactly when they strike
      ([vm_free_kpages_frees_used_frame], [print_int_overruns], [pci_slot_is_other_bus],
      [drawing_overruns], [atan2_leaves_range];
      others are lemmas of their files).

    ** Bounds and fuel

    A loop over a linked list takes one more round than there are nodes in the map of its
    nodes; the specifications prove that this is enough.  [getexp] takes [MAXEXP - MINEXP]
    rounds, [printf] one per character of the format (its theorem shows it suffices; an
    unknown specifier exhausts any fuel, since the code then recurses without end).  How
    long the code polls a device depends on the device: [Patience] is the number of rounds
    followed, and the theorems hold for every patience above the bound the device's law
    gives.  [sleep] follows the list of the interrupts to come, the animation one such list
    for every round.  [fmod] takes 16 rounds: two [float]s differ by less than 277 in their
    exponents, and a round reduces the difference by 32 or more.

    ** Not modelled

    - The loading of the image and the memory map of the machine ([boot_image_ok],
      [pmm_boot_ok] are hypotheses); the encoding of instructions (their sizes are the
      parameter [Encoding]); status flags other than sign, overflow and interrupt; the
      accessed and dirty bits and the caches of the page tables.  In [Entry] the compiled
      [isr_handler] is its model together with a function for the registers it may
      change, which keeps the calling convention and leaves its argument alone ([cdecl]).
    - Payloads of NaNs.  An assignment rounds to [float] and an expression is evaluated in
      the registers, as the C standard says for this processor.  [print_double] is modelled with the Standard
      Library's binary64, each operation rounded to [double].
    - The calls of [DEBUG] inside the operations of pmm.c and vm.c: the kernel never assigns
      [dbflags], which is zero, and a flag of zero prints nothing.  The code of liballoc.c
      that is compiled only with the macro DEBUG defined ([dump_array] and output).
    - That a client writes outside its block of the heap; that a device changes its state
      between two accesses other than by its laws.  Interrupts arrive at the points where
      the kernel waits for them.
    - Releasing pages of the kernel's heap: the law for it does not hold for [kernel_pages],
      whose release of 16 pages with one call of [vm_free_kpages] corrupts the frame
      allocator (see [vm_free_kpages_frees_used_frame]).  So the theorem on the composed
      heap ([kernel_heap_isolated]) has users that allocate, write, resize and free as long
      as the heap keeps what is freed; over a page source that takes regions back as a
      whole, [free] is specified without this restriction.
*)

From stdpp Require Export base tactics list gmap strings.
From Stdlib Require Export ZArith Lia.

#[global] Open Scope Z_scope.

(** ** Machine integers

    The kernel is compiled for i386: [int], [size_t], pointers and
    [paddr_t]/[vaddr_t] are 32 bits wide.  An unsigned w-bit value is a [Z]
    reduced modulo 2^w after every operation that can leave the range. *)

Definition wrap (w x : Z) : Z := x mod 2 ^ w.

Abbreviation u8 := (wrap 8).
Abbreviation u16 := (wrap 16).
Abbreviation u32 := (wrap 32).
Abbreviation u64 := (wrap 64).

(** Reinterpretation of a 32-bit pattern as a two's complement [int]. *)
Definition s32 (x : Z) : Z :=
  let y := u32 x in if y <? 2 ^ 31 then y else y - 2 ^ 32.

Lemma s32_range x : - 2 ^ 31 <= s32 x < 2 ^ 31.
Proof.
  unfold s32, wrap. pose proof (Z.mod_pos_bound x (2 ^ 32)). destruct (Z.ltb_spec (x mod 2 ^ 32) (2 ^ 31)); lia.
Qed.

(** The values of a w-bit unsigned type. *)
Definition in_width (w x : Z) : Prop := 0 <= x < 2 ^ w.

Abbreviation is_u8 := (in_width 8).
Abbreviation is_u16 := (in_width 16).
Abbreviation is_u32 := (in_width 32).

Lemma wrap_range w x : 0 <= w -> in_width w (wrap w x).
Proof. intros. apply Z.mod_pos_bound, Z.pow_pos_nonneg; lia. Qed.

Lemma wrap_small w x : in_width w x -> wrap w x = x.
Proof. intros. apply Z.mod_small; done. Qed.

Lemma s32_small x : 0 <= x < 2 ^ 31 -> s32 x = x.
Proof.
  intros Hx. unfold s32. rewrite wrap_small by (unfold in_width; lia). by destruct (Z.ltb_spec x (2 ^ 31)); [|lia].
Qed.

Lemma wrap_wrap w x : 0 <= w -> wrap w (wrap w x) = wrap w x.
Proof. intros. apply wrap_small, wrap_range; done. Qed.

Lemma wrap_bit w x i :
  0 <= w -> Z.testbit (wrap w x) i = bool_decide (i < w) && Z.testbit x i.
Proof.
  intros. unfold wrap. case_bool_decide; simpl.
  - by apply Z.mod_pow2_bits_low.
  - apply Z.mod_pow2_bits_high; lia.
Qed.

Lemma in_width_bits w x :
  0 <= w -> 0 <= x -> (forall i, w <= i -> Z.testbit x i = false) -> in_width w x.
Proof.
  intros Hw Hx Hb. unfold in_width. split; [done|].
  destruct (decide (x = 0)) as [->|]; [apply Z.pow_pos_nonneg; lia|].
  apply Z.log2_lt_pow2; [lia|].
  destruct (Z.lt_ge_cases (Z.log2 x) w); [done|].
  pose proof (Z.bit_log2 x ltac:(lia)). rewrite Hb in *; congruence || lia.
Qed.

Lemma in_width_bit_high w x i :
  0 <= w -> in_width w x -> w <= i -> Z.testbit x i = false.
Proof.
  intros Hw Hx Hi. rewrite <- (wrap_small w x) by done.
  rewrite wrap_bit by done. by rewrite bool_decide_eq_false_2 by lia.
Qed.

(** ** Outcomes and the state monad

    A kernel operation ends with a result, in [kernel_panic] (which never
    returns), or in behaviour C does not define (a wild or NULL dereference, an
    array index out of range, a shift by a negative amount).  [NoFuel] is the
    model's own outcome: a loop whose number of rounds is not structurally
    bounded ran out of the fuel it was given. *)

Inductive res (A : Type) : Type :=
| Ok (a : A)
| Panic (why : string)
| Undef
| NoFuel.
Arguments Ok {A} a.
Arguments Panic {A} why.
Arguments Undef {A}.
Arguments NoFuel {A}.

Definition M (S A : Type) : Type := S -> res (A * S).

#[global] Instance M_ret S : MRet (M S) := fun A a s => Ok (a, s).

#[global] Instance M_bind S : MBind (M S) := fun A B k m s =>
  match m s with
  | Ok (a, s') => k a s'
  | Panic why => Panic why
  | Undef => Undef
  | NoFuel => NoFuel
  end.

Definition panic {S A} (why : string) : M S A := fun _ => Panic why.
Definition undef {S A} : M S A := fun _ => Undef.
Definition nofuel {S A} : M S A := fun _ => NoFuel.
Definition gets {S A} (f : S -> A) : M S A := fun s => Ok (f s, s).
Definition modify {S} (f : S -> S) : M S unit := fun s => Ok (tt, f s).

(** [ASSERT(exp)] of kernel/common.h: evaluates to 0 or panics. *)
Definition ASSERT {S} (b : bool) (why : string) : M S unit :=
  if b then mret tt else panic why.

(** Run an operation on a part of the state. *)
Definition zoom {S T A} (get : S -> T) (set : T -> S -> S) (m : M T A) : M S A :=
  fun s => match m (get s) with
           | Ok (a, t) => Ok (a, set t s)
           | Panic why => Panic why
           | Undef => Undef
           | NoFuel => NoFuel
           end.

(** The value an operation returns. *)
Definition value_of {S A} (r : res (A * S)) : option A :=
  match r with Ok (a, _) => Some a | _ => None end.

(** [for (i = start; ...; i++) body], [n] rounds. *)
Fixpoint for_loop {S} (n : nat) (start : Z) (body : Z -> M S unit) : M S unit :=
  match n with
  | O => mret tt
  | Datatypes.S n' => _ ← body start; for_loop n' (start + 1) body
  end.

(** ** Total correctness

    [wp m s Q]: from [s], [m] returns a result and a state that satisfy [Q]; in
    particular it does not panic, has defined behaviour and does not run out of
    fuel. *)

Definition wp {S A} (m : M S A) (s : S) (Q : A -> S -> Prop) : Prop :=
  match m s with Ok (a, s') => Q a s' | _ => False end.

Section Wp.
Context {S A B : Type}.
Implicit Types (m : M S A) (k : A -> M S B) (s : S).

Lemma wp_ret (a : A) s Q : Q a s -> wp (mret a) s Q.
Proof. done. Qed.

Lemma wp_bind m k s Q :
  wp m s (fun a s' => wp (k a) s' Q) -> wp (m ≫= k) s Q.
Proof. unfold wp, mbind, M_bind. by destruct (m s) as [[a s']| | |]. Qed.

Lemma wp_mono m s (Q Q' : A -> S -> Prop) :
  wp m s Q -> (forall a s', Q a s' -> Q' a s') -> wp m s Q'.
Proof. unfold wp. destruct (m s) as [[a s']| | |]; auto. Qed.

Lemma wp_ok m s (Q : A -> S -> Prop) :
  wp m s Q <-> exists a s', m s = Ok (a, s') /\ Q a s'.
Proof.
  unfold wp. split.
  - destruct (m s) as [[a s']| | |]; naive_solver.
  - by intros (a & s' & -> & ?).
Qed.

Lemma wp_and m s (Q Q' : A -> S -> Prop) : wp m s Q -> wp m s Q' -> wp m s (fun a s' => Q a s' /\ Q' a s').
Proof. unfold wp. destruct (m s) as [[a s']| | |]; auto. Qed.

(** The result is the one of the run. *)
Lemma wp_run m s (Q : A -> S -> Prop) : wp m s Q -> wp m s (fun a s' => Q a s' /\ m s = Ok (a, s')).
Proof. unfold wp. destruct (m s) as [[a s']| | |]; auto. Qed.

Lemma wp_gets (f : S -> A) s Q : Q (f s) s -> wp (gets f) s Q.
Proof. done. Qed.

Lemma wp_modify (f : S -> S) s (Q : unit -> S -> Prop) : Q tt (f s) -> wp (modify f) s Q.
Proof. done. Qed.

Lemma wp_assert (b : bool) why s (Q : unit -> S -> Prop) :
  b = true -> Q tt s -> wp (ASSERT b why) s Q.
Proof. by intros ->. Qed.

Lemma wp_zoom {T} (get : S -> T) (set : T -> S -> S) (m : M T A) s Q :
  wp m (get s) (fun a t => Q a (set t s)) -> wp (zoom get set m) s Q.
Proof. unfold wp, zoom. by destruct (m (get s)) as [[a t]| | |]. Qed.

Lemma bind_ok m k s a s' : m s = Ok (a, s') -> (m ≫= k) s = k a s'.
Proof. unfold mbind, M_bind. by intros ->. Qed.
End Wp.

(** The same with panics: [m] returns a result that satisfies [Q] or panics with a
    message that satisfies [P]; its behaviour is defined. *)
Definition wpp {S A} (m : M S A) (s : S) (Q : A -> S -> Prop) (P : string -> Prop) : Prop :=
  match m s with Ok (a, s') => Q a s' | Panic why => P why | _ => False end.

Section Wpp.
Context {S A B : Type}.
Implicit Types (m : M S A) (k : A -> M S B) (s : S) (P : string -> Prop).

Lemma wpp_wp m s Q P : wp m s Q -> wpp m s Q P.
Proof. unfold wp, wpp. by destruct (m s) as [[a s']| | |]. Qed.

Lemma wpp_bind m k s Q P :
  wpp m s (fun a s' => wpp (k a) s' Q P) P -> wpp (m ≫= k) s Q P.
Proof. unfold wpp, mbind, M_bind. by destruct (m s) as [[a s']| | |]. Qed.

Lemma wpp_mono m s (Q Q' : A -> S -> Prop) P P' :
  wpp m s Q P -> (forall a s', Q a s' -> Q' a s') -> (forall w, P w -> P' w) -> wpp m s Q' P'.
Proof. unfold wpp. destruct (m s) as [[a s']| | |]; auto. Qed.

Lemma wpp_wp_mono m s (Q Q' : A -> S -> Prop) P :
  wp m s Q -> (forall a s', Q a s' -> Q' a s') -> wpp m s Q' P.
Proof. unfold wp, wpp. destruct (m s) as [[a s']| | |]; auto; done. Qed.

Lemma wpp_zoom {T} (get : S -> T) (set : T -> S -> S) (m : M T A) s Q P :
  wpp m (get s) (fun a t => Q a (set t s)) P -> wpp (zoom get set m) s Q P.
Proof. unfold wpp, zoom. by destruct (m (get s)) as [[a t]| | |]. Qed.

Lemma wpp_assert (b : bool) why s (Q : unit -> S -> Prop) P :
  (b = true -> Q tt s) -> (b = false -> P why) -> wpp (ASSERT b why) s Q P.
Proof. destruct b; unfold wpp; simpl; auto. Qed.
End Wpp.

Lemma bind_panics {S A B} (m : M S A) (k : A -> M S B) s (Q : A -> S -> Prop) :
  wp m s Q -> (forall a s', Q a s' -> exists why, k a s' = Panic why) -> exists why, (m ≫= k) s = Panic why.
Proof. unfold wp, mbind, M_bind. destruct (m s) as [[a s']| | |]; naive_solver. Qed.

(** A loop invariant indexed by the counter. *)
Lemma wp_for {S} n (body : Z -> M S unit) (I : Z -> S -> Prop) : forall start s,
  I start s ->
  (forall i s', start <= i < start + Z.of_nat n -> I i s' ->
     wp (body i) s' (fun _ s'' => I (i + 1) s'')) ->
  wp (for_loop n start body) s (fun _ s' => I (start + Z.of_nat n) s').
Proof.
  induction n as [|n IH]; intros start s HI Hbody; cbn [for_loop].
  - apply wp_ret. by replace (start + Z.of_nat 0) with start by lia.
  - apply wp_bind. eapply wp_mono; [apply Hbody; [lia|done]|].
    intros ? s' HI'. simpl in HI'.
    replace (start + Z.of_nat (Datatypes.S n)) with (start + 1 + Z.of_nat n) by lia.
    apply IH; [done|]. intros. apply Hbody; [lia|done].
Qed.

(** A loop in two parts. *)
Lemma for_loop_app {S} n m (body : Z -> M S unit) : forall start s,
  for_loop (n + m) start body s = (_ ← for_loop n start body; for_loop m (start + Z.of_nat n) body) s.
Proof.
  induction n as [|n IH]; intros start s; cbn [for_loop Nat.add].
  - by replace (start + Z.of_nat 0) with start by lia.
  - unfold mbind, M_bind. destruct (body start s) as [[[] s']| | |]; [|done..]. rewrite IH.
    unfold mbind, M_bind. by replace (start + 1 + Z.of_nat n) with (start + Z.of_nat (Datatypes.S n)) by lia.
Qed.

Lemma wpp_for_app {S} n m (body : Z -> M S unit) start s Q P :
  wpp (_ ← for_loop n start body; for_loop m (start + Z.of_nat n) body) s Q P ->
  wpp (for_loop (n + m) start body) s Q P.
Proof. unfold wpp. by rewrite for_loop_app. Qed.

(** ** Automation *)

Create HintDb maos discriminated.
#[export] Hint Resolve wp_ret wp_gets wp_modify : maos.
#[export] Hint Resolve wrap_range : maos.

(** One step of symbolic execution of a monadic operation. *)
Ltac wp_step :=
  lazymatch goal with
  | |- wp (mbind _ _) _ _ => apply wp_bind
  | |- wp (mret _) _ _ => apply wp_ret
  | |- wp (gets _) _ _ => apply wp_gets
  | |- wp (modify _) _ _ => apply wp_modify
  | |- wp (ASSERT _ _) _ _ => apply wp_assert
  | |- wp (zoom _ _ _) _ _ => apply wp_zoom
  end.

Ltac wp_steps := repeat (wp_step; simpl).

(** Use a proved specification of the operation at the head of the goal. *)
Tactic Notation "wp_apply" uconstr(H) := eapply wp_mono; [eapply H|].

(** ** Integer lemmas the components share *)

Lemma pow2_pos k : 0 < 2 ^ Z.max 0 k.
Proof. apply Z.pow_pos_nonneg; lia. Qed.

Lemma shiftl_1 k : 0 <= k -> Z.shiftl 1 k = 2 ^ k.
Proof. intros. rewrite Z.shiftl_mul_pow2 by lia. lia. Qed.

(** [v & ~(2^k - 1)]: rounding down to a multiple of 2^k. *)
Lemma land_lnot_ones v k :
  0 <= k -> Z.land v (Z.lnot (Z.ones k)) = v - v mod 2 ^ k.
Proof.
  intros. rewrite <- Z.ldiff_land, Z.ldiff_ones_r by done.
  rewrite Z.shiftl_mul_pow2, Z.shiftr_div_pow2 by done.
  pose proof (Z.div_mod v (2 ^ k) ltac:(apply Z.pow_nonzero; lia)). lia.
Qed.

(** Packing a field above [k] bits. *)
Lemma lor_shiftl_add lo hi k :
  in_width k lo -> 0 <= k -> Z.lor lo (Z.shiftl hi k) = lo + hi * 2 ^ k.
Proof.
  intros Hlo Hk. rewrite <- (Z.shiftl_mul_pow2 hi k) by done. rewrite <- Z.add_lor_land.
  enough (Z.land lo (Z.shiftl hi k) = 0) as -> by lia.
  apply Z.bits_inj'. intros i Hi. rewrite Z.land_spec, Z.bits_0.
  destruct (Z.lt_ge_cases i k).
  - rewrite (Z.shiftl_spec_low hi) by done. apply andb_false_r.
  - by rewrite (in_width_bit_high k lo).
Qed.

(** [v & (2^k - 1)] and [v >> k]. *)
Lemma land_ones_mod v k : 0 <= k -> Z.land v (Z.ones k) = v mod 2 ^ k.
Proof. intros. by apply Z.land_ones. Qed.

(** Testing a bit with a mask. *)
Lemma land_bit v i : 0 <= i -> (Z.land v (2 ^ i) =? 0) = negb (Z.testbit v i).
Proof.
  intros Hi. destruct (Z.testbit v i) eqn:Hb.
  - apply Z.eqb_neq. intros E. assert (Z.testbit (Z.land v (2 ^ i)) i = false) as Hf by (by rewrite E, Z.bits_0).
    by rewrite Z.land_spec, Hb, Z.pow2_bits_true in Hf.
  - apply Z.eqb_eq, Z.bits_inj'. intros j Hj. rewrite Z.land_spec, Z.bits_0, Z.pow2_bits_eqb by done.
    destruct (Z.eqb_spec i j) as [<-|]; [by rewrite Hb|apply andb_false_r].
Qed.
