(* ===== verification/Common.v ===== *)
(** * Common kernel definitions

    The macros of kernel/include/kernel/common.h and memory.h, the error type
    and the symbols of kernel/linker.ld. *)

From S2P Require Import Prelude.

(** [err_t]. *)
Inductive err_t : Type := E_OK | E_NOMEM | E_DEVICE.

#[global] Instance err_t_eq_dec : EqDecision err_t.
Proof. solve_decision. Defined.

(** [!err]: the error codes other than [E_OK] are negative, hence non-zero. *)
Definition err_ok (e : err_t) : bool := bool_decide (e = E_OK).

Definition KiB : Z := 1024.
Definition MiB : Z := 0x100000.

(** [MASK(bits)]: [bits] binary ones. *)
Definition MASK (bits : Z) : Z := Z.shiftl 1 bits - 1.

Definition ALIGN_BITS_DOWN (val bits : Z) : Z := u32 (Z.land val (Z.lnot (MASK bits))).
Definition ALIGN_BITS_UP (val bits : Z) : Z :=
  u32 (Z.land (u32 (val + MASK bits)) (Z.lnot (MASK bits))).

Definition MIN (a b : Z) : Z := if a <? b then a else b.

Definition PAGE_BITS : Z := 12.
Definition PAGE_SIZE : Z := Z.shiftl 1 PAGE_BITS.
Definition PAGE_ALIGN (addr : Z) : Z := ALIGN_BITS_UP addr PAGE_BITS.

(** The symbols the linker script fixes. *)
Definition KERNEL_OFFSET : Z := 0xC0000000.
Definition KERNEL_BOOT_MAPPED : Z := 0xC0800000.

(** The symbols whose value depends on the size of the linked image. *)
Class Layout : Type := {
  KERNEL_END_PHYS : Z;          (* linker.ld *)
  KERNEL_PAGE_DIRECTORY : Z;    (* boot.asm, .bss *)
  KERNEL_PAGE_TABLES : Z;       (* boot.asm, .bss *)
  addr_vm_first_bucket : Z;     (* &vm_first_bucket, vm.c *)
  addr_vm_first_as : Z          (* &vm_first_as, vm.c *)
}.

(** An image of about 4.1 MiB: the addresses used by the examples. *)
Definition example_layout : Layout := {|
  KERNEL_END_PHYS := 0x520000;
  KERNEL_PAGE_DIRECTORY := 0xC0110000;
  KERNEL_PAGE_TABLES := 0xC0111000;
  addr_vm_first_bucket := 0xC0105000;
  addr_vm_first_as := 0xC0106000
|}.

(** ** Facts about the macros *)

Lemma MASK_ones k : 0 <= k -> MASK k = Z.ones k.
Proof. intros. unfold MASK. by rewrite shiftl_1, Z.ones_equiv by done. Qed.

Lemma PAGE_SIZE_val : PAGE_SIZE = 4096.
Proof. done. Qed.

Lemma MIN_min a b : MIN a b = Z.min a b.
Proof. unfold MIN. destruct (Z.ltb_spec a b); lia. Qed.

Lemma ALIGN_BITS_DOWN_spec v k :
  0 <= k -> is_u32 v -> ALIGN_BITS_DOWN v k = v - v mod 2 ^ k.
Proof.
  intros Hk Hv. unfold ALIGN_BITS_DOWN. rewrite MASK_ones, land_lnot_ones by done.
  apply wrap_small. unfold in_width in *.
  assert (0 < 2 ^ k) by (apply Z.pow_pos_nonneg; lia).
  pose proof (Z.mod_pos_bound v (2 ^ k) ltac:(done)).
  pose proof (Z.mod_le v (2 ^ k) ltac:(lia) ltac:(done)). lia.
Qed.

Lemma ALIGN_BITS_UP_spec v k :
  0 <= k -> 0 <= v -> v + 2 ^ k <= 2 ^ 32 ->
  ALIGN_BITS_UP v k = (v + 2 ^ k - 1) - (v + 2 ^ k - 1) mod 2 ^ k.
Proof.
  intros Hk Hv Hle. unfold ALIGN_BITS_UP.
  assert (0 < 2 ^ k) by (apply Z.pow_pos_nonneg; lia).
  rewrite MASK_ones, Z.ones_equiv by done.
  rewrite (wrap_small 32 (v + _)) by (unfold in_width; lia).
  rewrite <- Z.ones_equiv.
  change (u32 (Z.land (v + Z.ones k) (Z.lnot (Z.ones k)))) with
    (u32 (Z.land (v + Z.ones k) (Z.lnot (Z.ones k)))).
  rewrite land_lnot_ones by done. rewrite Z.ones_equiv.
  replace (v + Z.pred (2 ^ k)) with (v + 2 ^ k - 1) by lia.
  apply wrap_small. unfold in_width.
  pose proof (Z.mod_pos_bound (v + 2 ^ k - 1) (2 ^ k) ltac:(done)).
  pose proof (Z.mod_le (v + 2 ^ k - 1) (2 ^ k) ltac:(lia) ltac:(done)). lia.
Qed.

(** Page alignment is idempotent: an address equals its alignment exactly when
    it is a multiple of the page size. *)
Lemma PAGE_ALIGN_fixed v :
  is_u32 v -> (v = PAGE_ALIGN v <-> v mod 4096 = 0).
Proof.
  intros Hv. unfold in_width in Hv. unfold PAGE_ALIGN.
  destruct (Z.le_gt_cases (v + 4096) (2 ^ 32)) as [Hle|Hgt].
  - rewrite ALIGN_BITS_UP_spec by (unfold PAGE_BITS; lia).
    unfold PAGE_BITS. change (2 ^ 12) with 4096. Z.div_mod_to_equations. lia.
  - unfold ALIGN_BITS_UP. rewrite MASK_ones by (unfold PAGE_BITS; lia).
    rewrite land_lnot_ones by (unfold PAGE_BITS; lia). unfold PAGE_BITS.
    change (2 ^ 12) with 4096. change (Z.ones 12) with 4095.
    unfold wrap. change (2 ^ 32) with 4294967296 in *.
    Z.div_mod_to_equations. lia.
Qed.
