(* ===== verification/Bitset.v ===== *)
(** * libc/bitset/bitset.c

    A bitset is a block of dwords in memory, addressed by [data]; the operations
    read and write that memory. *)

From S2P Require Import Prelude.

(** ** The dword memory *)

Definition load (a : Z) : M (gmap Z Z) Z := fun m =>
  match m !! a with Some w => Ok (w, m) | None => Undef end.

Definition store (a v : Z) : M (gmap Z Z) unit := fun m =>
  match m !! a with Some _ => Ok (tt, <[a := v]> m) | None => Undef end.

(** ** The code *)

(** [bitset32_t]: address of the data and number of dwords. *)
Record bitset32_t : Type := { data : Z; len : Z }.

(** [BIT_MASK(b)] and [BIT_SLOT(b)]; the mask is an [int], so bit 31 is the sign
    bit, and it is converted to [uint32_t] where it meets a dword. *)
Definition BIT_MASK (b : Z) : Z := u32 (Z.shiftl 1 (b mod 32)).
Definition BIT_SLOT (b : Z) : Z := b / 32.

(** Address of [bitset->data[i]]. *)
Definition word_at (b : bitset32_t) (i : Z) : Z := data b + 4 * i.

(** The loop [for (j = 0; j < 32; j++)] on one dword; [n] rounds are left. *)
Fixpoint find_bit (n : nat) (item j : Z) : option Z :=
  match n with
  | O => None
  | S n' => if Z.land item 1 =? 0 then find_bit n' (Z.shiftr item 1) (j + 1)
            else Some j
  end.

(** The loop [for (i = 0; i < bitset->len; i++)]; [n] rounds are left. *)
Fixpoint find_word (b : bitset32_t) (n : nat) (i : Z) : M (gmap Z Z) (option Z) :=
  match n with
  | O => mret None
  | S n' =>
      item ← load (word_at b i);
      if item =? 0 then find_word b n' (i + 1)
      else match find_bit 32 item 0 with
           | Some j => mret (Some (u32 (32 * i + j)))
           | None => find_word b n' (i + 1)
           end
  end.

(** The result is [None] for a return value of [false], and otherwise the value
    stored through [result]. *)
Definition bitset_find (b : bitset32_t) : M (gmap Z Z) (option Z) :=
  find_word b (Z.to_nat (len b)) 0.

Definition bitset_read (b : bitset32_t) (idx : Z) : M (gmap Z Z) bool :=
  w ← load (word_at b (BIT_SLOT idx));
  mret (negb (Z.land w (BIT_MASK idx) =? 0)).

Definition bitset_set (b : bitset32_t) (idx : Z) : M (gmap Z Z) unit :=
  w ← load (word_at b (BIT_SLOT idx));
  store (word_at b (BIT_SLOT idx)) (Z.lor w (BIT_MASK idx)).

Definition bitset_clear (b : bitset32_t) (idx : Z) : M (gmap Z Z) unit :=
  w ← load (word_at b (BIT_SLOT idx));
  store (word_at b (BIT_SLOT idx)) (Z.land w (u32 (Z.lnot (BIT_MASK idx)))).

Definition bitset_write (b : bitset32_t) (idx : Z) (state : bool) : M (gmap Z Z) unit :=
  if state then bitset_set b idx else bitset_clear b idx.

Fixpoint fill_from (b : bitset32_t) (n : nat) (i v : Z) : M (gmap Z Z) unit :=
  match n with
  | O => mret tt
  | S n' => _ ← store (word_at b i) v; fill_from b n' (i + 1) v
  end.

Definition bitset_fill (b : bitset32_t) (v : Z) : M (gmap Z Z) unit :=
  fill_from b (Z.to_nat (len b)) 0 v.

(** ** Specification

    The abstract value of a bitset is the function from indices to booleans
    read off the memory. *)

Definition bit (m : gmap Z Z) (b : bitset32_t) (idx : Z) : bool :=
  match m !! word_at b (BIT_SLOT idx) with
  | Some w => Z.testbit w (idx mod 32)
  | None => false
  end.

(** The block is mapped, holds dwords, and its indices fit [size_t]. *)
Definition bitset_ok (m : gmap Z Z) (b : bitset32_t) : Prop :=
  0 <= len b /\ 32 * len b <= 2 ^ 32 /\
  forall i, 0 <= i < len b -> exists w, m !! word_at b i = Some w /\ is_u32 w.

(** [m'] differs from [m] in the value of the bit [idx] of [b] only. *)
Definition bit_updated (m m' : gmap Z Z) (b : bitset32_t) (idx : Z) (v : bool) : Prop :=
  (forall j, bit m' b j = if decide (j = idx) then v else bit m b j) /\
  (forall a, a <> word_at b (BIT_SLOT idx) -> m' !! a = m !! a).

(** *** Bit masks *)

Lemma BIT_MASK_pow2 idx : BIT_MASK idx = 2 ^ (idx mod 32).
Proof.
  pose proof (Z.mod_pos_bound idx 32 ltac:(lia)).
  unfold BIT_MASK. rewrite shiftl_1 by lia. apply wrap_small. split; [lia|].
  apply Z.pow_lt_mono_r; lia.
Qed.

Lemma BIT_MASK_testbit idx i :
  Z.testbit (BIT_MASK idx) i = bool_decide (i = idx mod 32).
Proof.
  pose proof (Z.mod_pos_bound idx 32 ltac:(lia)). rewrite BIT_MASK_pow2.
  case_bool_decide as H1.
  - subst i. apply Z.pow2_bits_true. lia.
  - apply Z.pow2_bits_false. lia.
Qed.

Lemma lor_mask_testbit w idx i :
  Z.testbit (Z.lor w (BIT_MASK idx)) i = bool_decide (i = idx mod 32) || Z.testbit w i.
Proof. rewrite Z.lor_spec, BIT_MASK_testbit. apply orb_comm. Qed.

Lemma land_mask_testbit w idx i :
  is_u32 w -> 0 <= i ->
  Z.testbit (Z.land w (u32 (Z.lnot (BIT_MASK idx)))) i
  = negb (bool_decide (i = idx mod 32)) && Z.testbit w i.
Proof.
  intros Hw Hi. rewrite Z.land_spec, wrap_bit, Z.lnot_spec, BIT_MASK_testbit by lia.
  case_bool_decide; simpl; [by rewrite andb_comm|].
  rewrite andb_false_r. rewrite (in_width_bit_high 32 w) by (done || lia).
  by rewrite andb_false_r.
Qed.

Lemma lor_mask_u32 w idx : is_u32 w -> is_u32 (Z.lor w (BIT_MASK idx)).
Proof.
  intros Hw. pose proof (Z.mod_pos_bound idx 32 ltac:(lia)). apply in_width_bits; [lia| |].
  - apply Z.lor_nonneg. split; [apply Hw|]. rewrite BIT_MASK_pow2. lia.
  - intros i Hi. rewrite lor_mask_testbit, bool_decide_eq_false_2 by lia. simpl.
    by apply (in_width_bit_high 32).
Qed.

Lemma land_mask_u32 w idx : is_u32 w -> is_u32 (Z.land w (u32 (Z.lnot (BIT_MASK idx)))).
Proof.
  intros Hw. apply in_width_bits; [lia| |].
  - apply Z.land_nonneg. left. apply Hw.
  - intros i Hi. rewrite land_mask_testbit by (done || lia).
    rewrite (in_width_bit_high 32 w) by (done || lia). apply andb_false_r.
Qed.

(** *** Reading and updating one bit *)

Lemma slot_range b idx : 0 <= idx < 32 * len b -> 0 <= BIT_SLOT idx < len b.
Proof. intros. unfold BIT_SLOT. Z.div_mod_to_equations. lia. Qed.

Lemma bitset_ok_word m b idx :
  bitset_ok m b -> 0 <= idx < 32 * len b ->
  exists w, m !! word_at b (BIT_SLOT idx) = Some w /\ is_u32 w /\
            bit m b idx = Z.testbit w (idx mod 32).
Proof.
  intros (_ & _ & Hok) Hidx.
  destruct (Hok (BIT_SLOT idx) (slot_range b idx Hidx)) as (w & Hw & Hr).
  exists w. split_and!; [done..|]. unfold bit. by rewrite Hw.
Qed.

(** Storing, in the slot of [idx], a dword that differs from the old one in bit
    [idx mod 32] only. *)
Lemma store_bit m b idx w w' v :
  bitset_ok m b ->
  m !! word_at b (BIT_SLOT idx) = Some w -> is_u32 w' ->
  (forall i, 0 <= i -> Z.testbit w' i = if decide (i = idx mod 32) then v else Z.testbit w i) ->
  store (word_at b (BIT_SLOT idx)) w' m = Ok (tt, <[word_at b (BIT_SLOT idx) := w']> m) /\
  bitset_ok (<[word_at b (BIT_SLOT idx) := w']> m) b /\
  bit_updated m (<[word_at b (BIT_SLOT idx) := w']> m) b idx v.
Proof.
  intros (Hl & Hb & Hok) Hw Hr Hbits. unfold bit_updated. split_and!.
  - unfold store. by rewrite Hw.
  - split_and!; [done..|]. intros i Hi. destruct (decide (i = BIT_SLOT idx)) as [->|Hne].
    + exists w'. by simplify_map_eq.
    + rewrite lookup_insert_ne by (unfold word_at; lia). auto.
  - intros j. unfold bit. destruct (decide (BIT_SLOT j = BIT_SLOT idx)) as [Hs|Hs].
    + rewrite Hs, lookup_insert_eq, Hw, Hbits by (apply Z.mod_pos_bound; lia).
      unfold BIT_SLOT in *. repeat case_decide; try done; exfalso.
      * apply H0. Z.div_mod_to_equations. lia.
      * subst. done.
    + rewrite lookup_insert_ne by (unfold word_at; lia).
      rewrite decide_False by congruence. done.
  - intros a Ha. by rewrite lookup_insert_ne.
Qed.

Lemma bitset_set_ok m b idx :
  bitset_ok m b -> 0 <= idx < 32 * len b ->
  wp (bitset_set b idx) m (fun _ m' => bitset_ok m' b /\ bit_updated m m' b idx true).
Proof.
  intros Hok Hidx. destruct (bitset_ok_word m b idx Hok Hidx) as (w & Hw & Hr & _).
  unfold bitset_set. wp_step. unfold wp at 1, load. rewrite Hw. unfold wp.
  edestruct (store_bit m b idx w (Z.lor w (BIT_MASK idx)) true) as (-> & ? & ?);
    [done..|by apply lor_mask_u32| |done].
  intros i Hi. rewrite lor_mask_testbit. case_decide; by case_bool_decide.
Qed.

Lemma bitset_clear_ok m b idx :
  bitset_ok m b -> 0 <= idx < 32 * len b ->
  wp (bitset_clear b idx) m (fun _ m' => bitset_ok m' b /\ bit_updated m m' b idx false).
Proof.
  intros Hok Hidx. destruct (bitset_ok_word m b idx Hok Hidx) as (w & Hw & Hr & _).
  unfold bitset_clear. wp_step. unfold wp at 1, load. rewrite Hw. unfold wp.
  edestruct (store_bit m b idx w (Z.land w (u32 (Z.lnot (BIT_MASK idx)))) false)
    as (-> & ? & ?); [done..|by apply land_mask_u32| |done].
  intros i Hi. rewrite land_mask_testbit by done. case_decide; by case_bool_decide.
Qed.

Lemma bitset_write_ok m b idx v :
  bitset_ok m b -> 0 <= idx < 32 * len b ->
  wp (bitset_write b idx v) m (fun _ m' => bitset_ok m' b /\ bit_updated m m' b idx v).
Proof. destruct v; [apply bitset_set_ok|apply bitset_clear_ok]. Qed.

Lemma bitset_read_ok m b idx :
  bitset_ok m b -> 0 <= idx < 32 * len b ->
  bitset_read b idx m = Ok (bit m b idx, m).
Proof.
  intros Hok Hidx. destruct (bitset_ok_word m b idx Hok Hidx) as (w & Hw & Hr & ->).
  unfold bitset_read, mbind, M_bind, load. rewrite Hw. unfold mret, M_ret. repeat f_equal.
  rewrite BIT_MASK_pow2. pose proof (Z.mod_pos_bound idx 32 ltac:(lia)).
  destruct (Z.testbit w (idx mod 32)) eqn:E.
  - apply negb_true_iff, Z.eqb_neq. intros H0.
    assert (Z.testbit (Z.land w (2 ^ (idx mod 32))) (idx mod 32) = true) as Ht.
    { rewrite Z.land_spec, E. simpl. apply Z.pow2_bits_true. lia. }
    by rewrite H0, Z.bits_0 in Ht.
  - apply negb_false_iff, Z.eqb_eq. apply Z.bits_inj'. intros i Hi.
    rewrite Z.land_spec, Z.bits_0. destruct (decide (i = idx mod 32)) as [->|].
    + by rewrite E.
    + rewrite Z.pow2_bits_false by lia. apply andb_false_r.
Qed.

(** *** Searching *)

Lemma land_1_testbit w : (Z.land w 1 =? 0) = negb (Z.testbit w 0).
Proof.
  change 1 with (Z.ones 1). rewrite Z.land_ones by lia. change (2 ^ 1) with 2.
  rewrite <- Z.bit0_mod. by destruct (Z.testbit w 0).
Qed.

Lemma find_bit_spec n : forall item j,
  match find_bit n item j with
  | Some k => j <= k < j + Z.of_nat n /\ Z.testbit item (k - j) = true /\
              forall i, 0 <= i < k - j -> Z.testbit item i = false
  | None => forall i, 0 <= i < Z.of_nat n -> Z.testbit item i = false
  end.
Proof.
  induction n as [|n IH]; intros item j; simpl; [lia|].
  rewrite land_1_testbit. destruct (Z.testbit item 0) eqn:E; simpl.
  - rewrite Z.sub_diag. split_and!; [lia..|done|lia].
  - assert (Hs : forall i, 0 <= i -> Z.testbit item (i + 1) = Z.testbit (Z.shiftr item 1) i).
    { intros. by rewrite Z.shiftr_spec. }
    specialize (IH (Z.shiftr item 1) (j + 1)). destruct (find_bit n _ _) as [k|].
    + destruct IH as (Hk & Ht & Hf). split_and!; [lia..| |].
      * rewrite <- Hs in Ht by lia. by replace (k - (j + 1) + 1) with (k - j) in Ht by lia.
      * intros i Hi. destruct (decide (i = 0)) as [->|]; [done|].
        replace i with (i - 1 + 1) by lia. rewrite Hs by lia. apply Hf. lia.
    + intros i Hi. destruct (decide (i = 0)) as [->|]; [done|].
      replace i with (i - 1 + 1) by lia. rewrite Hs by lia. apply IH. lia.
Qed.

(** A dword with no bit set among its 32 is zero. *)
Lemma u32_bits_zero w :
  is_u32 w -> (forall i, 0 <= i < 32 -> Z.testbit w i = false) -> w = 0.
Proof.
  intros Hw Hb. apply Z.bits_inj'. intros i Hi. rewrite Z.bits_0.
  destruct (Z.lt_ge_cases i 32); [auto|]. by apply (in_width_bit_high 32).
Qed.

(** The least index with a set bit at or after the dword [i], if any. *)
Definition first_set (m : gmap Z Z) (b : bitset32_t) (i : Z) (r : option Z) : Prop :=
  match r with
  | Some idx => 32 * i <= idx < 32 * len b /\ bit m b idx = true /\
                forall j, 32 * i <= j < idx -> bit m b j = false
  | None => forall j, 32 * i <= j < 32 * len b -> bit m b j = false
  end.

Lemma bit_of_word m b i w j :
  m !! word_at b i = Some w -> 32 * i <= j < 32 * i + 32 ->
  bit m b j = Z.testbit w (j - 32 * i).
Proof.
  intros Hw Hj. assert (j / 32 = i) as Hs by (Z.div_mod_to_equations; lia).
  unfold bit, BIT_SLOT. rewrite Hs, Hw. f_equal. Z.div_mod_to_equations. lia.
Qed.

(** Skipping a dword whose bits are all clear. *)
Lemma first_set_skip m b i r :
  (forall j, 32 * i <= j < 32 * i + 32 -> bit m b j = false) ->
  first_set m b (i + 1) r -> first_set m b i r.
Proof.
  intros Hz. destruct r as [idx|]; simpl.
  - intros (Hr & Ht & Hf). split_and!; [lia..|done|].
    intros j Hj. destruct (Z.lt_ge_cases j (32 * i + 32)); [apply Hz|apply Hf]; lia.
  - intros Hf j Hj. destruct (Z.lt_ge_cases j (32 * i + 32)); [apply Hz|apply Hf]; lia.
Qed.

Lemma find_word_ok m b n : forall i,
  bitset_ok m b -> 0 <= i -> i + Z.of_nat n = len b ->
  exists r, find_word b n i m = Ok (r, m) /\ first_set m b i r.
Proof.
  induction n as [|n IH]; intros i Hok Hi Hn; cbn [find_word].
  { exists None. split; [done|]. simpl. intros j Hj. lia. }
  destruct (IH (i + 1) Hok ltac:(lia) ltac:(lia)) as (r & Hr & Hf).
  destruct Hok as (Hl & Hmax & Hw). destruct (Hw i ltac:(lia)) as (w & Hlk & Hu).
  unfold mbind, M_bind, load. rewrite Hlk.
  assert (Hskip : (forall k, 0 <= k < 32 -> Z.testbit w k = false) -> first_set m b i r).
  { intros Hz. apply first_set_skip; [|done]. intros j Hj.
    rewrite (bit_of_word m b i w j) by done. apply Hz. lia. }
  destruct (Z.eqb_spec w 0) as [->|Hne].
  { exists r. split; [done|]. apply Hskip. intros. apply Z.bits_0. }
  pose proof (find_bit_spec 32 w 0) as Hb. destruct (find_bit 32 w 0) as [j|].
  - destruct Hb as (Hj & Ht & Hlow). rewrite Z.sub_0_r in *.
    exists (Some (32 * i + j)). rewrite wrap_small by (unfold in_width; lia).
    split; [done|]. simpl. split_and!; [lia..| |].
    + rewrite (bit_of_word m b i w) by (done || lia). by replace (_ - _) with j by lia.
    + intros j' Hj'. rewrite (bit_of_word m b i w) by (done || lia). apply Hlow. lia.
  - exists r. split; [done|]. apply Hskip. intros. apply Hb. lia.
Qed.

Lemma bitset_find_ok m b :
  bitset_ok m b -> exists r, bitset_find b m = Ok (r, m) /\ first_set m b 0 r.
Proof. intros Hok. apply find_word_ok; [done|lia|]. destruct Hok. lia. Qed.

(** *** Filling *)

Lemma fill_from_ok b v n : forall m i,
  (forall k, i <= k < i + Z.of_nat n -> is_Some (m !! word_at b k)) ->
  exists m', fill_from b n i v m = Ok (tt, m') /\
    (forall k, i <= k < i + Z.of_nat n -> m' !! word_at b k = Some v) /\
    (forall a, (forall k, i <= k < i + Z.of_nat n -> a <> word_at b k) -> m' !! a = m !! a).
Proof.
  induction n as [|n IH]; intros m i Hm; simpl.
  { exists m. split_and!; [done|lia|done]. }
  destruct (Hm i ltac:(lia)) as (w & Hw).
  unfold mbind, M_bind, store. rewrite Hw.
  destruct (IH (<[word_at b i := v]> m) (i + 1)) as (m' & -> & Hin & Hout).
  { intros k Hk. rewrite lookup_insert_ne by (unfold word_at; lia). apply Hm. lia. }
  exists m'. split_and!; [done| |].
  - intros k Hk. destruct (decide (k = i)) as [->|]; [|apply Hin; lia].
    rewrite Hout by (intros; unfold word_at; lia). by simplify_map_eq.
  - intros a Ha. rewrite Hout by (intros; apply Ha; lia).
    rewrite lookup_insert_ne; [done|]. intros <-. apply (Ha i); lia || done.
Qed.

Lemma bitset_fill_ok m b v :
  0 <= len b -> 32 * len b <= 2 ^ 32 -> is_u32 v ->
  (forall k, 0 <= k < len b -> is_Some (m !! word_at b k)) ->
  exists m', bitset_fill b v m = Ok (tt, m') /\ bitset_ok m' b /\
    (forall k, 0 <= k < len b -> m' !! word_at b k = Some v) /\
    (forall a, (forall k, 0 <= k < len b -> a <> word_at b k) -> m' !! a = m !! a).
Proof.
  intros Hl Hmax Hv Hm. unfold bitset_fill.
  destruct (fill_from_ok b v (Z.to_nat (len b)) m 0) as (m' & -> & Hin & Hout).
  { intros. apply Hm. lia. }
  exists m'. split_and!; [done| | |].
  - split_and!; [done..|]. intros i Hi. exists v. split; [apply Hin; lia|done].
  - intros. apply Hin. lia.
  - intros a Ha. apply Hout. intros. apply Ha. lia.
Qed.

(** *** The properties *)

(** [bitset_find] returns the index of the first set bit, and fails only on a
    bitset with no bit set; it does not change the memory. *)
Theorem bitset_find_first m b :
  bitset_ok m b ->
  exists r, bitset_find b m = Ok (r, m) /\
    match r with
    | Some idx => 0 <= idx < 32 * len b /\ bit m b idx = true /\
                  forall j, 0 <= j < idx -> bit m b j = false
    | None => forall j, 0 <= j < 32 * len b -> bit m b j = false
    end.
Proof. apply bitset_find_ok. Qed.

(** C33: a bit written by [bitset_write] is read back by [bitset_read], every other
    bit of the bitset reads as before, and no dword outside the bitset changes. *)
Theorem bitset_write_read m b idx v :
  bitset_ok m b -> 0 <= idx < 32 * len b ->
  exists m', bitset_write b idx v m = Ok (tt, m') /\ bitset_ok m' b /\
    (forall j, 0 <= j < 32 * len b ->
       bitset_read b j m' = Ok (if decide (j = idx) then v else bit m b j, m')) /\
    (forall a, (forall i, 0 <= i < len b -> a <> word_at b i) -> m' !! a = m !! a).
Proof.
  intros Hok Hidx. pose proof (bitset_write_ok m b idx v Hok Hidx) as Hwp.
  apply wp_ok in Hwp as ([] & m' & Hrun & Hok' & Hbits & Hframe).
  exists m'. split_and!; [done..| |].
  - intros j Hj. rewrite bitset_read_ok by done. by rewrite Hbits.
  - intros a Ha. apply Hframe, Ha, slot_range. done.
Qed.

(** A concrete bitset of two dwords. *)
Definition ex_bitset : bitset32_t := {| data := 0x1000; len := 2 |}.
Definition ex_memory : gmap Z Z := {[ 0x1000 := 0; 0x1004 := 0x80000000 ]}.

Lemma ex_bitset_ok : bitset_ok ex_memory ex_bitset.
Proof.
  unfold bitset_ok, in_width. cbn [len ex_bitset]. split_and!; [lia..|]. intros i Hi.
  assert (i = 0 \/ i = 1) as [->| ->] by lia.
  - exists 0. split; [vm_compute; reflexivity|lia].
  - exists 0x80000000. split; [vm_compute; reflexivity|lia].
Qed.

Lemma bitset_find_first_witness :
  bitset_find ex_bitset ex_memory = Ok (Some 63, ex_memory) /\
  bit ex_memory ex_bitset 63 = true.
Proof.
  split; [vm_compute; reflexivity|].
  destruct (bitset_find_first ex_memory ex_bitset ex_bitset_ok) as (r & Hr & Hs).
  vm_compute in Hr. injection Hr as <-. apply Hs.
Defined.

Lemma bitset_write_read_witness :
  exists m', bitset_write ex_bitset 31 true ex_memory = Ok (tt, m') /\
             bitset_read ex_bitset 31 m' = Ok (true, m').
Proof.
  destruct (bitset_write_read ex_memory ex_bitset 31 true ex_bitset_ok) as (m' & H1 & _ & H2 & _).
  - simpl. lia.
  - exists m'. split; [exact H1|]. apply (H2 31). simpl. lia.
Defined.
