(* ===== verification/Frames.v ===== *)
(** * Interface between the frame allocator and its client

    What kernel/memory/vm.c calls of kernel/memory/pmm.c, and the laws its theorems
    rely on.  Pmm.v discharges the laws for the buddy allocator. *)

From S2P Require Import Prelude Common.

(** The operations of memory.h that vm.c calls. *)
Class FrameAllocator (PS : Type) : Type := {
  pmm_alloc : Z -> M PS (err_t * Z);
  pmm_free : Z -> Z -> M PS unit;
  pmm_get_border : M PS Z
}.

(** The border can be asked for; a single-frame request takes one free frame or
    reports that none is left; releasing a managed frame that is not free makes it
    free. *)
Class FrameAllocatorLaws (PS : Type) `{FrameAllocator PS} : Type := {
  frames_inv : PS -> Prop;
  frame_managed : PS -> Z -> Prop;
  frame_available : PS -> Z -> Prop;
  border_of : PS -> Z;
  pmm_get_border_ok : forall s, frames_inv s ->
    wp pmm_get_border s (fun b s' => b = border_of s /\ s' = s);
  frame_available_managed : forall s a, frame_available s a -> frame_managed s a;
  frame_managed_ok : forall s a, frames_inv s -> frame_managed s a ->
    0 <= a /\ a + 4096 <= 2 ^ 32 /\ a mod 4096 = 0;
  pmm_alloc_one : forall s, frames_inv s ->
    wp (pmm_alloc 1) s (fun r s' => frames_inv s' /\
      (forall a, frame_managed s' a <-> frame_managed s a) /\
      match r.1 with
      | E_OK => frame_available s r.2 /\
          forall a, frame_available s' a <-> frame_available s a /\ a <> r.2
      | E_NOMEM => s' = s /\ forall a, ~ frame_available s a
      | E_DEVICE => False
      end);
  pmm_free_one : forall s a, frames_inv s -> frame_managed s a -> ~ frame_available s a ->
    wp (pmm_free 1 a) s (fun _ s' => frames_inv s' /\
      (forall x, frame_managed s' x <-> frame_managed s x) /\
      forall x, frame_available s' x <-> frame_available s x \/ x = a)
}.
