(* ===== verification/Pmm.v ===== *)
(** * kernel/memory/pmm.c

    The physical memory manager: a buddy allocator over seven bitsets.  Bit [i]
    of the bitset of level [l] stands for the block of [2^l] frames that starts at
    frame [i * 2^l]; a set bit marks a free block. *)

From S2P Require Import Prelude Common Bitset.

(** ** State *)

Definition PMM_NUM_BUDDIES : Z := 7.

(** The file's static variables and the dwords the bitsets live in. *)
Record pmm_state : Type := {
  managed_first : Z;
  managed_last : Z;
  buddies : list bitset32_t;
  buddy_base : Z;
  words : gmap Z Z
}.

Definition set_managed_first (v : Z) (s : pmm_state) : pmm_state :=
  {| managed_first := v; managed_last := managed_last s; buddies := buddies s;
     buddy_base := buddy_base s; words := words s |}.
Definition set_managed_last (v : Z) (s : pmm_state) : pmm_state :=
  {| managed_first := managed_first s; managed_last := v; buddies := buddies s;
     buddy_base := buddy_base s; words := words s |}.
Definition set_buddies (v : list bitset32_t) (s : pmm_state) : pmm_state :=
  {| managed_first := managed_first s; managed_last := managed_last s; buddies := v;
     buddy_base := buddy_base s; words := words s |}.
Definition set_buddy_base (v : Z) (s : pmm_state) : pmm_state :=
  {| managed_first := managed_first s; managed_last := managed_last s; buddies := buddies s;
     buddy_base := v; words := words s |}.
Definition set_words (v : gmap Z Z) (s : pmm_state) : pmm_state :=
  {| managed_first := managed_first s; managed_last := managed_last s; buddies := buddies s;
     buddy_base := buddy_base s; words := v |}.

(** The state before [pmm_init]: the statics are zero, the memory is what the
    boot code left. *)
Definition pmm_boot (mem : gmap Z Z) : pmm_state :=
  {| managed_first := 0; managed_last := 0;
     buddies := replicate 7 {| data := 0; len := 0 |};
     buddy_base := 0; words := mem |}.

(** [buddies[level]]: an index outside the array is undefined behaviour. *)
Definition buddy (level : Z) : M pmm_state bitset32_t := fun s =>
  if level <? 0 then Undef
  else match buddies s !! Z.to_nat level with
       | Some b => Ok (b, s)
       | None => Undef
       end.

(** [buddies[level] = b]. *)
Definition put_buddy (level : Z) (b : bitset32_t) : M pmm_state unit := fun s =>
  if level <? 0 then Undef
  else match buddies s !! Z.to_nat level with
       | Some _ => Ok (tt, set_buddies (<[Z.to_nat level := b]> (buddies s)) s)
       | None => Undef
       end.

(** A bitset operation on [&buddies[level]]. *)
Definition on_buddy {A} (level : Z) (op : bitset32_t -> M (gmap Z Z) A) : M pmm_state A :=
  b ← buddy level; zoom words set_words (op b).

(** ** Initialisation *)

Definition pmm_estimate_bytes_required (avail : Z) : Z :=
  let n_frames := avail / PAGE_SIZE in
  let bytes_required := n_frames / 4 in
  bytes_required.

Definition pmm_phys2virtual (addr : Z) : Z := u32 (addr + KERNEL_OFFSET).

Definition pmm_get_border : M pmm_state Z :=
  gets (fun s => pmm_phys2virtual (managed_first s)).

Definition pmm_init `{Layout} (upper_bound : Z) : M pmm_state unit :=
  let avail_first := KERNEL_END_PHYS in
  _ ← modify (set_managed_last upper_bound);
  let avail := u32 (upper_bound - avail_first) in
  let required := pmm_estimate_bytes_required avail in
  let first := PAGE_ALIGN (u32 (avail_first + required)) in
  _ ← modify (set_managed_first first);
  let managed := u32 (upper_bound - first) in
  _ ← ASSERT (first <=? KERNEL_BOOT_MAPPED) "managed_first <= KERNEL_BOOT_MAPPED";
  let n_frames := ALIGN_BITS_DOWN (managed / PAGE_SIZE) (PMM_NUM_BUDDIES - 1 + 5) in
  _ ← put_buddy 0 {| data := pmm_phys2virtual avail_first; len := n_frames / 32 |};
  _ ← for_loop (Z.to_nat (PMM_NUM_BUDDIES - 1)) 1 (fun i =>
        prev ← buddy (i - 1);
        put_buddy i {| data := data prev + 4 * len prev;
                       len := Z.shiftr n_frames (5 + i) |});
  _ ← for_loop (Z.to_nat (PMM_NUM_BUDDIES - 1)) 0 (fun i =>
        on_buddy i (fun b => bitset_fill b 0));
  _ ← on_buddy (PMM_NUM_BUDDIES - 1) (fun b => bitset_fill b 0xFFFFFFFF);
  modify (set_buddy_base first).

(** ** Allocation *)

(** [mark_used(level, n_frames, idx)].  At level 0 the recursive calls would be
    [mark_used(-1, ...)], whose first expression is [1 << -1]. *)
Fixpoint mark_used (level : nat) (n_frames idx : Z) : M pmm_state unit :=
  let capacity := Z.shiftl 1 (Z.of_nat level) in
  if n_frames =? capacity then
    on_buddy (Z.of_nat level) (fun b => bitset_clear b idx)
  else if n_frames =? 0 then
    on_buddy (Z.of_nat level) (fun b => bitset_set b idx)
  else
    match level with
    | O => undef
    | S level' =>
        let capacity := capacity / 2 in
        _ ← mark_used level' (MIN n_frames capacity) (u32 (idx * 2));
        mark_used level' (if capacity <? n_frames then n_frames - capacity else 0)
                  (u32 (u32 (idx * 2) + 1))
    end.

(** [while (n >>= 1) ans++]; a 32-bit [n] is zero after 32 rounds. *)
Fixpoint log2_loop (fuel : nat) (n ans : Z) : Z :=
  match fuel with
  | O => ans
  | S fuel' => let n := Z.shiftr n 1 in
               if n =? 0 then ans else log2_loop fuel' n (ans + 1)
  end.

Definition log2 (n : Z) : Z := log2_loop 32 n 0.

(** The loop over the levels; [n] levels are left. *)
Fixpoint alloc_from (n : nat) (i n_frames : Z) : M pmm_state (err_t * Z) :=
  match n with
  | O => mret (E_NOMEM, 0)
  | S n' =>
      r ← on_buddy i bitset_find;
      match r with
      | Some idx =>
          _ ← on_buddy i (fun b => bitset_clear b idx);
          _ ← mark_used (Z.to_nat i) n_frames idx;
          base ← gets buddy_base;
          mret (E_OK, u32 (base + u32 (Z.shiftl PAGE_SIZE i * idx)))
      | None => alloc_from n' (i + 1) n_frames
      end
  end.

(** The result is the error code and the value stored through [addr]. *)
Definition pmm_alloc_buddy (n_frames : Z) : M pmm_state (err_t * Z) :=
  let min_level := log2 n_frames in
  alloc_from (Z.to_nat (PMM_NUM_BUDDIES - min_level)) min_level n_frames.

Definition pmm_alloc (n_frames : Z) : M pmm_state (err_t * Z) :=
  pmm_alloc_buddy n_frames.

Definition pmm_free (n_frames addr : Z) : M pmm_state unit :=
  base ← gets buddy_base;
  if addr <? base then panic "Cannot free stolen pages"
  else
    let frame_no := u32 (addr - base) / PAGE_SIZE in
    let level := log2 n_frames in
    let idx := Z.shiftr frame_no level in
    on_buddy level (fun b => bitset_set b idx).

(** ** Integer facts *)

Lemma log2_loop_spec fuel : forall n ans,
  0 <= n < 2 ^ Z.of_nat fuel -> log2_loop fuel n ans = ans + Z.log2 n.
Proof.
  induction fuel as [|fuel IH]; intros n ans Hn.
  - simpl in *. assert (n = 0) as -> by lia. simpl. lia.
  - cbn [log2_loop]. rewrite Nat2Z.inj_succ, Z.pow_succ_r in Hn by lia.
    rewrite Z.shiftr_div_pow2 by lia. change (2 ^ 1) with 2.
    destruct (Z.eqb_spec (n / 2) 0) as [Hz|Hz].
    + assert (n = 0 \/ n = 1) as [-> | ->] by (Z.div_mod_to_equations; lia); simpl; lia.
    + assert (1 <= n / 2) by (Z.div_mod_to_equations; lia).
      rewrite IH by (Z.div_mod_to_equations; lia).
      replace (n / 2) with (Z.shiftr n 1) in * by (by rewrite Z.shiftr_div_pow2 by lia).
      rewrite Z.log2_shiftr by (rewrite Z.shiftr_div_pow2 in * by lia; Z.div_mod_to_equations; lia).
      enough (1 <= Z.log2 n) by lia. apply Z.log2_le_pow2; [|simpl]; 
      rewrite Z.shiftr_div_pow2 in * by lia; change (2 ^ 1) with 2 in *;
      Z.div_mod_to_equations; lia.
Qed.

(** The [log2] loop computes the floor of the binary logarithm (0 for 0). *)
Lemma log2_spec n : is_u32 n -> log2 n = Z.log2 n.
Proof. intros Hn. unfold log2. rewrite log2_loop_spec by done. lia. Qed.

Lemma div_pow2_S f l : f / 2 ^ Z.of_nat (S l) = f / 2 ^ Z.of_nat l / 2.
Proof.
  rewrite Nat2Z.inj_succ, Z.pow_succ_r, Z.mul_comm by lia.
  rewrite Z.div_div by (try apply Z.pow_nonzero; lia). done.
Qed.

Lemma pow2_nat_pos l : 0 < 2 ^ Z.of_nat l.
Proof. apply Z.pow_pos_nonneg; lia. Qed.

Lemma pow2_S l : 2 ^ Z.of_nat (S l) = 2 * 2 ^ Z.of_nat l.
Proof. by rewrite Nat2Z.inj_succ, Z.pow_succ_r by lia. Qed.

(** [f] lies in block [i] of level [l]. *)
Lemma div_block f l i :
  f / 2 ^ Z.of_nat l = i <-> i * 2 ^ Z.of_nat l <= f < (i + 1) * 2 ^ Z.of_nat l.
Proof.
  pose proof (pow2_nat_pos l). set (p := 2 ^ Z.of_nat l) in *.
  split; [intros <-|intros ?]; Z.div_mod_to_equations; nia.
Qed.

(** ** Abstraction: the free frames *)

(** The number of managed frames: the bits of the bitset of level 0. *)
Definition n_frames (s : pmm_state) : Z :=
  match buddies s !! 0%nat with Some b => 32 * len b | None => 0 end.

(** The block of level [l] that contains frame [f] is marked free. *)
Definition cover (s : pmm_state) (l : nat) (f : Z) : bool :=
  match buddies s !! l with
  | Some b => bit (words s) b (f / 2 ^ Z.of_nat l)
  | None => false
  end.

(** Frame [f] is free: some block around it is. *)
Definition frame_free (s : pmm_state) (f : Z) : bool :=
  existsb (fun l => cover s l f) (seq 0 7).

(** The bitsets are laid out one after the other, each half as long as the one
    before, and the frames lie below 4 GiB. *)
Record pmm_wf (s : pmm_state) : Prop := {
  wf_length : length (buddies s) = 7%nat;
  wf_buddy : forall l b, buddies s !! l = Some b ->
    bitset_ok (words s) b /\ 32 * len b * 2 ^ Z.of_nat l = n_frames s;
  wf_disjoint : forall l1 l2 b1 b2, (l1 < l2)%nat ->
    buddies s !! l1 = Some b1 -> buddies s !! l2 = Some b2 ->
    data b1 + 4 * len b1 <= data b2;
  wf_base : 0 <= buddy_base s /\ buddy_base s mod 4096 = 0 /\
    buddy_base s + 4096 * n_frames s <= 2 ^ 32
}.

(** No frame lies in two free blocks. *)
Definition exclusive (s : pmm_state) : Prop :=
  forall f l1 l2, 0 <= f < n_frames s ->
    cover s l1 f = true -> cover s l2 f = true -> l1 = l2.

Definition pmm_inv (s : pmm_state) : Prop := pmm_wf s /\ exclusive s.

(** What no operation after [pmm_init] changes. *)
Definition same_layout (s s' : pmm_state) : Prop :=
  buddies s' = buddies s /\ buddy_base s' = buddy_base s /\
  managed_first s' = managed_first s /\ managed_last s' = managed_last s.

#[global] Instance same_layout_preorder : PreOrder same_layout.
Proof.
  split; unfold same_layout.
  - by intros s.
  - intros s1 s2 s3 (-> & -> & -> & ->) (-> & -> & -> & ->). done.
Qed.

Lemma same_layout_frames s s' : same_layout s s' -> n_frames s' = n_frames s.
Proof. intros (H & _). unfold n_frames. by rewrite H. Qed.

Lemma n_frames_nonneg s : pmm_wf s -> 0 <= n_frames s.
Proof.
  intros Hwf. unfold n_frames. destruct (buddies s !! 0%nat) as [b|] eqn:E; [|lia].
  apply (wf_buddy s Hwf) in E as [(? & _) _]. lia.
Qed.

(** A level of the array has its bitset. *)
Lemma wf_level s l :
  pmm_wf s -> (l < 7)%nat ->
  exists b, buddies s !! l = Some b /\ bitset_ok (words s) b /\
            32 * len b * 2 ^ Z.of_nat l = n_frames s /\
            buddy (Z.of_nat l) s = Ok (b, s).
Proof.
  intros Hwf Hl. destruct (lookup_lt_is_Some_2 (buddies s) l) as [b Hb].
  { by rewrite (wf_length s Hwf). }
  destruct (wf_buddy s Hwf l b Hb) as [Hok Hlen].
  exists b. split_and!; [done..|]. unfold buddy.
  destruct (Z.ltb_spec (Z.of_nat l) 0); [lia|]. by rewrite Nat2Z.id, Hb.
Qed.

Lemma cover_level s l f : cover s l f = true -> pmm_wf s -> (l < 7)%nat.
Proof.
  unfold cover. destruct (buddies s !! l) as [b|] eqn:E; [|done]. intros _ Hwf.
  apply lookup_lt_Some in E. by rewrite (wf_length s Hwf) in E.
Qed.

Lemma frame_free_iff s f :
  pmm_wf s -> frame_free s f = true <-> exists l, cover s l f = true.
Proof.
  intros Hwf. unfold frame_free. rewrite existsb_exists. split.
  - intros (l & _ & H). by exists l.
  - intros (l & H). exists l. split; [|done]. apply in_seq.
    pose proof (cover_level s l f H Hwf). lia.
Qed.

Lemma frame_free_ext s s' f :
  (forall l, cover s' l f = cover s l f) -> frame_free s' f = frame_free s f.
Proof. intros H. unfold frame_free. induction (seq 0 7); simpl; congruence. Qed.

(** ** Writing one bit *)

(** [s'] is [s] with the free mark of block [idx] of level [l] set to [v]. *)
Definition marked (s s' : pmm_state) (l : nat) (idx : Z) (v : bool) : Prop :=
  pmm_wf s' /\ same_layout s s' /\
  forall l' f, 0 <= f < n_frames s ->
    cover s' l' f = if decide (l' = l /\ f / 2 ^ Z.of_nat l = idx) then v else cover s l' f.

(** The dword of a frame's bit lies inside the bitset of its level. *)
Lemma frame_slot s l b f :
  pmm_wf s -> buddies s !! l = Some b -> 0 <= f < n_frames s ->
  0 <= f / 2 ^ Z.of_nat l < 32 * len b.
Proof.
  intros Hwf Hb Hf. destruct (wf_buddy s Hwf l b Hb) as [_ Hlen].
  pose proof (pow2_nat_pos l). split; [apply Z.div_pos; lia|].
  apply Z.div_lt_upper_bound; [lia|]. nia.
Qed.

Lemma words_disjoint s l1 l2 b1 b2 i1 i2 :
  pmm_wf s -> l1 <> l2 -> buddies s !! l1 = Some b1 -> buddies s !! l2 = Some b2 ->
  0 <= i1 < len b1 -> 0 <= i2 < len b2 -> word_at b1 i1 <> word_at b2 i2.
Proof.
  intros Hwf Hne H1 H2 Hi1 Hi2. unfold word_at.
  destruct (Nat.lt_total l1 l2) as [Hl|[?|Hl]]; [|done|].
  - pose proof (wf_disjoint s Hwf l1 l2 b1 b2 Hl H1 H2). lia.
  - pose proof (wf_disjoint s Hwf l2 l1 b2 b1 Hl H2 H1). lia.
Qed.

(** Updating the memory of one bitset leaves the well-formedness of the others. *)
Lemma marked_intro s l b idx v m' :
  pmm_wf s -> buddies s !! l = Some b -> 0 <= idx < 32 * len b ->
  bitset_ok m' b -> bit_updated (words s) m' b idx v ->
  marked s (set_words m' s) l idx v.
Proof.
  intros Hwf Hb Hidx Hok' [Hbit Hframe]. pose proof (slot_range b idx Hidx) as Hslot.
  assert (Hother : forall l' b' i, l' <> l -> buddies s !! l' = Some b' ->
            0 <= i < len b' -> m' !! word_at b' i = words s !! word_at b' i).
  { intros l' b' i Hne Hb' Hi. apply Hframe. by apply (words_disjoint s l' l). }
  split_and!.
  - split; simpl; try apply Hwf. intros l' b' Hb'.
    destruct (wf_buddy s Hwf l' b' Hb') as [Hok Hlen]. split; [|done].
    destruct (decide (l' = l)) as [->|Hne]; [by simplify_eq|].
    destruct Hok as (? & ? & Hw). split_and!; [done..|]. intros i Hi.
    rewrite (Hother l' b' i) by done. auto.
  - done.
  - intros l' f Hf. unfold cover. simpl.
    destruct (buddies s !! l') as [b'|] eqn:Hb';
      [|rewrite decide_False; [done|]; intros [-> _]; congruence].
    destruct (decide (l' = l)) as [->|Hne].
    + simplify_eq. rewrite Hbit. destruct (decide (_ = idx)).
      * by rewrite decide_True.
      * by rewrite decide_False by tauto.
    + rewrite decide_False by tauto. unfold bit.
      rewrite (Hother l' b') by (done || by eapply slot_range, frame_slot). done.
Qed.

Lemma on_buddy_write s l idx v op :
  pmm_wf s -> (l < 7)%nat -> 0 <= idx -> (idx + 1) * 2 ^ Z.of_nat l <= n_frames s ->
  (forall b m, bitset_ok m b -> 0 <= idx < 32 * len b ->
     wp (op b) m (fun _ m' => bitset_ok m' b /\ bit_updated m m' b idx v)) ->
  wp (on_buddy (A:=unit) (Z.of_nat l) op) s (fun _ s' => marked s s' l idx v).
Proof.
  intros Hwf Hl Hi0 Hi Hop. destruct (wf_level s l Hwf Hl) as (b & Hb & Hok & Hlen & Hrun).
  assert (0 <= idx < 32 * len b) as Hidx by (pose proof (pow2_nat_pos l); nia).
  unfold on_buddy. wp_step. unfold wp at 1. rewrite Hrun. wp_step.
  eapply wp_mono; [by apply Hop|]. intros [] m' [Hok' Hupd].
  by apply (marked_intro s l b).
Qed.

(** ** [mark_used] *)

(** After [mark_used l n idx] on a block with no free part, exactly the frames of
    the block from the [n]-th on are free, each in exactly one block. *)
Definition split_block (s s' : pmm_state) (l : nat) (n idx : Z) : Prop :=
  pmm_wf s' /\ same_layout s s' /\
  (forall l' f, 0 <= f < n_frames s -> (l < l')%nat \/ f / 2 ^ Z.of_nat l <> idx ->
     cover s' l' f = cover s l' f) /\
  (forall f, f / 2 ^ Z.of_nat l = idx -> f - idx * 2 ^ Z.of_nat l < n ->
     forall l', (l' <= l)%nat -> cover s' l' f = false) /\
  (forall f, f / 2 ^ Z.of_nat l = idx -> n <= f - idx * 2 ^ Z.of_nat l ->
     exists k, (k <= l)%nat /\
       forall l', (l' <= l)%nat -> cover s' l' f = bool_decide (l' = k)).

Definition block_used (s : pmm_state) (l : nat) (idx : Z) : Prop :=
  forall l' f, (l' <= l)%nat -> f / 2 ^ Z.of_nat l = idx -> cover s l' f = false.

(** The block is filled exactly, or left free as a whole. *)
Lemma split_block_leaf s s' l n idx :
  0 <= idx -> (idx + 1) * 2 ^ Z.of_nat l <= n_frames s -> block_used s l idx ->
  n = 2 ^ Z.of_nat l \/ n = 0 ->
  marked s s' l idx (bool_decide (n = 0)) -> split_block s s' l n idx.
Proof.
  intros Hi0 Hi Hused Hn (Hwf & Hsame & Hcov). pose proof (pow2_nat_pos l).
  assert (Hin : forall f, f / 2 ^ Z.of_nat l = idx -> 0 <= f < n_frames s).
  { intros f Hf%div_block. nia. }
  split_and!; [done..| | |].
  - intros l' f Hf Hout. rewrite Hcov by done. rewrite decide_False; [done|].
    intros [-> ?]. lia.
  - intros f Hf Hlt l' Hl'. rewrite Hcov by auto.
    pose proof (proj1 (div_block f l idx) Hf).
    destruct (decide (l' = l /\ _)); [apply bool_decide_eq_false_2; lia|by apply Hused].
  - intros f Hf Hge. pose proof (proj1 (div_block f l idx) Hf).
    assert (n = 0) as -> by nia. exists l. split; [done|].
    intros l' Hl'. rewrite Hcov by auto. destruct (decide (l' = l /\ _)) as [[-> _]|Hd].
    + by rewrite !bool_decide_eq_true_2.
    + rewrite (bool_decide_eq_false_2 (l' = l)) by tauto. by apply Hused.
Qed.

(** Splitting the two halves splits the block. *)
Lemma split_block_node s s1 s2 l n idx :
  0 <= idx -> (idx + 1) * 2 ^ Z.of_nat (S l) <= n_frames s -> block_used s (S l) idx ->
  0 < n < 2 ^ Z.of_nat (S l) ->
  split_block s s1 l (Z.min n (2 ^ Z.of_nat l)) (idx * 2) ->
  split_block s1 s2 l (Z.max 0 (n - 2 ^ Z.of_nat l)) (idx * 2 + 1) ->
  split_block s s2 (S l) n idx.
Proof.
  intros Hi0 Hi Hused Hn (Hwf1 & Hsame1 & Hout1 & Hlow1 & Hhigh1)
    (Hwf2 & Hsame2 & Hout2 & Hlow2 & Hhigh2).
  rewrite (same_layout_frames _ _ Hsame1) in *. pose proof (pow2_nat_pos l).
  pose proof (pow2_S l) as Hp. set (p := 2 ^ Z.of_nat l) in *.
  assert (Hhalf : forall f, f / 2 ^ Z.of_nat (S l) = idx ->
            0 <= f < n_frames s /\ (f / p = idx * 2 \/ f / p = idx * 2 + 1)).
  { intros f Hf. pose proof (proj1 (div_block f (S l) idx) Hf). split; [nia|].
    rewrite div_pow2_S in Hf. fold p in Hf. Z.div_mod_to_equations. lia. }
  assert (Htop : forall f, f / 2 ^ Z.of_nat (S l) = idx -> cover s2 (S l) f = false).
  { intros f Hf. destruct (Hhalf f Hf) as [Hr _].
    rewrite Hout2, Hout1 by (done || left; lia). by apply Hused. }
  split_and!; [done|by etrans| | |].
  - intros l' f Hf Ho.
    assert ((l < l')%nat \/ (f / p <> idx * 2 /\ f / p <> idx * 2 + 1)) as Hd.
    { destruct Ho as [|Ho]; [left; lia|right]. rewrite div_pow2_S in Ho. fold p in Ho.
      split; intros He; rewrite He in Ho; Z.div_mod_to_equations; lia. }
    rewrite Hout2, Hout1; [done|done|tauto|done|tauto].
  - intros f Hf Hlt l' Hl'. destruct (Hhalf f Hf) as [Hr Hc].
    destruct (decide (l' = S l)) as [->|Hne]; [by apply Htop|].
    destruct Hc as [Hc|Hc]; pose proof (proj1 (div_block f l _) Hc) as Hb; fold p in Hb.
    + rewrite Hout2 by (done || right; fold p; lia). apply Hlow1; [done|nia|lia].
    + apply Hlow2; [done|nia|lia].
  - intros f Hf Hge. destruct (Hhalf f Hf) as [Hr Hc].
    destruct Hc as [Hc|Hc]; pose proof (proj1 (div_block f l _) Hc) as Hb; fold p in Hb.
    + destruct (Hhigh1 f Hc) as (k & Hk & Hex); [nia|]. exists k. split; [lia|].
      intros l' Hl'. destruct (decide (l' = S l)) as [->|Hne].
      * rewrite bool_decide_eq_false_2 by lia. by apply Htop.
      * rewrite Hout2 by (done || right; fold p; lia). apply Hex. lia.
    + destruct (Hhigh2 f Hc) as (k & Hk & Hex); [nia|]. exists k. split; [lia|].
      intros l' Hl'. destruct (decide (l' = S l)) as [->|Hne].
      * rewrite bool_decide_eq_false_2 by lia. by apply Htop.
      * apply Hex. lia.
Qed.

(** The indices that occur fit [size_t]. *)
Lemma idx_u32 s l idx :
  pmm_wf s -> 0 <= idx -> (idx + 1) * 2 ^ Z.of_nat l <= n_frames s -> is_u32 idx.
Proof.
  intros Hwf H0 H1. pose proof (wf_base s Hwf). pose proof (pow2_nat_pos l).
  unfold in_width. nia.
Qed.

Lemma half_frames s s' l idx :
  same_layout s s' -> 0 <= idx -> (idx + 1) * 2 ^ Z.of_nat (S l) <= n_frames s ->
  (idx * 2 + 1) * 2 ^ Z.of_nat l <= n_frames s /\
  (idx * 2 + 1 + 1) * 2 ^ Z.of_nat l <= n_frames s'.
Proof.
  intros Hs H0 H1. rewrite (same_layout_frames _ _ Hs). rewrite pow2_S in H1.
  pose proof (pow2_nat_pos l). nia.
Qed.

(** Without recursion, [mark_used] writes the bit of its own block. *)
Lemma mark_used_leaf l n idx :
  n = 2 ^ Z.of_nat l \/ n = 0 ->
  mark_used l n idx
  = on_buddy (Z.of_nat l) (fun b => bitset_write b idx (bool_decide (n = 0))).
Proof.
  pose proof (pow2_nat_pos l). intros Hn.
  assert (forall X, (if n =? Z.shiftl 1 (Z.of_nat l)
            then on_buddy (Z.of_nat l) (fun b => bitset_clear b idx)
            else if n =? 0 then on_buddy (Z.of_nat l) (fun b => bitset_set b idx) else X)
          = on_buddy (Z.of_nat l) (fun b => bitset_write b idx (bool_decide (n = 0)))) as He.
  { intros X. rewrite shiftl_1 by lia. destruct Hn as [->| ->].
    - rewrite Z.eqb_refl, bool_decide_eq_false_2 by lia. done.
    - destruct (Z.eqb_spec 0 (2 ^ Z.of_nat l)); [lia|done]. }
  destruct l; apply He.
Qed.

Lemma mark_used_node l n idx :
  n <> 2 ^ Z.of_nat (S l) -> n <> 0 ->
  mark_used (S l) n idx =
    (_ ← mark_used l (Z.min n (2 ^ Z.of_nat l)) (u32 (idx * 2));
     mark_used l (Z.max 0 (n - 2 ^ Z.of_nat l)) (u32 (u32 (idx * 2) + 1))).
Proof.
  intros H1 H2. pose proof (pow2_nat_pos l). cbn [mark_used].
  rewrite shiftl_1 by lia. destruct (Z.eqb_spec n (2 ^ Z.of_nat (S l))); [done|].
  destruct (Z.eqb_spec n 0); [done|].
  rewrite pow2_S, (Z.mul_comm 2), Z.div_mul, MIN_min by lia.
  replace (Z.max 0 (n - 2 ^ Z.of_nat l)) with
    (if 2 ^ Z.of_nat l <? n then n - 2 ^ Z.of_nat l else 0); [done|].
  destruct (Z.ltb_spec (2 ^ Z.of_nat l) n); lia.
Qed.

Lemma mark_used_leaf_ok l s n idx :
  pmm_wf s -> (l < 7)%nat -> 0 <= idx -> (idx + 1) * 2 ^ Z.of_nat l <= n_frames s ->
  block_used s l idx -> n = 2 ^ Z.of_nat l \/ n = 0 ->
  wp (mark_used l n idx) s (fun _ s' => split_block s s' l n idx).
Proof.
  intros. rewrite mark_used_leaf by done. eapply wp_mono.
  - apply (on_buddy_write s _ idx (bool_decide (n = 0))); auto using bitset_write_ok.
  - intros. by apply split_block_leaf.
Qed.

Lemma mark_used_ok l : forall s n idx,
  pmm_wf s -> (l < 7)%nat -> 0 <= idx -> (idx + 1) * 2 ^ Z.of_nat l <= n_frames s ->
  0 <= n <= 2 ^ Z.of_nat l -> block_used s l idx ->
  wp (mark_used l n idx) s (fun _ s' => split_block s s' l n idx).
Proof.
  induction l as [|l IH]; intros s n idx Hwf Hl Hi0 Hi Hn Hused.
  - apply mark_used_leaf_ok; auto. simpl in *. lia.
  - destruct (decide (n = 2 ^ Z.of_nat (S l) \/ n = 0)) as [Hleaf|Hnode];
      [by apply mark_used_leaf_ok|].
    rewrite mark_used_node by tauto. pose proof (pow2_nat_pos l) as Hp. pose proof (pow2_S l) as Hp2.
    destruct (half_frames s s l idx ltac:(done) Hi0 Hi) as [Hh1 Hh2].
    pose proof (idx_u32 s l (idx * 2 + 1) Hwf ltac:(lia) Hh2).
    rewrite (wrap_small 32 (idx * 2)), (wrap_small 32 (idx * 2 + 1))
      by (unfold in_width in *; lia).
    assert (Hsub : forall f, f / 2 ^ Z.of_nat l = idx * 2 \/ f / 2 ^ Z.of_nat l = idx * 2 + 1 ->
              f / 2 ^ Z.of_nat (S l) = idx).
    { intros f Hf. rewrite div_pow2_S. destruct Hf as [->| ->]; Z.div_mod_to_equations; lia. }
    wp_step. eapply wp_mono.
    { apply IH; auto with lia. intros l' f Hl' Hf. apply Hused; [lia|auto]. }
    intros [] s1 Hs1. simpl in Hs1 |- *. pose proof Hs1 as (Hwf1 & Hsame1 & Hout1 & _ & _).
    eapply wp_mono.
    { apply (IH s1); auto with lia.
      - apply (half_frames s s1 l idx); done.
      - intros l' f Hl' Hf. rewrite Hout1 by ((apply div_block in Hf; nia) || (right; lia)).
        apply Hused; [lia|auto]. }
    intros [] s2 Hs2. eapply split_block_node; eauto; lia.
Qed.

(** ** Allocation *)

Lemma set_words_id s : set_words (words s) s = s.
Proof. by destruct s. Qed.

(** The search on a level finds a free block, or the level has none. *)
Lemma on_buddy_find s l :
  pmm_wf s -> (l < 7)%nat ->
  exists r, on_buddy (Z.of_nat l) bitset_find s = Ok (r, s) /\
    match r with
    | Some idx => 0 <= idx /\ (idx + 1) * 2 ^ Z.of_nat l <= n_frames s /\
                  forall f, f / 2 ^ Z.of_nat l = idx -> cover s l f = true
    | None => forall f, 0 <= f < n_frames s -> cover s l f = false
    end.
Proof.
  intros Hwf Hl. destruct (wf_level s l Hwf Hl) as (b & Hb & Hok & Hlen & Hrun).
  destruct (bitset_find_ok (words s) b Hok) as (r & Hfind & Hfirst).
  exists r. split.
  { unfold on_buddy. rewrite (bind_ok _ _ _ _ _ Hrun). unfold zoom.
    by rewrite Hfind, set_words_id. }
  pose proof (pow2_nat_pos l). unfold cover. rewrite Hb. destruct r as [idx|]; simpl in Hfirst.
  - destruct Hfirst as (Hr & Ht & _). split_and!; [lia|nia|]. by intros f ->.
  - intros f Hf. apply Hfirst. pose proof (frame_slot s l b f Hwf Hb Hf). lia.
Qed.

(** Taking the first [n] frames of a free block. *)
Lemma take_block s s1 s2 l n idx :
  pmm_inv s -> 0 <= idx -> (idx + 1) * 2 ^ Z.of_nat l <= n_frames s ->
  (forall f, f / 2 ^ Z.of_nat l = idx -> cover s l f = true) ->
  marked s s1 l idx false -> split_block s1 s2 l n idx -> n <= 2 ^ Z.of_nat l ->
  pmm_inv s2 /\ same_layout s s2 /\
  forall f, 0 <= f < n_frames s ->
    frame_free s2 f
    = frame_free s f && negb (bool_decide (idx * 2 ^ Z.of_nat l <= f < idx * 2 ^ Z.of_nat l + n)).
Proof.
  intros [Hwf Hex] Hi0 Hi Hfree (Hwf1 & Hsame1 & Hcov1) (Hwf2 & Hsame2 & Hout & Hlow & Hhigh) Hn.
  rewrite (same_layout_frames _ _ Hsame1) in *.
  assert (Hsame : same_layout s s2) by (by etrans).
  (* frames outside the block keep their covers *)
  assert (Houtside : forall f, 0 <= f < n_frames s -> f / 2 ^ Z.of_nat l <> idx ->
            forall l', cover s2 l' f = cover s l' f).
  { intros f Hf Hne l'. rewrite Hout by (done || by right).
    rewrite Hcov1 by done. by rewrite decide_False by tauto. }
  (* no level above [l] covers a frame of the block *)
  assert (Habove : forall f, f / 2 ^ Z.of_nat l = idx -> 0 <= f < n_frames s ->
            forall l', (l < l')%nat -> cover s2 l' f = false).
  { intros f Hf Hr l' Hl'. rewrite Hout by (done || by left).
    rewrite Hcov1, decide_False by (done || lia). apply not_true_is_false. intros Hc.
    pose proof (Hex f l l' Hr (Hfree f Hf) Hc). lia. }
  split_and!; [split; [done|]|done|].
  - intros f k1 k2 Hf H1 H2. rewrite (same_layout_frames _ _ Hsame) in Hf.
    destruct (decide (f / 2 ^ Z.of_nat l = idx)) as [Hb|Hb].
    + assert (Hle : forall k, cover s2 k f = true -> (k <= l)%nat).
      { intros k Hk. destruct (Nat.le_gt_cases k l); [done|].
        rewrite Habove in Hk by done. done. }
      destruct (Z.lt_ge_cases (f - idx * 2 ^ Z.of_nat l) n) as [Hlt|Hge].
      * rewrite (Hlow f Hb Hlt k1) in H1 by auto. done.
      * destruct (Hhigh f Hb Hge) as (k & Hk & Heq).
        rewrite Heq in H1, H2 by auto. by apply bool_decide_eq_true in H1, H2; subst.
    + rewrite Houtside in H1, H2 by done. by apply (Hex f).
  - intros f Hf. destruct (decide (f / 2 ^ Z.of_nat l = idx)) as [Hb|Hb].
    + assert (frame_free s f = true) as -> by (apply frame_free_iff; eauto).
      pose proof (proj1 (div_block f l idx) Hb).
      destruct (Z.lt_ge_cases (f - idx * 2 ^ Z.of_nat l) n) as [Hlt|Hge].
      * rewrite bool_decide_eq_true_2 by lia. apply not_true_is_false.
        intros (k & Hk)%frame_free_iff; [|done]. destruct (Nat.le_gt_cases k l).
        -- by rewrite (Hlow f Hb Hlt) in Hk.
        -- by rewrite (Habove f Hb Hf) in Hk.
      * rewrite bool_decide_eq_false_2 by lia. apply frame_free_iff; [done|].
        destruct (Hhigh f Hb Hge) as (k & Hk & Heq). exists k. rewrite Heq by done.
        by apply bool_decide_eq_true.
    + rewrite bool_decide_eq_false_2, andb_true_r.
      * apply frame_free_ext. by apply Houtside.
      * intros Hr. apply Hb, div_block. lia.
Qed.

(** The outcome of an allocation of [n] frames from the levels [i] and up. *)
Definition alloc_post (s s' : pmm_state) (i : nat) (n : Z) (e : err_t) (a : Z) : Prop :=
  pmm_inv s' /\ same_layout s s' /\
  match e with
  | E_OK => exists f0 l, (i <= l)%nat /\ a = buddy_base s + 4096 * f0 /\
      0 <= f0 /\ f0 + 2 ^ Z.of_nat l <= n_frames s /\ f0 mod 2 ^ Z.of_nat l = 0 /\
      (forall f, f0 <= f < f0 + 2 ^ Z.of_nat l -> frame_free s f = true) /\
      (forall f, 0 <= f < n_frames s ->
         frame_free s' f = frame_free s f && negb (bool_decide (f0 <= f < f0 + n)))
  | E_NOMEM => a = 0 /\ s' = s /\
      forall l f, (i <= l)%nat -> 0 <= f < n_frames s -> cover s l f = false
  | E_DEVICE => False
  end.

Lemma block_address s l idx :
  pmm_wf s -> 0 <= idx -> (idx + 1) * 2 ^ Z.of_nat l <= n_frames s ->
  u32 (buddy_base s + u32 (Z.shiftl PAGE_SIZE (Z.of_nat l) * idx))
  = buddy_base s + 4096 * (idx * 2 ^ Z.of_nat l).
Proof.
  intros Hwf H0 H1. destruct (wf_base s Hwf) as (Hb & _ & Hmax).
  pose proof (pow2_nat_pos l). rewrite Z.shiftl_mul_pow2, PAGE_SIZE_val by lia.
  rewrite (wrap_small 32 (4096 * _ * idx)) by (unfold in_width; nia).
  rewrite wrap_small by (unfold in_width; nia). lia.
Qed.

(** The whole of the [Some] branch of [alloc_from]. *)
Lemma alloc_block s l n idx :
  pmm_inv s -> (l < 7)%nat -> 0 <= idx -> (idx + 1) * 2 ^ Z.of_nat l <= n_frames s ->
  (forall f, f / 2 ^ Z.of_nat l = idx -> cover s l f = true) ->
  0 <= n <= 2 ^ Z.of_nat l ->
  wp (_ ← on_buddy (Z.of_nat l) (fun b => bitset_clear b idx);
      _ ← mark_used (Z.to_nat (Z.of_nat l)) n idx;
      base ← gets buddy_base;
      mret (E_OK, u32 (base + u32 (Z.shiftl PAGE_SIZE (Z.of_nat l) * idx)))) s
    (fun r s' => alloc_post s s' l n r.1 r.2).
Proof.
  intros Hinv Hl Hi0 Hi Hfree Hn. pose proof Hinv as [Hwf Hex]. rewrite Nat2Z.id.
  wp_step. eapply wp_mono.
  { apply (on_buddy_write s l idx false); auto using bitset_clear_ok. }
  intros [] s1 Hm. simpl in Hm. pose proof Hm as (Hwf1 & Hsame1 & Hcov1).
  wp_step. eapply wp_mono.
  { apply mark_used_ok; auto; [by rewrite (same_layout_frames _ _ Hsame1)|].
    intros l' f Hl' Hf. assert (0 <= f < n_frames s) by (apply div_block in Hf; nia).
    rewrite Hcov1 by done. destruct (decide _) as [|Hd]; [done|].
    apply not_true_is_false. intros Hc. apply Hd. split; [|done].
    apply (Hex f); auto. }
  intros [] s2 Hs2. simpl in Hs2.
  destruct (take_block s s1 s2 l n idx) as (Hinv2 & Hsame2 & Hfr); auto; [lia|].
  pose proof (pow2_nat_pos l). wp_steps. split_and!; [done..|].
  exists (idx * 2 ^ Z.of_nat l), l. destruct Hsame2 as (_ & Hbase & _).
  rewrite Hbase, block_address by done. split_and!; [done..|nia|nia| | |done].
  - by apply Z.mod_mul; lia.
  - intros f Hf. apply frame_free_iff; [done|]. exists l. apply Hfree, div_block. lia.
Qed.

Lemma alloc_from_ok s n : forall k i,
  pmm_inv s -> (i + k = 7)%nat -> 0 <= n <= 2 ^ Z.of_nat i ->
  wp (alloc_from k (Z.of_nat i) n) s (fun r s' => alloc_post s s' i n r.1 r.2).
Proof.
  induction k as [|k IH]; intros i Hinv Hk Hn; cbn [alloc_from].
  - apply wp_ret. split_and!; [done..|]. split_and!; [done..|].
    intros l f Hl Hf. apply not_true_is_false. intros Hc.
    pose proof (cover_level s l f Hc (proj1 Hinv)). lia.
  - destruct (on_buddy_find s i (proj1 Hinv)) as (r & Hrun & Hr); [lia|].
    wp_step. unfold wp at 1. rewrite Hrun. destruct r as [idx|].
    + destruct Hr as (? & ? & ?). apply alloc_block; auto with lia.
    + replace (Z.of_nat i + 1) with (Z.of_nat (S i)) by lia.
      eapply wp_mono; [apply IH; [done|lia|rewrite pow2_S; lia]|].
      intros [e a] s' (Hinv' & Hsame & He). split_and!; [done..|].
      destruct e; [|destruct He as (-> & -> & Hno)|done].
      * destruct He as (f0 & l & Hl & He). exists f0, l. split; [lia|done].
      * split_and!; [done..|]. intros l f Hl Hf.
        destruct (decide (l = i)) as [->|]; [by apply Hr|apply Hno; [lia|done]].
Qed.

(** An allocation of a power of two takes the search up from its own level. *)
Lemma pmm_alloc_ok s k :
  pmm_inv s -> (k <= 6)%nat ->
  wp (pmm_alloc (2 ^ Z.of_nat k)) s
     (fun r s' => alloc_post s s' k (2 ^ Z.of_nat k) r.1 r.2).
Proof.
  intros Hinv Hk. unfold pmm_alloc, pmm_alloc_buddy.
  assert (is_u32 (2 ^ Z.of_nat k)) as Hu.
  { split; [apply Z.pow_nonneg; lia|apply Z.pow_lt_mono_r; lia]. }
  rewrite log2_spec, Z.log2_pow2 by (done || lia).
  unfold PMM_NUM_BUDDIES. apply alloc_from_ok; [done|lia|].
  pose proof (pow2_nat_pos k). lia.
Qed.

(** ** Release *)

Lemma pmm_free_run s k f0 :
  pmm_wf s -> (k <= 6)%nat -> 0 <= f0 -> f0 + 2 ^ Z.of_nat k <= n_frames s ->
  f0 mod 2 ^ Z.of_nat k = 0 ->
  wp (pmm_free (2 ^ Z.of_nat k) (buddy_base s + 4096 * f0)) s
     (fun _ s' => marked s s' k (f0 / 2 ^ Z.of_nat k) true).
Proof.
  intros Hwf Hk H0 H1 Hmod. pose proof (pow2_nat_pos k) as Hp.
  destruct (wf_base s Hwf) as (Hb & _ & Hmax). unfold pmm_free. wp_step. wp_step.
  destruct (Z.ltb_spec (buddy_base s + 4096 * f0) (buddy_base s)); [lia|].
  rewrite log2_spec, Z.log2_pow2 by
    (lia || (split; [lia|apply Z.pow_lt_mono_r; lia])).
  replace (buddy_base s + 4096 * f0 - buddy_base s) with (f0 * 4096) by lia.
  rewrite wrap_small by (unfold in_width; lia).
  rewrite PAGE_SIZE_val, Z.div_mul, Z.shiftr_div_pow2 by lia.
  apply on_buddy_write; auto using bitset_set_ok with lia.
  - apply Z.div_pos; lia.
  - Z.div_mod_to_equations. nia.
Qed.

(** Releasing an aligned block none of whose frames is free. *)
Lemma pmm_free_ok s k f0 :
  pmm_inv s -> (k <= 6)%nat -> 0 <= f0 -> f0 + 2 ^ Z.of_nat k <= n_frames s ->
  f0 mod 2 ^ Z.of_nat k = 0 ->
  (forall f, f0 <= f < f0 + 2 ^ Z.of_nat k -> frame_free s f = false) ->
  wp (pmm_free (2 ^ Z.of_nat k) (buddy_base s + 4096 * f0)) s (fun _ s' =>
    pmm_inv s' /\ same_layout s s' /\
    forall f, 0 <= f < n_frames s ->
      frame_free s' f = frame_free s f || bool_decide (f0 <= f < f0 + 2 ^ Z.of_nat k)).
Proof.
  intros [Hwf Hex] Hk H0 H1 Hmod Hused. pose proof (pow2_nat_pos k) as Hp.
  eapply wp_mono; [by apply pmm_free_run|]. intros [] s' (Hwf' & Hsame & Hcov).
  assert (Hblk : forall f, f / 2 ^ Z.of_nat k = f0 / 2 ^ Z.of_nat k <->
                           f0 <= f < f0 + 2 ^ Z.of_nat k).
  { intros f. rewrite div_block. Z.div_mod_to_equations. nia. }
  assert (Hnone : forall f l, f0 <= f < f0 + 2 ^ Z.of_nat k -> cover s l f = false).
  { intros f l Hf. apply not_true_is_false. intros Hc. specialize (Hused f Hf).
    apply not_true_iff_false in Hused. apply Hused, frame_free_iff; eauto. }
  split_and!; [split; [done|]|done|].
  - intros f l1 l2 Hf. rewrite (same_layout_frames _ _ Hsame) in Hf.
    rewrite !Hcov by done.
    destruct (decide (l1 = k /\ _)) as [[-> Hd]|_], (decide (l2 = k /\ _)) as [[-> Hd']|_].
    + done.
    + intros _ Hc. by rewrite Hnone in Hc by by apply Hblk.
    + intros Hc _. by rewrite Hnone in Hc by by apply Hblk.
    + by apply Hex.
  - intros f Hf. case_bool_decide as Hin.
    + rewrite orb_true_r. apply frame_free_iff; [done|]. exists k. rewrite Hcov by done.
      by rewrite decide_True by by rewrite Hblk.
    + rewrite orb_false_r. apply frame_free_ext. intros l. rewrite Hcov by done.
      rewrite decide_False; [done|]. by rewrite Hblk; intros [].
Qed.

(** ** Sequences of allocations and releases *)

(** A client that asks for powers of two and releases what it holds: the [i]-th
    of its live blocks. *)
Inductive pmm_op : Type :=
| OpAlloc (k : nat)
| OpFree (i : nat).

(** A live block: address and binary logarithm of the number of frames. *)
Definition live_block : Type := Z * nat.

Definition run_op (op : pmm_op) (live : list live_block) : M pmm_state (list live_block) :=
  match op with
  | OpAlloc k =>
      r ← pmm_alloc (2 ^ Z.of_nat k);
      mret (if err_ok r.1 then (r.2, k) :: live else live)
  | OpFree i =>
      match live !! i with
      | Some (a, k) => _ ← pmm_free (2 ^ Z.of_nat k) a; mret (delete i live)
      | None => mret live
      end
  end.

Fixpoint run_ops (ops : list pmm_op) (live : list live_block) : M pmm_state (list live_block) :=
  match ops with
  | [] => mret live
  | op :: ops' => live' ← run_op op live; run_ops ops' live'
  end.

Definition op_valid (op : pmm_op) : Prop :=
  match op with OpAlloc k => (k <= 6)%nat | OpFree _ => True end.

(** Whether frame [f] lies in a block. *)
Definition owns (s : pmm_state) (f : Z) (blk : live_block) : bool :=
  bool_decide (blk.1 <= buddy_base s + 4096 * f < blk.1 + 4096 * 2 ^ Z.of_nat blk.2).

(** How many live blocks contain frame [f]. *)
Definition owners (s : pmm_state) (live : list live_block) (f : Z) : nat :=
  length (filter (fun blk => owns s f blk = true) live).

Definition block_wf (s : pmm_state) (blk : live_block) : Prop :=
  (blk.2 <= 6)%nat /\ exists f0, blk.1 = buddy_base s + 4096 * f0 /\ 0 <= f0 /\
    f0 + 2 ^ Z.of_nat blk.2 <= n_frames s /\ f0 mod 2 ^ Z.of_nat blk.2 = 0.

(** Relative to the frames that were free at [s0], every frame is now either free
    or in exactly one live block. *)
Definition accounted (s0 s : pmm_state) (live : list live_block) : Prop :=
  pmm_inv s /\ same_layout s0 s /\ Forall (block_wf s) live /\
  forall f, 0 <= f < n_frames s0 ->
    (Nat.b2n (frame_free s f) + owners s live f = Nat.b2n (frame_free s0 f))%nat.

Lemma owners_cons s blk live f :
  owners s (blk :: live) f = (Nat.b2n (owns s f blk) + owners s live f)%nat.
Proof.
  unfold owners. rewrite filter_cons. by destruct (owns s f blk).
Qed.

Lemma owners_delete s live i blk f :
  live !! i = Some blk ->
  owners s live f = (Nat.b2n (owns s f blk) + owners s (delete i live) f)%nat.
Proof.
  intros Hi. rewrite <- owners_cons. unfold owners. by rewrite <- delete_Permutation.
Qed.

Lemma owners_layout s s' live f : same_layout s s' -> owners s' live f = owners s live f.
Proof. intros (_ & Hb & _). unfold owners, owns. by rewrite Hb. Qed.

Lemma owns_block s f0 k f :
  owns s f (buddy_base s + 4096 * f0, k) = bool_decide (f0 <= f < f0 + 2 ^ Z.of_nat k).
Proof. unfold owns. simpl. apply bool_decide_ext. lia. Qed.

Lemma block_wf_layout s s' : same_layout s s' -> forall blk, block_wf s blk -> block_wf s' blk.
Proof.
  intros Hs blk (Hk & f0 & H). split; [done|]. exists f0.
  rewrite (same_layout_frames _ _ Hs). destruct Hs as (_ & -> & _). done.
Qed.

Lemma mod_pow2_le f i l :
  (i <= l)%nat -> f mod 2 ^ Z.of_nat l = 0 -> f mod 2 ^ Z.of_nat i = 0.
Proof.
  intros Hle Hm. pose proof (pow2_nat_pos i). apply Z.mod_divide in Hm; [|pose proof (pow2_nat_pos l); lia].
  apply Z.mod_divide; [lia|]. etrans; [|exact Hm].
  exists (2 ^ (Z.of_nat l - Z.of_nat i)). rewrite <- Z.pow_add_r by lia. f_equal. lia.
Qed.

Lemma alloc_accounted s0 s live k :
  accounted s0 s live -> (k <= 6)%nat ->
  wp (run_op (OpAlloc k) live) s (fun live' s' => accounted s0 s' live').
Proof.
  intros (Hinv & Hsame & Hlive & Hacc) Hk. simpl. wp_step.
  eapply wp_mono; [by apply pmm_alloc_ok|].
  intros [e a] s' (Hinv' & Hsame' & Hpost). wp_step. simpl in *.
  pose proof (same_layout_frames _ _ Hsame) as Hfr.
  destruct e; [|by destruct Hpost as (-> & -> & _)|done].
  destruct Hpost as (f0 & l & Hl & -> & H0 & H1 & Hmod & Hfree & Hafter).
  pose proof (Z.pow_le_mono_r 2 (Z.of_nat k) (Z.of_nat l) ltac:(lia) ltac:(lia)).
  unfold err_ok. rewrite bool_decide_eq_true_2 by done.
  split_and!; [done|by etrans| |].
  - constructor; [|eapply Forall_impl; [done|by apply block_wf_layout]].
    apply (block_wf_layout s); [done|]. split; [done|]. exists f0. simpl.
    split_and!; [done..|lia|by eapply mod_pow2_le].
  - intros f Hf. rewrite Hafter by lia. rewrite owners_cons, (owners_layout s s') by done.
    specialize (Hacc f Hf). unfold owns. rewrite (proj1 (proj2 Hsame')). fold (owns s f (buddy_base s + 4096 * f0, k)).
    rewrite owns_block. case_bool_decide as Hin; simpl.
    + rewrite Hfree in * by lia. simpl in *. lia.
    + rewrite andb_true_r. lia.
Qed.

Lemma free_accounted s0 s live i :
  accounted s0 s live ->
  wp (run_op (OpFree i) live) s (fun live' s' => accounted s0 s' live').
Proof.
  intros (Hinv & Hsame & Hlive & Hacc). simpl.
  destruct (live !! i) as [[a k]|] eqn:Hi; [|by apply wp_ret].
  pose proof (same_layout_frames _ _ Hsame) as Hfr.
  destruct (Forall_lookup_1 _ _ _ _ Hlive Hi) as (Hk & f0 & Ha & H0 & H1 & Hmod).
  simpl in *. subst a. wp_step.
  assert (Hcount : forall f, owners s live f
            = (Nat.b2n (bool_decide (f0 <= f < f0 + 2 ^ Z.of_nat k)%Z) + owners s (delete i live) f)%nat).
  { intros f. rewrite <- (owns_block s f0). by apply owners_delete. }
  eapply wp_mono.
  { apply pmm_free_ok; auto. intros f Hf. specialize (Hacc f ltac:(lia)).
    rewrite Hcount, bool_decide_eq_true_2 in Hacc by lia.
    destruct (frame_free s f), (frame_free s0 f); simpl in *; lia || done. }
  intros [] s' (Hinv' & Hsame' & Hafter). wp_step. split_and!; [done|by etrans| |].
  - apply Forall_delete. eapply Forall_impl; [done|by apply block_wf_layout].
  - intros f Hf. rewrite Hafter by lia. rewrite (owners_layout s s') by done.
    specialize (Hacc f Hf). rewrite Hcount in Hacc.
    destruct (frame_free s f), (bool_decide _), (frame_free s0 f); simpl in *; lia.
Qed.

(** ** Initialisation *)

Section Init.
Context `{Layout}.

(** The bitset of level [l] when [2048 * w] frames are managed and the bitsets
    start at address [d]. *)
Definition level_bitset (d w : Z) (l : nat) : bitset32_t :=
  {| data := d + 4 * (w * (128 - 2 ^ (7 - Z.of_nat l)));
     len := w * 2 ^ (6 - Z.of_nat l) |}.

Definition level_bitsets (d w : Z) : list bitset32_t := level_bitset d w <$> seq 0 7.

Lemma level_lookup d w l b :
  level_bitsets d w !! l = Some b <-> (l < 7)%nat /\ b = level_bitset d w l.
Proof.
  unfold level_bitsets. rewrite list_lookup_fmap. split.
  - intros Hb. destruct (seq 0 7 !! l) as [k|] eqn:E; [|done].
    apply lookup_seq in E as [-> ?]. by simplify_eq/=.
  - intros [Hl ->]. by rewrite lookup_seq_lt by done.
Qed.

Lemma level_order w l1 l2 :
  0 <= w -> (l1 < l2 <= 7)%nat ->
  w * (128 - 2 ^ (7 - Z.of_nat l1)) + w * 2 ^ (6 - Z.of_nat l1)
  <= w * (128 - 2 ^ (7 - Z.of_nat l2)).
Proof.
  intros Hw Hl. replace (7 - Z.of_nat l1) with (Z.succ (6 - Z.of_nat l1)) by lia.
  rewrite Z.pow_succ_r by lia.
  pose proof (Z.pow_le_mono_r 2 (7 - Z.of_nat l2) (6 - Z.of_nat l1) ltac:(lia) ltac:(lia)).
  nia.
Qed.

Lemma level_fits w l k :
  0 <= w -> (l < 7)%nat -> 0 <= k < w * 2 ^ (6 - Z.of_nat l) ->
  0 <= w * (128 - 2 ^ (7 - Z.of_nat l)) + k < 127 * w.
Proof.
  intros Hw Hl Hk. pose proof (level_order w l 7 Hw ltac:(lia)) as Ho.
  change (2 ^ (7 - Z.of_nat 7)) with 1 in Ho.
  pose proof (Z.pow_le_mono_r 2 (7 - Z.of_nat l) 7 ltac:(lia) ltac:(lia)).
  change (2 ^ 7) with 128 in *. nia.
Qed.

(** What the loops of [pmm_init] establish: the bitsets below level [j] hold [0]. *)
Definition filled (first upper d w : Z) (j : Z) (s : pmm_state) : Prop :=
  managed_first s = first /\ managed_last s = upper /\ buddies s = level_bitsets d w /\
  (forall k, 0 <= k < 127 * w -> is_Some (words s !! (d + 4 * k))) /\
  forall l k, (Z.of_nat l < j) -> 0 <= k < w * 2 ^ (6 - Z.of_nat l) ->
    words s !! word_at (level_bitset d w l) k = Some 0.

(** Filling the bitset of one level. *)
Lemma fill_level first upper d w l v s :
  0 <= w <= 512 -> (l < 7)%nat -> is_u32 v -> filled first upper d w (Z.of_nat l) s ->
  wp (on_buddy (Z.of_nat l) (fun b => bitset_fill b v)) s (fun _ s' =>
    filled first upper d w (Z.of_nat l) s' /\
    forall k, 0 <= k < w * 2 ^ (6 - Z.of_nat l) ->
      words s' !! word_at (level_bitset d w l) k = Some v).
Proof.
  intros Hw Hl Hv (Hf & Hu & Hb & Hmap & Hz).
  pose proof (Z.pow_le_mono_r 2 (6 - Z.of_nat l) 6 ltac:(lia) ltac:(lia)) as Hp.
  assert (0 < 2 ^ (6 - Z.of_nat l)) by (apply Z.pow_pos_nonneg; lia).
  change (2 ^ 6) with 64 in Hp.
  unfold on_buddy. wp_step. unfold wp at 1, buddy.
  destruct (Z.ltb_spec (Z.of_nat l) 0); [lia|].
  rewrite Nat2Z.id, Hb, (proj2 (level_lookup d w l _) (conj Hl eq_refl)).
  destruct (bitset_fill_ok (words s) (level_bitset d w l) v) as (m' & Hrun & _ & Hin & Hout).
  { simpl. nia. }
  { simpl. nia. }
  { done. }
  { simpl. intros k Hk. unfold word_at. simpl.
    replace (d + _ + 4 * k) with (d + 4 * (w * (128 - 2 ^ (7 - Z.of_nat l)) + k)) by lia.
    apply Hmap. apply (level_fits w l k); [lia|done|done]. }
  wp_step. unfold wp. rewrite Hrun. split; [|intros k Hk; by apply Hin].
  split_and!; [done..| |].
  - intros k Hk. simpl. set (i := k - w * (128 - 2 ^ (7 - Z.of_nat l))).
    replace (d + 4 * k) with (word_at (level_bitset d w l) i) by (unfold word_at; simpl; lia).
    destruct (decide (0 <= i < len (level_bitset d w l))) as [Hi|Hi].
    + by rewrite Hin.
    + rewrite Hout by (intros i' Hi'; unfold word_at; lia).
      replace (word_at _ i) with (d + 4 * k) by (unfold word_at; simpl; lia). by apply Hmap.
  - intros l' k Hl' Hk. simpl. rewrite Hout; [by apply Hz|].
    intros i Hi. unfold word_at. simpl in *.
    pose proof (level_order w l' l ltac:(lia) ltac:(lia)). lia.
Qed.

Lemma bit_const m b v idx :
  0 <= idx < 32 * len b ->
  (forall k, 0 <= k < len b -> m !! word_at b k = Some v) ->
  bit m b idx = Z.testbit v (idx mod 32).
Proof. intros Hi Hw. unfold bit. by rewrite Hw by by apply slot_range. Qed.

(** The bitset of every level covers all the frames. *)
Lemma level_frames d w l : (l < 7)%nat -> 32 * len (level_bitset d w l) * 2 ^ Z.of_nat l = 2048 * w.
Proof.
  intros Hl. cbn [len level_bitset].
  replace (32 * (w * 2 ^ (6 - Z.of_nat l)) * 2 ^ Z.of_nat l)
    with (32 * w * (2 ^ (6 - Z.of_nat l) * 2 ^ Z.of_nat l)) by ring.
  rewrite <- Z.pow_add_r by lia. replace (6 - Z.of_nat l + Z.of_nat l) with 6 by lia. lia.
Qed.

(** All bitsets clear except the one of the top level, which is full. *)
Lemma init_inv first upper d w s :
  0 <= w <= 512 -> 0 <= first -> first mod 4096 = 0 -> first + 4096 * (2048 * w) <= 2 ^ 32 ->
  filled first upper d w 6 s ->
  (forall k, 0 <= k < w -> words s !! word_at (level_bitset d w 6) k = Some 0xFFFFFFFF) ->
  let s' := set_buddy_base first s in
  pmm_inv s' /\ n_frames s' = 2048 * w /\
  forall f, 0 <= f < 2048 * w -> frame_free s' f = true.
Proof.
  intros Hw H0 Hmod Hmax (Hf & Hu & Hb & Hmap & Hz) Htop s'.
  assert (HN : n_frames s' = 2048 * w).
  { unfold n_frames, s'. simpl. rewrite Hb. simpl. lia. }
  assert (Hval : forall l k, (l < 7)%nat -> 0 <= k < len (level_bitset d w l) ->
            words s !! word_at (level_bitset d w l) k
            = Some (if decide (l = 6%nat) then 0xFFFFFFFF else 0)).
  { intros l k Hl Hk. case_decide; [subst; apply Htop; simpl in *; lia|].
    apply Hz; [lia|done]. }
  pose proof (level_frames d w) as Hlen.
  assert (Hwf : pmm_wf s').
  { split; simpl; rewrite ?Hb, ?HN.
    - done.
    - intros l b [Hl ->]%level_lookup. split; [|by apply Hlen].
      specialize (Hlen l Hl). pose proof (pow2_nat_pos l).
      pose proof (Z.pow_pos_nonneg 2 (6 - Z.of_nat l) ltac:(lia) ltac:(lia)).
      pose proof (Z.pow_le_mono_r 2 (6 - Z.of_nat l) 6 ltac:(lia) ltac:(lia)).
      change (2 ^ 6) with 64 in *. split_and!; [simpl; nia|simpl; nia|].
      intros i Hi. rewrite Hval by done. eexists. split; [done|]. by case_decide.
    - intros l1 l2 b1 b2 Hl [? ->]%level_lookup [? ->]%level_lookup. simpl.
      pose proof (level_order w l1 l2 ltac:(lia) ltac:(lia)). lia.
    - lia. }
  assert (Hcov : forall l f, 0 <= f < 2048 * w -> cover s' l f = bool_decide (l = 6%nat)).
  { intros l f Hr. destruct (decide (l < 7)%nat) as [Hl|Hl].
    - assert (buddies s' !! l = Some (level_bitset d w l)) as Hbl.
      { simpl. rewrite Hb. by apply level_lookup. }
      rewrite <- HN in Hr. pose proof (frame_slot s' l _ f Hwf Hbl Hr) as Hslot.
      unfold cover. rewrite Hbl.
      rewrite (bit_const _ _ (if decide (l = 6%nat) then 0xFFFFFFFF else 0))
        by (auto; intros; by apply Hval).
      pose proof (Z.mod_pos_bound (f / 2 ^ Z.of_nat l) 32 ltac:(lia)).
      case_decide; [|by rewrite Z.bits_0, bool_decide_eq_false_2].
      rewrite bool_decide_eq_true_2 by done. change 0xFFFFFFFF with (Z.ones 32).
      apply Z.ones_spec_low. lia.
    - rewrite bool_decide_eq_false_2 by lia. apply not_true_is_false. intros Hc.
      by pose proof (cover_level s' l f Hc Hwf). }
  split_and!; [split; [done|]|done|].
  - intros f l1 l2. rewrite HN. intros Hr. rewrite !Hcov by done.
    intros H1%bool_decide_eq_true H2%bool_decide_eq_true. congruence.
  - intros f Hr. apply frame_free_iff; [done|]. exists 6%nat. by rewrite Hcov.
Qed.

(** The first two assignments and the first loop: the bitsets up to level [j]. *)
Definition placed (first upper d w : Z) (mem : gmap Z Z) (j : Z) (s : pmm_state) : Prop :=
  managed_first s = first /\ managed_last s = upper /\ words s = mem /\
  length (buddies s) = 7%nat /\
  forall l, Z.of_nat l < j -> buddies s !! l = Some (level_bitset d w l).

Lemma put_buddy_ok first upper d w mem l s b :
  placed first upper d w mem (Z.of_nat l) s -> (l < 7)%nat -> b = level_bitset d w l ->
  wp (put_buddy (Z.of_nat l) b) s (fun _ s' => placed first upper d w mem (Z.of_nat l + 1) s').
Proof.
  intros (Hf & Hu & Hm & Hlen & Hb) Hl ->. unfold wp, put_buddy.
  destruct (Z.ltb_spec (Z.of_nat l) 0); [lia|]. rewrite Nat2Z.id.
  destruct (lookup_lt_is_Some_2 (buddies s) l) as [b ->]; [lia|].
  split_and!; simpl; [done..|by rewrite length_insert|].
  intros l' Hl'. destruct (decide (l' = l)) as [->|].
  - apply list_lookup_insert_eq. lia.
  - rewrite list_lookup_insert_ne by done. apply Hb. lia.
Qed.

Lemma placed_all first upper d w mem s :
  placed first upper d w mem 7 s -> buddies s = level_bitsets d w.
Proof.
  intros (_ & _ & _ & Hlen & Hb). apply list_eq. intros l.
  destruct (decide (l < 7)%nat) as [Hl|Hl].
  - rewrite Hb by lia. symmetry. by apply level_lookup.
  - rewrite lookup_ge_None_2 by lia. symmetry. apply lookup_ge_None_2.
    unfold level_bitsets. rewrite length_fmap, length_seq. lia.
Qed.

(** The next bitset starts where the previous one ends and is half as long. *)
Lemma level_next d w l :
  0 <= w -> (l < 6)%nat ->
  {| data := data (level_bitset d w l) + 4 * len (level_bitset d w l);
     len := Z.shiftr (2048 * w) (5 + (Z.of_nat l + 1)) |} = level_bitset d w (S l).
Proof.
  intros Hw Hl. unfold level_bitset. cbn [data len]. f_equal.
  - replace (7 - Z.of_nat l) with (Z.succ (6 - Z.of_nat l)) by lia.
    replace (7 - Z.of_nat (S l)) with (6 - Z.of_nat l) by lia.
    rewrite Z.pow_succ_r by lia. ring.
  - rewrite Z.shiftr_div_pow2 by lia.
    replace (2048 * w) with (w * 2 ^ (6 - Z.of_nat (S l)) * 2 ^ (5 + (Z.of_nat l + 1))).
    + apply Z.div_mul, Z.pow_nonzero; lia.
    + rewrite <- Z.mul_assoc, <- Z.pow_add_r by lia.
      replace (_ + _) with 11 by lia. lia.
Qed.

Lemma place_loop first upper d w mem s :
  0 <= w -> placed first upper d w mem 1 s ->
  wp (for_loop 6 1 (fun i =>
        prev ← buddy (i - 1);
        put_buddy i {| data := data prev + 4 * len prev;
                       len := Z.shiftr (2048 * w) (5 + i) |})) s
     (fun _ s' => placed first upper d w mem 7 s').
Proof.
  intros Hw Hs. apply (wp_for 6 _ (placed first upper d w mem)); [done|].
  intros i s' Hi Hs'. assert (exists l, i = Z.of_nat (S l) /\ (l < 6)%nat) as (l & -> & Hl).
  { exists (Z.to_nat (i - 1)). lia. }
  wp_step. unfold wp at 1, buddy. destruct (Z.ltb_spec (Z.of_nat (S l) - 1) 0); [lia|].
  replace (Z.to_nat (Z.of_nat (S l) - 1)) with l by lia.
  rewrite (proj2 (proj2 (proj2 (proj2 Hs')))) by lia.
  apply put_buddy_ok; [done|lia|]. rewrite <- level_next by lia.
  by replace (Z.of_nat (S l)) with (Z.of_nat l + 1) by lia.
Qed.

Lemma fill_loop first upper d w s :
  0 <= w <= 512 -> filled first upper d w 0 s ->
  wp (for_loop 6 0 (fun i => on_buddy i (fun b => bitset_fill b 0))) s
     (fun _ s' => filled first upper d w 6 s').
Proof.
  intros Hw Hs. apply (wp_for 6 _ (filled first upper d w)); [done|].
  intros i s' Hi Hs'. assert (exists l, i = Z.of_nat l /\ (l < 6)%nat) as (l & -> & Hl).
  { exists (Z.to_nat i). lia. }
  eapply wp_mono; [by apply fill_level; [|lia|..]|].
  intros [] s'' [(? & ? & ? & ? & Hz) Hnew]. split_and!; [done..|].
  intros l' k Hl' Hk. destruct (decide (l' = l)) as [->|]; [by apply Hnew|].
  apply Hz; [lia|done].
Qed.

(** What [pmm_init] relies on: the estimated bytes for the bitsets lie between the
    kernel image and both the end of the boot mapping (8 MiB) and of memory, and
    are mapped. *)
Definition pmm_boot_ok (upper_bound : Z) (mem : gmap Z Z) : Prop :=
  let required := pmm_estimate_bytes_required (upper_bound - KERNEL_END_PHYS) in
  0 <= KERNEL_END_PHYS /\ upper_bound < 2 ^ 32 /\
  KERNEL_END_PHYS + required + 4096 <= upper_bound /\
  KERNEL_END_PHYS + required + 4096 <= KERNEL_BOOT_MAPPED - KERNEL_OFFSET /\
  forall i, 0 <= i -> 4 * (i + 1) <= required ->
    is_Some (mem !! (KERNEL_OFFSET + KERNEL_END_PHYS + 4 * i)).

(** The first managed frame and the number of groups of 2048 frames. *)
Definition pmm_first (upper_bound : Z) : Z :=
  PAGE_ALIGN (KERNEL_END_PHYS + pmm_estimate_bytes_required (upper_bound - KERNEL_END_PHYS)).
Definition pmm_groups (upper_bound : Z) : Z := (upper_bound - pmm_first upper_bound) / 4096 / 2048.

Lemma pmm_layout_arith upper mem :
  pmm_boot_ok upper mem ->
  let required := pmm_estimate_bytes_required (upper - KERNEL_END_PHYS) in
  let first := pmm_first upper in
  let w := pmm_groups upper in
  0 <= required /\ KERNEL_END_PHYS + required <= first < KERNEL_END_PHYS + required + 4096 /\
  first mod 4096 = 0 /\ 0 <= w <= 512 /\ 4 * (127 * w) <= required /\
  first + 4096 * (2048 * w) <= upper /\
  ALIGN_BITS_DOWN ((upper - first) / 4096) 11 = 2048 * w.
Proof.
  intros (H0 & H1 & H2 & H3 & _). unfold pmm_groups, pmm_first.
  unfold pmm_estimate_bytes_required in *. rewrite PAGE_SIZE_val in *.
  change (KERNEL_BOOT_MAPPED - KERNEL_OFFSET) with 0x800000 in H3.
  set (req := (upper - KERNEL_END_PHYS) / 4096 / 4) in *. cbv zeta.
  assert (0 <= req) by (unfold req in *; Z.div_mod_to_equations; lia).
  unfold PAGE_ALIGN, PAGE_BITS. rewrite ALIGN_BITS_UP_spec by lia.
  change (2 ^ 12) with 4096. set (first := _ - _ mod 4096).
  assert (KERNEL_END_PHYS + req <= first < KERNEL_END_PHYS + req + 4096 /\ first mod 4096 = 0)
    as [Hfirst Hmod] by (unfold first; Z.div_mod_to_equations; lia).
  clearbody first. rewrite ALIGN_BITS_DOWN_spec.
  - change (2 ^ 11) with 2048. unfold req in *. Z.div_mod_to_equations. lia.
  - lia.
  - unfold in_width. Z.div_mod_to_equations. lia.
Qed.

Lemma pmm_init_ok upper mem :
  pmm_boot_ok upper mem ->
  wp (pmm_init upper) (pmm_boot mem) (fun _ s =>
    pmm_inv s /\ n_frames s = 2048 * pmm_groups upper /\
    buddy_base s = pmm_first upper /\ managed_first s = pmm_first upper /\
    managed_last s = upper /\
    buddies s = level_bitsets (KERNEL_OFFSET + KERNEL_END_PHYS) (pmm_groups upper) /\
    forall f, 0 <= f < n_frames s -> frame_free s f = true).
Proof.
  intros Hok. pose proof (pmm_layout_arith upper mem Hok) as Ha. cbv zeta in Ha.
  destruct Hok as (H0 & H1 & H2 & H3 & Hmap).
  set (req := pmm_estimate_bytes_required (upper - KERNEL_END_PHYS)) in *.
  set (first := pmm_first upper) in *. set (w := pmm_groups upper) in *.
  set (d := KERNEL_OFFSET + KERNEL_END_PHYS) in *.
  destruct Ha as (Hreq & Hfirst & Hmod & Hw & Hfit & Htop & Hdown).
  change (KERNEL_BOOT_MAPPED - KERNEL_OFFSET) with 0x800000 in H3.
  unfold pmm_init. wp_step. wp_step.
  rewrite (wrap_small 32 (upper - _)) by (unfold in_width; lia). fold req.
  rewrite (wrap_small 32 (_ + req)) by (unfold in_width; lia).
  change (PAGE_ALIGN (KERNEL_END_PHYS + req)) with first.
  rewrite (wrap_small 32 (upper - first)) by (unfold in_width; lia).
  rewrite PAGE_SIZE_val. change (PMM_NUM_BUDDIES - 1 + 5) with 11. rewrite Hdown.
  do 4 wp_step. { apply Z.leb_le. unfold KERNEL_BOOT_MAPPED. lia. }
  replace (pmm_phys2virtual KERNEL_END_PHYS) with d
    by (unfold pmm_phys2virtual; rewrite wrap_small; unfold in_width, d, KERNEL_OFFSET; lia).
  wp_step. eapply wp_mono.
  { apply (put_buddy_ok first upper d w mem 0); [|lia|].
    - split_and!; [done..|]. intros l Hl. lia.
    - unfold level_bitset. f_equal; [simpl; lia|].
      replace (2048 * w) with (w * 64 * 32) by lia. by rewrite Z.div_mul. }
  intros [] s1 Hs1. wp_step. eapply wp_mono; [apply (place_loop first upper d w mem); [lia|done]|].
  intros [] s2 Hs2. wp_step. eapply wp_mono.
  { apply (fill_loop first upper d w); [done|]. pose proof (placed_all _ _ _ _ _ _ Hs2).
    destruct Hs2 as (? & ? & Hm & _). unfold filled. split_and!; [done..| |lia].
    intros k Hk. rewrite Hm. apply Hmap; lia. }
  intros [] s3 Hs3. wp_step. eapply wp_mono.
  { by apply (fill_level first upper d w 6 0xFFFFFFFF); [|lia|..]. }
  intros [] s4 [Hs4 Hones]. wp_step.
  destruct (init_inv first upper d w s4) as (Hinv & HN & Hfree);
    [lia..|done|intros k Hk; apply Hones; simpl; lia|].
  destruct Hs4 as (? & ? & ? & _). split_and!; auto. by rewrite HN.
Qed.

End Init.

(** ** Requests that are not a power of two *)

(** A request larger than the block it is given recurses below level 0. *)
Lemma mark_used_undef l : forall s n idx,
  pmm_wf s -> (l < 7)%nat -> 0 <= idx -> (idx + 1) * 2 ^ Z.of_nat l <= n_frames s ->
  2 ^ Z.of_nat l < n -> mark_used l n idx s = Undef.
Proof.
  induction l as [|l IH]; intros s n idx Hwf Hl Hi0 Hi Hn.
  - cbn [mark_used]. change (Z.shiftl 1 (Z.of_nat 0)) with 1.
    change (2 ^ Z.of_nat 0) with 1 in Hn.
    destruct (Z.eqb_spec n 1); [lia|]. destruct (Z.eqb_spec n 0); [lia|done].
  - pose proof (pow2_nat_pos l). pose proof (pow2_S l).
    rewrite mark_used_node by lia.
    destruct (half_frames s s l idx ltac:(done) Hi0 Hi) as [Hh1 Hh2].
    pose proof (idx_u32 s l (idx * 2 + 1) Hwf ltac:(lia) Hh2).
    rewrite (wrap_small 32 (idx * 2)), (wrap_small 32 (idx * 2 + 1))
      by (unfold in_width in *; lia).
    rewrite Z.min_r, Z.max_r, (mark_used_leaf l (2 ^ Z.of_nat l)) by lia.
    assert (wp (on_buddy (Z.of_nat l) (fun b =>
              bitset_write b (idx * 2) (bool_decide (2 ^ Z.of_nat l = 0)))) s
            (fun _ s' => marked s s' l (idx * 2) (bool_decide (2 ^ Z.of_nat l = 0))))
      as Hwp.
    { apply on_buddy_write; auto using bitset_write_ok with lia. }
    apply wp_ok in Hwp as ([] & s1 & Hrun & Hwf1 & Hsame1 & _).
    rewrite (bind_ok _ _ _ _ _ Hrun). apply IH; auto with lia.
    by apply (half_frames s s1 l idx).
Qed.

Lemma pmm_alloc_not_pow2 s k n f :
  pmm_wf s -> (k <= 6)%nat -> 2 ^ Z.of_nat k < n < 2 ^ Z.of_nat (S k) ->
  0 <= f < n_frames s -> cover s k f = true ->
  pmm_alloc n s = Undef.
Proof.
  intros Hwf Hk Hn Hf Hc. unfold pmm_alloc, pmm_alloc_buddy.
  pose proof (pow2_nat_pos k).
  pose proof (Z.pow_le_mono_r 2 (Z.of_nat (S k)) 7 ltac:(lia) ltac:(lia)).
  change (2 ^ 7) with 128 in *. change (2 ^ 32) with 4294967296 in *.
  rewrite log2_spec by (unfold in_width; lia).
  assert (Z.log2 n = Z.of_nat k) as ->.
  { apply Z.log2_unique; [lia|]. rewrite <- Nat2Z.inj_succ. lia. }
  unfold PMM_NUM_BUDDIES. replace (Z.to_nat (7 - Z.of_nat k)) with (S (6 - k)) by lia.
  cbn [alloc_from]. destruct (on_buddy_find s k Hwf) as (r & Hrun & Hr); [lia|].
  rewrite (bind_ok _ _ _ _ _ Hrun). destruct r as [idx|]; [|by rewrite Hr in Hc].
  destruct Hr as (Hi0 & Hi & _).
  pose proof (on_buddy_write s k idx false (fun b => bitset_clear b idx) Hwf) as Hwp.
  apply wp_ok in Hwp as ([] & s1 & Hrun1 & Hwf1 & Hsame1 & _);
    [|lia|done..|auto using bitset_clear_ok].
  rewrite (bind_ok _ _ _ _ _ Hrun1), Nat2Z.id. unfold mbind at 1, M_bind at 1.
  by rewrite mark_used_undef by
    (done || lia || by rewrite (same_layout_frames _ _ Hsame1)).
Qed.

(** ** The properties *)

(** C31: [pmm_init] places the seven bitsets one after the other inside the bytes it
    estimated for them, right behind the kernel image, and leaves every managed
    frame free: the frames from the page-aligned end of the bitsets on, in groups
    of 2048. *)
Theorem pmm_init_correct `{Layout} upper mem :
  pmm_boot_ok upper mem ->
  exists s, pmm_init upper (pmm_boot mem) = Ok (tt, s) /\ pmm_inv s /\
    n_frames s = 2048 * ((upper - buddy_base s) / 4096 / 2048) /\
    buddy_base s
    = PAGE_ALIGN (KERNEL_END_PHYS + pmm_estimate_bytes_required (upper - KERNEL_END_PHYS)) /\
    (forall l b, buddies s !! l = Some b ->
       KERNEL_OFFSET + KERNEL_END_PHYS <= data b /\
       data b + 4 * len b <= KERNEL_OFFSET + KERNEL_END_PHYS
                             + pmm_estimate_bytes_required (upper - KERNEL_END_PHYS)) /\
    (forall f, 0 <= f < n_frames s -> frame_free s f = true).
Proof.
  intros Hok. pose proof (pmm_layout_arith upper mem Hok) as Ha. cbv zeta in Ha.
  destruct Ha as (Hreq & _ & _ & Hw & Hfit & _).
  pose proof (pmm_init_ok upper mem Hok) as Hwp.
  apply wp_ok in Hwp as ([] & s & Hrun & Hinv & HN & Hbase & _ & _ & Hb & Hfree).
  exists s. rewrite HN, Hbase. split_and!; [done..| |by rewrite HN in Hfree].
  intros l b Hlb. rewrite Hb in Hlb. apply level_lookup in Hlb as [Hl ->]. simpl.
  pose proof (level_order (pmm_groups upper) l 7 (proj1 Hw) ltac:(lia)) as Ho.
  change (2 ^ (7 - Z.of_nat 7)) with 1 in Ho.
  pose proof (Z.pow_le_mono_r 2 (7 - Z.of_nat l) 7 ltac:(lia) ltac:(lia)).
  change (2 ^ 7) with 128 in *. nia.
Qed.

(** C13: [pmm_alloc] of 2^k frames (k <= 6) returns an aligned block of frames that
    were all free, marks exactly these frames used, and keeps the invariant; it
    reports [E_NOMEM] (with address 0 and an unchanged state) only when no free
    block of at least 2^k frames exists. *)
Theorem pmm_alloc_correct s k :
  pmm_inv s -> (k <= 6)%nat ->
  exists e a s', pmm_alloc (2 ^ Z.of_nat k) s = Ok ((e, a), s') /\ pmm_inv s' /\
    n_frames s' = n_frames s /\ buddy_base s' = buddy_base s /\
    match e with
    | E_OK => exists f0, a = buddy_base s + 4096 * f0 /\ f0 mod 2 ^ Z.of_nat k = 0 /\
        0 <= f0 /\ f0 + 2 ^ Z.of_nat k <= n_frames s /\
        (forall f, f0 <= f < f0 + 2 ^ Z.of_nat k -> frame_free s f = true) /\
        (forall f, 0 <= f < n_frames s -> frame_free s' f
           = frame_free s f && negb (bool_decide (f0 <= f < f0 + 2 ^ Z.of_nat k)))
    | E_NOMEM => a = 0 /\ s' = s /\
        forall l f, (k <= l)%nat -> 0 <= f < n_frames s -> cover s l f = false
    | E_DEVICE => False
    end.
Proof.
  intros Hinv Hk. pose proof (pmm_alloc_ok s k Hinv Hk) as Hwp.
  apply wp_ok in Hwp as ([e a] & s' & Hrun & Hinv' & Hsame & Hpost). simpl in *.
  exists e, a, s'. split_and!; [done..|by apply same_layout_frames|apply Hsame|].
  destruct e; [|done..]. destruct Hpost as (f0 & l & Hl & -> & H0 & H1 & Hmod & Hfree & Hafter).
  pose proof (Z.pow_le_mono_r 2 (Z.of_nat k) (Z.of_nat l) ltac:(lia) ltac:(lia)).
  exists f0. split_and!; [done|by eapply mod_pow2_le|lia..| |done].
  intros f Hf. apply Hfree. lia.
Qed.

(** C14: [pmm_free] of an aligned block of 2^k frames, none of them free, makes
    exactly these frames free and keeps the invariant. *)
Theorem pmm_free_correct s k f0 :
  pmm_inv s -> (k <= 6)%nat -> 0 <= f0 -> f0 + 2 ^ Z.of_nat k <= n_frames s ->
  f0 mod 2 ^ Z.of_nat k = 0 ->
  (forall f, f0 <= f < f0 + 2 ^ Z.of_nat k -> frame_free s f = false) ->
  exists s', pmm_free (2 ^ Z.of_nat k) (buddy_base s + 4096 * f0) s = Ok (tt, s') /\
    pmm_inv s' /\ n_frames s' = n_frames s /\
    forall f, 0 <= f < n_frames s ->
      frame_free s' f = frame_free s f || bool_decide (f0 <= f < f0 + 2 ^ Z.of_nat k).
Proof.
  intros Hinv Hk H0 H1 Hmod Hused.
  pose proof (pmm_free_ok s k f0 Hinv Hk H0 H1 Hmod Hused) as Hwp.
  apply wp_ok in Hwp as ([] & s' & Hrun & Hinv' & Hsame & Hafter).
  exists s'. split_and!; [done..|by apply same_layout_frames|done].
Qed.

(** C9: whatever sequence of allocations (of 1 to 64 frames, powers of two) and
    releases of held blocks a client performs, no call panics or leaves defined
    behaviour, and every frame that was free at the start is at the end either
    free or in exactly one of the blocks the client holds, while no other frame is
    free or held: the allocator neither loses a frame nor hands one out twice. *)
Theorem pmm_ops_account s ops :
  pmm_inv s -> Forall op_valid ops ->
  exists live s', run_ops ops [] s = Ok (live, s') /\ pmm_inv s' /\
    forall f, 0 <= f < n_frames s ->
      (Nat.b2n (frame_free s' f) + owners s' live f = Nat.b2n (frame_free s f))%nat.
Proof.
  intros Hinv Hops.
  enough (forall live s1, accounted s s1 live ->
            wp (run_ops ops live) s1 (fun live' s' => accounted s s' live')) as Hall.
  { destruct (proj1 (wp_ok _ _ _) (Hall [] s ltac:(split_and!; [done..|auto])))
      as (live & s' & Hrun & Hinv' & _ & _ & Hacc). exists live, s'. done. }
  clear Hinv. induction Hops as [|op ops Hop _ IH]; intros live s1 Hacc; cbn [run_ops].
  - by apply wp_ret.
  - wp_step. eapply wp_mono; [|intros live' s2; apply IH].
    destruct op; [by apply alloc_accounted|by apply free_accounted].
Qed.

(** a request that is not a power of two has undefined behaviour as soon as a
    block of the next smaller power of two is free: [mark_used] is then called
    with more frames than the block holds and recurses to level -1. *)
Theorem pmm_alloc_undefined s k n f :
  pmm_inv s -> (k <= 6)%nat -> 2 ^ Z.of_nat k < n < 2 ^ Z.of_nat (S k) ->
  0 <= f < n_frames s -> cover s k f = true ->
  pmm_alloc n s = Undef.
Proof. intros [Hwf _]. by apply pmm_alloc_not_pow2. Qed.

(** ** Examples: 8 MiB behind the kernel image *)

Definition ex_words : gmap Z Z :=
  gset_to_gmap 0 (list_to_set ((fun i => 0xC0520000 + 4 * Z.of_nat i) <$> seq 0 128)).

Lemma ex_boot_ok : @pmm_boot_ok example_layout 0xD21000 ex_words.
Proof.
  unfold pmm_boot_ok. change (pmm_estimate_bytes_required _) with 512. cbv zeta.
  change (@KERNEL_END_PHYS example_layout) with 0x520000.
  unfold KERNEL_BOOT_MAPPED, KERNEL_OFFSET. split_and!; [lia..|].
  intros i H0 H1. exists 0. apply lookup_gset_to_gmap_Some. split; [|done].
  apply elem_of_list_to_set, list_elem_of_fmap. exists (Z.to_nat i). split; [lia|].
  apply elem_of_seq. lia.
Qed.

Definition state_of {A} (r : res (A * pmm_state)) : pmm_state :=
  match r with Ok (_, s) => s | _ => pmm_boot ∅ end.

(** The state after [pmm_init], after allocating two frames from it. *)
Definition ex_pmm : pmm_state :=
  Eval vm_compute in state_of (@pmm_init example_layout 0xD21000 (pmm_boot ex_words)).
Definition ex_pmm2 : pmm_state := Eval vm_compute in state_of (pmm_alloc 2 ex_pmm).

Lemma ex_pmm_eq : ex_pmm = state_of (@pmm_init example_layout 0xD21000 (pmm_boot ex_words)).
Proof. vm_compute. reflexivity. Qed.

Lemma state_of_wp {A} (m : M pmm_state A) s (Q : A -> pmm_state -> Prop) :
  wp m s Q -> exists a, Q a (state_of (m s)).
Proof. unfold wp. destruct (m s) as [[a s']| | |]; [|done..]. by exists a. Qed.

Lemma ex_pmm_inv : pmm_inv ex_pmm.
Proof.
  destruct (state_of_wp _ _ _ (@pmm_init_ok example_layout _ _ ex_boot_ok)) as (a & Hinv & _).
  rewrite ex_pmm_eq. exact Hinv.
Qed.

Lemma alloc_state_inv s k :
  pmm_inv s -> (k <= 6)%nat -> pmm_inv (state_of (pmm_alloc (2 ^ Z.of_nat k) s)).
Proof.
  intros Hinv Hk. destruct (state_of_wp _ _ _ (pmm_alloc_ok s k Hinv Hk)) as (r & Hinv' & _).
  exact Hinv'.
Qed.

Lemma ex_pmm2_inv : pmm_inv ex_pmm2.
Proof.
  assert (ex_pmm2 = state_of (pmm_alloc 2 ex_pmm)) as -> by (vm_compute; reflexivity).
  apply (alloc_state_inv ex_pmm 1 ex_pmm_inv). lia.
Qed.

Lemma pmm_init_correct_witness :
  exists s, @pmm_init example_layout 0xD21000 (pmm_boot ex_words) = Ok (tt, s) /\
            pmm_inv s /\ n_frames s = 2048 /\ buddy_base s = 0x521000.
Proof.
  destruct (@pmm_init_correct example_layout 0xD21000 ex_words ex_boot_ok)
    as (s & Hrun & Hinv & HN & Hb & _).
  exists s. split; [exact Hrun|]. split; [exact Hinv|].
  assert (buddy_base s = 0x521000) as Hv by (rewrite Hb; vm_compute; reflexivity).
  split; [rewrite HN, Hv; vm_compute; reflexivity|exact Hv].
Defined.

Lemma pmm_alloc_correct_witness :
  exists a s', pmm_alloc (2 ^ Z.of_nat 2) ex_pmm = Ok ((E_OK, a), s') /\
               pmm_inv s' /\ a = 0x521000.
Proof.
  destruct (pmm_alloc_correct ex_pmm 2 ex_pmm_inv ltac:(lia))
    as (e & a & s' & Hrun & Hinv & _).
  assert (value_of (pmm_alloc (2 ^ Z.of_nat 2) ex_pmm) = Some (E_OK, 0x521000)) as Hc
    by (vm_compute; reflexivity).
  rewrite Hrun in Hc. simpl in Hc. injection Hc as -> ->.
  exists 0x521000, s'. split; [exact Hrun|]. split; [exact Hinv|reflexivity].
Defined.

Lemma pmm_free_correct_witness :
  exists s', pmm_free (2 ^ Z.of_nat 1) (buddy_base ex_pmm2 + 4096 * 0) ex_pmm2 = Ok (tt, s') /\
             pmm_inv s' /\ frame_free ex_pmm2 1 = false /\ frame_free s' 1 = true.
Proof.
  destruct (pmm_free_correct ex_pmm2 1 0 ex_pmm2_inv) as (s' & Hrun & Hinv & _ & Hafter).
  - lia.
  - lia.
  - vm_compute. discriminate.
  - reflexivity.
  - intros f Hf. change (2 ^ Z.of_nat 1) with 2 in Hf.
    assert (f = 0 \/ f = 1) as [->| ->] by lia; vm_compute; reflexivity.
  - exists s'. split; [exact Hrun|]. split; [exact Hinv|]. split; [vm_compute; reflexivity|].
    rewrite (Hafter 1); [vm_compute; reflexivity|]. split; [lia|vm_compute; reflexivity].
Defined.

Lemma pmm_ops_account_witness :
  exists live s',
    run_ops [OpAlloc 0; OpAlloc 4; OpFree 1; OpAlloc 6; OpAlloc 0] [] ex_pmm = Ok (live, s') /\
    pmm_inv s' /\ (Nat.b2n (frame_free s' 3) + owners s' live 3 = 1)%nat.
Proof.
  destruct (pmm_ops_account ex_pmm
              [OpAlloc 0; OpAlloc 4; OpFree 1; OpAlloc 6; OpAlloc 0] ex_pmm_inv)
    as (live & s' & Hrun & Hinv & Hacc).
  - repeat constructor; lia.
  - exists live, s'. split; [exact Hrun|]. split; [exact Hinv|].
    rewrite (Hacc 3); [vm_compute; reflexivity|]. split; [lia|vm_compute; reflexivity].
Defined.

Lemma pmm_alloc_undefined_witness : pmm_alloc 3 ex_pmm2 = Undef.
Proof.
  apply (pmm_alloc_undefined ex_pmm2 1 3 2 ex_pmm2_inv).
  - lia.
  - simpl. lia.
  - split; [lia|vm_compute; reflexivity].
  - vm_compute. reflexivity.
Defined.
