(* ===== verification/PmmFrames.v ===== *)
(** * The buddy allocator behind the interface of Frames.v *)

From S2P Require Import Prelude Common Frames.
From S2P Require Bitset Pmm.

#[global] Instance pmm_allocator : FrameAllocator Pmm.pmm_state := {|
  pmm_alloc := Pmm.pmm_alloc;
  pmm_free := Pmm.pmm_free;
  pmm_get_border := Pmm.pmm_get_border
|}.

(** The frames of the allocator, by their physical address. *)
Definition pmm_frame_managed (s : Pmm.pmm_state) (a : Z) : Prop :=
  exists f, 0 <= f < Pmm.n_frames s /\ a = Pmm.buddy_base s + 4096 * f.
Definition pmm_frame_available (s : Pmm.pmm_state) (a : Z) : Prop :=
  exists f, 0 <= f < Pmm.n_frames s /\ a = Pmm.buddy_base s + 4096 * f /\
            Pmm.frame_free s f = true.

Lemma pmm_available_managed s a : pmm_frame_available s a -> pmm_frame_managed s a.
Proof. intros (f & ? & ? & _). by exists f. Qed.

Lemma pmm_frame_managed_ok s a :
  Pmm.pmm_inv s -> pmm_frame_managed s a -> 0 <= a /\ a + 4096 <= 2 ^ 32 /\ a mod 4096 = 0.
Proof.
  intros [Hwf _] (f & Hf & ->). destruct (Pmm.wf_base s Hwf) as (? & ? & ?).
  Z.div_mod_to_equations. lia.
Qed.

Lemma pmm_managed_same s s' a :
  Pmm.same_layout s s' -> pmm_frame_managed s' a <-> pmm_frame_managed s a.
Proof.
  intros Hsame. pose proof (Pmm.same_layout_frames _ _ Hsame) as HN.
  destruct Hsame as (_ & HB & _). unfold pmm_frame_managed. by rewrite HN, HB.
Qed.

Lemma pmm_alloc_one_ok s :
  Pmm.pmm_inv s ->
  wp (Pmm.pmm_alloc 1) s (fun r s' => Pmm.pmm_inv s' /\
    (forall a, pmm_frame_managed s' a <-> pmm_frame_managed s a) /\
    match r.1 with
    | E_OK => pmm_frame_available s r.2 /\
        forall a, pmm_frame_available s' a <-> pmm_frame_available s a /\ a <> r.2
    | E_NOMEM => s' = s /\ forall a, ~ pmm_frame_available s a
    | E_DEVICE => False
    end).
Proof.
  intros Hinv. eapply wp_mono; [apply (Pmm.pmm_alloc_ok s 0 Hinv); lia|].
  intros [e a] s' (Hinv' & Hsame & Hpost). simpl in *. split; [done|].
  split; [intros; by apply pmm_managed_same|].
  destruct e; [|destruct Hpost as (_ & -> & Hno)|done].
  - destruct Hpost as (f0 & l & _ & -> & H0 & H1 & _ & Hfree & Hafter).
    pose proof (Pmm.same_layout_frames _ _ Hsame) as HN. destruct Hsame as (_ & HB & _).
    assert (0 < 2 ^ Z.of_nat l) by (apply Z.pow_pos_nonneg; lia).
    split; [exists f0; split; [lia|]; split; [done|]; apply Hfree; lia|].
    intros a. unfold pmm_frame_available. rewrite HN, HB. split.
    + intros (f & Hf & -> & Hff). rewrite Hafter, andb_true_iff, negb_true_iff in Hff by done.
      destruct Hff as [Hff Hne%bool_decide_eq_false]. split; [by exists f|lia].
    + intros [(f & Hf & -> & Hff) Hne]. exists f. split; [done|]. split; [done|].
      rewrite Hafter, Hff by done. simpl. rewrite bool_decide_false; [done|lia].
  - split; [done|]. intros x (f & Hf & _ & Hff).
    unfold Pmm.frame_free in Hff. apply existsb_exists in Hff as (l & _ & Hc).
    by rewrite Hno in Hc by lia.
Qed.

Lemma pmm_free_one_ok s a :
  Pmm.pmm_inv s -> pmm_frame_managed s a -> ~ pmm_frame_available s a ->
  wp (Pmm.pmm_free 1 a) s (fun _ s' => Pmm.pmm_inv s' /\
    (forall x, pmm_frame_managed s' x <-> pmm_frame_managed s x) /\
    forall x, pmm_frame_available s' x <-> pmm_frame_available s x \/ x = a).
Proof.
  intros Hinv (f0 & Hf0 & ->) Hused. eapply wp_mono.
  { apply (Pmm.pmm_free_ok s 0 f0 Hinv); [lia..|by rewrite Z.mod_1_r|].
    intros f Hf. change (2 ^ Z.of_nat 0) with 1 in Hf. assert (f = f0) as -> by lia.
    apply not_true_is_false. intros Ht. apply Hused. by exists f0. }
  intros [] s' (Hinv' & Hsame & Hafter). change (2 ^ Z.of_nat 0) with 1 in Hafter.
  split; [done|]. split; [intros; by apply pmm_managed_same|].
  pose proof (Pmm.same_layout_frames _ _ Hsame) as HN. destruct Hsame as (_ & HB & _).
  intros x. unfold pmm_frame_available. rewrite HN, HB. split.
  - intros (f & Hf & -> & Hff). rewrite Hafter, orb_true_iff in Hff by done.
    destruct Hff as [Hff|Heq%bool_decide_eq_true]; [left; by exists f|right; lia].
  - intros [(f & Hf & -> & Hff)| ->].
    + exists f. by rewrite Hafter, Hff.
    + exists f0. split; [done|]. split; [done|]. rewrite Hafter, orb_true_iff by done. right.
      apply bool_decide_eq_true. lia.
Qed.

#[global] Instance pmm_allocator_laws : FrameAllocatorLaws Pmm.pmm_state := {|
  frames_inv := Pmm.pmm_inv;
  frame_managed := pmm_frame_managed;
  frame_available := pmm_frame_available;
  border_of := fun s => Pmm.pmm_phys2virtual (Pmm.managed_first s);
  pmm_get_border_ok := fun s _ => conj eq_refl eq_refl;
  frame_available_managed := pmm_available_managed;
  frame_managed_ok := pmm_frame_managed_ok;
  pmm_alloc_one := pmm_alloc_one_ok;
  pmm_free_one := pmm_free_one_ok
|}.
