(* ===== verification/Cstring.v ===== *)
(** * libc/string

    The byte memory and the routines of string.c and memcpy.asm. *)

From S2P Require Import Prelude.

(** ** The byte memory

    A byte that was never written has no value to read; a store is always
    possible (which addresses are mapped is the business of the page tables). *)

Definition load8 (a : Z) : M (gmap Z Z) Z := fun m =>
  match m !! a with Some b => Ok (b, m) | None => Undef end.

Definition store8 (a v : Z) : M (gmap Z Z) unit := fun m => Ok (tt, <[a := u8 v]> m).

(** A dword, least significant byte first. *)
Definition load32 (a : Z) : M (gmap Z Z) Z :=
  b0 ← load8 a; b1 ← load8 (a + 1); b2 ← load8 (a + 2); b3 ← load8 (a + 3);
  mret (b0 + 2 ^ 8 * b1 + 2 ^ 16 * b2 + 2 ^ 24 * b3).

Definition store32 (a v : Z) : M (gmap Z Z) unit :=
  _ ← store8 a v; _ ← store8 (a + 1) (v / 2 ^ 8);
  _ ← store8 (a + 2) (v / 2 ^ 16); store8 (a + 3) (v / 2 ^ 24).

(** ** The code *)

(** [while (str[len]) len++]; a string is shorter than the memory that holds it,
    which bounds the rounds. *)
Fixpoint strlen_loop (fuel : nat) (str len : Z) : M (gmap Z Z) Z :=
  match fuel with
  | O => nofuel
  | S fuel' => c ← load8 (str + len);
               if c =? 0 then mret len else strlen_loop fuel' str (u32 (len + 1))
  end.

Definition strlen (str : Z) : M (gmap Z Z) Z := fun m =>
  strlen_loop (S (size m)) str 0 m.

Definition memset (bufptr value n : Z) : M (gmap Z Z) Z :=
  _ ← for_loop (Z.to_nat n) 0 (fun i => store8 (bufptr + i) (u8 value));
  mret bufptr.

(** memcpy.asm: a do-while loop on [ecx = size >> 2], so that a count of zero
    wraps around. *)
Definition memcpy_aligned (dest src size : Z) : M (gmap Z Z) unit :=
  let ecx := Z.shiftr size 2 in
  let rounds := if ecx =? 0 then 2 ^ 32 else ecx in
  for_loop (Z.to_nat rounds) 0 (fun i =>
    eax ← load32 (src + 4 * i);
    store32 (dest + 4 * i) eax).

Definition memcpy (dest src n : Z) : M (gmap Z Z) Z :=
  if n <? 16 then
    _ ← for_loop (Z.to_nat n) 0 (fun i => c ← load8 (src + i); store8 (dest + i) c);
    mret dest
  else
    let n_aligned := Z.land n 0xFFFFFFFC in
    _ ← memcpy_aligned dest src n_aligned;
    _ ← for_loop (Z.to_nat (n - n_aligned)) n_aligned (fun i =>
          c ← load8 (src + i); store8 (dest + i) c);
    mret dest.

(** ** Specification *)

(** Every byte of the memory is a byte. *)
Definition bytes_ok (m : gmap Z Z) : Prop := map_Forall (fun _ b => is_u8 b) m.

(** [m'] is [m] with [n] bytes at [dest] replaced by [f 0, ..., f (n - 1)]. *)
Definition written (m m' : gmap Z Z) (dest n : Z) (f : Z -> option Z) : Prop :=
  forall a, m' !! a = if decide (dest <= a < dest + n) then f (a - dest) else m !! a.

Lemma store8_ok a v m (Q : unit -> gmap Z Z -> Prop) :
  Q tt (<[a := u8 v]> m) -> wp (store8 a v) m Q.
Proof. done. Qed.

Lemma load8_ok a b m (Q : Z -> gmap Z Z -> Prop) :
  m !! a = Some b -> Q b m -> wp (load8 a) m Q.
Proof. unfold wp, load8. by intros ->. Qed.

Lemma bytes_ok_insert m a v : bytes_ok m -> bytes_ok (<[a := u8 v]> m).
Proof. intros Hm. apply map_Forall_insert_2; [apply wrap_range; lia|done]. Qed.

Lemma written_nil m dest f : written m m dest 0 f.
Proof. intros a. by rewrite decide_False by lia. Qed.

Lemma written_ok m m' dest n f :
  bytes_ok m -> written m m' dest n f -> (forall i b, 0 <= i < n -> f i = Some b -> is_u8 b) ->
  bytes_ok m'.
Proof.
  intros Hm Hw Hf a b Hab. rewrite Hw in Hab. case_decide as Hin.
  - apply (Hf (a - dest)); [lia|done].
  - by apply (Hm a).
Qed.

(** Appending one byte to a written range. *)
Lemma written_snoc m m' dest i f b :
  written m m' dest i f -> 0 <= i -> f i = Some b ->
  written m (<[dest + i := b]> m') dest (i + 1) f.
Proof.
  intros Hw Hi Hf a. destruct (decide (a = dest + i)) as [->|Hne].
  - rewrite lookup_insert_eq, decide_True by lia.
    by replace (dest + i - dest) with i by lia.
  - rewrite lookup_insert_ne, Hw by done.
    destruct (decide (dest <= a < dest + i)); [by rewrite decide_True by lia|].
    by rewrite decide_False by lia.
Qed.

(** *** [memset] *)

Lemma memset_ok bufptr value n m :
  0 <= n ->
  wp (memset bufptr value n) m (fun r m' =>
    r = bufptr /\ written m m' bufptr n (fun _ => Some (u8 value))).
Proof.
  intros Hn. unfold memset. wp_step. eapply wp_mono.
  { apply (wp_for _ _ (fun i m' => written m m' bufptr i (fun _ => Some (u8 value))));
      [apply written_nil|].
    intros i m' Hi Hw. apply store8_ok. rewrite wrap_wrap by lia.
    apply written_snoc; [done|lia|done]. }
  intros [] m' Hw. rewrite Z.add_0_l, Z2Nat.id in Hw by done. wp_steps. done.
Qed.

(** *** [memcpy] *)

(** The reference: one byte after the other. *)
Definition byte_copy (dest src n : Z) : M (gmap Z Z) unit :=
  for_loop (Z.to_nat n) 0 (fun i => c ← load8 (src + i); store8 (dest + i) c).

Lemma land_align4 n : is_u32 n -> Z.land n 0xFFFFFFFC = n - n mod 4.
Proof.
  intros Hn. change 0xFFFFFFFC with (Z.ldiff (Z.ones 32) (Z.ones 2)).
  assert (Z.land n (Z.ldiff (Z.ones 32) (Z.ones 2)) = Z.land n (Z.lnot (Z.ones 2))) as ->.
  { apply Z.bits_inj'. intros i Hi. rewrite !Z.land_spec, Z.ldiff_spec, Z.lnot_spec by done.
    destruct (Z.lt_ge_cases i 32).
    - by rewrite Z.ones_spec_low by lia.
    - by rewrite (in_width_bit_high 32 n) by (done || lia). }
  by rewrite land_lnot_ones by lia.
Qed.

(** The bytes of a little-endian dword. *)
Lemma le_bytes b0 b1 b2 b3 :
  is_u8 b0 -> is_u8 b1 -> is_u8 b2 -> is_u8 b3 ->
  let v := b0 + 2 ^ 8 * b1 + 2 ^ 16 * b2 + 2 ^ 24 * b3 in
  u8 v = b0 /\ u8 (v / 2 ^ 8) = b1 /\ u8 (v / 2 ^ 16) = b2 /\ u8 (v / 2 ^ 24) = b3.
Proof.
  unfold in_width, wrap. change (2 ^ 8) with 256. change (2 ^ 16) with 65536.
  change (2 ^ 24) with 16777216. intros. cbv zeta. Z.div_mod_to_equations. lia.
Qed.

Section Copy.
Context (m : gmap Z Z) (dest src n : Z).
Hypothesis (Hn : 0 <= n).
Hypothesis (Hbytes : bytes_ok m).
Hypothesis (Hread : forall i, 0 <= i < n -> is_Some (m !! (src + i))).
Hypothesis (Hsep : dest + n <= src \/ src + n <= dest).

(** The first [i] bytes have been copied. *)
Definition copied (i : Z) (m' : gmap Z Z) : Prop :=
  written m m' dest i (fun j => m !! (src + j)).

(** The source is still what it was. *)
Lemma copied_source i j m' :
  copied i m' -> 0 <= i <= n -> 0 <= j < n ->
  exists b, m' !! (src + j) = Some b /\ m !! (src + j) = Some b /\ is_u8 b.
Proof.
  intros Hc Hi Hj. destruct (Hread j Hj) as [b Hb]. exists b. split_and!; [|done|].
  - rewrite Hc, decide_False by lia. done.
  - by apply (Hbytes (src + j)).
Qed.

Lemma copied_snoc i k a b m' :
  copied i m' -> 0 <= i < n -> m !! (src + i) = Some b -> a = dest + i -> k = i + 1 ->
  copied k (<[a := b]> m').
Proof. intros Hc Hi Hb -> ->. apply written_snoc; [done|lia|done]. Qed.

Lemma copy_byte i m' :
  copied i m' -> 0 <= i < n ->
  wp (c ← load8 (src + i); store8 (dest + i) c) m' (fun _ m'' => copied (i + 1) m'').
Proof.
  intros Hc Hi. destruct (copied_source i i m') as (b & Hb & Hb0 & Hu); [done|lia..|].
  wp_step. eapply load8_ok; [done|]. apply store8_ok. rewrite wrap_small by done.
  by eapply copied_snoc.
Qed.

Lemma copy_bytes k i m' :
  copied i m' -> 0 <= i -> i + Z.of_nat k <= n ->
  wp (for_loop k i (fun i => c ← load8 (src + i); store8 (dest + i) c)) m'
     (fun _ m'' => copied (i + Z.of_nat k) m'').
Proof.
  intros Hc Hi Hk. apply (wp_for _ _ copied); [done|].
  intros j m1 Hj Hm1. apply copy_byte; [done|lia].
Qed.

Lemma copy_dword i m' :
  copied (4 * i) m' -> 0 <= i -> 4 * i + 4 <= n ->
  wp (eax ← load32 (src + 4 * i); store32 (dest + 4 * i) eax) m'
     (fun _ m'' => copied (4 * (i + 1)) m'').
Proof.
  intros Hc Hi Hle.
  destruct (copied_source _ (4 * i) m' Hc) as (b0 & H0 & E0 & U0); [lia..|].
  destruct (copied_source _ (4 * i + 1) m' Hc) as (b1 & H1 & E1 & U1); [lia..|].
  destruct (copied_source _ (4 * i + 2) m' Hc) as (b2 & H2 & E2 & U2); [lia..|].
  destruct (copied_source _ (4 * i + 3) m' Hc) as (b3 & H3 & E3 & U3); [lia..|].
  destruct (le_bytes b0 b1 b2 b3 U0 U1 U2 U3) as (L0 & L1 & L2 & L3).
  rewrite !Z.add_assoc in H1, H2, H3.
  wp_step. unfold load32. do 4 (wp_step; eapply load8_ok; [done|]). wp_step.
  unfold store32. do 3 (wp_step; apply store8_ok). apply store8_ok.
  rewrite L0, L1, L2, L3.
  apply (copied_snoc (4 * i + 3)); [|lia|done|lia..].
  apply (copied_snoc (4 * i + 2)); [|lia|done|lia..].
  apply (copied_snoc (4 * i + 1)); [|lia|done|lia..].
  apply (copied_snoc (4 * i)); [done|lia|done|lia..].
Qed.

Lemma memcpy_ok :
  n < 2 ^ 32 ->
  wp (memcpy dest src n) m (fun r m' => r = dest /\ copied n m').
Proof.
  intros Hu. unfold memcpy. destruct (Z.ltb_spec n 16) as [Hlt|Hge].
  - wp_step. eapply wp_mono; [apply (copy_bytes (Z.to_nat n) 0 m); [apply written_nil|lia..]|].
    intros [] m' Hc. rewrite Z.add_0_l, Z2Nat.id in Hc by done. wp_steps. done.
  - rewrite land_align4 by done. pose proof (Z.mod_pos_bound n 4 ltac:(lia)) as Hmod.
    assert (Z.shiftr (n - n mod 4) 2 = n / 4) as Hshift.
    { rewrite Z.shiftr_div_pow2 by lia. change (2 ^ 2) with 4. Z.div_mod_to_equations. lia. }
    assert (4 * (n / 4) = n - n mod 4) as Hq by (Z.div_mod_to_equations; lia).
    wp_step. eapply wp_mono.
    { unfold memcpy_aligned. rewrite Hshift. destruct (Z.eqb_spec (n / 4) 0); [lia|].
      apply (wp_for _ _ (fun i => copied (4 * i))); [apply written_nil|].
      intros i m' Hi Hc. apply copy_dword; [done|lia..]. }
    intros [] m1 Hc. rewrite Z.add_0_l, Z2Nat.id, Hq in Hc by lia.
    wp_step. eapply wp_mono; [apply (copy_bytes (Z.to_nat _) (n - n mod 4) m1); [done|lia..]|].
    intros [] m2 Hc2. wp_steps. split; [done|].
    by replace (_ + Z.of_nat _) with n in Hc2 by lia.
Qed.
End Copy.

(** *** [strlen] *)

(** A NUL-terminated string of length [k] at [str]. *)
Definition cstring (m : gmap Z Z) (str k : Z) : Prop :=
  0 <= k /\ m !! (str + k) = Some 0 /\
  forall i, 0 <= i < k -> exists c, m !! (str + i) = Some c /\ c <> 0.

(** Bytes at consecutive addresses are distinct entries of the memory. *)
Lemma range_size (m : gmap Z Z) a n :
  (forall i, 0 <= i < Z.of_nat n -> is_Some (m !! (a + i))) -> (n <= size m)%nat.
Proof.
  intros Hr. set (X := list_to_set ((fun i => a + Z.of_nat i) <$> seq 0 n) : gset Z).
  assert (size X = n) as Hsz.
  { unfold X. rewrite size_list_to_set, length_fmap, length_seq; [done|].
    apply NoDup_fmap_2; [intros ???; lia|apply NoDup_seq]. }
  rewrite <- Hsz, <- (size_dom (D:=gset Z)). apply subseteq_size. intros x Hx.
  apply elem_of_list_to_set, list_elem_of_fmap in Hx as (i & -> & Hi).
  apply elem_of_seq in Hi. apply elem_of_dom, Hr. lia.
Qed.

Lemma strlen_loop_ok m str k : forall fuel i,
  cstring m str k -> k < 2 ^ 32 -> 0 <= i <= k -> k - i < Z.of_nat fuel ->
  strlen_loop fuel str i m = Ok (k, m).
Proof.
  induction fuel as [|fuel IH]; intros i Hs Hk Hi Hf; [lia|]. cbn [strlen_loop].
  pose proof Hs as (H0 & Hend & Hin). unfold mbind, M_bind, load8.
  destruct (decide (i = k)) as [->|Hne]; [by rewrite Hend|].
  destruct (Hin i ltac:(lia)) as (c & -> & Hc). destruct (Z.eqb_spec c 0); [done|].
  rewrite wrap_small by (unfold in_width; lia). apply IH; [done|lia..].
Qed.

Lemma strlen_ok m str k : cstring m str k -> k < 2 ^ 32 -> strlen str m = Ok (k, m).
Proof.
  intros Hs Hk. pose proof Hs as (H0 & Hend & Hin).
  apply strlen_loop_ok; [done|done|lia|].
  enough (Z.to_nat (k + 1) <= size m)%nat by lia. apply (range_size m str).
  intros i Hi. destruct (decide (i = k)) as [->|]; [by eexists|].
  destruct (Hin i ltac:(lia)) as (c & -> & _). done.
Qed.

(** *** The properties *)

(** C26: [memcpy] is equivalent to copying byte by byte: with its byte loop below 16 bytes, with
    the dword loop of memcpy.asm and a byte loop for the rest from there on, it returns
    and leaves the same. *)
Theorem memcpy_bytewise m dest src n :
  0 <= n < 2 ^ 32 -> bytes_ok m ->
  (forall i, 0 <= i < n -> is_Some (m !! (src + i))) ->
  dest + n <= src \/ src + n <= dest ->
  memcpy dest src n m = (_ ← byte_copy dest src n; mret dest) m.
Proof.
  intros Hn Hb Hr Hs.
  destruct (proj1 (wp_ok _ _ _) (memcpy_ok m dest src n ltac:(lia) Hb Hr Hs ltac:(lia))) as (r & m1 & -> & -> & H1).
  assert (wp (byte_copy dest src n) m (fun _ m' => copied m dest src n m')) as Hw.
  { unfold byte_copy. pose proof (copy_bytes m dest src n Hb Hr Hs (Z.to_nat n) 0 m) as Hc.
    rewrite Z.add_0_l, Z2Nat.id in Hc by lia. apply Hc; [apply written_nil|lia|lia]. }
  destruct (proj1 (wp_ok _ _ _) Hw) as ([] & m2 & Hrun & H2). rewrite (bind_ok _ _ _ _ _ Hrun).
  assert (m1 = m2) as -> by (apply map_eq; intros a; by rewrite H1, H2). done.
Qed.

(** [memcpy] of [n] readable bytes between ranges that do not overlap copies
    them all, whether it takes the byte loop (below 16 bytes) or the dword loop of
    memcpy.asm and the byte loop for the rest, and changes nothing else. *)
Theorem memcpy_copies m dest src n :
  0 <= n < 2 ^ 32 -> bytes_ok m ->
  (forall i, 0 <= i < n -> is_Some (m !! (src + i))) ->
  dest + n <= src \/ src + n <= dest ->
  exists m', memcpy dest src n m = Ok (dest, m') /\
    (forall i, 0 <= i < n -> m' !! (dest + i) = m !! (src + i)) /\
    (forall a, ~ dest <= a < dest + n -> m' !! a = m !! a).
Proof.
  intros Hn Hb Hr Hs.
  pose proof (memcpy_ok m dest src n ltac:(lia) Hb Hr Hs ltac:(lia)) as Hwp.
  apply wp_ok in Hwp as (r & m' & Hrun & -> & Hc). exists m'. split_and!; [done| |].
  - intros i Hi. rewrite Hc, decide_True by lia. by replace (dest + i - dest) with i by lia.
  - intros a Ha. by rewrite Hc, decide_False.
Qed.

(** [memset] writes the low byte of [value] to each of the [n] bytes at [s],
    returns [s] and changes nothing else. *)
Theorem memset_fills m s value n :
  0 <= n ->
  exists m', memset s value n m = Ok (s, m') /\
    (forall i, 0 <= i < n -> m' !! (s + i) = Some (u8 value)) /\
    (forall a, ~ s <= a < s + n -> m' !! a = m !! a).
Proof.
  intros Hn. pose proof (memset_ok s value n m Hn) as Hwp.
  apply wp_ok in Hwp as (r & m' & Hrun & -> & Hw). exists m'. split_and!; [done| |].
  - intros i Hi. by rewrite Hw, decide_True by lia.
  - intros a Ha. by rewrite Hw, decide_False.
Qed.

(** [strlen] terminates on every NUL-terminated string shorter than 4 GiB and
    returns the index of its terminator. *)
Theorem strlen_correct m str k :
  0 <= k < 2 ^ 32 -> m !! (str + k) = Some 0 ->
  (forall i, 0 <= i < k -> exists c, m !! (str + i) = Some c /\ c <> 0) ->
  strlen str m = Ok (k, m).
Proof. intros Hk Hend Hin. by apply strlen_ok; [split_and!; [lia|..]|lia]. Qed.

(** ** Examples *)

(** Twenty bytes 1, 2, ..., 20 followed by a NUL at address 100. *)
Definition ex_bytes : gmap Z Z :=
  list_to_map (((fun i => (100 + Z.of_nat i, 1 + Z.of_nat i)) <$> seq 0 20) ++ [(120, 0)]).

Lemma ex_bytes_lookup i : 0 <= i < 20 -> ex_bytes !! (100 + i) = Some (1 + i).
Proof.
  intros Hi. assert (forallb (fun k => bool_decide
    (ex_bytes !! (100 + Z.of_nat k) = Some (1 + Z.of_nat k))) (seq 0 20) = true) as Hall
    by (vm_compute; reflexivity).
  rewrite forallb_forall in Hall. specialize (Hall (Z.to_nat i)).
  rewrite Z2Nat.id in Hall by lia. eapply bool_decide_eq_true, Hall, in_seq. lia.
Qed.

Lemma ex_bytes_ok : bytes_ok ex_bytes.
Proof. apply (bool_decide_eq_true_1 _). vm_compute. reflexivity. Qed.

Lemma memcpy_bytewise_witness :
  memcpy 200 100 19 ex_bytes = (_ ← byte_copy 200 100 19; mret 200) ex_bytes.
Proof.
  apply memcpy_bytewise; [lia|exact ex_bytes_ok| |lia].
  intros i Hi. rewrite ex_bytes_lookup by lia. by eexists.
Defined.

Lemma memcpy_copies_witness :
  exists m', memcpy 200 100 19 ex_bytes = Ok (200, m') /\ m' !! (200 + 18) = Some 19.
Proof.
  destruct (memcpy_copies ex_bytes 200 100 19) as (m' & Hrun & Hin & _).
  - lia.
  - exact ex_bytes_ok.
  - intros i Hi. rewrite ex_bytes_lookup by lia. eexists. reflexivity.
  - lia.
  - exists m'. split; [exact Hrun|]. rewrite Hin by lia. rewrite ex_bytes_lookup by lia.
    reflexivity.
Defined.

Lemma memset_fills_witness :
  exists m', memset 100 0xAA 8 ex_bytes = Ok (100, m') /\ m' !! (100 + 7) = Some 0xAA.
Proof.
  destruct (memset_fills ex_bytes 100 0xAA 8) as (m' & Hrun & Hin & _); [lia|].
  exists m'. split; [exact Hrun|]. rewrite Hin by lia. reflexivity.
Defined.

Lemma strlen_correct_witness : strlen 100 ex_bytes = Ok (20, ex_bytes).
Proof.
  apply (strlen_correct ex_bytes 100 20); [lia|vm_compute; reflexivity|].
  intros i Hi. exists (1 + i). split; [apply ex_bytes_lookup; lia|lia].
Defined.
