(* ===== verification/Cpu.v ===== *)
(** * The processor, as far as the assembly files use it

    Registers, memory accesses and the instructions of boot.asm, paging.asm and isr.asm.
    What is behind an access (physical memory with or without paging, or the linear
    memory of the kernel) is the class [Bus].  Code is a list of instructions; how many
    bytes each takes is up to the assembler, a parameter.  Of the status flags only those
    that are read are followed: the sign, the overflow and the interrupt flag. *)

From S2P Require Import Prelude Cstring.

(** ** Dwords in a memory of bytes *)

Definition poke (a v : Z) (m : gmap Z Z) : gmap Z Z :=
  <[a + 3 := u8 (v / 2 ^ 24)]> (<[a + 2 := u8 (v / 2 ^ 16)]> (<[a + 1 := u8 (v / 2 ^ 8)]> (<[a := u8 v]> m))).
Definition dword (m : gmap Z Z) (a : Z) : option Z :=
  b0 ← m !! a; b1 ← m !! (a + 1); b2 ← m !! (a + 2); b3 ← m !! (a + 3);
  Some (b0 + 2 ^ 8 * b1 + 2 ^ 16 * b2 + 2 ^ 24 * b3).

Lemma store32_poke a v m : store32 a v m = Ok (tt, poke a v m).
Proof. done. Qed.

Lemma load32_dword a m v : dword m a = Some v -> load32 a m = Ok (v, m).
Proof.
  unfold dword, load32, load8. intros Hv. destruct (m !! a) as [b0|] eqn:E0; [|done].
  destruct (m !! (a + 1)) as [b1|] eqn:E1; [|done]. destruct (m !! (a + 2)) as [b2|] eqn:E2; [|done].
  destruct (m !! (a + 3)) as [b3|] eqn:E3; [|done]. injection Hv as <-.
  unfold mbind, M_bind. by rewrite E0, E1, E2, E3.
Qed.

Lemma dword_bytes m m' a :
  (forall i, a <= i < a + 4 -> m' !! i = m !! i) -> dword m' a = dword m a.
Proof. intros Hm. unfold dword. by rewrite !Hm by lia. Qed.

Lemma poke_away a v m i : ~ a <= i < a + 4 -> poke a v m !! i = m !! i.
Proof. intros Hi. unfold poke. by rewrite !lookup_insert_ne by lia. Qed.

Lemma dword_poke_same a v m : is_u32 v -> dword (poke a v m) a = Some v.
Proof.
  intros Hv. unfold in_width in Hv. unfold dword, poke.
  repeat first [rewrite lookup_insert_eq | rewrite lookup_insert_ne by lia]. cbn [mbind option_bind]. f_equal.
  unfold wrap. change (2 ^ 8) with 256. change (2 ^ 16) with 65536. change (2 ^ 24) with 16777216.
  replace (v / 65536) with (v / 256 / 256) by (rewrite Z.div_div; [done|lia..]).
  replace (v / 16777216) with (v / 256 / 256 / 256) by (rewrite !Z.div_div; [done|lia..]).
  change (2 ^ 32) with 4294967296 in Hv. Z.div_mod_to_equations. lia.
Qed.

Lemma dword_poke_other a b v m : a + 4 <= b \/ b + 4 <= a -> dword (poke a v m) b = dword m b.
Proof. intros Hab. apply dword_bytes. intros i Hi. apply poke_away. lia. Qed.

Lemma dword_zero m a : (forall i, a <= i < a + 4 -> m !! i = Some 0) -> dword m a = Some 0.
Proof. intros Hm. unfold dword. by rewrite !Hm by lia. Qed.

(** ** Registers *)

Inductive reg : Type := EAX | ECX | EDX | EBX | ESP | EBP | ESI | EDI.
Inductive sreg : Type := DS | ES | FS | GS.
Inductive creg : Type := CR0 | CR3 | CR4.

Record gprs : Type := Gprs {
  r_eax : Z; r_ecx : Z; r_edx : Z; r_ebx : Z; r_esp : Z; r_ebp : Z; r_esi : Z; r_edi : Z
}.
Record segments : Type := Segments { s_ds : Z; s_es : Z; s_fs : Z; s_gs : Z }.
Record controls : Type := Controls { c_cr0 : Z; c_cr3 : Z; c_cr4 : Z }.

Definition get_reg (r : reg) (g : gprs) : Z :=
  match r with
  | EAX => r_eax g | ECX => r_ecx g | EDX => r_edx g | EBX => r_ebx g
  | ESP => r_esp g | EBP => r_ebp g | ESI => r_esi g | EDI => r_edi g
  end.
Definition set_reg (r : reg) (v : Z) (g : gprs) : gprs :=
  let '(Gprs a c d b sp bp si di) := g in
  match r with
  | EAX => Gprs v c d b sp bp si di | ECX => Gprs a v d b sp bp si di
  | EDX => Gprs a c v b sp bp si di | EBX => Gprs a c d v sp bp si di
  | ESP => Gprs a c d b v bp si di | EBP => Gprs a c d b sp v si di
  | ESI => Gprs a c d b sp bp v di | EDI => Gprs a c d b sp bp si v
  end.
Definition get_sreg (r : sreg) (s : segments) : Z :=
  match r with DS => s_ds s | ES => s_es s | FS => s_fs s | GS => s_gs s end.
Definition set_sreg (r : sreg) (v : Z) (s : segments) : segments :=
  let '(Segments d e f g) := s in
  match r with
  | DS => Segments v e f g | ES => Segments d v f g | FS => Segments d e v g | GS => Segments d e f v
  end.
Definition get_creg (r : creg) (c : controls) : Z :=
  match r with CR0 => c_cr0 c | CR3 => c_cr3 c | CR4 => c_cr4 c end.
Definition set_creg (r : creg) (v : Z) (c : controls) : controls :=
  let '(Controls c0 c3 c4) := c in
  match r with CR0 => Controls v c3 c4 | CR3 => Controls c0 v c4 | CR4 => Controls c0 c3 v end.

(** The bits of EFLAGS. *)
Definition SF : Z := 7.
Definition IF : Z := 9.
Definition OF : Z := 11.

Definition set_flag (i : Z) (b : bool) (flags : Z) : Z :=
  if b then Z.setbit flags i else Z.clearbit flags i.
(** The flags after an operation with the exact signed result [exact]. *)
Definition arith_flags (exact flags : Z) : Z :=
  set_flag OF (negb (exact =? s32 exact)) (set_flag SF (s32 exact <? 0) flags).

Lemma set_flag_same i b f : 0 <= i -> Z.testbit (set_flag i b f) i = b.
Proof. intros Hi. unfold set_flag. destruct b; [by apply Z.setbit_eq|apply Z.clearbit_eq]. Qed.

Lemma set_flag_other i j b f : 0 <= i -> i <> j -> Z.testbit (set_flag i b f) j = Z.testbit f j.
Proof. intros Hi Hne. unfold set_flag. destruct b; [by apply Z.setbit_neq|by apply Z.clearbit_neq]. Qed.

(** After a comparison the sign and overflow flags differ when the first is less. *)
Lemma less_flags x y f :
  let f' := arith_flags (s32 x - s32 y) f in xorb (Z.testbit f' SF) (Z.testbit f' OF) = (s32 x <? s32 y).
Proof.
  cbv zeta. unfold arith_flags. rewrite (set_flag_other OF SF), !set_flag_same by done.
  pose proof (s32_range x). pose proof (s32_range y). set (a := s32 x) in *. set (b := s32 y) in *. clearbody a b.
  assert (s32 (a - b) = a - b \/ s32 (a - b) = a - b - 2 ^ 32 /\ 2 ^ 31 <= a - b \/
          s32 (a - b) = a - b + 2 ^ 32 /\ a - b < - 2 ^ 31) as Hd.
  { unfold s32, wrap. change (2 ^ 32) with 4294967296. change (2 ^ 31) with 2147483648 in *.
    destruct (Z.ltb_spec ((a - b) mod 4294967296) 2147483648); Z.div_mod_to_equations; lia. }
  pose proof (s32_range (a - b)). destruct (Z.eqb_spec (a - b) (s32 (a - b))), (Z.ltb_spec (s32 (a - b)) 0),
    (Z.ltb_spec a b); cbn; lia.
Qed.

(** ** The machine *)

Class Bus (B : Type) : Type := {
  bus_fetch : controls -> Z -> M B Z;
  bus_load : controls -> Z -> M B Z;
  bus_store : controls -> Z -> Z -> M B unit
}.

Record machine {B : Type} : Type := Cpu {
  gpr : gprs; seg : segments; cs : Z; ctl : controls; eip : Z; eflags : Z; bus : B
}.
Arguments machine : clear implicits.
Arguments Cpu {B}.

(** An operand in memory: an address, [[r + d]] or [[b + i * scale + d]]. *)
Inductive operand : Type :=
| Abs (d : Z)
| Base (b : reg) (d : Z)
| Indexed (b i : reg) (scale d : Z).

Inductive instr : Type :=
| Mov_ri (r : reg) (v : Z) | Mov_rr (d s : reg) | Mov_rm (r : reg) (m : operand)
| Mov_mi (m : operand) (v : Z) | Mov_mr (m : operand) (r : reg)
| Mov_wi (r : reg) (v : Z)                                (* mov ax, imm16 *)
| Mov_ws (r : reg) (s : sreg) | Mov_sw (s : sreg) (r : reg)  (* mov ax, ds; mov ds, ax *)
| Mov_rc (r : reg) (c : creg) | Mov_cr (c : creg) (r : reg)
| Lea (r : reg) (m : operand)
| Add_ri (r : reg) (v : Z) | Or_ri (r : reg) (v : Z) | Inc (r : reg)
| Cmp_ri (r : reg) (v : Z) | Cmp_rr (a b : reg)
| Push_i (v : Z) | Push_r (r : reg) | Pop_r (r : reg) | Pushad | Popad
| Jmp (l : nat) | Jl (l : nat) | Jmp_r (r : reg) | Call (f : string) | Ret | Iret
| Cli | Sti | Hlt | Nop.

Section Exec.
Context {B : Type} `{Bus B}.
Implicit Types s : machine B.

Definition with_gpr (g : gprs) s : machine B := Cpu g (seg s) (cs s) (ctl s) (eip s) (eflags s) (bus s).
Definition with_seg (g : segments) s : machine B := Cpu (gpr s) g (cs s) (ctl s) (eip s) (eflags s) (bus s).
Definition with_ctl (c : controls) s : machine B := Cpu (gpr s) (seg s) (cs s) c (eip s) (eflags s) (bus s).
Definition with_eip (a : Z) s : machine B := Cpu (gpr s) (seg s) (cs s) (ctl s) a (eflags s) (bus s).
Definition with_cs (c : Z) s : machine B := Cpu (gpr s) (seg s) c (ctl s) (eip s) (eflags s) (bus s).
Definition with_eflags (f : Z) s : machine B := Cpu (gpr s) (seg s) (cs s) (ctl s) (eip s) f (bus s).
Definition with_bus (b : B) s : machine B := Cpu (gpr s) (seg s) (cs s) (ctl s) (eip s) (eflags s) b.

Definition get (r : reg) : M (machine B) Z := gets (fun s => get_reg r (gpr s)).
Definition set (r : reg) (v : Z) : M (machine B) unit := modify (fun s => with_gpr (set_reg r (u32 v) (gpr s)) s).
Definition on_bus {A} (op : controls -> M B A) : M (machine B) A :=
  fun s => zoom bus with_bus (op (ctl s)) s.
Definition load (a : Z) : M (machine B) Z := on_bus (fun c => bus_load c (u32 a)).
Definition store (a v : Z) : M (machine B) unit := on_bus (fun c => bus_store c (u32 a) v).

Definition address (m : operand) : M (machine B) Z :=
  match m with
  | Abs d => mret (u32 d)
  | Base b d => x ← get b; mret (u32 (x + d))
  | Indexed b i scale d => x ← get b; y ← get i; mret (u32 (x + y * scale + d))
  end.

Definition push (v : Z) : M (machine B) unit :=
  sp ← get ESP; _ ← set ESP (sp - 4); store (sp - 4) v.
Definition pop : M (machine B) Z :=
  sp ← get ESP; v ← load sp; _ ← set ESP (sp + 4); mret v.
Definition push_reg (r : reg) : M (machine B) unit := v ← get r; push v.
Definition pop_reg (r : reg) : M (machine B) unit := v ← pop; set r v.

Definition arith (exact : Z) : M (machine B) unit :=
  modify (fun s => with_eflags (arith_flags exact (eflags s)) s).
Definition jump (a : Z) : M (machine B) unit := modify (with_eip (u32 a)).

(** Jumps are relative: [rel l] is the distance from the next instruction to the
    label [l].  A call ends in the code of another file, [callee]. *)
Definition exec (callee : string -> M (machine B) unit) (rel : nat -> Z) (i : instr) : M (machine B) unit :=
  match i with
  | Mov_ri r v => set r v
  | Mov_rr d x => v ← get x; set d v
  | Mov_rm r m => a ← address m; v ← load a; set r v
  | Mov_mi m v => a ← address m; store a v
  | Mov_mr m r => a ← address m; v ← get r; store a v
  | Mov_wi r v => x ← get r; set r (x / 2 ^ 16 * 2 ^ 16 + u16 v)
  | Mov_ws r x => v ← gets (fun s => get_sreg x (seg s)); y ← get r; set r (y / 2 ^ 16 * 2 ^ 16 + u16 v)
  | Mov_sw x r => v ← get r; modify (fun s => with_seg (set_sreg x (u16 v) (seg s)) s)
  | Mov_rc r c => v ← gets (fun s => get_creg c (ctl s)); set r v
  | Mov_cr c r => v ← get r; modify (fun s => with_ctl (set_creg c v (ctl s)) s)
  | Lea r m => a ← address m; set r a
  | Add_ri r v => x ← get r; _ ← arith (s32 x + s32 v); set r (x + v)
  | Or_ri r v => x ← get r; _ ← arith (s32 (Z.lor x v)); set r (Z.lor x v)
  | Inc r => x ← get r; _ ← arith (s32 x + 1); set r (x + 1)
  | Cmp_ri r v => x ← get r; arith (s32 x - s32 v)
  | Cmp_rr a b => x ← get a; y ← get b; arith (s32 x - s32 y)
  | Push_i v => push v
  | Push_r r => push_reg r
  | Pop_r r => pop_reg r
  | Pushad =>
      sp ← get ESP;
      _ ← push_reg EAX; _ ← push_reg ECX; _ ← push_reg EDX; _ ← push_reg EBX;
      _ ← push sp; _ ← push_reg EBP; _ ← push_reg ESI; push_reg EDI
  | Popad =>
      _ ← pop_reg EDI; _ ← pop_reg ESI; _ ← pop_reg EBP; _ ← pop;
      _ ← pop_reg EBX; _ ← pop_reg EDX; _ ← pop_reg ECX; pop_reg EAX
  | Jmp l => a ← gets eip; jump (a + rel l)
  | Jl l =>
      f ← gets eflags;
      if xorb (Z.testbit f SF) (Z.testbit f OF) then a ← gets eip; jump (a + rel l) else mret tt
  | Jmp_r r => a ← get r; jump a
  | Call f => a ← gets eip; _ ← push a; callee f
  | Ret => a ← pop; jump a
  | Iret => a ← pop; c ← pop; f ← pop; modify (fun s => with_eflags f (with_cs (u16 c) (with_eip a s)))
  | Cli => modify (fun s => with_eflags (set_flag IF false (eflags s)) s)
  | Sti => modify (fun s => with_eflags (set_flag IF true (eflags s)) s)
  | Hlt | Nop => mret tt
  end.

(** kernel/kernel/common.c: functions of a single instruction, and a run of them. *)
Definition halt : M (machine B) unit := exec (fun _ => undef) (fun _ => 0) Hlt.
Definition nop : M (machine B) unit := exec (fun _ => undef) (fun _ => 0) Nop.
Definition sti : M (machine B) unit := exec (fun _ => undef) (fun _ => 0) Sti.
Definition cli : M (machine B) unit := exec (fun _ => undef) (fun _ => 0) Cli.
Definition nopN (n : Z) : M (machine B) unit := for_loop (Z.to_nat n) 0 (fun _ => nop).

Lemma nopN_ok n s : nopN n s = Ok (tt, s).
Proof.
  unfold nopN. generalize (Z.to_nat n) as k. intros k. generalize 0. induction k as [|k IH]; intros i; [done|].
  cbn [for_loop]. apply IH.
Qed.

(** Interrupts are taken exactly between [sti] and [cli]. *)
Lemma sti_cli_ok s :
  (exists s', sti s = Ok (tt, s') /\ Z.testbit (eflags s') IF = true /\ gpr s' = gpr s /\ bus s' = bus s) /\
  exists s', cli s = Ok (tt, s') /\ Z.testbit (eflags s') IF = false /\ gpr s' = gpr s /\ bus s' = bus s.
Proof.
  split; eexists; (split; [reflexivity|]); unfold with_eflags; cbn [eflags gpr bus];
    (split; [by apply set_flag_same|done]).
Qed.
End Exec.

(** ** Code in memory *)

(** Where the assembler puts an instruction: [insn_size k] is the length of the [k]-th. *)
Class Encoding : Type := { insn_size : nat -> Z }.

Fixpoint pos `{Encoding} (k : nat) : Z :=
  match k with O => 0 | S k => pos k + insn_size k end.

(** The instruction that starts at the offset [off]; [k] is the number of the first. *)
Fixpoint find_at `{Encoding} (l : list instr) (k : nat) (off : Z) : option (nat * instr) :=
  match l with
  | [] => None
  | i :: l => if off =? pos k then Some (k, i) else find_at l (S k) off
  end.

Section Positions.
Context `{Encoding}.
Hypothesis (Hsize : forall k, 0 < insn_size k).

Lemma pos_lt j k : (j < k)%nat -> pos j < pos k.
Proof.
  induction 1 as [|k _ IH]; cbn [pos]; [specialize (Hsize j); lia|specialize (Hsize k); lia].
Qed.

Lemma pos_range j k : (j <= k)%nat -> 0 <= pos j <= pos k.
Proof.
  intros Hjk. assert (forall n, 0 <= pos n) as Hpos.
  { induction n as [|n IH]; cbn [pos]; [lia|]. specialize (Hsize n). lia. }
  split; [apply Hpos|]. destruct (decide (j = k)) as [->|Hne]; [lia|]. pose proof (pos_lt j k ltac:(lia)). lia.
Qed.

Lemma find_at_pos l j i : forall k, l !! j = Some i -> find_at l k (pos (k + j)) = Some ((k + j)%nat, i).
Proof.
  revert j. induction l as [|i0 l IH]; intros j k Hj; [done|]. cbn [find_at]. destruct j as [|j].
  - rewrite Nat.add_0_r, Z.eqb_refl. by injection Hj as ->.
  - pose proof (pos_lt k (k + S j) ltac:(lia)). destruct (Z.eqb_spec (pos (k + S j)) (pos k)); [lia|].
    replace (k + S j)%nat with (S k + j)%nat by lia. by apply IH.
Qed.
End Positions.

Section Run.
Context {B : Type} `{Bus B} `{Encoding}.
Context (callee : string -> M (machine B) unit) (code : list instr) (text : Z).
Implicit Types s : machine B.

(** One instruction of the code that was loaded at [text], an address behind the bus. *)
Definition step : M (machine B) unit :=
  a ← gets eip;
  p ← on_bus (fun c => bus_fetch c a);
  match find_at code 0 (p - text) with
  | None => undef
  | Some (k, i) =>
      _ ← jump (a + insn_size k);
      exec callee (fun l => pos l - pos (S k)) i
  end.

Fixpoint run (n : nat) : M (machine B) unit :=
  match n with O => mret tt | S n => _ ← step; run n end.

Lemma run_add m n s : run (m + n) s = (_ ← run m; run n) s.
Proof.
  revert s. induction m as [|m IH]; intros s; [done|]. cbn [run Nat.add]. unfold mbind, M_bind.
  destruct (step s) as [[[] s1]| | |]; [|done..]. apply IH.
Qed.

Hypothesis (Hsize : forall k, 0 < insn_size k).

(** The instruction [k], fetched through the bus. *)
Lemma step_at k i s :
  bus_fetch (ctl s) (eip s) (bus s) = Ok (text + pos k, bus s) -> code !! k = Some i ->
  step s = exec callee (fun l => pos l - pos (S k)) i (with_eip (u32 (eip s + insn_size k)) s).
Proof.
  intros Hf Hi. unfold step, on_bus, zoom, gets, mbind, M_bind. rewrite Hf.
  replace (text + pos k - text) with (pos (0 + k)) by (simpl; lia).
  rewrite (find_at_pos Hsize _ _ _ O Hi). by destruct s.
Qed.

(** The same for code that is seen at [v]. *)
Lemma step_insn k i v s (Q : unit -> machine B -> Prop) :
  code !! k = Some i -> eip s = v + pos k -> 0 <= v -> v + pos (length code) < 2 ^ 32 ->
  bus_fetch (ctl s) (v + pos k) (bus s) = Ok (text + pos k, bus s) ->
  wp (exec callee (fun l => pos l - pos (S k)) i) (with_eip (v + pos (S k)) s) Q -> wp step s Q.
Proof.
  intros Hi He Hv Hend Hf HQ. unfold wp. rewrite (step_at k i s); [|by rewrite He|done].
  pose proof (pos_range Hsize (S k) (length code) (lookup_lt_Some _ _ _ Hi)) as Hk.
  pose proof (pos_range Hsize k (S k) ltac:(lia)) as Hk'.
  rewrite He, <- Z.add_assoc. change (pos k + insn_size k) with (pos (S k)).
  rewrite wrap_small; [exact HQ|unfold in_width; lia].
Qed.

(** Execution until [Q] holds: [Q] is reached after some number of instructions. *)
Definition reaches s (Q : machine B -> Prop) : Prop := exists n, wp (run n) s (fun _ => Q).

Lemma reaches_done s (Q : machine B -> Prop) : Q s -> reaches s Q.
Proof. intros HQ. by exists O. Qed.

Lemma reaches_step s (Q : machine B -> Prop) : wp step s (fun _ s' => reaches s' Q) -> reaches s Q.
Proof.
  intros ([] & s' & Hs & n & Hn)%wp_ok. exists (S n). cbn [run]. apply wp_bind. unfold wp at 1. by rewrite Hs.
Qed.

Lemma reaches_trans s (Q Q' : machine B -> Prop) : reaches s Q -> (forall s', Q s' -> reaches s' Q') -> reaches s Q'.
Proof.
  intros [m Hm] HQ. apply wp_ok in Hm as ([] & s1 & Hm & [n Hn]%HQ). exists (m + n)%nat.
  unfold wp. rewrite run_add. unfold mbind, M_bind. by rewrite Hm.
Qed.

(** A conditional jump after a comparison. *)
Lemma wp_jl rel l x y f s (Q : unit -> machine B -> Prop) :
  eflags s = arith_flags (s32 x - s32 y) f ->
  (if s32 x <? s32 y then Q tt (with_eip (u32 (eip s + rel l)) s) else Q tt s) ->
  wp (exec callee rel (Jl l)) s Q.
Proof.
  intros Hf HQ. cbn [exec]. do 2 wp_step. rewrite Hf, less_flags. destruct (s32 x <? s32 y); [|exact HQ].
  unfold jump. by do 3 wp_step.
Qed.
End Run.

(** ** Automation *)

(** Registers and fields of an explicit machine. *)
Ltac regs :=
  unfold with_gpr, with_seg, with_ctl, with_eflags, with_eip, with_cs, with_bus;
  cbn [get_reg set_reg get_sreg set_sreg get_creg set_creg gpr seg cs ctl eip eflags bus r_eax r_ecx r_edx r_ebx r_esp
       r_ebp r_esi r_edi s_ds s_es s_fs s_gs c_cr0 c_cr3 c_cr4].
