(* ===== verification/Vm.v ===== *)
(** * kernel/memory/vm.c: definitions

    The virtual memory manager: the list of free ranges of kernel pages, the page
    tables, and the allocation of kernel pages on top of both. *)

From S2P Require Import Prelude Common Frames Cstring.

(** ** Data *)

(** [vm_free_bucket_t]: a range of free pages and the links of its list. *)
Record vm_free_bucket_t : Type := Bucket {
  b_pageno : Z;
  b_size : Z;
  b_next : Z;
  b_prev : Z
}.

Definition zero_bucket : vm_free_bucket_t := Bucket 0 0 0 0.
Definition sizeof_bucket : Z := 16.

(** [pte_t] and [pde_t]: the bit fields of a page table entry and of a page
    directory entry. *)
Record pte_t : Type := {
  pte_present : Z; pte_rw : Z; pte_user : Z; pte_pwt : Z; pte_pcd : Z;
  pte_accessed : Z; pte_dirty : Z; pte_pat : Z; pte_global : Z; pte_ignored : Z;
  pte_frame : Z
}.

Record pde_t : Type := {
  pde_present : Z; pde_rw : Z; pde_user : Z; pde_pwt : Z; pde_pcd : Z;
  pde_accessed : Z; pde_dirty : Z; pde_page_size : Z; pde_ignored : Z;
  pde_page_table : Z
}.

Definition zero_pte : pte_t :=
  {| pte_present := 0; pte_rw := 0; pte_user := 0; pte_pwt := 0; pte_pcd := 0;
     pte_accessed := 0; pte_dirty := 0; pte_pat := 0; pte_global := 0; pte_ignored := 0;
     pte_frame := 0 |}.

Definition zero_pde : pde_t :=
  {| pde_present := 0; pde_rw := 0; pde_user := 0; pde_pwt := 0; pde_pcd := 0;
     pde_accessed := 0; pde_dirty := 0; pde_page_size := 0; pde_ignored := 0;
     pde_page_table := 0 |}.

Definition pte_set_mapping (present rw frame : Z) (e : pte_t) : pte_t :=
  {| pte_present := present; pte_rw := rw; pte_user := pte_user e; pte_pwt := pte_pwt e;
     pte_pcd := pte_pcd e; pte_accessed := pte_accessed e; pte_dirty := pte_dirty e;
     pte_pat := pte_pat e; pte_global := pte_global e; pte_ignored := pte_ignored e;
     pte_frame := wrap 20 frame |}.

Definition pde_set_page_table (table : Z) (e : pde_t) : pde_t :=
  {| pde_present := pde_present e; pde_rw := pde_rw e; pde_user := pde_user e;
     pde_pwt := pde_pwt e; pde_pcd := pde_pcd e; pde_accessed := pde_accessed e;
     pde_dirty := pde_dirty e; pde_page_size := pde_page_size e;
     pde_ignored := pde_ignored e; pde_page_table := wrap 20 table |}.

(** [as_t]: the [tables] array holds NULL where the map has no entry. *)
Record as_t : Type := {
  as_directory : Z;
  as_directory_phys : Z;
  as_tables : gmap Z Z
}.

(** The file's variables, the objects they point to (by address: buckets, address
    spaces, page directory and page table entries), the bytes of the kernel's
    address space, the CR3 register and the frame allocator.  Directory and table
    entries are zero until written (boot.asm clears them). *)
Record vm_state {PS : Type} : Type := {
  vm_kernel_buckets : Z;
  vm_waiting_list : Z;
  vm_steal_next : Z;
  vm_steal_remaining : Z;
  vm_current_as : Z;
  buckets : gmap Z vm_free_bucket_t;
  spaces : gmap Z as_t;
  pdes : gmap Z pde_t;
  ptes : gmap Z pte_t;
  ram : gmap Z Z;
  cr3 : Z;
  frames : PS
}.
Arguments vm_state : clear implicits.

(** The two lists a [vm_free_bucket_t**] points to. *)
Inductive bucket_list : Type := KernelBuckets | WaitingList.

#[global] Instance bucket_list_eq_dec : EqDecision bucket_list.
Proof. solve_decision. Defined.

Section Vm.
Context {PS : Type} `{FrameAllocator PS} `{Layout}.
Implicit Types s : vm_state PS.

(** ** Access to the state *)

Definition with_lists (kernel waiting : Z) (b : gmap Z vm_free_bucket_t) s : vm_state PS :=
  {| vm_kernel_buckets := kernel; vm_waiting_list := waiting;
     vm_steal_next := vm_steal_next s; vm_steal_remaining := vm_steal_remaining s;
     vm_current_as := vm_current_as s; buckets := b; spaces := spaces s; pdes := pdes s;
     ptes := ptes s; ram := ram s; cr3 := cr3 s; frames := frames s |}.

Definition with_steal (next remaining : Z) s : vm_state PS :=
  {| vm_kernel_buckets := vm_kernel_buckets s; vm_waiting_list := vm_waiting_list s;
     vm_steal_next := next; vm_steal_remaining := remaining;
     vm_current_as := vm_current_as s; buckets := buckets s; spaces := spaces s;
     pdes := pdes s; ptes := ptes s; ram := ram s; cr3 := cr3 s; frames := frames s |}.

Definition with_paging (cur : Z) (sp : gmap Z as_t) (pd : gmap Z pde_t) (pt : gmap Z pte_t)
    (c : Z) s : vm_state PS :=
  {| vm_kernel_buckets := vm_kernel_buckets s; vm_waiting_list := vm_waiting_list s;
     vm_steal_next := vm_steal_next s; vm_steal_remaining := vm_steal_remaining s;
     vm_current_as := cur; buckets := buckets s; spaces := sp; pdes := pd; ptes := pt;
     ram := ram s; cr3 := c; frames := frames s |}.

Definition with_ram (r : gmap Z Z) s : vm_state PS :=
  {| vm_kernel_buckets := vm_kernel_buckets s; vm_waiting_list := vm_waiting_list s;
     vm_steal_next := vm_steal_next s; vm_steal_remaining := vm_steal_remaining s;
     vm_current_as := vm_current_as s; buckets := buckets s; spaces := spaces s;
     pdes := pdes s; ptes := ptes s; ram := r; cr3 := cr3 s; frames := frames s |}.

Definition with_frames (f : PS) s : vm_state PS :=
  {| vm_kernel_buckets := vm_kernel_buckets s; vm_waiting_list := vm_waiting_list s;
     vm_steal_next := vm_steal_next s; vm_steal_remaining := vm_steal_remaining s;
     vm_current_as := vm_current_as s; buckets := buckets s; spaces := spaces s;
     pdes := pdes s; ptes := ptes s; ram := ram s; cr3 := cr3 s; frames := f |}.

(** [*list]. *)
Definition list_head (l : bucket_list) s : Z :=
  match l with
  | KernelBuckets => vm_kernel_buckets s
  | WaitingList => vm_waiting_list s
  end.

Definition set_head (l : bucket_list) (p : Z) : M (vm_state PS) unit :=
  modify (fun s => match l with
    | KernelBuckets => with_lists p (vm_waiting_list s) (buckets s) s
    | WaitingList => with_lists (vm_kernel_buckets s) p (buckets s) s
    end).

(** Reading and assigning the members of [*p]. *)
Definition bucket_at (p : Z) : M (vm_state PS) vm_free_bucket_t := fun s =>
  match buckets s !! p with Some b => Ok (b, s) | None => Undef end.

Definition put_bucket (p : Z) (b : vm_free_bucket_t) : M (vm_state PS) unit := fun s =>
  match buckets s !! p with
  | Some _ => Ok (tt, with_lists (vm_kernel_buckets s) (vm_waiting_list s)
                                 (<[p := b]> (buckets s)) s)
  | None => Undef
  end.

Definition set_next (p v : Z) : M (vm_state PS) unit :=
  b ← bucket_at p; put_bucket p (Bucket (b_pageno b) (b_size b) v (b_prev b)).
Definition set_prev (p v : Z) : M (vm_state PS) unit :=
  b ← bucket_at p; put_bucket p (Bucket (b_pageno b) (b_size b) (b_next b) v).
Definition set_range (p pageno sz : Z) : M (vm_state PS) unit :=
  b ← bucket_at p; put_bucket p (Bucket pageno sz (b_next b) (b_prev b)).

(** ** Lists of buckets *)

Definition ll_remove_item (l : bucket_list) (item : Z) : M (vm_state PS) unit :=
  b ← bucket_at item;
  _ ← (if b_next b =? 0 then mret tt else set_prev (b_next b) (b_prev b));
  b ← bucket_at item;
  _ ← (if b_prev b =? 0 then set_head l (b_next b) else set_next (b_prev b) (b_next b));
  _ ← set_next item 0;
  set_prev item 0.

Definition ll_insert_before (l : bucket_list) (newitem olditem : Z) : M (vm_state PS) unit :=
  _ ← set_next newitem olditem;
  ob ← bucket_at olditem;
  _ ← set_prev newitem (b_prev ob);
  ob ← bucket_at olditem;
  _ ← (if b_prev ob =? 0 then set_head l newitem else set_next (b_prev ob) newitem);
  set_prev olditem newitem.

Definition ll_append_notempty (newitem olditem : Z) : M (vm_state PS) unit :=
  _ ← ASSERT (negb (olditem =? 0)) "olditem";
  _ ← set_next olditem newitem;
  set_prev newitem olditem.

Definition ll_push_item (l : bucket_list) (item : Z) : M (vm_state PS) unit :=
  b ← bucket_at item;
  _ ← ASSERT (b_prev b =? 0) "item->prev == NULL";
  _ ← ASSERT (b_next b =? 0) "item->next == NULL";
  old_first ← gets (list_head l);
  _ ← (if old_first =? 0 then mret tt
       else _ ← set_prev old_first item; set_next item old_first);
  set_head l item.

Definition ll_pop_item (l : bucket_list) : M (vm_state PS) Z :=
  item ← gets (list_head l);
  if item =? 0 then mret item
  else
    b ← bucket_at item;
    _ ← ASSERT (b_prev b =? 0) "item->prev == NULL";
    _ ← set_head l (b_next b);
    _ ← set_next item 0;
    mret item.

(** ** Page tables *)

Definition virtual2phys (ptr : Z) : Z := u32 (ptr - KERNEL_OFFSET).

Definition space_at (p : Z) : M (vm_state PS) as_t := fun s =>
  match spaces s !! p with Some a => Ok (a, s) | None => Undef end.

(** [as->directory->entries[index]] and [table->entries[index]]. *)
Definition pde_at (a : as_t) (index : Z) s : pde_t :=
  default zero_pde (pdes s !! (as_directory a + 4 * index)).
Definition pte_at (table index : Z) s : pte_t :=
  default zero_pte (ptes s !! (table + 4 * index)).

Definition put_pde (a : as_t) (index : Z) (e : pde_t) : M (vm_state PS) unit :=
  modify (fun s => with_paging (vm_current_as s) (spaces s)
    (<[as_directory a + 4 * index := e]> (pdes s)) (ptes s) (cr3 s) s).
Definition put_pte (table index : Z) (e : pte_t) : M (vm_state PS) unit :=
  modify (fun s => with_paging (vm_current_as s) (spaces s) (pdes s)
    (<[table + 4 * index := e]> (ptes s)) (cr3 s) s).
Definition put_space (p : Z) (a : as_t) : M (vm_state PS) unit :=
  modify (fun s => with_paging (vm_current_as s) (<[p := a]> (spaces s)) (pdes s)
    (ptes s) (cr3 s) s).

Definition as_map_kernel_table (asp index : Z) (flags : pde_t) : M (vm_state PS) unit :=
  let table := KERNEL_PAGE_TABLES + 4096 * index in
  _ ← ASSERT (table =? PAGE_ALIGN table) "Table must be page-aligned";
  let flags := pde_set_page_table (Z.shiftr (virtual2phys table) PAGE_BITS) flags in
  a ← space_at asp;
  _ ← put_pde a index flags;
  put_space asp {| as_directory := as_directory a; as_directory_phys := as_directory_phys a;
                   as_tables := <[index := table]> (as_tables a) |}.

(** [switch_as] and paging.asm's [set_page_directory]. *)
Definition switch_as (new_as : Z) : M (vm_state PS) unit :=
  a ← space_at new_as;
  modify (fun s => with_paging new_as (spaces s) (pdes s) (ptes s) (as_directory_phys a) s).

Definition vm_map_page (asp paddr vaddr : Z) : M (vm_state PS) unit :=
  let dir_idx := Z.shiftr vaddr 22 in
  let tab_idx := Z.land (Z.shiftr vaddr 12) 0x3FF in
  _ ← ASSERT (paddr =? PAGE_ALIGN paddr) "paddr must be page-aligned";
  a ← space_at asp;
  dir_entry ← gets (pde_at a dir_idx);
  if pde_present dir_entry =? 0 then
    if 0x300 <=? dir_idx then panic "Kernel directory entry should always be present"
    else panic "Not implemented"
  else
    match as_tables a !! dir_idx with
    | None => undef
    | Some table =>
        e ← gets (pte_at table tab_idx);
        put_pte table tab_idx (pte_set_mapping 1 1 (Z.shiftr paddr PAGE_BITS) e)
    end.

Definition vm_unmap_page (vaddr : Z) : M (vm_state PS) Z :=
  let dir_idx := Z.shiftr vaddr 22 in
  let tab_idx := Z.land (Z.shiftr vaddr 12) 0x3FF in
  cur ← gets vm_current_as;
  a ← space_at cur;
  match as_tables a !! dir_idx with
  | None => undef
  | Some table =>
      e ← gets (pte_at table tab_idx);
      let paddr := u32 (Z.shiftl (pte_frame e) PAGE_BITS) in
      _ ← put_pte table tab_idx (pte_set_mapping 0 (pte_rw e) 0 e);
      mret paddr
  end.

Definition vm_dma (paddr vaddr size : Z) : M (vm_state PS) unit :=
  let pages := size / PAGE_SIZE in
  for_loop (Z.to_nat pages) 0 (fun i =>
    cur ← gets vm_current_as;
    vm_map_page cur (u32 (paddr + i * PAGE_SIZE)) (u32 (vaddr + i * PAGE_SIZE))).

(** ** Free ranges of kernel pages *)

(** The loop over the buckets; a list has no more items than there are buckets,
    which bounds the rounds.  [None] stands for [E_NOMEM]; otherwise the error is
    [E_OK] and the value is stored through [pageno_out]. *)
Fixpoint reserve_loop (fuel : nat) (l : bucket_list) (pages head : Z)
  : M (vm_state PS) (option Z) :=
  match fuel with
  | O => nofuel
  | S fuel' =>
      if head =? 0 then mret None
      else
        b ← bucket_at head;
        if pages <=? b_size b then
          _ ← (if b_size b =? pages then
                 _ ← set_range head 0 0;
                 _ ← ll_remove_item l head;
                 ll_push_item WaitingList head
               else
                 set_range head (u32 (b_pageno b + pages)) (b_size b - pages));
          mret (Some (b_pageno b))
        else reserve_loop fuel' l pages (b_next b)
  end.

Definition vm_reserve_pages (l : bucket_list) (pages : Z) : M (vm_state PS) (option Z) :=
  fun s => reserve_loop (S (size (buckets s))) l pages (list_head l s) s.

(** [vm_optimize]: merge [item] with its neighbours where the ranges touch. *)
Definition vm_optimize (l : bucket_list) (item : Z) : M (vm_state PS) unit :=
  b ← bucket_at item;
  can_merge_front ← (if b_prev b =? 0 then mret false
                     else p ← bucket_at (b_prev b);
                          mret (u32 (b_pageno p + b_size p) =? b_pageno b));
  can_merge_back ← (if b_next b =? 0 then mret false
                    else n ← bucket_at (b_next b);
                         mret (u32 (b_pageno b + b_size b) =? b_pageno n));
  _ ← (if can_merge_front : bool then
         i ← bucket_at item;
         let tmp := b_prev i in
         t ← bucket_at tmp;
         _ ← set_range item (b_pageno t) (u32 (b_size i + b_size t));
         _ ← ll_remove_item l tmp;
         ll_push_item WaitingList tmp
       else mret tt);
  if can_merge_back : bool then
    i ← bucket_at item;
    let tmp := b_next i in
    t ← bucket_at tmp;
    _ ← set_range item (b_pageno i) (u32 (b_size i + b_size t));
    _ ← ll_remove_item l tmp;
    ll_push_item WaitingList tmp
  else mret tt.

(** ** Kernel pages *)

Definition in_ram {A} (m : M (gmap Z Z) A) : M (vm_state PS) A := zoom ram with_ram m.
Definition in_frames {A} (m : M PS A) : M (vm_state PS) A := zoom frames with_frames m.

Definition vm_alloc_kpages (pages : Z) : M (vm_state PS) Z :=
  r ← vm_reserve_pages KernelBuckets pages;
  match r with
  | None => panic "Out of virtual memory"
  | Some pageno =>
      _ ← for_loop (Z.to_nat pages) 0 (fun i =>
            e ← in_frames (pmm_alloc 1);
            _ ← ASSERT (err_ok e.1) "Out of physical memory";
            cur ← gets vm_current_as;
            vm_map_page cur e.2 (u32 ((pageno + i) * PAGE_SIZE)));
      let ptr := u32 (pageno * PAGE_SIZE) in
      _ ← in_ram (memset ptr 0xAA (u32 (pages * PAGE_SIZE)));
      mret ptr
  end.

Definition vm_kernel_stealmem (size : Z) : M (vm_state PS) Z :=
  _ ← ASSERT (size <=? PAGE_SIZE) "size <= PAGE_SIZE";
  remaining ← gets vm_steal_remaining;
  _ ← (if remaining <? size then
         p ← vm_alloc_kpages 1;
         modify (with_steal p PAGE_SIZE)
       else mret tt);
  addr ← gets vm_steal_next;
  _ ← in_ram (memset addr 0 size);
  _ ← modify (fun s => with_steal (u32 (vm_steal_next s + size))
                                  (u32 (vm_steal_remaining s - size)) s);
  mret addr.

(** [vm_item]: the stolen bytes were cleared, so they are a bucket of zeros. *)
Definition vm_item : M (vm_state PS) Z :=
  w ← gets vm_waiting_list;
  if w =? 0 then
    p ← vm_kernel_stealmem sizeof_bucket;
    _ ← modify (fun s => with_lists (vm_kernel_buckets s) (vm_waiting_list s)
                                    (<[p := zero_bucket]> (buckets s)) s);
    mret p
  else ll_pop_item WaitingList.

(** [while (node && node->pageno <= pageno) node = node->next]. *)
Fixpoint find_behind (fuel : nat) (node pageno : Z) : M (vm_state PS) Z :=
  match fuel with
  | O => nofuel
  | S fuel' =>
      if node =? 0 then mret node
      else b ← bucket_at node;
           if b_pageno b <=? pageno then find_behind fuel' (b_next b) pageno
           else mret node
  end.

Definition vm_return_pages (l : bucket_list) (pages pageno : Z) : M (vm_state PS) unit :=
  item ← vm_item;
  _ ← ASSERT (negb (item =? 0)) "item";
  _ ← set_range item pageno pages;
  node ← gets (list_head l);
  if node =? 0 then ll_push_item l item
  else
    fuel ← gets (fun s => S (size (buckets s)));
    node ← find_behind fuel node pageno;
    _ ← (if node =? 0 then ll_append_notempty item node
         else ll_insert_before l item node);
    vm_optimize l item.

(** The unmapping loop of [vm_free_kpages] runs from the last page down to the
    first; [paddr] has no value before the first round. *)
Fixpoint unmap_down (n : nat) (addr : Z) (paddr : option Z) : M (vm_state PS) (option Z) :=
  match n with
  | O => mret paddr
  | S j => p ← vm_unmap_page (u32 (addr + Z.of_nat j * PAGE_SIZE));
           unmap_down j addr (Some p)
  end.

Definition vm_free_kpages (pages addr : Z) : M (vm_state PS) unit :=
  let pageno := Z.shiftr addr PAGE_BITS in
  paddr ← unmap_down (Z.to_nat pages) addr None;
  _ ← vm_return_pages KernelBuckets pages pageno;
  match paddr with
  | None => undef
  | Some p => in_frames (pmm_free pages p)
  end.

(** ** Initialisation *)

Definition vm_init : M (vm_state PS) unit :=
  border ← in_frames pmm_get_border;
  let managed_start := KERNEL_BOOT_MAPPED in
  let managed_end := 0xFF000000 in
  _ ← modify (with_steal border (u32 (managed_start - border)));
  _ ← put_space addr_vm_first_as
        {| as_directory := KERNEL_PAGE_DIRECTORY;
           as_directory_phys := virtual2phys KERNEL_PAGE_DIRECTORY;
           as_tables := ∅ |};
  let d := {| pde_present := 1; pde_rw := 1; pde_user := 0; pde_pwt := 0; pde_pcd := 0;
              pde_accessed := 0; pde_dirty := 0; pde_page_size := 0; pde_ignored := 0;
              pde_page_table := 0 |} in
  _ ← for_loop 256 0x300 (fun i => as_map_kernel_table addr_vm_first_as i d);
  _ ← for_loop (Z.to_nat ((KERNEL_BOOT_MAPPED - KERNEL_OFFSET) / PAGE_SIZE)) 0 (fun k =>
        let va := KERNEL_OFFSET + k * PAGE_SIZE in
        vm_map_page addr_vm_first_as (virtual2phys va) va);
  _ ← modify (fun s => with_lists addr_vm_first_bucket (vm_waiting_list s)
        (<[addr_vm_first_bucket :=
           Bucket (Z.shiftr managed_start PAGE_BITS)
                  (Z.shiftr (u32 (managed_start - managed_end)) PAGE_BITS) 0 0]>
         (buckets s)) s);
  switch_as addr_vm_first_as.

(** The state before [vm_init]. *)
Definition vm_boot (p : PS) : vm_state PS :=
  {| vm_kernel_buckets := 0; vm_waiting_list := 0; vm_steal_next := 0;
     vm_steal_remaining := 0; vm_current_as := 0; buckets := ∅; spaces := ∅;
     pdes := ∅; ptes := ∅; ram := ∅; cr3 := 0; frames := p |}.
End Vm.
