(* ===== verification/VmList.v ===== *)
(** * kernel/memory/vm.c: the doubly linked lists of buckets

    Representation predicates for the lists and the specifications of the [ll_]
    functions. *)

From S2P Require Import Prelude Common Frames Cstring Vm.

(** ** Representation *)

(** A bucket as a member of a list: its address and the range it describes. *)
Record node : Type := Node { n_addr : Z; n_page : Z; n_size : Z }.

Abbreviation heap := (gmap Z vm_free_bucket_t).

Definition addrs (L : list node) : list Z := n_addr <$> L.

(** The list that starts at [hd] and ends in NULL; [p] is the [prev] member of
    its first item. *)
Fixpoint dll (h : heap) (p hd : Z) (L : list node) : Prop :=
  match L with
  | [] => hd = 0
  | n :: L' => hd = n_addr n /\ hd <> 0 /\
      exists nx, h !! hd = Some (Bucket (n_page n) (n_size n) nx p) /\ dll h hd nx L'
  end.

(** A part of a list, from [hd] up to the item whose [next] member is [q]; [e] is
    the address of its last item ([p] if it is empty). *)
Fixpoint dlseg (h : heap) (p hd : Z) (L : list node) (e q : Z) : Prop :=
  match L with
  | [] => hd = q /\ e = p
  | n :: L' => hd = n_addr n /\ hd <> 0 /\
      exists nx, h !! hd = Some (Bucket (n_page n) (n_size n) nx p) /\ dlseg h hd nx L' e q
  end.

Section Representation.
Implicit Types (h : heap) (L : list node) (n : node).

Lemma dll_app h p hd L1 L2 :
  dll h p hd (L1 ++ L2) <-> exists e m, dlseg h p hd L1 e m /\ dll h e m L2.
Proof.
  revert p hd. induction L1 as [|n L1 IH]; intros p hd; simpl.
  - split; [intros; by exists p, hd|by intros (? & ? & [-> ->] & ?)].
  - split.
    + intros (-> & Hne & nx & Hn & Hd). apply IH in Hd as (e & m & ? & ?).
      exists e, m. split; [|done]. split_and!; [done..|]. by exists nx.
    + intros (e & m & (-> & Hne & nx & Hn & Hd) & H2). split_and!; [done..|].
      exists nx. split; [done|]. apply IH. by exists e, m.
Qed.

Lemma dlseg_app h p hd L1 L2 e q :
  dlseg h p hd (L1 ++ L2) e q <->
  exists e1 m, dlseg h p hd L1 e1 m /\ dlseg h e1 m L2 e q.
Proof.
  revert p hd. induction L1 as [|n L1 IH]; intros p hd; simpl.
  - split; [intros; by exists p, hd|by intros (? & ? & [-> ->] & ?)].
  - split.
    + intros (-> & Hne & nx & Hn & Hd). apply IH in Hd as (e1 & m & ? & ?).
      exists e1, m. split; [|done]. split_and!; [done..|]. by exists nx.
    + intros (e1 & m & (-> & Hne & nx & Hn & Hd) & H2). split_and!; [done..|].
      exists nx. split; [done|]. apply IH. by exists e1, m.
Qed.

(** Changing a bucket outside a list does not change the list. *)
Lemma dll_insert_ne h p hd L a b :
  a ∉ addrs L -> dll h p hd L -> dll (<[a := b]> h) p hd L.
Proof.
  revert p hd. induction L as [|n L IH]; intros p hd Ha; simpl; [done|].
  intros (-> & Hne & nx & Hn & Hd). unfold addrs in Ha. rewrite fmap_cons, not_elem_of_cons in Ha.
  split_and!; [done..|]. exists nx. rewrite lookup_insert_ne by (intros ->; tauto).
  split; [done|]. apply IH; tauto.
Qed.

Lemma dlseg_insert_ne h p hd L e q a b :
  a ∉ addrs L -> dlseg h p hd L e q -> dlseg (<[a := b]> h) p hd L e q.
Proof.
  revert p hd. induction L as [|n L IH]; intros p hd Ha; simpl; [done|].
  intros (-> & Hne & nx & Hn & Hd). unfold addrs in Ha. rewrite fmap_cons, not_elem_of_cons in Ha.
  split_and!; [done..|]. exists nx. rewrite lookup_insert_ne by (intros ->; tauto).
  split; [done|]. apply IH; tauto.
Qed.

(** Every item of a list is a bucket of the heap. *)
Lemma dll_dom h p hd L a : dll h p hd L -> a ∈ addrs L -> is_Some (h !! a) /\ a <> 0.
Proof.
  revert p hd. induction L as [|n L IH]; intros p hd; simpl; [by intros _ ?%elem_of_nil|].
  intros (-> & Hne & nx & Hn & Hd) [->|Ha]%elem_of_cons; [by rewrite Hn|by eapply IH].
Qed.

Lemma dll_length h p hd L : dll h p hd L -> NoDup (addrs L) -> (length L <= size h)%nat.
Proof.
  intros Hd Hnd. rewrite <- (length_fmap n_addr L). fold (addrs L).
  rewrite <- (size_list_to_set (C:=gset Z) (addrs L)) by done.
  rewrite <- (size_dom (D:=gset Z)). apply subseteq_size. intros x Hx.
  apply elem_of_list_to_set in Hx. by apply elem_of_dom, (dll_dom h p hd L).
Qed.

Lemma dll_head_0 h p L : dll h p 0 L -> L = [].
Proof. destruct L as [|n L]; [done|]. simpl. by intros (_ & ? & _). Qed.

(** The last item of a non-empty part. *)
Lemma dlseg_snoc h p hd L n e q :
  dlseg h p hd (L ++ [n]) e q <->
  exists e1, dlseg h p hd L e1 (n_addr n) /\ e = n_addr n /\ e <> 0 /\
             h !! e = Some (Bucket (n_page n) (n_size n) q e1).
Proof.
  rewrite dlseg_app. simpl. split.
  - intros (e1 & m & H1 & -> & Hne & nx & Hn & -> & ->). by exists e1.
  - intros (e1 & H1 & -> & Hne & Hn). exists e1, (n_addr n). split_and!; [done..|].
    by exists q.
Qed.

(** [e] is NULL exactly when the part before it is empty. *)
Lemma dlseg_end h hd L e q : dlseg h 0 hd L e q -> (e = 0 <-> L = []).
Proof.
  destruct L as [|n L _] using rev_ind; intros Hd.
  - simpl in Hd. destruct Hd. done.
  - apply dlseg_snoc in Hd as (e1 & _ & -> & Hne & _). split; [done|]. by intros [_ ?]%app_nil.
Qed.

(** Redirecting the [next] member of the last item. *)
Lemma dlseg_set_next h p hd L n e q q' b :
  dlseg h p hd (L ++ [n]) e q -> NoDup (addrs (L ++ [n])) ->
  h !! e = Some b ->
  dlseg (<[e := Bucket (b_pageno b) (b_size b) q' (b_prev b)]> h) p hd (L ++ [n]) e q'.
Proof.
  intros (e1 & Hd & -> & Hne & Hn)%dlseg_snoc Hnd Hb. simplify_eq. simpl.
  apply dlseg_snoc. exists e1. rewrite lookup_insert_eq. split_and!; [|done..].
  apply dlseg_insert_ne; [|done]. unfold addrs in *. rewrite fmap_app, NoDup_app in Hnd.
  intros Hin. destruct Hnd as (_ & Hnd & _). apply (Hnd _ Hin). simpl. left.
Qed.

(** Redirecting the [prev] member of the first item. *)
Lemma dll_set_prev h p p' hd n L b :
  dll h p hd (n :: L) -> NoDup (addrs (n :: L)) -> h !! hd = Some b ->
  dll (<[hd := Bucket (b_pageno b) (b_size b) (b_next b) p']> h) p' hd (n :: L).
Proof.
  intros (-> & Hne & nx & Hn & Hd) Hnd Hb. simplify_eq. simpl. split_and!; [done..|].
  exists nx. rewrite lookup_insert_eq. split; [done|]. apply dll_insert_ne; [|done].
  by apply NoDup_cons in Hnd as [? _].
Qed.
End Representation.

Lemma dll_frame (h h' : heap) p hd L :
  (forall a, a ∈ addrs L -> h' !! a = h !! a) -> dll h p hd L -> dll h' p hd L.
Proof.
  revert p hd. induction L as [|n L IH]; intros p hd Heq; simpl; [done|].
  intros (-> & Hne & nx & Hn & Hd). split_and!; [done..|]. exists nx.
  rewrite Heq by (simpl; left). split; [done|]. apply IH; [|done].
  intros a Ha. apply Heq. simpl. by right.
Qed.

Lemma dlseg_frame (h h' : heap) p hd L e q :
  (forall a, a ∈ addrs L -> h' !! a = h !! a) -> dlseg h p hd L e q -> dlseg h' p hd L e q.
Proof.
  revert p hd. induction L as [|n L IH]; intros p hd Heq; simpl; [done|].
  intros (-> & Hne & nx & Hn & Hd). split_and!; [done..|]. exists nx.
  rewrite Heq by (simpl; left). split; [done|]. apply IH; [|done].
  intros a Ha. apply Heq. simpl. by right.
Qed.

(** The head of a list, and the last item of a part, belong to it. *)
Lemma dll_head_in h p hd L : dll h p hd L -> L = [] \/ hd ∈ addrs L.
Proof. destruct L as [|n L]; [by left|]. intros (-> & _). right. simpl. left. Qed.

Lemma dlseg_last_in h p hd L e q : dlseg h p hd L e q -> L = [] \/ e ∈ addrs L.
Proof.
  destruct L as [|n L _] using rev_ind; [by left|].
  intros (e1 & _ & -> & _ & _)%dlseg_snoc. right. unfold addrs.
  rewrite fmap_app, elem_of_app. right. simpl. left.
Qed.

Lemma nodup_mid L1 n L2 :
  NoDup (addrs (L1 ++ n :: L2)) <->
  NoDup (addrs L1) /\ NoDup (addrs L2) /\ (n_addr n ∉ addrs L1) /\ (n_addr n ∉ addrs L2) /\
  forall a, a ∈ addrs L1 -> a ∉ addrs L2.
Proof.
  unfold addrs. rewrite fmap_app, fmap_cons, NoDup_app, NoDup_cons. split.
  - intros (H1 & H2 & H3 & H4). split_and!; [done..| |done|].
    + intros Hin. apply (H2 _ Hin). left.
    + intros a Ha Hin. apply (H2 a Ha). by right.
  - intros (H1 & H2 & H3 & H4 & H5). split_and!; [done| |done..].
    intros a Ha [->|Hin]%elem_of_cons; [done|]. by apply (H5 a).
Qed.

Lemma nodup_app_addrs L1 L2 :
  NoDup (addrs (L1 ++ L2)) <->
  NoDup (addrs L1) /\ NoDup (addrs L2) /\ forall a, a ∈ addrs L1 -> a ∉ addrs L2.
Proof. unfold addrs. rewrite fmap_app, NoDup_app. tauto. Qed.

Lemma elem_of_addrs_mid a L1 n L2 :
  a ∉ addrs (L1 ++ n :: L2) <-> (a ∉ addrs L1) /\ a <> n_addr n /\ (a ∉ addrs L2).
Proof.
  unfold addrs. rewrite fmap_app, fmap_cons, not_elem_of_app, not_elem_of_cons. tauto.
Qed.

(** ** Symbolic execution of the list operations *)

Section Exec.
Context {PS : Type} `{FrameAllocator PS} `{Layout}.
Implicit Types (s : vm_state PS) (h : heap) (k w : Z) (l : bucket_list).

Lemma with_lists_id s : with_lists (vm_kernel_buckets s) (vm_waiting_list s) (buckets s) s = s.
Proof. by destruct s. Qed.

(** The head of list [l], and the two heads after [*l = p]. *)
Definition head_of l k w : Z := match l with KernelBuckets => k | WaitingList => w end.
Definition upd_k l (p k : Z) : Z := match l with KernelBuckets => p | WaitingList => k end.
Definition upd_w l (p w : Z) : Z := match l with KernelBuckets => w | WaitingList => p end.

Lemma head_upd l p k w : head_of l (upd_k l p k) (upd_w l p w) = p.
Proof. by destruct l. Qed.

Lemma wp_bucket_at k w h s p b Q :
  h !! p = Some b -> Q b (with_lists k w h s) -> wp (bucket_at p) (with_lists k w h s) Q.
Proof. intros Hp. unfold wp, bucket_at. simpl. by rewrite Hp. Qed.

Lemma wp_put_bucket k w h s p b b0 (Q : unit -> vm_state PS -> Prop) :
  h !! p = Some b0 -> Q tt (with_lists k w (<[p := b]> h) s) ->
  wp (put_bucket p b) (with_lists k w h s) Q.
Proof. intros Hp. unfold wp, put_bucket. simpl. by rewrite Hp. Qed.

Lemma wp_set_next k w h s p v b (Q : unit -> vm_state PS -> Prop) :
  h !! p = Some b ->
  Q tt (with_lists k w (<[p := Bucket (b_pageno b) (b_size b) v (b_prev b)]> h) s) ->
  wp (set_next p v) (with_lists k w h s) Q.
Proof.
  intros Hp HQ. unfold set_next. apply wp_bind. eapply wp_bucket_at; [done|].
  by eapply wp_put_bucket.
Qed.

Lemma wp_set_prev k w h s p v b (Q : unit -> vm_state PS -> Prop) :
  h !! p = Some b ->
  Q tt (with_lists k w (<[p := Bucket (b_pageno b) (b_size b) (b_next b) v]> h) s) ->
  wp (set_prev p v) (with_lists k w h s) Q.
Proof.
  intros Hp HQ. unfold set_prev. apply wp_bind. eapply wp_bucket_at; [done|].
  by eapply wp_put_bucket.
Qed.

Lemma wp_set_range k w h s p pg sz b (Q : unit -> vm_state PS -> Prop) :
  h !! p = Some b ->
  Q tt (with_lists k w (<[p := Bucket pg sz (b_next b) (b_prev b)]> h) s) ->
  wp (set_range p pg sz) (with_lists k w h s) Q.
Proof.
  intros Hp HQ. unfold set_range. apply wp_bind. eapply wp_bucket_at; [done|].
  by eapply wp_put_bucket.
Qed.

Lemma wp_set_head l k w h s p (Q : unit -> vm_state PS -> Prop) :
  Q tt (with_lists (upd_k l p k) (upd_w l p w) h s) ->
  wp (set_head l p) (with_lists k w h s) Q.
Proof. by destruct l. Qed.

Lemma wp_list_head l k w h s Q :
  Q (head_of l k w) (with_lists k w h s) -> wp (gets (list_head l)) (with_lists k w h s) Q.
Proof. by destruct l. Qed.

(** The two conditional relinkings of [ll_remove_item] and [ll_insert_before]. *)
Lemma relink_back k w h s p p' hd L (Q : unit -> vm_state PS -> Prop) :
  dll h p hd L -> NoDup (addrs L) ->
  (forall h', dll h' p' hd L -> (forall a, a <> hd \/ L = [] -> h' !! a = h !! a) ->
     Q tt (with_lists k w h' s)) ->
  wp (if hd =? 0 then mret tt else set_prev hd p') (with_lists k w h s) Q.
Proof.
  intros Hd Hnd HQ. destruct L as [|n L].
  - simpl in Hd. subst hd. apply wp_ret. by apply HQ.
  - pose proof Hd as (-> & Hne & nx & Hn & _). destruct (Z.eqb_spec (n_addr n) 0); [done|].
    eapply wp_set_prev; [done|]. apply HQ.
    + by eapply (dll_set_prev h p p').
    + intros a [Ha|]; [|done]. by rewrite lookup_insert_ne.
Qed.

Lemma relink_front l k w h s L e q q' (Q : unit -> vm_state PS -> Prop) :
  dlseg h 0 (head_of l k w) L e q -> NoDup (addrs L) ->
  (forall hd' h', dlseg h' 0 hd' L e q' ->
     (forall a, a <> e \/ L = [] -> h' !! a = h !! a) ->
     Q tt (with_lists (upd_k l hd' k) (upd_w l hd' w) h' s)) ->
  wp (if e =? 0 then set_head l q' else set_next e q') (with_lists k w h s) Q.
Proof.
  intros Hd Hnd HQ. pose proof (dlseg_end _ _ _ _ _ Hd) as He.
  destruct L as [|n L _] using rev_ind.
  - assert (e = 0) as -> by tauto. apply wp_set_head. by apply HQ.
  - destruct (Z.eqb_spec e 0) as [->|Hne].
    { destruct (proj1 (app_nil L [n]) (proj1 He eq_refl)). done. }
    pose proof Hd as (e1 & _ & -> & _ & Hn)%dlseg_snoc.
    eapply wp_set_next; [done|]. cbn [b_pageno b_size b_prev].
    enough (with_lists k w (<[n_addr n := Bucket (n_page n) (n_size n) q' e1]> h) s
            = with_lists (upd_k l (head_of l k w) k) (upd_w l (head_of l k w) w)
                (<[n_addr n := Bucket (n_page n) (n_size n) q' e1]> h) s) as ->.
    + apply HQ; [exact (dlseg_set_next h 0 _ L n (n_addr n) q q' _ Hd Hnd Hn)|].
      intros a [Ha|Hnil]; [by rewrite lookup_insert_ne|by apply app_nil in Hnil as [_ ?]].
    + by destruct l.
Qed.

(** *** The operations *)

Lemma ll_remove_ok l k w h s L1 n L2 :
  dll h 0 (head_of l k w) (L1 ++ n :: L2) -> NoDup (addrs (L1 ++ n :: L2)) ->
  wp (ll_remove_item l (n_addr n)) (with_lists k w h s) (fun _ s' => exists hd' h',
    s' = with_lists (upd_k l hd' k) (upd_w l hd' w) h' s /\ dll h' 0 hd' (L1 ++ L2) /\
    h' !! n_addr n = Some (Bucket (n_page n) (n_size n) 0 0) /\
    forall a, a ∉ addrs (L1 ++ n :: L2) -> h' !! a = h !! a).
Proof.
  intros (e & m & H1 & (-> & Hne & nx & Hn & H2))%dll_app Hnd.
  apply nodup_mid in Hnd as (N1 & N2 & N3 & N4 & N5).
  pose proof (dll_head_in _ _ _ _ H2) as Hnx. pose proof (dlseg_last_in _ _ _ _ _ _ H1) as He.
  unfold ll_remove_item. wp_step. eapply wp_bucket_at; [done|]. cbn [b_next b_prev].
  wp_step. eapply (relink_back _ _ _ _ (n_addr n) e nx L2); [done..|].
  intros h1 D2 F1.
  assert (h1 !! n_addr n = Some (Bucket (n_page n) (n_size n) nx e)) as Hn1.
  { rewrite F1; [done|]. destruct Hnx; [by right|left; congruence]. }
  wp_step. eapply wp_bucket_at; [done|]. cbn [b_next b_prev].
  wp_step. eapply (relink_front l _ _ _ _ L1 e (n_addr n) nx); [|done|].
  { eapply dlseg_frame; [|done]. intros a Ha. apply F1.
    destruct Hnx; [by right|left; intros ->; by apply (N5 nx)]. }
  intros hd' h2 D1 F2.
  assert (h2 !! n_addr n = Some (Bucket (n_page n) (n_size n) nx e)) as Hn2.
  { rewrite F2; [done|]. destruct He; [by right|left; congruence]. }
  wp_step. eapply wp_set_next; [done|]. eapply wp_set_prev; [by apply lookup_insert_eq|].
  cbn [b_pageno b_size b_next b_prev]. rewrite insert_insert_eq.
  eexists hd', _. split; [done|]. split_and!.
  - apply dll_app. exists e, nx. split; [by apply dlseg_insert_ne|].
    apply dll_insert_ne; [done|]. eapply dll_frame; [|done]. intros a Ha. apply F2.
    destruct He; [by right|left; intros ->; by apply (N5 e)].
  - by rewrite lookup_insert_eq.
  - intros a (A1 & A2 & A3)%elem_of_addrs_mid. rewrite lookup_insert_ne by done.
    rewrite F2, F1; [done|..].
    + destruct Hnx; [by right|left; congruence].
    + destruct He; [by right|left; congruence].
Qed.

Lemma ll_insert_ok l k w h s L1 n L2 x b :
  dll h 0 (head_of l k w) (L1 ++ n :: L2) -> NoDup (addrs (L1 ++ n :: L2)) ->
  x ∉ addrs (L1 ++ n :: L2) -> x <> 0 -> h !! x = Some b ->
  wp (ll_insert_before l x (n_addr n)) (with_lists k w h s) (fun _ s' => exists hd' h',
    s' = with_lists (upd_k l hd' k) (upd_w l hd' w) h' s /\
    dll h' 0 hd' (L1 ++ Node x (b_pageno b) (b_size b) :: n :: L2) /\
    forall a, a ∉ addrs (L1 ++ n :: L2) -> a <> x -> h' !! a = h !! a).
Proof.
  intros (e & m & H1 & (-> & Hne & nx & Hn & H2))%dll_app Hnd Hx Hx0 Hb.
  apply nodup_mid in Hnd as (N1 & N2 & N3 & N4 & N5).
  apply elem_of_addrs_mid in Hx as (X1 & X2 & X3).
  pose proof (dlseg_last_in _ _ _ _ _ _ H1) as He.
  unfold ll_insert_before. wp_step. eapply wp_set_next; [done|].
  wp_step. eapply wp_bucket_at; [by rewrite lookup_insert_ne|].
  wp_step. eapply wp_set_prev; [by apply lookup_insert_eq|].
  cbn [b_pageno b_size b_next b_prev]. rewrite insert_insert_eq.
  wp_step. eapply wp_bucket_at; [by rewrite lookup_insert_ne|]. cbn [b_prev].
  set (h1 := <[x := _]> h).
  wp_step. eapply (relink_front l _ _ h1 _ L1 e (n_addr n) x); [|done|].
  { by apply dlseg_insert_ne. }
  intros hd' h2 D1 F2.
  assert (F : forall a, a ∉ addrs L1 -> h2 !! a = h1 !! a).
  { intros a Ha. apply F2. destruct He; [by right|left; congruence]. }
  eapply wp_set_prev.
  { rewrite F by done. unfold h1. by rewrite lookup_insert_ne. }
  cbn [b_pageno b_size b_next b_prev]. eexists hd', _. split; [done|]. split.
  - apply dll_app. exists e, x. split; [by apply dlseg_insert_ne|]. simpl. split_and!; [done..|].
    exists (n_addr n). rewrite lookup_insert_ne, F by done. unfold h1 at 1.
    rewrite lookup_insert_eq. split_and!; [done..|]. exists nx. rewrite lookup_insert_eq.
    split; [done|]. apply dll_insert_ne; [done|]. eapply dll_frame; [|done].
    intros a Ha. rewrite F by (intros Hin; by apply (N5 a)). unfold h1.
    rewrite lookup_insert_ne; [done|]. by intros ->.
  - intros a (A1 & A2 & A3)%elem_of_addrs_mid Hax. rewrite lookup_insert_ne, F by done.
    unfold h1. by rewrite lookup_insert_ne.
Qed.

(** Pushing repairs a stale [prev] member of the old first item. *)
Lemma ll_push_ok l k w h s p L x pg sz :
  dll h p (head_of l k w) L -> NoDup (addrs L) -> x ∉ addrs L -> x <> 0 ->
  h !! x = Some (Bucket pg sz 0 0) ->
  wp (ll_push_item l x) (with_lists k w h s) (fun _ s' => exists h',
    s' = with_lists (upd_k l x k) (upd_w l x w) h' s /\ dll h' 0 x (Node x pg sz :: L) /\
    forall a, a ∉ addrs L -> a <> x -> h' !! a = h !! a).
Proof.
  intros Hd Hnd Hx Hx0 Hb. unfold ll_push_item. wp_step. eapply wp_bucket_at; [done|].
  cbn [b_prev b_next]. do 2 (wp_step; apply wp_assert; [done|]). wp_step. apply wp_list_head.
  wp_step. destruct L as [|n L].
  - simpl in Hd. rewrite Hd. apply wp_ret. apply wp_set_head. exists h.
    split; [done|]. split; [|done]. simpl. split_and!; [done..|]. by exists 0.
  - pose proof Hd as (Hhd & Hne & nx & Hn & _). destruct (Z.eqb_spec (head_of l k w) 0); [done|].
    apply not_elem_of_cons in Hx as Hx'. destruct Hx' as [X1 X2].
    wp_step. eapply wp_set_prev; [done|].
    eapply wp_set_next; [by rewrite lookup_insert_ne by congruence|]. apply wp_set_head.
    eexists. split; [done|]. split.
    + split; [done|]. split; [done|]. exists (head_of l k w). rewrite lookup_insert_eq.
      split; [done|]. apply dll_insert_ne; [done|].
      exact (dll_set_prev h p x _ n L _ Hd Hnd Hn).
    + intros a [A1 A2]%not_elem_of_cons Hax. rewrite !lookup_insert_ne by congruence. done.
Qed.

(** Popping leaves the [prev] member of the new first item as it was. *)
Lemma ll_pop_ok l k w h s n L :
  dll h 0 (head_of l k w) (n :: L) -> NoDup (addrs (n :: L)) ->
  wp (ll_pop_item l) (with_lists k w h s) (fun x s' => exists hd' h',
    x = n_addr n /\ s' = with_lists (upd_k l hd' k) (upd_w l hd' w) h' s /\
    dll h' (n_addr n) hd' L /\ h' !! x = Some (Bucket (n_page n) (n_size n) 0 0) /\
    forall a, a <> n_addr n -> h' !! a = h !! a).
Proof.
  intros (Hhd & Hne & nx & Hn & Hd) [Hnin Hnd]%NoDup_cons. unfold ll_pop_item. wp_step.
  apply wp_list_head. destruct (Z.eqb_spec (head_of l k w) 0); [done|].
  wp_step. eapply wp_bucket_at; [done|]. cbn [b_prev b_next].
  wp_step. apply wp_assert; [done|]. wp_step. apply wp_set_head.
  wp_step. eapply wp_set_next; [done|]. wp_step.
  exists nx. eexists. split; [done|]. split; [done|]. rewrite Hhd in *. split_and!.
  - by apply dll_insert_ne.
  - by rewrite lookup_insert_eq.
  - intros a Ha. by rewrite lookup_insert_ne.
Qed.
End Exec.
