(* ===== verification/VmRanges.v ===== *)
(** * kernel/memory/vm.c: free ranges of kernel pages

    Specifications of [vm_reserve_pages], [vm_optimize] and [vm_return_pages] in
    terms of the set of free pages the list of buckets stands for. *)

From S2P Require Import Prelude Common Frames Cstring Vm VmList.

(** ** The two lists *)

(** The kernel buckets are [K], the waiting list is [W]; [q] is the [prev] member
    of the first waiting item (0 unless an item was popped in front of it). *)
Record lists_ok (k w : Z) (h : heap) (K W : list node) (q : Z) : Prop := {
  lo_kernel : dll h 0 k K;
  lo_waiting : dll h q w W;
  lo_nodup : NoDup (addrs (K ++ W))
}.

Lemma addrs_perm L L' : L ≡ₚ L' -> NoDup (addrs L) -> NoDup (addrs L').
Proof. intros HP. unfold addrs. by rewrite HP. Qed.

Lemma elem_of_addrs_app a L1 L2 : a ∈ addrs (L1 ++ L2) <-> a ∈ addrs L1 \/ a ∈ addrs L2.
Proof. unfold addrs. by rewrite fmap_app, elem_of_app. Qed.

Lemma elem_of_addrs_in a L1 n L2 :
  a ∈ addrs (L1 ++ n :: L2) <-> a ∈ addrs L1 \/ a = n_addr n \/ a ∈ addrs L2.
Proof. rewrite elem_of_addrs_app. unfold addrs. by rewrite fmap_cons, elem_of_cons. Qed.

(** A change to the heap at addresses of [K] only keeps [W]. *)
Lemma waiting_frame h h' K W q w :
  NoDup (addrs (K ++ W)) -> dll h q w W ->
  (forall a, a ∉ addrs K -> h' !! a = h !! a) -> dll h' q w W.
Proof.
  intros (_ & _ & Hd)%nodup_app_addrs Hw Hf. eapply dll_frame; [|done].
  intros a Ha. apply Hf. intros Hin. by apply (Hd a).
Qed.

(** The heap determines the lists. *)
Lemma dll_inj h p p' hd L L' : dll h p hd L -> dll h p' hd L' -> L = L'.
Proof.
  revert p p' hd L'. induction L as [|n L IH]; intros p p' hd L' H1 H2.
  - simpl in H1. subst hd. symmetry. by eapply dll_head_0.
  - destruct H1 as (-> & Hne & nx & Hn & H1). destruct L' as [|n' L']; [done|].
    destruct H2 as (Heq & _ & nx' & Hn' & H2). rewrite Hn in Hn'. injection Hn' as E1 E2 <- ->.
    f_equal; [destruct n, n'; simpl in *; congruence|by eapply IH].
Qed.

Lemma lists_ok_inj k w h K W q K' W' q' :
  lists_ok k w h K W q -> lists_ok k w h K' W' q' -> K = K' /\ W = W'.
Proof. intros [H1 H2 _] [H3 H4 _]. split; by eapply dll_inj. Qed.

Section Ranges.
Context {PS : Type} `{FrameAllocator PS} `{Layout}.
Implicit Types (s : vm_state PS) (h : heap) (k w q : Z) (K W : list node) (n : node).

(** No bucket appears where there was none. *)
Definition no_new h h' : Prop := forall a, h !! a = None -> h' !! a = None.

Lemma no_new_refl h : no_new h h.
Proof. by intros a. Qed.
#[local] Hint Resolve no_new_refl : core.

Lemma no_new_trans h h1 h2 : no_new h h1 -> no_new h1 h2 -> no_new h h2.
Proof. unfold no_new. auto. Qed.

(** A fresh address is not in a list. *)
Lemma fresh_not_in k w h K W q a :
  h !! a = None -> lists_ok k w h K W q -> (a ∉ addrs K) /\ (a ∉ addrs W).
Proof.
  intros Hp [HK HW _]. split; intros Ha.
  - apply (dll_dom _ _ _ _ _ HK) in Ha as [[? Ha] _]. congruence.
  - apply (dll_dom _ _ _ _ _ HW) in Ha as [[? Ha] _]. congruence.
Qed.

(** Assigning the range of a kernel bucket. *)
Lemma set_range_ok k w h s K1 n K2 W q pg sz :
  lists_ok k w h (K1 ++ n :: K2) W q ->
  wp (set_range (n_addr n) pg sz) (with_lists k w h s) (fun _ s' => exists h',
    s' = with_lists k w h' s /\ lists_ok k w h' (K1 ++ Node (n_addr n) pg sz :: K2) W q /\
    no_new h h').
Proof.
  intros [HK HW Hnd].
  assert (NoDup (addrs (K1 ++ n :: K2))) as Hnd1 by by apply nodup_app_addrs in Hnd as (? & _).
  apply dll_app in HK as (e & m & H1 & (-> & Hne & nx & Hn & H2)).
  pose proof (proj1 (nodup_mid _ _ _) Hnd1) as (N1 & N2 & N3 & N4 & N5).
  eapply wp_set_range; [done|]. cbn [b_next b_prev]. eexists. split; [done|]. split.
  2: { intros a Ha. rewrite lookup_insert_ne; [done|]. intros <-. congruence. }
  split.
  - apply dll_app. exists e, (n_addr n). split; [by apply dlseg_insert_ne|].
    split; [done|]. split; [done|]. exists nx. rewrite lookup_insert_eq. split; [done|].
    by apply dll_insert_ne.
  - eapply waiting_frame; [done..|]. intros a (_ & Ha & _)%elem_of_addrs_mid.
    by rewrite lookup_insert_ne.
  - unfold addrs in *. rewrite !fmap_app, !fmap_cons in *. done.
Qed.

(** Moving a bucket from the kernel list to the waiting list. *)
Lemma retire_ok k w h s K1 n K2 W q :
  lists_ok k w h (K1 ++ n :: K2) W q ->
  wp (_ ← ll_remove_item KernelBuckets (n_addr n); ll_push_item WaitingList (n_addr n))
     (with_lists k w h s) (fun _ s' => exists k' w' h',
    s' = with_lists k' w' h' s /\ lists_ok k' w' h' (K1 ++ K2) (n :: W) 0 /\ no_new h h').
Proof.
  intros HL. pose proof HL as [HK HW Hnd].
  pose proof (proj1 (nodup_app_addrs _ _) Hnd) as (Hnd1 & Hnd2 & Hdis).
  assert (n_addr n ∈ addrs (K1 ++ n :: K2)) as Hin.
  { unfold addrs. rewrite fmap_app, elem_of_app. right. simpl. left. }
  destruct (dll_dom _ _ _ _ _ HK Hin) as [_ Hne].
  wp_step. eapply wp_mono; [by apply (ll_remove_ok KernelBuckets)|].
  intros [] s1 (k1 & h1 & -> & D1 & Hn1 & F1). simpl.
  eapply wp_mono.
  { apply (ll_push_ok WaitingList k1 w h1 s q W); [|done|by apply Hdis|done..].
    eapply waiting_frame; done. }
  intros [] s2 (h2 & -> & D2 & F2). exists k1, (n_addr n), h2. split; [done|]. split.
  2: { intros a Ha. destruct (fresh_not_in _ _ _ _ _ _ _ Ha HL) as [N1 N2].
       rewrite F2, F1 by (done || by intros ->). done. }
  split.
  - eapply dll_frame; [|done]. intros a Ha. apply F2.
    + apply Hdis, elem_of_addrs_in. apply elem_of_addrs_app in Ha. tauto.
    + intros ->. apply nodup_mid in Hnd1 as (_ & _ & N3 & N4 & _).
      apply elem_of_addrs_app in Ha. tauto.
  - destruct n. done.
  - eapply addrs_perm; [|exact Hnd]. rewrite <- !app_assoc. simpl.
    apply Permutation_app_head, Permutation_middle.
Qed.

(** ** [vm_reserve_pages] *)

(** What the first-fit search does to the lists. *)
Definition reserve_post (K W : list node) (q pages : Z) (r : option Z)
    (K' W' : list node) (q' : Z) : Prop :=
  match r with
  | None => K' = K /\ W' = W /\ q' = q /\ Forall (fun n => n_size n < pages) K
  | Some pn => exists K1 n K2, K = K1 ++ n :: K2 /\
      Forall (fun n => n_size n < pages) K1 /\ pages <= n_size n /\ pn = n_page n /\
      if decide (n_size n = pages)
      then K' = K1 ++ K2 /\ W' = Node (n_addr n) 0 0 :: W /\ q' = 0
      else K' = K1 ++ Node (n_addr n) (u32 (n_page n + pages)) (n_size n - pages) :: K2 /\
           W' = W /\ q' = q
  end.

Lemma reserve_loop_ok fuel : forall k w h s K1 K2 W q e hd pages,
  lists_ok k w h (K1 ++ K2) W q -> Forall (fun n => n_size n < pages) K1 ->
  dlseg h 0 k K1 e hd -> dll h e hd K2 -> (length K2 < fuel)%nat ->
  wp (reserve_loop fuel KernelBuckets pages hd) (with_lists k w h s) (fun r s' =>
    exists k' w' h' K' W' q', s' = with_lists k' w' h' s /\ lists_ok k' w' h' K' W' q' /\
      no_new h h' /\ reserve_post (K1 ++ K2) W q pages r K' W' q').
Proof.
  induction fuel as [|fuel IH]; intros k w h s K1 K2 W q e hd pages HL HF H1 H2 Hf; [lia|].
  cbn [reserve_loop]. destruct K2 as [|n K2].
  - simpl in H2. subst hd. simpl. apply wp_ret. exists k, w, h, (K1 ++ []), W, q.
    rewrite app_nil_r in *. done.
  - pose proof H2 as (-> & Hne & nx & Hn & H3). destruct (Z.eqb_spec (n_addr n) 0); [done|].
    wp_step. eapply wp_bucket_at; [done|]. cbn [b_pageno b_size b_next].
    destruct (Z.leb_spec pages (n_size n)) as [Hle|Hgt].
    + wp_step. destruct (Z.eqb_spec (n_size n) pages) as [Heq|Hneq].
      * wp_step. eapply wp_mono; [by eapply set_range_ok|]. intros [] s1 (h1 & -> & HL1 & Hn1).
        eapply wp_mono; [by eapply (retire_ok _ _ _ _ _ (Node (n_addr n) 0 0))|].
        intros [] s2 (k2 & w2 & h2 & -> & HL2 & Hn2). wp_step.
        exists k2, w2, h2, (K1 ++ K2), (Node (n_addr n) 0 0 :: W), 0.
        split_and!; [done..|by eapply no_new_trans|].
        exists K1, n, K2. split_and!; [done..|]. by rewrite decide_True.
      * eapply wp_mono; [by eapply set_range_ok|]. intros [] s1 (h1 & -> & HL1 & Hn1). wp_step.
        eexists k, w, h1, _, W, q. split_and!; [done..|].
        exists K1, n, K2. split_and!; [done..|]. by rewrite decide_False.
    + replace (K1 ++ n :: K2) with ((K1 ++ [n]) ++ K2) in * by by rewrite <- app_assoc.
      apply (IH _ _ _ _ _ _ _ _ (n_addr n)); [done| | |done|simpl in Hf; lia].
      * apply Forall_app. split; [done|]. by constructor.
      * apply dlseg_snoc. exists e. done.
Qed.

Lemma vm_reserve_ok k w h s K W q pages :
  lists_ok k w h K W q ->
  wp (vm_reserve_pages KernelBuckets pages) (with_lists k w h s) (fun r s' =>
    exists k' w' h' K' W' q', s' = with_lists k' w' h' s /\ lists_ok k' w' h' K' W' q' /\
      no_new h h' /\ reserve_post K W q pages r K' W' q').
Proof.
  intros HL. unfold vm_reserve_pages.
  apply (reserve_loop_ok _ k w h s [] K W q 0 k); pose proof HL as [HK _ Hnd]; simpl; [done..|]. apply nodup_app_addrs in Hnd as (Hnd & _).
  pose proof (dll_length _ _ _ _ HK Hnd). lia.
Qed.
(** ** [vm_optimize] *)

(** The test for two neighbouring ranges, and the merge with the range in front of
    and behind an item. *)
Definition touches (a b : node) : Prop := u32 (n_page a + n_size a) = n_page b.

Definition opt_front (K1 : list node) (x : node) (K1' : list node) (x' : node) : Prop :=
  (K1' = K1 /\ x' = x /\ forall p, last K1 = Some p -> ~ touches p x) \/
  (exists p, K1 = K1' ++ [p] /\ touches p x /\
     x' = Node (n_addr x) (n_page p) (u32 (n_size x + n_size p))).

Definition opt_back (x x' : node) (K2 K2' : list node) (x'' : node) : Prop :=
  (K2' = K2 /\ x'' = x' /\ forall n, head K2 = Some n -> ~ touches x n) \/
  (exists n, K2 = n :: K2' /\ touches x n /\
     x'' = Node (n_addr x) (n_page x') (u32 (n_size x' + n_size n))).

(** The bucket of an item in the middle of the list, and its neighbours. *)
Lemma item_bucket k w h K1 x K2 W q :
  lists_ok k w h (K1 ++ x :: K2) W q ->
  exists nx pv, h !! n_addr x = Some (Bucket (n_page x) (n_size x) nx pv) /\
    (K1 = [] -> pv = 0) /\ (K2 = [] -> nx = 0) /\
    (forall p, last K1 = Some p -> pv = n_addr p /\ pv <> 0 /\
       exists b, h !! pv = Some b /\ b_pageno b = n_page p /\ b_size b = n_size p) /\
    (forall n, head K2 = Some n -> nx = n_addr n /\ nx <> 0 /\
       exists b, h !! nx = Some b /\ b_pageno b = n_page n /\ b_size b = n_size n).
Proof.
  intros [HK _ _]. apply dll_app in HK as (e & m & H1 & (-> & Hne & nx & Hn & H2)).
  exists nx, e. split; [done|]. split_and!.
  - intros ->. simpl in H1. tauto.
  - intros ->. done.
  - intros p. destruct K1 as [|p' K1 _] using rev_ind; [done|].
    rewrite last_snoc. intros [= ->].
    apply dlseg_snoc in H1 as (e1 & _ & -> & ? & ?). split_and!; [done..|]. by eexists.
  - intros n. destruct K2 as [|n' K2]; [done|]. intros [= ->].
    destruct H2 as (-> & ? & nx' & ? & _). split_and!; [done..|]. by eexists.
Qed.

(** Absorbing a neighbour. *)
Lemma absorb_ok k w h s K1 t x K2 L R W q pg sz :
  lists_ok k w h (K1 ++ x :: K2) W q ->
  (K1 = L ++ [t] /\ K2 = R \/ K1 = L /\ K2 = t :: R) ->
  wp (_ ← set_range (n_addr x) pg sz;
      _ ← ll_remove_item KernelBuckets (n_addr t); ll_push_item WaitingList (n_addr t))
     (with_lists k w h s) (fun _ s' => exists k' w' h',
    s' = with_lists k' w' h' s /\
    lists_ok k' w' h' (L ++ Node (n_addr x) pg sz :: R) (t :: W) 0).
Proof.
  intros HL Hc. wp_step. eapply wp_mono; [by eapply set_range_ok|].
  intros [] s1 (h1 & -> & HL1 & _).
  destruct Hc as [[-> ->]|[-> ->]].
  - rewrite <- app_assoc in HL1. simpl in HL1. eapply wp_mono; [by eapply retire_ok|].
    intros [] s2 (k2 & w2 & h2 & -> & ? & _). by eexists k2, w2, h2.
  - replace (L ++ Node (n_addr x) pg sz :: R) with ((L ++ [Node (n_addr x) pg sz]) ++ R)
      by by rewrite <- app_assoc.
    eapply wp_mono; [eapply (retire_ok _ _ _ _ (L ++ [Node (n_addr x) pg sz]) t R);
                     rewrite <- app_assoc; exact HL1|].
    intros [] s2 (k2 & w2 & h2 & -> & ? & _). by eexists k2, w2, h2.
Qed.

(** The two tests, and the merge with the neighbour in front. *)
Lemma can_merge_front_ok k w h s K1 x pv :
  (K1 = [] -> pv = 0) ->
  (forall p, last K1 = Some p -> pv = n_addr p /\ pv <> 0 /\
     exists b, h !! pv = Some b /\ b_pageno b = n_page p /\ b_size b = n_size p) ->
  wp (if pv =? 0 then mret false
      else p ← bucket_at pv; mret (u32 (b_pageno p + b_size p) =? n_page x))
     (with_lists k w h s) (fun r s' => s' = with_lists k w h s /\
    (r = true <-> exists L p, K1 = L ++ [p] /\ touches p x)).
Proof.
  intros P1 P3. destruct K1 as [|p L _] using rev_ind.
  - rewrite P1 by done. apply wp_ret. split; [done|]. split; [done|].
    intros (L & p & HK & _). symmetry in HK. by apply app_nil in HK as [_ ?].
  - destruct (P3 p) as (-> & Hne & b & Hb & E1 & E2); [by rewrite last_snoc|].
    destruct (Z.eqb_spec (n_addr p) 0); [done|]. wp_step. eapply wp_bucket_at; [done|].
    apply wp_ret. split; [done|]. rewrite E1, E2, Z.eqb_eq. split.
    + intros. by exists L, p.
    + intros (L' & p' & [-> [= ->]]%app_inj_2 & ?); done.
Qed.

Lemma can_merge_back_ok k w h s x K2 nx :
  (K2 = [] -> nx = 0) ->
  (forall n, head K2 = Some n -> nx = n_addr n /\ nx <> 0 /\
     exists b, h !! nx = Some b /\ b_pageno b = n_page n /\ b_size b = n_size n) ->
  wp (if nx =? 0 then mret false
      else n ← bucket_at nx; mret (u32 (n_page x + n_size x) =? b_pageno n))
     (with_lists k w h s) (fun r s' => s' = with_lists k w h s /\
    (r = true <-> exists n R, K2 = n :: R /\ touches x n)).
Proof.
  intros P2 P4. destruct K2 as [|n R].
  - rewrite P2 by done. apply wp_ret. split; [done|]. split; [done|]. by intros (? & ? & ? & _).
  - destruct (P4 n) as (-> & Hne & b & Hb & E1 & E2); [done|].
    destruct (Z.eqb_spec (n_addr n) 0); [done|]. wp_step. eapply wp_bucket_at; [done|].
    apply wp_ret. split; [done|]. rewrite E1, Z.eqb_eq. split.
    + intros. by exists n, R.
    + by intros (? & ? & [= <- <-] & ?).
Qed.

Lemma merge_front_ok k w h s K1 x K2 W q (front : bool) :
  lists_ok k w h (K1 ++ x :: K2) W q ->
  (front = true <-> exists L p, K1 = L ++ [p] /\ touches p x) ->
  wp (if front then
        i ← bucket_at (n_addr x);
        t ← bucket_at (b_prev i);
        _ ← set_range (n_addr x) (b_pageno t) (u32 (b_size i + b_size t));
        _ ← ll_remove_item KernelBuckets (b_prev i);
        ll_push_item WaitingList (b_prev i)
      else mret tt) (with_lists k w h s)
    (fun _ s' => exists k1 w1 h1 W1 q1 K1' x', n_addr x' = n_addr x /\
       s' = with_lists k1 w1 h1 s /\ lists_ok k1 w1 h1 (K1' ++ x' :: K2) W1 q1 /\
       opt_front K1 x K1' x').
Proof.
  intros HL Hfront. destruct front.
  - destruct (proj1 Hfront eq_refl) as (L & p & -> & Ht).
    pose proof (item_bucket _ _ _ _ _ _ _ _ HL) as (nx & pv & Hx & _ & _ & P3 & _).
    destruct (P3 p) as (-> & Hne & b & Hb & E1 & E2); [by rewrite last_snoc|].
    wp_step. eapply wp_bucket_at; [done|]. wp_step. eapply wp_bucket_at; [done|].
    cbn [b_size b_pageno b_prev]. rewrite E1, E2.
    eapply wp_mono; [eapply absorb_ok; [exact HL|by left]|].
    intros [] s3 (k1 & w1 & h1 & -> & HL1).
    eexists k1, w1, h1, _, 0, L, (Node (n_addr x) (n_page p) (u32 (n_size x + n_size p))).
    split_and!; [done..|]. right. by exists p.
  - apply wp_ret. exists k, w, h, W, q, K1, x. split_and!; [done..|]. left. split_and!; [done..|].
    intros p [L ->]%last_Some Ht. assert (false = true); [|done]. apply Hfront. by exists L, p.
Qed.

Lemma vm_optimize_ok k w h s K1 x K2 W q :
  lists_ok k w h (K1 ++ x :: K2) W q ->
  wp (vm_optimize KernelBuckets (n_addr x)) (with_lists k w h s) (fun _ s' =>
    exists k' w' h' W' q' K1' x' K2' x'', s' = with_lists k' w' h' s /\
      lists_ok k' w' h' (K1' ++ x'' :: K2') W' q' /\
      opt_front K1 x K1' x' /\ opt_back x x' K2 K2' x'').
Proof.
  intros HL. pose proof (item_bucket _ _ _ _ _ _ _ _ HL) as (nx & pv & Hx & P1 & P2 & P3 & P4).
  unfold vm_optimize. wp_step. eapply wp_bucket_at; [done|]. cbn [b_prev b_next b_pageno b_size].
  wp_step. eapply wp_mono; [by apply (can_merge_front_ok _ _ _ _ K1)|].
  intros front s1 [-> Hfront].
  wp_step. eapply wp_mono; [by apply (can_merge_back_ok _ _ _ _ _ K2)|].
  intros back s2 [-> Hback].
  wp_step. eapply wp_mono; [by eapply merge_front_ok|].
  intros [] s3 (k1 & w1 & h1 & W1 & q1 & K1' & x' & Ha & -> & HL1 & Ho).
  pose proof (item_bucket _ _ _ _ _ _ _ _ HL1) as (nx1 & pv1 & Hx1 & _ & _ & _ & Q4).
  destruct back.
  - destruct (proj1 Hback eq_refl) as (n & R & -> & Ht).
    destruct (Q4 n) as (-> & Hne & b & Hb & E1 & E2); [done|].
    rewrite <- Ha. wp_step. eapply wp_bucket_at; [done|]. wp_step. eapply wp_bucket_at; [done|].
    cbn [b_size b_pageno]. rewrite E2.
    eapply wp_mono; [eapply absorb_ok; [exact HL1|by right]|].
    intros [] s4 (k2 & w2 & h2 & -> & HL2).
    eexists k2, w2, h2, _, 0, K1', x', R, _. split_and!; [done..|]. right. exists n. by rewrite <- Ha.
  - apply wp_ret. exists k1, w1, h1, W1, q1, K1', x', K2, x'. split_and!; [done..|]. left.
    split_and!; [done..|]. intros n Hn Ht. assert (false = true); [|done]. apply Hback.
    destruct K2 as [|n' R]; [done|]. injection Hn as ->. by exists n, R.
Qed.
End Ranges.
