(* ===== verification/VmFree.v ===== *)
(** * kernel/memory/vm.c: the set of free kernel pages

    The list of buckets stands for a set of free pages.  [vm_reserve_pages] takes the
    lowest run that is long enough out of the set, [vm_return_pages] puts a run back
    and keeps the list ordered and fully merged. *)

From S2P Require Import Prelude Common Frames Cstring Vm VmList VmRanges.

(** ** Free pages *)

(** Page [p] lies in the range of a bucket. *)
Definition covers (n : node) (p : Z) : Prop := n_page n <= p < n_page n + n_size n.
Definition free_page (K : list node) (p : Z) : Prop := exists n, n ∈ K /\ covers n p.

(** Ascending, non-empty ranges above [lo] that do not touch each other. *)
Fixpoint coal (lo : Z) (K : list node) : Prop :=
  match K with
  | [] => True
  | n :: K' => lo < n_page n /\ 0 < n_size n /\ n_page n + n_size n < 2 ^ 32 /\
               coal (n_page n + n_size n) K'
  end.
Definition coalesced (K : list node) : Prop := coal (-1) K.

(** The end of the last range. *)
Fixpoint end_of (lo : Z) (K : list node) : Z :=
  match K with [] => lo | n :: K' => end_of (n_page n + n_size n) K' end.

Lemma coal_app lo K1 K2 : coal lo (K1 ++ K2) <-> coal lo K1 /\ coal (end_of lo K1) K2.
Proof. revert lo. induction K1 as [|n K1 IH]; intros lo; simpl; [tauto|]. rewrite IH. tauto. Qed.

Lemma end_of_snoc lo K n : end_of lo (K ++ [n]) = n_page n + n_size n.
Proof. revert lo. induction K as [|m K IH]; intros lo; simpl; [done|]. apply IH. Qed.

Lemma coal_mono lo lo' K : lo' <= lo -> coal lo K -> coal lo' K.
Proof. destruct K as [|n K]; simpl; [done|]. intros ? (? & ? & ? & ?). repeat split; (lia || done). Qed.

Lemma end_of_ge lo K : coal lo K -> lo <= end_of lo K.
Proof.
  revert lo. induction K as [|n K IH]; intros lo; simpl; [lia|].
  intros (? & ? & ? & Hc). specialize (IH _ Hc). lia.
Qed.

Lemma free_page_cons n K p : free_page (n :: K) p <-> covers n p \/ free_page K p.
Proof.
  split.
  - intros (m & [->|Hm]%elem_of_cons & Hc); [by left|]. right. by exists m.
  - intros [Hc|(m & Hm & Hc)]; [exists n|exists m]; rewrite elem_of_cons; tauto.
Qed.

Lemma free_page_app K1 K2 p : free_page (K1 ++ K2) p <-> free_page K1 p \/ free_page K2 p.
Proof.
  induction K1 as [|n K1 IH]; simpl.
  - split; [by right|intros [(? & []%elem_of_nil & _)|?]; done].
  - rewrite !free_page_cons, IH. tauto.
Qed.

Lemma free_page_nil p : ~ free_page [] p.
Proof. by intros (? & ?%elem_of_nil & _). Qed.

(** Free pages lie above the lower bound and below the end. *)
Lemma free_page_bounds lo K p : coal lo K -> free_page K p -> lo < p < end_of lo K.
Proof.
  revert lo. induction K as [|n K IH]; intros lo; simpl; [by intros _ ?%free_page_nil|].
  intros (? & ? & ? & Hc) [Hn|Hp]%free_page_cons.
  - pose proof (end_of_ge _ _ Hc). unfold covers in Hn. lia.
  - specialize (IH _ Hc Hp). lia.
Qed.

Lemma end_of_lt K : coalesced K -> -1 < end_of (-1) K -> end_of (-1) K < 2 ^ 32.
Proof.
  destruct K as [|n K _] using rev_ind; [simpl; lia|]. intros Hc _. rewrite end_of_snoc.
  unfold coalesced in Hc. apply coal_app in Hc as [_ (? & ? & ? & _)]. done.
Qed.

(** A run of [len] free pages that starts at [p]. *)
Definition free_run (K : list node) (p len : Z) : Prop :=
  forall x, p <= x < p + len -> free_page K x.

Definition lowest_run (K : list node) (p len : Z) : Prop :=
  free_run K p len /\ forall p', free_run K p' len -> p <= p'.

(** A run of free pages lies within one bucket. *)
Lemma run_in_bucket lo K p len :
  coal lo K -> 0 < len -> free_run K p len ->
  exists n, n ∈ K /\ n_page n <= p /\ p + len <= n_page n + n_size n.
Proof.
  revert lo. induction K as [|n K IH]; intros lo Hc Hlen Hr.
  - destruct (free_page_nil p). apply Hr. lia.
  - destruct Hc as (H1 & H2 & H3 & Hc).
    pose proof (proj1 (free_page_cons _ _ _) (Hr p ltac:(lia))) as [Hn|Hp].
    + unfold covers in Hn. exists n. split; [left|]. split; [lia|].
      destruct (Z.le_gt_cases (p + len) (n_page n + n_size n)) as [|Hgt]; [done|].
      (* the page at the end of the bucket is not free *)
      pose proof (Hr (n_page n + n_size n) ltac:(lia)) as [Hn'|Hp']%free_page_cons.
      * unfold covers in Hn'. lia.
      * apply (free_page_bounds _ _ _ Hc) in Hp'. lia.
    + destruct (IH _ Hc Hlen) as (m & Hm & Hb).
      { intros x Hx. apply (free_page_bounds _ _ _ Hc) in Hp.
        pose proof (Hr x Hx) as [Hn|?]%free_page_cons; [|done].
        unfold covers in Hn. lia. }
      exists m. split; [by right|done].
Qed.

(** ** Reserving *)

Lemma covers_sub n pages p :
  0 <= pages -> pages < n_size n -> 0 <= n_page n -> n_page n + n_size n < 2 ^ 32 ->
  covers (Node (n_addr n) (u32 (n_page n + pages)) (n_size n - pages)) p <->
  covers n p /\ ~ (n_page n <= p < n_page n + pages).
Proof.
  intros. unfold covers. simpl. rewrite wrap_small by (unfold in_width; lia). lia.
Qed.

Lemma coal_take lo K1 n K2 pages :
  coal lo (K1 ++ n :: K2) -> -1 <= lo -> 0 <= pages < n_size n ->
  coal lo (K1 ++ Node (n_addr n) (u32 (n_page n + pages)) (n_size n - pages) :: K2).
Proof.
  rewrite !coal_app. intros [H1 (H2 & H3 & H4 & H5)] Hlo Hp. split; [done|]. simpl.
  pose proof (end_of_ge _ _ H1). rewrite wrap_small by (unfold in_width; lia).
  replace (n_page n + pages + (n_size n - pages)) with (n_page n + n_size n) by lia.
  repeat split; lia || done.
Qed.

(** The free pages on both sides of a bucket are not covered by it. *)
Lemma free_outside lo K1 n K2 p :
  coal lo (K1 ++ n :: K2) -> free_page (K1 ++ K2) p -> ~ covers n p.
Proof.
  rewrite coal_app. intros [H1 (H2 & H3 & H4 & H5)] [Hp|Hp]%free_page_app; unfold covers.
  - apply (free_page_bounds _ _ _ H1) in Hp. lia.
  - apply (free_page_bounds _ _ _ H5) in Hp. lia.
Qed.

Lemma reserve_free K W q pages pn K' W' q' :
  coalesced K -> 0 <= pages -> reserve_post K W q pages (Some pn) K' W' q' ->
  coalesced K' /\ free_run K pn pages /\
  forall p, free_page K' p <-> free_page K p /\ ~ (pn <= p < pn + pages).
Proof.
  intros Hc Hp (K1 & n & K2 & -> & HF & Hle & -> & Hpost).
  unfold coalesced in *. pose proof Hc as Hc'. apply coal_app in Hc' as [C1 (C2 & C3 & C4 & C5)].
  pose proof (end_of_ge _ _ C1) as Hge.
  assert (free_run (K1 ++ n :: K2) (n_page n) pages) as Hrun.
  { intros x Hx. apply free_page_app. right. apply free_page_cons. left. unfold covers. lia. }
  pose proof (fun p => free_outside _ _ _ _ p Hc) as Hout.
  destruct (decide (n_size n = pages)) as [Heq|Hne]; destruct Hpost as (-> & _ & _).
  - split; [|split; [done|]].
    + apply coal_app. split; [done|]. eapply coal_mono; [|done]. lia.
    + intros p. specialize (Hout p). revert Hout. rewrite !free_page_app, free_page_cons.
      unfold covers. rewrite Heq. intuition lia.
  - split; [|split; [done|]].
    + apply coal_take; [done|lia|lia].
    + intros p. specialize (Hout p). revert Hout.
      rewrite !free_page_app, !free_page_cons, covers_sub by lia.
      unfold covers. intuition lia.
Qed.

(** First fit takes the lowest run. *)
Lemma reserve_lowest lo K1 n K2 pages p :
  coal lo (K1 ++ n :: K2) -> Forall (fun m => n_size m < pages) K1 -> 0 < pages ->
  free_run (K1 ++ n :: K2) p pages -> n_page n <= p.
Proof.
  intros Hc HF Hp Hr. destruct (run_in_bucket _ _ _ _ Hc Hp Hr) as (m & Hm & Hb).
  apply elem_of_app in Hm as [Hm|[->|Hm]%elem_of_cons]; [|lia|].
  - rewrite Forall_forall in HF. specialize (HF m Hm). simpl in HF. lia.
  - apply coal_app in Hc as [_ (? & ? & ? & Hc)].
    assert (free_page K2 (n_page m)) as Hf.
    { exists m. split; [done|]. unfold covers. lia. }
    apply (free_page_bounds _ _ _ Hc) in Hf. lia.
Qed.

(** The result of the search, in terms of the free pages. *)
Definition reserved (K K' : list node) (pages : Z) (r : option Z) : Prop :=
  match r with
  | None => K' = K /\ forall pn, ~ free_run K pn pages
  | Some pn => lowest_run K pn pages /\
      forall p, free_page K' p <-> free_page K p /\ ~ (pn <= p < pn + pages)
  end.

Lemma reserve_post_free K W q pages r K' W' q' :
  coalesced K -> 0 < pages -> reserve_post K W q pages r K' W' q' ->
  coalesced K' /\ reserved K K' pages r.
Proof.
  intros Hc Hp Hpost. destruct r as [pn|].
  - destruct (reserve_free _ _ _ _ _ _ _ _ Hc (Z.lt_le_incl _ _ Hp) Hpost) as (Hc' & Hr & Hf).
    split; [done|]. split; [|done]. split; [done|]. intros pn' Hr'.
    destruct Hpost as (K1 & n & K2 & -> & HF & _ & -> & _). by eapply reserve_lowest.
  - destruct Hpost as (-> & -> & -> & HF). split; [done|]. split; [done|]. intros pn Hr.
    destruct (run_in_bucket _ _ _ _ Hc Hp Hr) as (n & Hn & Hb).
    rewrite Forall_forall in HF. specialize (HF n Hn). simpl in HF. lia.
Qed.

(** ** Returning *)

(** A range [x] fits between the buckets [K1] and [K2]. *)
Record fits (K1 : list node) (x : node) (K2 : list node) : Prop := {
  fit_coal : coalesced (K1 ++ K2);
  fit_page : 0 <= n_page x;
  fit_size : 0 < n_size x;
  fit_end : n_page x + n_size x < 2 ^ 32;
  fit_front : end_of (-1) K1 <= n_page x;
  fit_back : coal (n_page x + n_size x - 1) K2
}.

Lemma fits_intro K1 x K2 :
  coalesced (K1 ++ K2) -> 0 <= n_page x -> 0 < n_size x -> n_page x + n_size x < 2 ^ 32 ->
  Forall (fun n => n_page n <= n_page x) K1 ->
  (forall n, head K2 = Some n -> n_page x < n_page n) ->
  (forall p, covers x p -> ~ free_page (K1 ++ K2) p) ->
  fits K1 x K2.
Proof.
  intros Hc Hp Hs He HF Hh Hd. split; [done..| |].
  - destruct K1 as [|n K1 _] using rev_ind; [simpl; lia|]. rewrite end_of_snoc.
    apply Forall_app in HF as [_ HF]. apply Forall_inv in HF.
    destruct (Z.le_gt_cases (n_page n + n_size n) (n_page x)) as [|Hgt]; [done|].
    exfalso. apply (Hd (n_page x)); [unfold covers; lia|].
    apply free_page_app. left. apply free_page_app. right. apply free_page_cons. left.
    unfold covers. lia.
  - unfold coalesced in Hc. apply coal_app in Hc as [_ Hc].
    destruct K2 as [|n K2]; [done|]. destruct Hc as (? & ? & ? & Hc).
    specialize (Hh n eq_refl). repeat split; try lia; [|done].
    destruct (Z.le_gt_cases (n_page x + n_size x) (n_page n)) as [|Hgt]; [lia|].
    exfalso. apply (Hd (n_page n)); [unfold covers; lia|].
    apply free_page_app. right. apply free_page_cons. left. unfold covers. lia.
Qed.

Lemma merge_front_free K1 x K2 K1' x' :
  fits K1 x K2 -> opt_front K1 x K1' x' ->
  coal (-1) K1' /\ end_of (-1) K1' < n_page x' /\ 0 <= n_page x' /\
  n_page x' + n_size x' = n_page x + n_size x /\ 0 < n_size x' /\
  forall p, free_page K1' p \/ covers x' p <-> free_page K1 p \/ covers x p.
Proof.
  intros [Hc Hp Hs He Hf Hb] Ho. unfold coalesced in Hc. apply coal_app in Hc as [C1 _].
  destruct Ho as [(-> & -> & Hn)|(p & -> & Ht & ->)].
  - split; [done|]. split; [|tauto].
    destruct K1 as [|n K1 _] using rev_ind; [simpl; lia|].
    specialize (Hn n). rewrite last_snoc in Hn. specialize (Hn eq_refl). unfold touches in Hn.
    apply coal_app in C1 as [C0 (? & ? & ? & _)]. pose proof (end_of_ge _ _ C0).
    rewrite end_of_snoc in *. rewrite wrap_small in Hn by (unfold in_width; lia). lia.
  - apply coal_app in C1 as [C0 (? & ? & ? & _)]. pose proof (end_of_ge _ _ C0).
    unfold touches in Ht. rewrite wrap_small in Ht by (unfold in_width; lia). cbn.
    rewrite wrap_small by (unfold in_width; lia). split_and!; [done|lia..|].
    intros y. rewrite free_page_app, free_page_cons. unfold covers. cbn.
    pose proof (free_page_nil y). intuition lia.
Qed.

Lemma merge_back_free lo x x' K2 K2' x'' :
  coal (n_page x + n_size x - 1) K2 -> opt_back x x' K2 K2' x'' ->
  lo < n_page x' -> 0 <= n_page x' -> 0 < n_size x' ->
  0 <= n_page x + n_size x < 2 ^ 32 ->
  n_page x' + n_size x' = n_page x + n_size x ->
  coal lo (x'' :: K2') /\
  forall p, free_page (x'' :: K2') p <-> covers x' p \/ free_page K2 p.
Proof.
  intros Hc Ho Hlo Hp0 Hs Hb He. destruct Ho as [(-> & -> & Hn)|(n & -> & Ht & ->)].
  - split; [|intros; apply free_page_cons]. split_and!; [done|done|lia|]. rewrite He.
    destruct K2 as [|n K2]; [done|]. specialize (Hn n eq_refl). unfold touches in Hn.
    rewrite wrap_small in Hn by (unfold in_width; lia).
    destruct Hc as (? & ? & ? & Hc). repeat split; try done. lia.
  - destruct Hc as (? & ? & ? & Hc). unfold touches in Ht.
    rewrite wrap_small in Ht by (unfold in_width; lia).
    assert (u32 (n_size x' + n_size n) = n_size x' + n_size n) as Hsz.
    { apply wrap_small. unfold in_width. lia. }
    split.
    + simpl. rewrite Hsz.
      replace (n_page x' + (n_size x' + n_size n)) with (n_page n + n_size n) by lia.
      repeat split; lia || done.
    + intros p. rewrite !free_page_cons. unfold covers. cbn. rewrite Hsz. intuition lia.
Qed.

Lemma merge_free K1 x K2 K1' x' K2' x'' :
  fits K1 x K2 -> opt_front K1 x K1' x' -> opt_back x x' K2 K2' x'' ->
  coalesced (K1' ++ x'' :: K2') /\
  forall p, free_page (K1' ++ x'' :: K2') p <-> free_page (K1 ++ K2) p \/ covers x p.
Proof.
  intros HF Hf Hb. destruct (merge_front_free _ _ _ _ _ HF Hf) as (A1 & A2 & A3 & A4 & A5 & A6).
  destruct HF as [Hc Hp Hs He _ Hbk].
  destruct (merge_back_free (end_of (-1) K1') x x' K2 K2' x'') as [B1 B2]; try done; [lia|].
  split; [unfold coalesced; by apply coal_app|].
  intros p. rewrite !free_page_app, B2. specialize (A6 p). tauto.
Qed.

Section Ops.
Context {PS : Type} `{FrameAllocator PS} `{Layout}.
Implicit Types (s : vm_state PS) (K W : list node) (q pages pageno : Z).

(** The kernel buckets of [s] are [K] and its waiting list is [W]. *)
Definition vm_lists s K W q : Prop :=
  lists_ok (vm_kernel_buckets s) (vm_waiting_list s) (buckets s) K W q.

(** The parts of the state the range operations leave alone. *)
Definition same_paging s s' : Prop :=
  vm_current_as s' = vm_current_as s /\ spaces s' = spaces s /\ pdes s' = pdes s /\
  ptes s' = ptes s /\ cr3 s' = cr3 s /\ frames s' = frames s.

(** [vm_item] can deliver a bucket without allocating a page: there is a waiting
    one whose [prev] member is NULL, or enough stealable memory is left. *)
Definition item_available s W q : Prop :=
  (W <> [] /\ q = 0) \/
  (W = [] /\ sizeof_bucket <= vm_steal_remaining s /\ vm_steal_next s <> 0 /\
   buckets s !! vm_steal_next s = None).

Lemma lists_ok_insert k w h K W q p b :
  h !! p = None -> lists_ok k w h K W q -> lists_ok k w (<[p := b]> h) K W q.
Proof.
  intros Hp [HK HW Hnd]. split; [eapply dll_frame; [|exact HK]|eapply dll_frame; [|exact HW]|done];
    intros a Ha; apply lookup_insert_ne; intros ->.
  - apply (dll_dom _ _ _ _ _ HK) in Ha as [[? Ha] _]. congruence.
  - apply (dll_dom _ _ _ _ _ HW) in Ha as [[? Ha] _]. congruence.
Qed.

(** Reserving pages leaves a bucket at hand if there was one. *)
Lemma reserve_available s k w h K W q pages r K' W' q' :
  item_available s W q -> reserve_post K W q pages r K' W' q' -> no_new (buckets s) h ->
  item_available (with_lists k w h s) W' q'.
Proof.
  intros Ha Hpost Hn.
  assert (W' = W /\ q' = q \/ W' <> [] /\ q' = 0) as [[-> ->]|Hw]; [|destruct Ha as [?|(? & ? & ? & Hf)]|by left].
  - destruct r as [pn|]; [|destruct Hpost as (_ & -> & -> & _); by left].
    destruct Hpost as (K1 & n & K2 & _ & _ & _ & _ & Hpost).
    destruct (decide (n_size n = pages)); destruct Hpost as (_ & -> & ->); [by right|by left].
  - by left.
  - right. split_and!; try done. by apply Hn.
Qed.

Lemma vm_kernel_stealmem_ok s size :
  0 <= size <= PAGE_SIZE -> size <= vm_steal_remaining s ->
  wp (vm_kernel_stealmem size) s (fun a s' => a = vm_steal_next s /\ exists r,
    written (ram s) r a size (fun _ => Some 0) /\
    s' = with_steal (u32 (a + size)) (u32 (vm_steal_remaining s - size)) (with_ram r s)).
Proof.
  intros Hs Hr. unfold vm_kernel_stealmem. wp_step. wp_step; [apply Z.leb_le; lia|].
  wp_step. wp_step. wp_step. destruct (Z.ltb_spec (vm_steal_remaining s) size); [lia|].
  wp_step. wp_step. wp_step. wp_step. unfold in_ram. wp_step.
  eapply wp_mono; [apply memset_ok; lia|]. intros ? r [-> Hw]. wp_step. wp_step. wp_step.
  split; [done|]. by exists r.
Qed.

Lemma pop_waiting_ok s K n W :
  vm_lists s K (n :: W) 0 ->
  wp (ll_pop_item WaitingList) s (fun x s' => x = n_addr n /\ vm_lists s' K W (n_addr n) /\
    buckets s' !! x = Some (Bucket (n_page n) (n_size n) 0 0) /\ same_paging s s' /\ x <> 0).
Proof.
  intros [HK HW Hnd]. pose proof HW as (Hhd & Hne & _).
  pose proof (proj1 (nodup_app_addrs _ _) Hnd) as (_ & Hnd' & _).
  pose proof (ll_pop_ok WaitingList (vm_kernel_buckets s) (vm_waiting_list s) (buckets s)
    s n W HW Hnd') as Hpop. rewrite with_lists_id in Hpop. eapply wp_mono; [exact Hpop|].
  intros x s' (hd' & h' & -> & -> & Hd & Hx & Hfr). cbn [upd_k upd_w].
  apply (addrs_perm _ (n :: K ++ W)) in Hnd; [|symmetry; apply Permutation_middle].
  apply NoDup_cons in Hnd as [Hnin Hnd]. split_and!; try done; [|congruence].
  split; [|done|done]. simpl. eapply dll_frame; [|done]. intros a Ha. apply Hfr. intros ->.
  apply Hnin, elem_of_addrs_app. by left.
Qed.

Lemma vm_item_ok s K W q :
  vm_lists s K W q -> item_available s W q ->
  wp vm_item s (fun x s' => exists W' q' pg sz, vm_lists s' K W' q' /\ x <> 0 /\
    (x ∉ addrs (K ++ W')) /\ buckets s' !! x = Some (Bucket pg sz 0 0) /\ same_paging s s').
Proof.
  intros HL Ha. unfold vm_item. wp_step. wp_step. destruct Ha as [[HW ->]|(-> & Hr & Hne & Hf)].
  - destruct W as [|n W]; [done|]. pose proof HL as [HK (Hhd & Hne & _) Hnd].
    destruct (Z.eqb_spec (vm_waiting_list s) 0); [done|].
    eapply wp_mono; [by apply pop_waiting_ok|]. intros x s' (-> & HL' & Hb & Hs & ?).
    exists W, (n_addr n), (n_page n), (n_size n). split_and!; try done.
    apply (addrs_perm _ (n :: K ++ W)) in Hnd; [|symmetry; apply Permutation_middle].
    by apply NoDup_cons in Hnd as [Hnin _].
  - pose proof HL as [_ HW _]. simpl in HW. rewrite HW. simpl. wp_step.
    eapply wp_mono; [apply vm_kernel_stealmem_ok; [vm_compute; split; discriminate|done]|].
    intros a s' (-> & r & _ & ->). wp_step. wp_step. wp_step.
    exists [], q, 0, 0. split_and!; try done.
    + unfold vm_lists. cbn. by apply lists_ok_insert.
    + destruct (fresh_not_in _ _ _ _ _ _ _ Hf HL). rewrite elem_of_addrs_app. tauto.
    + cbn. by rewrite lookup_insert_eq.
Qed.

(** The search for the first bucket behind [pageno]. *)
Lemma find_behind_ok fuel : forall s K2 e hd pageno,
  dll (buckets s) e hd K2 -> (length K2 < fuel)%nat ->
  wp (find_behind fuel hd pageno) s (fun r s' => s' = s /\ exists K1 K3 e',
    K2 = K1 ++ K3 /\ dlseg (buckets s) e hd K1 e' r /\ dll (buckets s) e' r K3 /\
    Forall (fun n => n_page n <= pageno) K1 /\
    forall n, head K3 = Some n -> pageno < n_page n).
Proof.
  induction fuel as [|fuel IH]; intros s K2 e hd pageno Hd Hf; [lia|]. cbn [find_behind].
  destruct K2 as [|n K2].
  - simpl in Hd. subst hd. simpl. apply wp_ret. split; [done|]. by exists [], [], e.
  - pose proof Hd as (-> & Hne & nx & Hn & H2). destruct (Z.eqb_spec (n_addr n) 0); [done|].
    wp_step. unfold wp at 1, bucket_at. rewrite Hn. cbn [b_pageno b_next].
    destruct (Z.leb_spec (n_page n) pageno) as [Hle|Hgt].
    + eapply wp_mono; [eapply (IH _ K2); [done|simpl in Hf; lia]|].
      intros r s' (-> & K1 & K3 & e' & -> & D1 & D2 & HF & Hh). split; [done|].
      exists (n :: K1), K3, e'. split_and!; try done; [|by constructor].
      split; [done|]. split; [done|]. by exists nx.
    + apply wp_ret. split; [done|]. exists [], (n :: K2), e. split_and!; try done.
      by intros m [= <-].
Qed.

(** Linking a bucket that is in no list in front of [n], or into the empty list. *)
Lemma insert_item_ok k w h s K1 n K2 W q x b :
  lists_ok k w h (K1 ++ n :: K2) W q -> x <> 0 -> x ∉ addrs ((K1 ++ n :: K2) ++ W) ->
  h !! x = Some b ->
  wp (ll_insert_before KernelBuckets x (n_addr n)) (with_lists k w h s) (fun _ s' =>
    exists k' h', s' = with_lists k' w h' s /\
      lists_ok k' w h' (K1 ++ Node x (b_pageno b) (b_size b) :: n :: K2) W q).
Proof.
  intros [HK HW Hnd] Hx0 Hx Hb.
  pose proof (proj1 (nodup_app_addrs _ _) Hnd) as (Hnd1 & _ & Hdis).
  assert ((x ∉ addrs (K1 ++ n :: K2)) /\ (x ∉ addrs W)) as [Hx1 Hx2].
  { rewrite elem_of_addrs_app in Hx. tauto. }
  eapply wp_mono; [by apply (ll_insert_ok KernelBuckets)|].
  intros [] s' (k' & h' & -> & Hd & Hfr). exists k', h'. split; [done|]. split; [done| |].
  - eapply dll_frame; [|exact HW]. intros a Ha. apply Hfr; [|by intros ->].
    intros Hin. by apply (Hdis a).
  - eapply (addrs_perm (Node x (b_pageno b) (b_size b) :: (K1 ++ n :: K2) ++ W)).
    + rewrite <- !app_assoc. simpl. apply Permutation_middle.
    + by apply NoDup_cons.
Qed.

Lemma push_first_ok k w h s W q x pg sz :
  lists_ok k w h [] W q -> x <> 0 -> x ∉ addrs W -> h !! x = Some (Bucket pg sz 0 0) ->
  wp (ll_push_item KernelBuckets x) (with_lists k w h s) (fun _ s' =>
    exists k' h', s' = with_lists k' w h' s /\ lists_ok k' w h' [Node x pg sz] W q).
Proof.
  intros [HK HW Hnd] Hx0 Hx Hb. eapply wp_mono.
  { apply (ll_push_ok KernelBuckets k w h s 0 [] x pg sz); try done; [constructor|].
    by intros ?%elem_of_nil. }
  intros [] s' (h' & -> & Hd & Hfr). exists x, h'. split; [done|]. split; [done| |].
  - eapply dll_frame; [|exact HW]. intros a Ha. apply Hfr; [by intros ?%elem_of_nil|].
    by intros ->.
  - by apply NoDup_cons.
Qed.

(** Preparing the item: [vm_item] and the two assignments. *)
Lemma take_item_ok s K W q pages pageno (rest : Z -> M (vm_state PS) unit) Q :
  vm_lists s K W q -> item_available s W q ->
  (forall x k w h W' q' s1, lists_ok k w h K W' q' -> x <> 0 -> x ∉ addrs (K ++ W') ->
     h !! x = Some (Bucket pageno pages 0 0) ->
     (forall k' w' h', same_paging s (with_lists k' w' h' s1)) -> wp (rest x) (with_lists k w h s1) Q) ->
  wp (item ← vm_item;
      _ ← ASSERT (negb (item =? 0)) "item";
      _ ← set_range item pageno pages; rest item) s Q.
Proof.
  intros HL Ha HQ. wp_step. eapply wp_mono; [by eapply vm_item_ok|].
  intros x s1 (W' & q' & pg & sz & HL1 & Hx0 & Hx & Hb & Hsame).
  wp_step. wp_step; [by destruct (Z.eqb_spec x 0)|]. wp_step. rewrite <- (with_lists_id s1).
  eapply wp_set_range; [done|]. cbn [b_next b_prev].
  apply (HQ _ _ _ _ W' q'); [|done|done|by rewrite lookup_insert_eq|by intros].
  destruct HL1 as [HK HW Hnd]. rewrite elem_of_addrs_app in Hx.
  split; [apply dll_insert_ne; tauto|apply dll_insert_ne; tauto|done].
Qed.

Lemma vm_return_ok s K W q pages pageno :
  vm_lists s K W q -> item_available s W q -> coalesced K ->
  0 <= pageno -> 0 < pages -> pageno + pages < 2 ^ 32 ->
  (forall p, pageno <= p < pageno + pages -> ~ free_page K p) ->
  (K = [] \/ exists n, n ∈ K /\ pageno < n_page n) ->
  wp (vm_return_pages KernelBuckets pages pageno) s (fun _ s' => exists K' W' q',
    vm_lists s' K' W' q' /\ coalesced K' /\ same_paging s s' /\
    forall p, free_page K' p <-> free_page K p \/ pageno <= p < pageno + pages).
Proof.
  intros HL Ha Hc Hp0 Hp1 Hp2 Hd Hbehind.
  unfold vm_return_pages. apply (take_item_ok s K W q); [done..|].
  intros x k w h W' q' s1 HL1 Hx0 Hx Hb Hsame. pose proof HL1 as [HK HW Hnd].
  wp_step. apply wp_list_head. cbn [head_of]. destruct Hbehind as [->|(n & Hn & Hlt)].
  - simpl in HK. rewrite HK. simpl. eapply wp_mono; [by eapply push_first_ok|].
    intros [] s2 (k' & h' & -> & HL2). exists [Node x pageno pages], W', q'.
    split; [done|]. split; [unfold coalesced; simpl; repeat split; lia|].
    split; [done|]. intros p. rewrite free_page_cons. unfold covers. cbn.
    pose proof (free_page_nil p). tauto.
  - destruct (Z.eqb_spec k 0) as [->|Hk]; [by rewrite (dll_head_0 _ _ _ HK) in Hn; apply elem_of_nil in Hn|].
    wp_step. wp_step. wp_step. eapply wp_mono.
    { apply (find_behind_ok _ _ K 0); [done|]. cbn [buckets with_lists].
      apply nodup_app_addrs in Hnd as (Hnd & _). pose proof (dll_length _ _ _ _ HK Hnd). lia. }
    intros r s2 (-> & K1 & K3 & e' & -> & D1 & D2 & HF & Hh).
    destruct K3 as [|m K3].
    { rewrite app_nil_r in Hn. rewrite Forall_forall in HF. specialize (HF n Hn). simpl in HF. lia. }
    pose proof D2 as (-> & Hm & _). destruct (Z.eqb_spec (n_addr m) 0); [done|].
    wp_step. eapply wp_mono; [by eapply insert_item_ok|]. intros [] s2 (k' & h' & -> & HL2).
    eapply wp_mono; [exact (vm_optimize_ok _ _ _ s1 _ _ _ _ _ HL2)|].
    intros [] s3 (k2 & w2 & h2 & W2 & q2 & K1' & x' & K2' & x'' & -> & HL3 & Hof & Hob).
    destruct (merge_free K1 (Node x pageno pages) (m :: K3) K1' x' K2' x'') as [Hc' Hfree]; try done.
    { apply fits_intro; try done. }
    exists (K1' ++ x'' :: K2'), W2, q2. split; [done|]. split; [done|]. split; [done|].
    intros p. by rewrite Hfree.
Qed.
End Ops.
