(* ===== verification/VmFreeProps.v ===== *)
(** * kernel/memory/vm.c: correctness of the free ranges

    The theorems on [vm_reserve_pages], [vm_return_pages] and the lists they use,
    and the inputs on which the functions do not return. *)

From S2P Require Import Prelude Common Frames Cstring Vm VmList VmRanges VmFree.
From S2P Require Bitset Pmm PmmFrames.

Section Properties.
Context {PS : Type} `{FrameAllocator PS} `{Layout}.
Implicit Types (s : vm_state PS) (K W : list node) (q pages pageno : Z).

(** C15: [vm_reserve_pages] on an ordered, merged list of buckets always returns.  It
    fails exactly when no run of [pages] consecutive free pages exists; otherwise it
    returns the lowest such run and takes exactly that run out of the free pages.
    The list stays ordered and merged, and only the lists change. *)
Theorem vm_reserve_pages_correct s K W q pages :
  vm_lists s K W q -> coalesced K -> 0 < pages ->
  exists r s' K' W' q', vm_reserve_pages KernelBuckets pages s = Ok (r, s') /\
    vm_lists s' K' W' q' /\ coalesced K' /\ same_paging s s' /\
    match r with
    | None => K' = K /\ forall pn, ~ free_run K pn pages
    | Some pn => lowest_run K pn pages /\
        forall p, free_page K' p <-> free_page K p /\ ~ (pn <= p < pn + pages)
    end.
Proof.
  intros HL Hc Hp. pose proof (vm_reserve_ok _ _ _ s _ _ _ pages HL) as Hwp.
  rewrite with_lists_id in Hwp.
  apply wp_ok in Hwp as (r & s' & Hrun & k & w & h & K' & W' & q' & -> & HL' & _ & Hpost).
  destruct (reserve_post_free _ _ _ _ _ _ _ _ Hc Hp Hpost) as [Hc' Hr].
  by exists r, (with_lists k w h s), K', W', q'.
Qed.

(** C11: [vm_return_pages] with a run of pages none of which is free, in front of some
    bucket (or with no bucket left), returns when a bucket for it is at hand: the
    free pages grow by exactly the run, and the list is again ordered and merged with
    both neighbours. *)
Theorem vm_return_pages_correct s K W q pages pageno :
  vm_lists s K W q -> item_available s W q -> coalesced K ->
  0 <= pageno -> 0 < pages -> pageno + pages < 2 ^ 32 ->
  (forall p, pageno <= p < pageno + pages -> ~ free_page K p) ->
  (K = [] \/ exists n, n ∈ K /\ pageno < n_page n) ->
  exists s' K' W' q', vm_return_pages KernelBuckets pages pageno s = Ok (tt, s') /\
    vm_lists s' K' W' q' /\ coalesced K' /\ same_paging s s' /\
    forall p, free_page K' p <-> free_page K p \/ pageno <= p < pageno + pages.
Proof.
  intros. pose proof (vm_return_ok s K W q pages pageno) as Hwp.
  apply wp_ok in Hwp as ([] & s' & Hrun & K' & W' & q' & HL & Hc & Hs & Hf); try done.
  by exists s', K', W', q'.
Qed.

(** a run returned behind the last bucket of a non-empty list ends in a panic:
    the search leaves [node] NULL, and that pointer is handed to
    [ll_append_notempty], whose assertion rejects it. *)
Theorem vm_return_pages_behind_panics s K W q pages pageno :
  vm_lists s K W q -> item_available s W q -> K <> [] ->
  Forall (fun n => n_page n <= pageno) K ->
  vm_return_pages KernelBuckets pages pageno s = Panic "olditem".
Proof.
  intros HL Ha HK HF. pose proof (vm_item_ok s K W q HL Ha) as Hwp.
  apply wp_ok in Hwp as (x & s1 & Hitem & W' & q' & pg & sz & HL1 & Hx0 & Hx & Hb & _).
  unfold vm_return_pages. rewrite (bind_ok _ _ _ _ _ Hitem).
  destruct (Z.eqb_spec x 0); [done|]. destruct HL1 as [HK1 HW1 Hnd1].
  set (s2 := with_lists (vm_kernel_buckets s1) (vm_waiting_list s1)
               (<[x := Bucket pageno pages 0 0]> (buckets s1)) s1).
  assert (set_range x pageno pages s1 = Ok (tt, s2)) as Hset.
  { unfold set_range, mbind, M_bind, bucket_at, put_bucket. by rewrite !Hb. }
  change (ASSERT (negb false) "item") with (mret tt : M (vm_state PS) unit).
  rewrite (bind_ok (mret tt) _ s1 tt s1 eq_refl).
  rewrite (bind_ok _ _ _ _ _ Hset), (bind_ok _ _ _ _ _ eq_refl).
  assert (list_head KernelBuckets s2 <> 0) as Hne.
  { simpl. intros E. rewrite E in HK1. by apply dll_head_0 in HK1. }
  destruct (Z.eqb_spec (list_head KernelBuckets s2) 0); [done|].
  rewrite (bind_ok _ _ _ _ _ eq_refl).
  assert (dll (buckets s2) 0 (list_head KernelBuckets s2) K) as HK2.
  { apply dll_insert_ne; [|exact HK1]. rewrite elem_of_addrs_app in Hx. tauto. }
  apply nodup_app_addrs in Hnd1 as (Hnd & _).
  pose proof (dll_length _ _ _ _ HK2 Hnd) as Hlen.
  pose proof (find_behind_ok (S (size (buckets s2))) s2 K 0 _ pageno HK2 ltac:(lia)) as Hwp.
  apply wp_ok in Hwp as (r & s3 & Hfind & -> & K1 & K3 & e & -> & _ & D & _ & Hh).
  rewrite (bind_ok _ _ _ _ _ Hfind). destruct K3 as [|m K3].
  - simpl in D. subst r. done.
  - specialize (Hh m eq_refl). rewrite Forall_forall in HF.
    pose proof (HF m) as Hm. rewrite elem_of_app, elem_of_cons in Hm. simpl in Hm.
    specialize (Hm ltac:(tauto)). lia.
Qed.

(** C32: returning a run that was just reserved restores the set of free pages, when a
    later page is still free and a bucket is at hand. *)
Theorem vm_reserve_return_roundtrip s K W q pages s1 pn K1 W1 q1 :
  vm_lists s K W q -> coalesced K -> 0 < pages ->
  vm_reserve_pages KernelBuckets pages s = Ok (Some pn, s1) ->
  vm_lists s1 K1 W1 q1 -> item_available s1 W1 q1 ->
  (exists p, free_page K p /\ pn + pages <= p) ->
  exists s2 K2 W2 q2, vm_return_pages KernelBuckets pages pn s1 = Ok (tt, s2) /\
    vm_lists s2 K2 W2 q2 /\ coalesced K2 /\ same_paging s s2 /\
    forall p, free_page K2 p <-> free_page K p.
Proof.
  intros HL Hc Hp Hrun HL1 Ha (p & Hfp & Hle).
  pose proof (vm_reserve_ok _ _ _ s _ _ _ pages HL) as Hwp. rewrite with_lists_id in Hwp.
  apply wp_ok in Hwp as (r & s' & Hrun' & k & w & h & K' & W' & q' & -> & HL' & _ & Hpost).
  rewrite Hrun in Hrun'. injection Hrun' as <- ->.
  destruct (lists_ok_inj _ _ _ _ _ _ _ _ _ HL1 HL') as [-> ->].
  destruct (reserve_free _ _ _ _ _ _ _ _ Hc (Z.lt_le_incl _ _ Hp) Hpost) as (Hc' & Hr & Hf).
  pose proof (free_page_bounds _ _ _ Hc (Hr pn ltac:(lia))) as Hb1.
  pose proof (free_page_bounds _ _ _ Hc (Hr (pn + pages - 1) ltac:(lia))) as Hb2.
  pose proof (end_of_lt _ Hc ltac:(lia)) as Hb3.
  pose proof (vm_return_ok _ K' W' q1 pages pn HL1 Ha Hc' ltac:(lia) Hp ltac:(lia)) as Hret.
  apply wp_ok in Hret as ([] & s2 & Hret & K2 & W2 & q2 & HL2 & Hc2 & Hs2 & Hf2).
  - exists s2, K2, W2, q2. split_and!; try done. intros y. rewrite Hf2, Hf.
    destruct (decide (pn <= y < pn + pages)) as [Hy|Hy]; [|tauto]. specialize (Hr y Hy). tauto.
  - intros y Hy. rewrite Hf. tauto.
  - right. assert (free_page K' p) as (n & Hn & Hcov) by (apply Hf; split; [done|lia]).
    exists n. split; [done|].
    (* a bucket that starts at or below the run and covers [p] would cover the run *)
    destruct (Z.lt_ge_cases pn (n_page n)) as [|Hge]; [done|]. exfalso.
    assert (free_page K' pn) as Hbad by (exists n; split; [done|unfold covers in *; lia]).
    apply Hf in Hbad as [_ Hbad]. lia.
Qed.

(** [ll_pop_item] leaves the [prev] member of the new first item pointing to the
    item it removed, so that a second call panics on a list of two or more items. *)
Theorem ll_pop_item_twice_panics s K n1 n2 W :
  vm_lists s K (n1 :: n2 :: W) 0 ->
  exists s1, ll_pop_item WaitingList s = Ok (n_addr n1, s1) /\
    vm_lists s1 K (n2 :: W) (n_addr n1) /\
    ll_pop_item WaitingList s1 = Panic "item->prev == NULL".
Proof.
  intros HL. pose proof (pop_waiting_ok s K n1 (n2 :: W) HL) as Hwp.
  apply wp_ok in Hwp as (x & s1 & Hrun & -> & HL1 & _ & _ & Hne). exists s1.
  split; [done|]. split; [done|]. destruct HL1 as [_ (Hhd & Hnz & nx & Hb & _) _].
  unfold ll_pop_item, mbind, M_bind, gets, bucket_at. simpl.
  destruct (Z.eqb_spec (vm_waiting_list s1) 0); [done|]. rewrite Hb. simpl.
  by destruct (Z.eqb_spec (n_addr n1) 0).
Qed.
End Properties.

(** ** Examples *)

Section Examples.
#[local] Existing Instance PmmFrames.pmm_allocator.
#[local] Existing Instance example_layout.

(** Two free ranges, 10..13 and 20..27, and two waiting buckets. *)
Definition ex_K : list node := [Node 16 10 4; Node 32 20 8].
Definition ex_W : list node := [Node 48 0 0; Node 64 0 0].
Definition ex_vm_of (p : Pmm.pmm_state) : vm_state Pmm.pmm_state :=
  with_lists 16 48
    (list_to_map [(16, Bucket 10 4 32 0); (32, Bucket 20 8 0 16);
                  (48, Bucket 0 0 64 0); (64, Bucket 0 0 0 48)])
    (vm_boot p).
Definition ex_vm : vm_state Pmm.pmm_state := ex_vm_of Pmm.ex_pmm.

(** The state after four pages were reserved. *)
Definition ex_vm4_of (p : Pmm.pmm_state) : vm_state Pmm.pmm_state :=
  with_lists 32 16
    (list_to_map [(16, Bucket 0 0 48 0); (32, Bucket 20 8 0 0);
                  (48, Bucket 0 0 64 16); (64, Bucket 0 0 0 48)])
    (vm_boot p).

Lemma ex_vm_reserve4 p :
  vm_reserve_pages KernelBuckets 4 (ex_vm_of p) = Ok (Some 10, ex_vm4_of p).
Proof. vm_compute. reflexivity. Qed.

Lemma ex_vm_lists : vm_lists ex_vm ex_K ex_W 0.
Proof.
  split; [| |apply (bool_decide_unpack _); vm_compute; exact I].
  - repeat (split; [done|]; split; [done|]; eexists; split; [reflexivity|]). done.
  - repeat (split; [done|]; split; [done|]; eexists; split; [reflexivity|]). done.
Qed.

Lemma ex_vm_coalesced : coalesced ex_K.
Proof. repeat split; vm_compute; (reflexivity || discriminate). Qed.

Lemma ex_vm_item : item_available ex_vm ex_W 0.
Proof. by left. Qed.

Lemma ex_free_page p : free_page ex_K p <-> 10 <= p < 14 \/ 20 <= p < 28.
Proof.
  unfold ex_K. rewrite !free_page_cons. unfold covers. cbn. pose proof (free_page_nil p).
  intuition lia.
Qed.

(** The first range is too short for five pages. *)
Lemma vm_reserve_pages_correct_witness :
  exists s', vm_reserve_pages KernelBuckets 5 ex_vm = Ok (Some 20, s') /\ same_paging ex_vm s'.
Proof.
  destruct (vm_reserve_pages_correct ex_vm ex_K ex_W 0 5 ex_vm_lists ex_vm_coalesced ltac:(lia))
    as (r & s' & K' & W' & q' & Hrun & _ & _ & Hs & _).
  assert (value_of (vm_reserve_pages KernelBuckets 5 ex_vm) = Some (Some 20)) as Hv
    by (vm_compute; reflexivity).
  exists s'. rewrite Hrun in Hv. simpl in Hv. injection Hv as ->. split; [exact Hrun|exact Hs].
Defined.

(** Returning 14..19 closes the gap. *)
Lemma vm_return_pages_correct_witness :
  exists s' K' W' q', vm_return_pages KernelBuckets 6 14 ex_vm = Ok (tt, s') /\
    vm_lists s' K' W' q' /\ forall p, free_page K' p <-> 10 <= p < 28.
Proof.
  destruct (vm_return_pages_correct ex_vm ex_K ex_W 0 6 14 ex_vm_lists ex_vm_item
    ex_vm_coalesced ltac:(lia) ltac:(lia) ltac:(lia)) as (s' & K' & W' & q' & Hrun & HL & _ & _ & Hf).
  - intros p Hp. rewrite ex_free_page. lia.
  - right. exists (Node 32 20 8). split; [right; left|simpl; lia].
  - exists s', K', W', q'. split; [exact Hrun|]. split; [exact HL|]. intros p.
    rewrite Hf, ex_free_page. lia.
Defined.

Lemma vm_return_pages_behind_panics_witness :
  vm_return_pages KernelBuckets 2 30 ex_vm = Panic "olditem".
Proof.
  apply (vm_return_pages_behind_panics ex_vm ex_K ex_W 0 2 30 ex_vm_lists ex_vm_item);
    [discriminate|]. repeat constructor; simpl; lia.
Defined.

Lemma vm_reserve_return_roundtrip_witness :
  exists s1 s2 K2 W2 q2, vm_reserve_pages KernelBuckets 4 ex_vm = Ok (Some 10, s1) /\
    vm_return_pages KernelBuckets 4 10 s1 = Ok (tt, s2) /\ vm_lists s2 K2 W2 q2 /\
    forall p, free_page K2 p <-> free_page ex_K p.
Proof.
  pose (s1 := ex_vm4_of Pmm.ex_pmm). pose proof (ex_vm_reserve4 Pmm.ex_pmm) as Hrun.
  assert (vm_lists s1 [Node 32 20 8] (Node 16 0 0 :: ex_W) 0) as HL1.
  { split; [| |apply (bool_decide_unpack _); vm_compute; exact I].
    - repeat (split; [done|]; split; [done|]; eexists; split; [reflexivity|]). done.
    - repeat (split; [done|]; split; [done|]; eexists; split; [reflexivity|]). done. }
  destruct (vm_reserve_return_roundtrip ex_vm ex_K ex_W 0 4 s1 10 _ _ _ ex_vm_lists
    ex_vm_coalesced ltac:(lia) Hrun HL1) as (s2 & K2 & W2 & q2 & Hret & HL2 & _ & _ & Hf).
  - left. split; [discriminate|reflexivity].
  - exists 20. rewrite ex_free_page. lia.
  - exists s1, s2, K2, W2, q2. split; [exact Hrun|]. split; [exact Hret|]. split; [exact HL2|].
    exact Hf.
Defined.

Lemma ll_pop_item_twice_panics_witness :
  exists s1, ll_pop_item WaitingList ex_vm = Ok (48, s1) /\
    ll_pop_item WaitingList s1 = Panic "item->prev == NULL".
Proof.
  destruct (ll_pop_item_twice_panics ex_vm ex_K (Node 48 0 0) (Node 64 0 0) [] ex_vm_lists)
    as (s1 & Hrun & _ & Hp).
  exists s1. split; [exact Hrun|exact Hp].
Defined.
End Examples.
