(* ===== verification/VmPaging.v ===== *)
(** * kernel/memory/vm.c: address translation

    The page tables vm.c builds, seen through the processor's two-level walk:
    [vm_map_page], [vm_unmap_page] and [vm_dma] change the translation of exactly
    the pages they are asked for. *)

From S2P Require Import Prelude Common Frames Cstring Vm VmList.

(** The two indices of a virtual address. *)
Definition dir_of (va : Z) : Z := va / 2 ^ 22.
Definition tab_of (va : Z) : Z := (va / 4096) mod 1024.

Lemma dir_of_shift va : Z.shiftr va 22 = dir_of va.
Proof. unfold dir_of. by rewrite Z.shiftr_div_pow2 by lia. Qed.

Lemma tab_of_shift va : Z.land (Z.shiftr va 12) 0x3FF = tab_of va.
Proof.
  unfold tab_of. rewrite Z.shiftr_div_pow2 by lia. change 0x3FF with (Z.ones 10).
  by rewrite Z.land_ones by lia.
Qed.

Lemma dir_range va : is_u32 va -> 0 <= dir_of va < 1024.
Proof. unfold in_width, dir_of. intros. Z.div_mod_to_equations. lia. Qed.

Lemma tab_range va : 0 <= tab_of va < 1024.
Proof. unfold tab_of. Z.div_mod_to_equations. lia. Qed.

Lemma same_page v va : v / 4096 = va / 4096 <-> dir_of v = dir_of va /\ tab_of v = tab_of va.
Proof.
  unfold dir_of, tab_of. change (2 ^ 22) with (4096 * 1024).
  rewrite <- !Z.div_div by lia. Z.div_mod_to_equations. lia.
Qed.

Lemma dir_kernel va : is_u32 va -> KERNEL_OFFSET <= va -> 0x300 <= dir_of va < 0x400.
Proof.
  unfold in_width, dir_of, KERNEL_OFFSET. intros. change (2 ^ 22) with 4194304.
  Z.div_mod_to_equations. lia.
Qed.

(** Entries of page-aligned tables do not overlap. *)
Lemma entry_inj t t' i i' :
  t mod 4096 = 0 -> t' mod 4096 = 0 -> 0 <= i < 1024 -> 0 <= i' < 1024 ->
  t + 4 * i = t' + 4 * i' -> t = t' /\ i = i'.
Proof. intros. Z.div_mod_to_equations. lia. Qed.

Section Paging.
Context {PS : Type} `{FrameAllocator PS} `{Layout}.
Implicit Types (s : vm_state PS) (a : as_t).

(** The processor's walk from the page directory at physical address [dir].  The
    kernel's memory is mapped at [KERNEL_OFFSET], where the entries were written. *)
Definition walk s (dir va : Z) : option Z :=
  let de := default zero_pde (pdes s !! (dir + KERNEL_OFFSET + 4 * dir_of va)) in
  if pde_present de =? 0 then None
  else
    let te := pte_at (pde_page_table de * 4096 + KERNEL_OFFSET) (tab_of va) s in
    if pte_present te =? 0 then None
    else Some (pte_frame te * 4096 + va mod 4096).

Definition mmu s (va : Z) : option Z := walk s (cr3 s) va.

(** The address space at [asp] is [a]: the directory and the array [tables] agree,
    the tables are page-aligned and distinct, and all kernel tables are present. *)
Record space_wf s (asp : Z) a : Prop := {
  sw_space : spaces s !! asp = Some a;
  sw_dir : as_directory a = as_directory_phys a + KERNEL_OFFSET;
  sw_pde : forall i, 0 <= i < 1024 ->
    match as_tables a !! i with
    | Some t => pde_present (pde_at a i s) = 1 /\
                pde_page_table (pde_at a i s) * 4096 + KERNEL_OFFSET = t /\ t mod 4096 = 0
    | None => pde_present (pde_at a i s) = 0
    end;
  sw_inj : forall i j t, 0 <= i < 1024 -> 0 <= j < 1024 ->
    as_tables a !! i = Some t -> as_tables a !! j = Some t -> i = j;
  sw_kernel : forall i, 0x300 <= i < 0x400 -> is_Some (as_tables a !! i);
  sw_frames : map_Forall (fun _ e => in_width 20 (pte_frame e)) (ptes s)
}.

(** The current address space is well formed and loaded. *)
Definition paging_wf s : Prop :=
  exists a, space_wf s (vm_current_as s) a /\ cr3 s = as_directory_phys a.

(** Only the kernel's half has page tables. *)
Definition upper_half s : Prop :=
  forall a i, spaces s !! vm_current_as s = Some a -> i < 0x300 -> as_tables a !! i = None.

(** The walk through the array [tables]. *)
Lemma walk_tables s asp a va :
  space_wf s asp a -> is_u32 va ->
  walk s (as_directory_phys a) va =
    match as_tables a !! dir_of va with
    | Some t => let te := pte_at t (tab_of va) s in
        if pte_present te =? 0 then None else Some (pte_frame te * 4096 + va mod 4096)
    | None => None
    end.
Proof.
  intros Hwf Hva. unfold walk. rewrite <- (sw_dir _ _ _ Hwf).
  pose proof (sw_pde _ _ _ Hwf _ (dir_range va Hva)) as Hp. unfold pde_at in Hp.
  destruct (as_tables a !! dir_of va) as [t|].
  - destruct Hp as (-> & -> & _). done.
  - by rewrite Hp.
Qed.

(** Assigning a page table entry. *)
Lemma put_pte_wf s asp a t ti e :
  space_wf s asp a -> in_width 20 (pte_frame e) ->
  space_wf (with_paging (vm_current_as s) (spaces s) (pdes s)
              (<[t + 4 * ti := e]> (ptes s)) (cr3 s) s) asp a.
Proof. intros [? ? ? ? ? ?] He. split; try done. by apply map_Forall_insert_2. Qed.

Lemma pte_at_frame s asp a t ti : space_wf s asp a -> in_width 20 (pte_frame (pte_at t ti s)).
Proof.
  intros Hwf. unfold pte_at. destruct (ptes s !! (t + 4 * ti)) as [e|] eqn:He; [|by compute].
  by apply (sw_frames _ _ _ Hwf _ _ He).
Qed.

Lemma pte_at_put s t ti e t' ti' :
  t mod 4096 = 0 -> t' mod 4096 = 0 -> 0 <= ti < 1024 -> 0 <= ti' < 1024 ->
  pte_at t' ti' (with_paging (vm_current_as s) (spaces s) (pdes s)
                   (<[t + 4 * ti := e]> (ptes s)) (cr3 s) s) =
  if decide (t' = t /\ ti' = ti) then e else pte_at t' ti' s.
Proof.
  intros Ht Ht' Hi Hi'. unfold pte_at. cbn [ptes with_paging]. case_decide as Hd.
  - destruct Hd as [-> ->]. by rewrite lookup_insert_eq.
  - rewrite lookup_insert_ne; [done|]. intros E. apply Hd.
    apply entry_inj in E as [-> ->]; done.
Qed.

(** The walk after the entry of [va] was assigned. *)
Lemma walk_put s asp a va t e v :
  space_wf s asp a -> in_width 20 (pte_frame e) -> is_u32 va -> is_u32 v ->
  as_tables a !! dir_of va = Some t ->
  walk (with_paging (vm_current_as s) (spaces s) (pdes s)
          (<[t + 4 * tab_of va := e]> (ptes s)) (cr3 s) s) (as_directory_phys a) v =
  if decide (v / 4096 = va / 4096)
  then if pte_present e =? 0 then None else Some (pte_frame e * 4096 + v mod 4096)
  else walk s (as_directory_phys a) v.
Proof.
  intros Hwf He Hva Hv Ht.
  rewrite (walk_tables s asp a v), (walk_tables _ asp a v) by (done || by apply put_pte_wf).
  pose proof (sw_pde _ _ _ Hwf _ (dir_range va Hva)) as Hp. rewrite Ht in Hp.
  destruct Hp as (_ & _ & Hta).
  pose proof (sw_pde _ _ _ Hwf _ (dir_range v Hv)) as Hp.
  destruct (as_tables a !! dir_of v) as [t'|] eqn:Ht'.
  - destruct Hp as (_ & _ & Hta'). rewrite pte_at_put by (done || apply tab_range).
    destruct (decide (v / 4096 = va / 4096)) as [[Ed Et]%same_page|Hne].
    + rewrite decide_True; [done|]. rewrite Ed in Ht'. split; congruence.
    + rewrite decide_False; [done|]. intros [-> Et]. apply Hne, same_page. split; [|done].
      by apply (sw_inj _ _ _ Hwf _ _ t); try apply dir_range.
  - rewrite decide_False; [done|]. intros [Ed _]%same_page. congruence.
Qed.

(** ** The operations *)

(** Everything but the page tables is as before. *)
Definition only_ptes s s' : Prop :=
  exists pt, s' = with_paging (vm_current_as s) (spaces s) (pdes s) pt (cr3 s) s.

Lemma only_ptes_refl s : only_ptes s s.
Proof. exists (ptes s). by destruct s. Qed.

Lemma only_ptes_trans s s1 s2 : only_ptes s s1 -> only_ptes s1 s2 -> only_ptes s s2.
Proof. intros [p1 ->] [p2 ->]. by exists p2. Qed.

Lemma page_frame p : is_u32 p -> p mod 4096 = 0 ->
  wrap 20 (Z.shiftr p PAGE_BITS) * 4096 = p.
Proof.
  intros Hp Hm. unfold in_width in Hp. unfold PAGE_BITS. rewrite Z.shiftr_div_pow2 by lia.
  change (2 ^ 12) with 4096. rewrite wrap_small; [Z.div_mod_to_equations; lia|].
  unfold in_width. Z.div_mod_to_equations. lia.
Qed.

Lemma vm_map_page_ok s asp a paddr va :
  space_wf s asp a -> is_u32 paddr -> paddr mod 4096 = 0 ->
  is_u32 va -> KERNEL_OFFSET <= va ->
  wp (vm_map_page asp paddr va) s (fun _ s' => only_ptes s s' /\ space_wf s' asp a /\
    forall v, is_u32 v -> walk s' (as_directory_phys a) v =
      if decide (v / 4096 = va / 4096) then Some (paddr + v mod 4096)
      else walk s (as_directory_phys a) v).
Proof.
  intros Hwf Hp Hpa Hva Hk. unfold vm_map_page. rewrite dir_of_shift, tab_of_shift.
  wp_step. wp_step; [by apply Z.eqb_eq, PAGE_ALIGN_fixed|].
  wp_step. unfold wp at 1, space_at. rewrite (sw_space _ _ _ Hwf).
  wp_step. wp_step.
  pose proof (sw_pde _ _ _ Hwf _ (dir_range va Hva)) as Hpde.
  destruct (sw_kernel _ _ _ Hwf _ (dir_kernel va Hva Hk)) as [t Ht]. rewrite Ht in Hpde |- *.
  destruct Hpde as (-> & _ & Hta). simpl. wp_step. wp_step. unfold put_pte. wp_step.
  split; [by eexists|].
  assert (in_width 20 (wrap 20 (Z.shiftr paddr PAGE_BITS))) by (by apply wrap_range).
  split; [by apply put_pte_wf|]. intros v Hv.
  rewrite (walk_put s asp) by done. simpl. by rewrite page_frame.
Qed.

Lemma vm_unmap_page_ok s a va :
  space_wf s (vm_current_as s) a -> is_u32 va -> KERNEL_OFFSET <= va ->
  wp (vm_unmap_page va) s (fun r s' => only_ptes s s' /\ space_wf s' (vm_current_as s) a /\
    (forall p, walk s (as_directory_phys a) va = Some p -> r = p - va mod 4096) /\
    forall v, is_u32 v -> walk s' (as_directory_phys a) v =
      if decide (v / 4096 = va / 4096) then None else walk s (as_directory_phys a) v).
Proof.
  intros Hwf Hva Hk. unfold vm_unmap_page. rewrite dir_of_shift, tab_of_shift.
  wp_step. wp_step. wp_step. unfold wp at 1, space_at. rewrite (sw_space _ _ _ Hwf).
  destruct (sw_kernel _ _ _ Hwf _ (dir_kernel va Hva Hk)) as [t Ht]. rewrite Ht.
  wp_step. wp_step. wp_step. unfold put_pte. wp_step. wp_step.
  split; [by eexists|]. split; [by apply put_pte_wf|]. split.
  - intros p. rewrite (walk_tables s _ a va Hwf Hva), Ht. cbv zeta.
    destruct (pte_present _ =? 0); [done|]. intros [= <-]. unfold PAGE_BITS.
    rewrite Z.shiftl_mul_pow2 by lia. change (2 ^ 12) with 4096.
    pose proof (pte_at_frame s _ a t (tab_of va) Hwf) as Hr. unfold in_width in Hr.
    rewrite wrap_small; [lia|]. unfold in_width. lia.
  - intros v Hv. by rewrite (walk_put s (vm_current_as s)).
Qed.

(** Consecutive pages, as [vm_dma] and [vm_init] map them. *)
Lemma map_run_ok s asp a paddr vaddr n (body : Z -> M (vm_state PS) unit) :
  space_wf s asp a -> paddr mod 4096 = 0 -> vaddr mod 4096 = 0 ->
  0 <= paddr -> paddr + Z.of_nat n * 4096 <= 2 ^ 32 ->
  KERNEL_OFFSET <= vaddr -> vaddr + Z.of_nat n * 4096 <= 2 ^ 32 ->
  (forall i s', 0 <= i < Z.of_nat n -> only_ptes s s' ->
     body i s' = vm_map_page asp (paddr + i * 4096) (vaddr + i * 4096) s') ->
  wp (for_loop n 0 body) s (fun _ s' => only_ptes s s' /\ space_wf s' asp a /\
    forall v, is_u32 v -> walk s' (as_directory_phys a) v =
      if decide (vaddr <= v < vaddr + Z.of_nat n * 4096) then Some (paddr + (v - vaddr))
      else walk s (as_directory_phys a) v).
Proof.
  intros Hwf Hpa Hva Hp0 Hp1 Hv0 Hv1 Hbody. unfold KERNEL_OFFSET in Hv0. eapply wp_mono.
  { apply (wp_for _ _ (fun i s' => only_ptes s s' /\ space_wf s' asp a /\
      forall v, is_u32 v -> walk s' (as_directory_phys a) v =
        if decide (vaddr <= v < vaddr + i * 4096) then Some (paddr + (v - vaddr))
        else walk s (as_directory_phys a) v)).
    - split; [apply only_ptes_refl|]. split; [done|]. intros v _. by rewrite decide_False by lia.
    - intros i s1 Hi (Ho & Hwf1 & Hw). unfold wp. rewrite Hbody by (lia || done).
      eapply (wp_mono (vm_map_page asp (paddr + i * 4096) (vaddr + i * 4096))).
      { apply (vm_map_page_ok s1 asp a); try done; unfold in_width, KERNEL_OFFSET;
          Z.div_mod_to_equations; lia. }
      intros [] s2 (Ho2 & Hwf2 & Hw2). split; [by eapply only_ptes_trans|]. split; [done|].
      intros v Hv. rewrite Hw2, Hw by done.
      destruct (decide (v / 4096 = (vaddr + i * 4096) / 4096)) as [E|E].
      + rewrite decide_True by (Z.div_mod_to_equations; lia). f_equal.
        Z.div_mod_to_equations. lia.
      + destruct (decide (vaddr <= v < vaddr + i * 4096)).
        * by rewrite decide_True by lia.
        * rewrite decide_False; [done|]. Z.div_mod_to_equations. lia. }
  intros [] s' Hs'. exact Hs'.
Qed.

Lemma vm_dma_ok s a paddr vaddr size :
  space_wf s (vm_current_as s) a -> paddr mod 4096 = 0 -> vaddr mod 4096 = 0 ->
  0 <= paddr -> paddr + size <= 2 ^ 32 -> 0 <= size ->
  KERNEL_OFFSET <= vaddr -> vaddr + size <= 2 ^ 32 ->
  wp (vm_dma paddr vaddr size) s (fun _ s' =>
    only_ptes s s' /\ space_wf s' (vm_current_as s) a /\
    forall v, is_u32 v -> walk s' (as_directory_phys a) v =
      if decide (vaddr <= v < vaddr + size / 4096 * 4096) then Some (paddr + (v - vaddr))
      else walk s (as_directory_phys a) v).
Proof.
  intros Hwf Hpa Hva Hp0 Hp1 Hs Hv0 Hv1. unfold vm_dma. rewrite PAGE_SIZE_val.
  assert (0 <= size / 4096 /\ size / 4096 * 4096 <= size) as [Hd0 Hd1]
    by (Z.div_mod_to_equations; lia).
  eapply wp_mono; [eapply (map_run_ok s (vm_current_as s) a paddr vaddr)|];
    rewrite ?Z2Nat.id by done; try done; [lia..|].
  intros i s' Hi [pt ->]. unfold KERNEL_OFFSET in *.
  rewrite (bind_ok (gets vm_current_as) _ _ _ _ eq_refl). cbn [vm_current_as with_paging].
  by rewrite !wrap_small by (unfold in_width; lia).
Qed.
End Paging.
