(* ===== verification/VmInit.v ===== *)
(** * kernel/memory/vm.c: initialisation

    [vm_init] builds the kernel's address space, maps the boot region one to one at
    [KERNEL_OFFSET] and loads it. *)

From S2P Require Import Prelude Common Frames Cstring Vm VmList VmRanges VmFree VmPaging.
From S2P Require Bitset Pmm PmmFrames.

(** What boot.asm and the linker script provide: page-aligned tables for the whole
    address space within the kernel's half, and objects that are not at NULL. *)
Record layout_ok `{Layout} : Prop := {
  lo_tables_align : KERNEL_PAGE_TABLES mod 4096 = 0;
  lo_tables_low : KERNEL_OFFSET <= KERNEL_PAGE_TABLES;
  lo_tables_high : KERNEL_PAGE_TABLES + 4096 * 1024 <= 2 ^ 32;
  lo_directory : KERNEL_OFFSET <= KERNEL_PAGE_DIRECTORY < 2 ^ 32;
  lo_bucket : addr_vm_first_bucket <> 0
}.

Section Init.
Context {PS : Type} `{FrameAllocatorLaws PS} `{Layout}.
Implicit Types (s : vm_state PS) (a : as_t).

(** The directory entry of kernel table [i]. *)
Definition kernel_pde (i : Z) : pde_t :=
  pde_set_page_table (Z.shiftr (virtual2phys (KERNEL_PAGE_TABLES + 4096 * i)) PAGE_BITS)
    {| pde_present := 1; pde_rw := 1; pde_user := 0; pde_pwt := 0; pde_pcd := 0;
       pde_accessed := 0; pde_dirty := 0; pde_page_size := 0; pde_ignored := 0;
       pde_page_table := 0 |}.

(** The address space after the kernel tables below [i] were entered. *)
Record filled (s0 : vm_state PS) (i : Z) s : Prop := {
  fl_state : exists sp pd, s = with_paging (vm_current_as s0) sp pd (ptes s0) (cr3 s0) s0;
  fl_space : exists a, spaces s !! addr_vm_first_as = Some a /\
    as_directory a = KERNEL_PAGE_DIRECTORY /\
    as_directory_phys a = virtual2phys KERNEL_PAGE_DIRECTORY /\
    (forall j, as_tables a !! j =
       if decide (0x300 <= j < i) then Some (KERNEL_PAGE_TABLES + 4096 * j) else None) /\
    (forall j, 0 <= j < 1024 -> pde_at a j s =
       if decide (0x300 <= j < i) then kernel_pde j else zero_pde)
}.

Lemma kernel_table_ok i :
  layout_ok -> 0 <= i < 1024 ->
  let t := KERNEL_PAGE_TABLES + 4096 * i in
  (t =? PAGE_ALIGN t) = true /\ t mod 4096 = 0 /\
  pde_page_table (kernel_pde i) * 4096 + KERNEL_OFFSET = t.
Proof.
  intros [A1 A2 A3 _ _] Hi t. unfold KERNEL_OFFSET in *.
  assert (t mod 4096 = 0) as Ht by (unfold t; Z.div_mod_to_equations; lia).
  assert (is_u32 t) by (unfold t, in_width; lia).
  split; [by apply Z.eqb_eq, PAGE_ALIGN_fixed|]. split; [done|]. simpl. fold t.
  unfold virtual2phys, KERNEL_OFFSET.
  rewrite (wrap_small 32) by (unfold t, in_width; lia).
  rewrite page_frame; [lia|unfold t, in_width; lia|Z.div_mod_to_equations; lia].
Qed.

Lemma as_map_kernel_table_ok s0 s i :
  layout_ok -> filled s0 i s -> 0x300 <= i < 0x400 ->
  wp (as_map_kernel_table addr_vm_first_as i
        {| pde_present := 1; pde_rw := 1; pde_user := 0; pde_pwt := 0; pde_pcd := 0;
           pde_accessed := 0; pde_dirty := 0; pde_page_size := 0; pde_ignored := 0;
           pde_page_table := 0 |}) s (fun _ s' => filled s0 (i + 1) s').
Proof.
  intros HL [(sp & pd & ->) (a & Ha & E1 & E2 & E3 & E4)] Hi.
  destruct (kernel_table_ok i HL ltac:(lia)) as (Hal & _ & _).
  unfold as_map_kernel_table. wp_step. wp_step; [exact Hal|]. wp_step.
  unfold wp at 1, space_at. rewrite Ha. wp_step. unfold put_pde. wp_step. unfold put_space.
  wp_step. split; [eexists _, _; reflexivity|]. cbn [spaces with_paging].
  eexists. rewrite lookup_insert_eq. split; [reflexivity|].
  cbn [as_directory as_directory_phys as_tables]. split_and!; try done.
  - intros j. destruct (decide (j = i)) as [->|Hne].
    + by rewrite lookup_insert_eq, decide_True by lia.
    + rewrite lookup_insert_ne, E3 by done.
      destruct (decide (0x300 <= j < i)); [rewrite decide_True by lia|rewrite decide_False by lia];
        done.
  - intros j Hj. unfold pde_at. cbn [pdes with_paging as_directory]. destruct (decide (j = i)) as [->|Hne].
    + by rewrite lookup_insert_eq, decide_True by lia.
    + rewrite lookup_insert_ne by lia. specialize (E4 j Hj). unfold pde_at in E4. cbn [pdes with_paging] in E4.
      rewrite E4.
      destruct (decide (0x300 <= j < i)); [rewrite decide_True by lia|rewrite decide_False by lia];
        done.
Qed.

(** The finished address space is well formed and maps nothing yet. *)
Lemma filled_wf s0 s :
  layout_ok -> ptes s0 = ∅ -> filled s0 0x400 s ->
  exists a, space_wf s addr_vm_first_as a /\
    as_directory_phys a = virtual2phys KERNEL_PAGE_DIRECTORY /\
    (forall i, i < 0x300 -> as_tables a !! i = None) /\
    forall v, is_u32 v -> walk s (as_directory_phys a) v = None.
Proof.
  intros HL Hpt [(sp & pd & Hs) (a & Ha & E1 & E2 & E3 & E4)].
  assert (ptes s = ∅) as Hpts by (by rewrite Hs).
  assert (space_wf s addr_vm_first_as a) as Hwf.
  { split.
    - done.
    - rewrite E1, E2. unfold virtual2phys. destruct HL as [_ _ _ HD _]. unfold KERNEL_OFFSET in *.
      rewrite wrap_small by (unfold in_width; lia). lia.
    - intros i Hi. rewrite E3, E4 by done. case_decide; [|done].
      destruct (kernel_table_ok i HL Hi) as (_ & ? & ?). done.
    - intros i j t Hi Hj. rewrite !E3. repeat case_decide; try done. intros [= <-] [= ?]. lia.
    - intros i Hi. rewrite E3, decide_True by lia. by eexists.
    - rewrite Hpts. apply map_Forall_empty. }
  exists a. split; [done|]. split; [done|]. split; [intros i Hi; by rewrite E3, decide_False by lia|]. intros v Hv.
  rewrite (walk_tables _ _ _ _ Hwf Hv). destruct (as_tables a !! dir_of v) as [t|]; [|done].
  unfold pte_at. by rewrite Hpts, lookup_empty.
Qed.

Lemma vm_init_ok p :
  layout_ok -> frames_inv p ->
  wp vm_init (vm_boot p) (fun _ s => paging_wf s /\ (upper_half s /\ ram s = ∅) /\ frames s = p /\
    vm_lists s [Node addr_vm_first_bucket 0xC0800 0xC1800] [] 0 /\
    (forall x, x <> addr_vm_first_bucket -> buckets s !! x = None) /\
    vm_steal_next s = border_of p /\
    vm_steal_remaining s = u32 (KERNEL_BOOT_MAPPED - border_of p) /\
    forall v, is_u32 v -> mmu s v =
      if decide (KERNEL_OFFSET <= v < KERNEL_BOOT_MAPPED) then Some (v - KERNEL_OFFSET) else None).
Proof.
  intros HL Hp. unfold vm_init. wp_step. unfold in_frames. wp_step.
  eapply wp_mono; [by apply pmm_get_border_ok|]. intros b p' [-> ->].
  wp_step. wp_step. wp_step. unfold put_space at 1. wp_step. wp_step.
  set (s0 := with_steal _ _ _). set (s1 := with_paging _ _ _ _ _ s0).
  eapply wp_mono.
  { apply (wp_for _ _ (filled s0)).
    - split; [by eexists _, _|]. eexists. unfold s1. cbn [spaces with_paging].
      rewrite lookup_insert_eq. split; [reflexivity|]. cbn. split_and!; try done.
      + intros j. by rewrite decide_False, lookup_empty by lia.
      + intros j Hj. by rewrite decide_False by lia.
    - intros i s Hi Hf. apply as_map_kernel_table_ok; [done|done|lia]. }
  intros [] s2 Hf. change (0x300 + Z.of_nat 256) with 0x400 in Hf.
  destruct (filled_wf s0 s2 HL eq_refl Hf) as (a & Hwf & Ephys & Hlow & Hnone).
  destruct (fl_state _ _ _ Hf) as (sp & pd & Hs2).
  assert (Z.of_nat (Z.to_nat ((KERNEL_BOOT_MAPPED - KERNEL_OFFSET) / PAGE_SIZE)) = 2048) as HN
    by (rewrite Z2Nat.id; done).
  revert HN. generalize (Z.to_nat ((KERNEL_BOOT_MAPPED - KERNEL_OFFSET) / PAGE_SIZE)) as N.
  intros N HN. wp_step. eapply wp_mono.
  { apply (map_run_ok s2 addr_vm_first_as a 0 KERNEL_OFFSET); rewrite ?HN; unfold KERNEL_OFFSET;
      [exact Hwf|reflexivity|reflexivity|lia..|].
    intros i s Hi _. unfold virtual2phys, KERNEL_OFFSET in *. rewrite PAGE_SIZE_val.
    rewrite wrap_small by (unfold in_width; lia). do 2 f_equal. lia. }
  intros [] s3 ([pt ->] & Hwf3 & Hw). rewrite HN in Hw.
  wp_step. wp_step. unfold switch_as. wp_step. unfold wp at 1, space_at.
  cbn [spaces with_lists]. rewrite (sw_space _ _ _ Hwf3). wp_step.
  split; [|split_and!]; try by rewrite Hs2.
  - exists a. split; [|done]. destruct Hwf3 as [W1 W2 W3 W4 W5 W6]. by split.
  - intros b i Hb. cbn in Hb. pose proof (sw_space _ _ _ Hwf3) as Hb'. cbn in Hb'. rewrite Hb in Hb'.
    injection Hb' as ->. by apply Hlow.
  - rewrite Hs2. unfold vm_lists. cbn. split; [|done|apply NoDup_singleton].
    split; [done|]. split; [apply HL|]. exists 0. rewrite lookup_insert_eq. split; [|done].
    reflexivity.
  - intros x Hx. rewrite Hs2. cbn [buckets with_lists with_paging].
    by rewrite lookup_insert_ne.
  - intros v Hv. specialize (Hw v Hv). rewrite Hnone in Hw by done.
    unfold KERNEL_BOOT_MAPPED, KERNEL_OFFSET in *. rewrite Z.add_0_l in Hw.
    exact Hw.
Qed.
End Init.
