(* ===== verification/Boot.v ===== *)
(** * kernel/kernel/boot.asm, paging.asm: from the boot loader to [kernel_main]

    The code runs on physical memory first, turns paging on with page tables of its own
    (4 MB pages), jumps to the upper half, and takes its low mapping away.  Every fetch
    and access of the model goes through the translation that is in force. *)

From S2P Require Import Prelude Common Cstring Cpu.
From S2P Require VmInit.

(** ** Constants *)

Definition MB_ALIGN : Z := Z.shiftl 1 0.
Definition MB_MEMINFO : Z := Z.shiftl 1 1.
Definition MB_GRAPHICS : Z := Z.shiftl 1 2.
Definition MB_FLAGS : Z := Z.lor (Z.lor MB_ALIGN MB_MEMINFO) MB_GRAPHICS.
Definition MB_MAGIC : Z := 0x1BADB002.
Definition MB_CHECKSUM : Z := u32 (- (MB_MAGIC + MB_FLAGS)).

Definition PT_P : Z := Z.shiftl 1 0.
Definition PT_RW : Z := Z.shiftl 1 1.
Definition PT_PS : Z := Z.shiftl 1 7.
Definition VM_OFFSET : Z := 0xC0000000.
Definition CR0_PG : Z := Z.shiftl 1 31.
Definition CR4_PSE : Z := Z.shiftl 1 4.

(** The section .multiboot. *)
Definition multiboot_header : list Z := [MB_MAGIC; MB_FLAGS; MB_CHECKSUM; 0; 0; 0; 0; 0; 0; 640; 400; 32].

(** The boot loader's test. *)
Lemma multiboot_header_valid :
  exists magic flags checksum rest, multiboot_header = magic :: flags :: checksum :: rest /\
    u32 (magic + flags + checksum) = 0 /\ magic = 0x1BADB002 /\ Z.testbit flags 2 = true.
Proof. by eexists _, _, _, _. Qed.

(** ** Physical memory and its translation *)

(** The processor's walk without physical address extension.  An entry with the page size
    bit maps 4 MB if the extension is enabled in CR4. *)
Definition translate (c : controls) (m : gmap Z Z) (va : Z) : option Z :=
  if negb (Z.testbit (c_cr0 c) 31) then Some va
  else if Z.testbit (c_cr4 c) 5 then None
  else
    pde ← dword m (c_cr3 c / 4096 * 4096 + 4 * (va / 2 ^ 22));
    if negb (Z.testbit pde 0) then None
    else if Z.testbit pde 7 && Z.testbit (c_cr4 c) 4 then Some (pde / 2 ^ 22 * 2 ^ 22 + va mod 2 ^ 22)
    else
      pte ← dword m (pde / 4096 * 4096 + 4 * ((va / 4096) mod 1024));
      if negb (Z.testbit pte 0) then None else Some (pte / 4096 * 4096 + va mod 4096).

(** An access that is not translated faults, and nothing handles the fault yet.  Accesses
    across the end of a page are not followed. *)
Definition through (c : controls) (a : Z) : M (gmap Z Z) Z := fun m =>
  match translate c m a with Some p => Ok (p, m) | None => Undef end.
Definition in_page (a : Z) : M (gmap Z Z) unit := if a mod 4096 <=? 4092 then mret tt else undef.

#[export] Instance physical_bus : Bus (gmap Z Z) := {
  bus_fetch := through;
  bus_load := fun c a => _ ← in_page a; p ← through c a; load32 p;
  bus_store := fun c a v => _ ← in_page a; p ← through c a; store32 p v
}.

(** ** The code *)

(** Where the linker puts the code ([maos_start]), the stack and [kernel_main]. *)
Class BootImage : Type := { maos_start : Z; stack_bottom : Z; addr_kernel_main : Z }.

Section Code.
Context `{BootImage} `{Encoding}.

(** The section .bss. *)
Definition stack_top : Z := stack_bottom + 16 * 1024.
Definition KERNEL_BSS_ZERO_START : Z := stack_top.
Definition KERNEL_BOOT_PAGE_DIRECTORY : Z := KERNEL_BSS_ZERO_START.
Definition bss_page_directory : Z := KERNEL_BOOT_PAGE_DIRECTORY + 4096.
Definition bss_page_tables : Z := bss_page_directory + 4096.
Definition KERNEL_BSS_ZERO_END : Z := bss_page_tables + 4 * 1024 * 1024.
Definition phys_boot_page_directory : Z := KERNEL_BOOT_PAGE_DIRECTORY - VM_OFFSET.

(** The labels, by the number of the instruction they stand before. *)
Definition loop_fill_zeros : nat := 2.
Definition loop_page_directory : nat := 10.
Definition paged : nat := 25.
Definition hang : nat := 32.

Definition boot_asm : list instr := [
  Mov_ri EDI (KERNEL_BSS_ZERO_START - VM_OFFSET);
  Mov_ri ECX (KERNEL_BSS_ZERO_END - VM_OFFSET);
  Mov_mi (Base EDI 0) 0;
  Add_ri EDI 4;
  Cmp_rr EDI ECX;
  Jl loop_fill_zeros;
  Mov_ri ECX 0;
  Mov_ri EAX (Z.lor (Z.lor PT_P PT_RW) PT_PS);
  Mov_ri EDI phys_boot_page_directory;
  Mov_mr (Indexed EDI ECX 4 0) EAX;
  Mov_mr (Indexed EDI ECX 4 (0x300 * 4)) EAX;
  Add_ri EAX (Z.shiftl 1 22);
  Inc ECX;
  Cmp_ri ECX 2;
  Jl loop_page_directory;
  Mov_ri ECX phys_boot_page_directory;
  Mov_cr CR3 ECX;
  Mov_rc ECX CR4;
  Or_ri ECX CR4_PSE;
  Mov_cr CR4 ECX;
  Mov_rc ECX CR0;
  Or_ri ECX CR0_PG;
  Mov_cr CR0 ECX;
  Lea ECX (Abs (maos_start + pos paged));
  Jmp_r ECX;
  Mov_mi (Abs KERNEL_BOOT_PAGE_DIRECTORY) 0;
  Mov_rc ECX CR3;
  Mov_cr CR3 ECX;
  Mov_ri ESP stack_top;
  Add_ri EBX VM_OFFSET;
  Push_r EBX;
  Call "kernel_main";
  Hlt;
  Jmp hang
].

(** A call leads to the first instruction of [kernel_main]. *)
Definition boot_callee (f : string) : M (machine (gmap Z Z)) unit :=
  if String.eqb f "kernel_main" then jump addr_kernel_main else undef.

(** paging.asm. *)
Definition set_page_directory_asm : list instr := [
  Mov_rm ECX (Base ESP 4);
  Mov_cr CR3 ECX;
  Mov_rc ECX CR3;
  Mov_cr CR3 ECX;
  Ret
].
End Code.

(** ** The translation by the boot page directory *)

Section Translation.
Context `{BootImage}.
Implicit Types (m : gmap Z Z) (c : controls).

(** The entries; [low] tells whether the low mapping is there. *)
Definition boot_pde (low : bool) (i : Z) : Z :=
  if (i =? 0) && low then 0x83 else if i =? 0x300 then 0x83 else if i =? 0x301 then 0x400083 else 0.

Definition boot_directory (low : bool) m : Prop :=
  forall i, 0 <= i < 1024 -> dword m (phys_boot_page_directory + 4 * i) = Some (boot_pde low i).

Definition paging_on c : Prop :=
  Z.testbit (c_cr0 c) 31 = true /\ Z.testbit (c_cr4 c) 4 = true /\ Z.testbit (c_cr4 c) 5 = false /\
  c_cr3 c = phys_boot_page_directory.

Definition boot_translation (low : bool) (va : Z) : option Z :=
  if decide (VM_OFFSET <= va < VM_OFFSET + 0x800000) then Some (va - VM_OFFSET)
  else if decide (low = true /\ 0 <= va < 0x400000) then Some va else None.

Lemma boot_translate low c m va :
  phys_boot_page_directory mod 4096 = 0 -> boot_directory low m -> paging_on c -> is_u32 va ->
  translate c m va = boot_translation low va.
Proof.
  intros Hal Hd (Hpg & Hpse & Hpae & Hcr3) Hva. unfold in_width in Hva. change (2 ^ 32) with 4294967296 in Hva.
  unfold translate. rewrite Hpg, Hpae, Hcr3, Hpse. cbn [negb].
  replace (phys_boot_page_directory / 4096 * 4096) with phys_boot_page_directory by (Z.div_mod_to_equations; lia).
  change (2 ^ 22) with 4194304. rewrite Hd by (Z.div_mod_to_equations; lia). cbn [mbind option_bind].
  unfold boot_pde, boot_translation, VM_OFFSET.
  destruct (Z.eqb_spec (va / 4194304) 0) as [E0|E0]; [|destruct (Z.eqb_spec (va / 4194304) 0x300) as [E1|E1];
    [|destruct (Z.eqb_spec (va / 4194304) 0x301) as [E2|E2]]]; cbn [andb].
  - rewrite decide_False by (Z.div_mod_to_equations; lia). destruct low.
    + rewrite decide_True by (split; [done|Z.div_mod_to_equations; lia]).
      change (Some (0 + va mod 4194304) = Some va). f_equal. Z.div_mod_to_equations. lia.
    + destruct (Z.eqb_spec (va / 4194304) 0x300); [lia|]. destruct (Z.eqb_spec (va / 4194304) 0x301); [lia|].
      rewrite decide_False; [done|]. by intros [? _].
  - rewrite decide_True by (Z.div_mod_to_equations; lia).
    change (Some (0 + va mod 4194304) = Some (va - 3221225472)). f_equal. Z.div_mod_to_equations. lia.
  - rewrite decide_True by (Z.div_mod_to_equations; lia).
    change (Some (4194304 + va mod 4194304) = Some (va - 3221225472)). f_equal. Z.div_mod_to_equations. lia.
  - rewrite !decide_False by (Z.div_mod_to_equations; lia). done.
Qed.
End Translation.

(** ** Execution *)

Section Execution.
Context `{BootImage} `{Encoding}.
Hypothesis (Hsize : forall k, 0 < insn_size k).

(** The physical address of the code. *)
Abbreviation code_phys := (maos_start - VM_OFFSET).
Abbreviation breaches := (reaches boot_callee boot_asm code_phys).

Record boot_image_ok : Prop := {
  bi_code : VM_OFFSET + 0x100000 <= maos_start /\ maos_start + pos (length boot_asm) <= VM_OFFSET + 0x400000;
  bi_align : stack_bottom mod 4096 = 0;
  bi_bss : VM_OFFSET + 0x100000 <= stack_bottom /\ KERNEL_BSS_ZERO_END <= VM_OFFSET + 0x800000;
  bi_main : is_u32 addr_kernel_main
}.

Lemma pos_bounds k : (k < length boot_asm)%nat -> 0 <= pos k < pos (length boot_asm).
Proof. intros Hk. split; [apply (pos_range Hsize k k ltac:(lia))|by apply pos_lt]. Qed.

Lemma boot_insn k i v s Q :
  boot_image_ok -> boot_asm !! k = Some i -> eip s = v + pos k -> v = code_phys \/ v = maos_start ->
  translate (ctl s) (bus s) (v + pos k) = Some (code_phys + pos k) ->
  wp (exec boot_callee (fun l => pos l - pos (S k)) i) (with_eip (v + pos (S k)) s) Q ->
  wp (step boot_callee boot_asm code_phys) s Q.
Proof.
  intros [[B1 B2] _ _ _] Hi He Hv Ht HQ. unfold VM_OFFSET in *.
  apply (step_insn _ _ _ Hsize k i v); [done|done|lia|lia|cbn; unfold through; by rewrite Ht|done].
Qed.

Lemma boot_asm_length : length boot_asm = 34%nat.
Proof. done. Qed.

(** The target of a jump from the instruction before the [k]-th. *)
Lemma label_target l k : boot_image_ok -> (l < length boot_asm)%nat ->
  u32 (code_phys + pos k + (pos l - pos k)) = code_phys + pos l.
Proof.
  intros [[B1 B2] _ _ _] Hl. pose proof (pos_bounds l Hl). unfold VM_OFFSET in *.
  rewrite wrap_small; [lia|unfold in_width; lia].
Qed.

(** Where the boot page directory lies. *)
Lemma directory_bounds : boot_image_ok ->
  phys_boot_page_directory mod 4096 = 0 /\ 0x104000 <= phys_boot_page_directory /\
  phys_boot_page_directory + 0x402000 <= 0x800000.
Proof.
  intros [_ B3 [B4 B5] _]. unfold phys_boot_page_directory, KERNEL_BSS_ZERO_END, bss_page_tables, bss_page_directory,
    KERNEL_BOOT_PAGE_DIRECTORY, KERNEL_BSS_ZERO_START, stack_top, VM_OFFSET in *.
  split; [Z.div_mod_to_equations; lia|lia].
Qed.

(** A store through a translation. *)
Lemma wp_store a p v s (Q : unit -> machine (gmap Z Z) -> Prop) :
  is_u32 a -> a mod 4096 <= 4092 -> translate (ctl s) (bus s) a = Some p -> Q tt (with_bus (poke p v (bus s)) s) ->
  wp (store a v) s Q.
Proof.
  intros Ha Hp Ht HQ. unfold store, on_bus, wp, zoom. cbn. rewrite (wrap_small 32 a Ha). unfold mbind, M_bind, in_page.
  destruct (Z.leb_spec (a mod 4096) 4092); [|lia]. cbn. unfold through. by rewrite Ht.
Qed.

Lemma wp_load_dword a p v s (Q : Z -> machine (gmap Z Z) -> Prop) :
  is_u32 a -> a mod 4096 <= 4092 -> translate (ctl s) (bus s) a = Some p -> dword (bus s) p = Some v -> Q v s ->
  wp (load a) s Q.
Proof.
  intros Ha Hp Ht Hd HQ. unfold load, on_bus, wp, zoom. cbn. rewrite (wrap_small 32 a Ha). unfold mbind, M_bind, in_page.
  destruct (Z.leb_spec (a mod 4096) 4092); [|lia]. cbn. unfold through. rewrite Ht, (load32_dword _ _ _ Hd).
  by destruct s.
Qed.

Lemma translate_off c0 c3 c4 m va : Z.testbit c0 31 = false -> translate (Controls c0 c3 c4) m va = Some va.
Proof. intros Hpg. unfold translate. cbn [c_cr0]. by rewrite Hpg. Qed.

(** Zeros, a dword at a time. *)
Lemma poke_zero m m' dest n :
  0 <= n -> written (poke dest 0 m) m' (dest + 4) n (fun _ => Some 0) -> written m m' dest (n + 4) (fun _ => Some 0).
Proof.
  intros Hn Hw i. rewrite Hw. destruct (decide (dest + 4 <= i < dest + 4 + n)); [by rewrite decide_True by lia|].
  case_decide; [|by rewrite poke_away by lia].
  unfold poke. change (u8 0) with 0.
  assert (i = dest \/ i = dest + 1 \/ i = dest + 2 \/ i = dest + 3) as Hi by lia.
  destruct Hi as [->|[->|[->| ->]]]; repeat first [rewrite lookup_insert_eq | rewrite lookup_insert_ne by lia]; done.
Qed.

(** The [k]-th instruction while paging is off. *)
Ltac low k :=
  apply reaches_step; eapply (boot_insn k _ code_phys);
  [ eassumption | reflexivity | reflexivity | by left | cbn [ctl bus]; apply translate_off; assumption | regs ].

(** A round of the loop that clears the page tables. *)
Lemma fill_round : boot_image_ok -> forall a e d b sp bp si x sg cs0 c0 c3 c4 fl m,
  Z.testbit c0 31 = false -> 0 <= x -> x mod 4 = 0 -> x + 4 < 2 ^ 31 -> 0 <= e < 2 ^ 31 ->
  breaches (Cpu (Gprs a e d b sp bp si x) sg cs0 (Controls c0 c3 c4) (code_phys + pos 2) fl m)
    (fun s' => exists fl', s' = Cpu (Gprs a e d b sp bp si (x + 4)) sg cs0 (Controls c0 c3 c4)
       (code_phys + pos (if x + 4 <? e then 2%nat else 6%nat)) fl' (poke x 0 m)).
Proof.
  intros Hok a e d b sp bp si x sg cs0 c0 c3 c4 fl m Hpg Hx Hal Hlt He.
  low 2%nat. cbn [exec address]. unfold get. repeat wp_step. regs. rewrite Z.add_0_r, (wrap_small 32 x) by (unfold in_width; lia).
  eapply (wp_store x x); [unfold in_width; lia|Z.div_mod_to_equations; lia|by apply translate_off|]. regs.
  low 3%nat. cbn [exec]. unfold get, set, arith. repeat wp_step. regs. rewrite (wrap_small 32 (x + 4)) by (unfold in_width; lia).
  low 4%nat. cbn [exec]. unfold get, arith. repeat wp_step. regs.
  low 5%nat. eapply wp_jl; [reflexivity|]. rewrite !s32_small by lia.
  destruct (x + 4 <? e); apply reaches_done; eexists; [|reflexivity].
  rewrite (label_target _ 6 Hok) by (rewrite boot_asm_length; unfold loop_fill_zeros; lia). reflexivity.
Qed.

(** The loop, with [n] more rounds to go after the first. *)
Lemma clear_loop n : boot_image_ok -> forall a e d b sp bp si x sg cs0 c0 c3 c4 fl m,
  Z.testbit c0 31 = false -> 0 <= x -> x mod 4 = 0 -> e = x + 4 * (Z.of_nat n + 1) -> e < 2 ^ 31 ->
  breaches (Cpu (Gprs a e d b sp bp si x) sg cs0 (Controls c0 c3 c4) (code_phys + pos 2) fl m)
    (fun s' => exists fl' m', s' = Cpu (Gprs a e d b sp bp si e) sg cs0 (Controls c0 c3 c4) (code_phys + pos 6) fl' m' /\
       written m m' x (4 * (Z.of_nat n + 1)) (fun _ => Some 0)).
Proof.
  intros Hok. induction n as [|n IH]; intros a e d b sp bp si x sg cs0 c0 c3 c4 fl m Hpg Hx Hal He Hlt;
    (eapply reaches_trans; [apply fill_round; [done|done|lia|done|lia|lia]|]); intros s' [fl' ->].
  - destruct (Z.ltb_spec (x + 4) e); [lia|]. apply reaches_done. eexists _, _.
    split; [by replace e with (x + 4) by lia|]. apply (poke_zero m _ x 0); [lia|]. apply written_nil.
  - destruct (Z.ltb_spec (x + 4) e); [|lia]. eapply reaches_trans.
    { apply (IH a e d b sp bp si (x + 4)); [done|lia|Z.div_mod_to_equations; lia|lia|done]. }
    intros s' (fl2 & m' & -> & Hw). apply reaches_done. eexists _, _. split; [done|].
    replace (4 * (Z.of_nat (S n) + 1)) with (4 * (Z.of_nat n + 1) + 4) by lia. apply poke_zero; [lia|done].
Qed.

(** A round of the loop that fills the page directory. *)
Lemma directory_round i v a d b sp bp si sg cs0 c0 c3 c4 fl m :
  boot_image_ok -> Z.testbit c0 31 = false -> 0 <= i < 2 -> 0 <= v < 2 ^ 31 ->
  let bd := phys_boot_page_directory in
  a = v -> breaches (Cpu (Gprs a i d b sp bp si bd) sg cs0 (Controls c0 c3 c4) (code_phys + pos 10) fl m)
    (fun s' => exists fl', s' = Cpu (Gprs (v + 0x400000) (i + 1) d b sp bp si bd) sg cs0 (Controls c0 c3 c4)
       (code_phys + pos (if i + 1 <? 2 then 10%nat else 15%nat)) fl' (poke (bd + 4 * (0x300 + i)) v m)).
Proof.
  intros Hok Hpg Hi Hv bd ->. pose proof (directory_bounds Hok) as (Hb1 & Hb2 & Hb3). fold bd in Hb1, Hb2, Hb3.
  low 10%nat. cbn [exec address]. unfold get. repeat wp_step. regs.
  replace (bd + i * 4 + 0x300 * 4) with (bd + 4 * (0x300 + i)) by lia.
  rewrite (wrap_small 32 (bd + 4 * (0x300 + i))) by (unfold in_width; lia).
  eapply (wp_store _ (bd + 4 * (0x300 + i))); [unfold in_width; lia|Z.div_mod_to_equations; lia|by apply translate_off|]. regs.
  low 11%nat. cbn [exec]. unfold get, set, arith. repeat wp_step. regs. change (Z.shiftl 1 22) with 0x400000.
  rewrite (wrap_small 32 (v + 0x400000)) by (unfold in_width; lia).
  low 12%nat. cbn [exec]. unfold get, set, arith. repeat wp_step. regs. rewrite (wrap_small 32 (i + 1)) by (unfold in_width; lia).
  low 13%nat. cbn [exec]. unfold get, arith. repeat wp_step. regs.
  low 14%nat. eapply wp_jl; [reflexivity|]. rewrite (s32_small (i + 1)), (s32_small 2) by lia.
  destruct (i + 1 <? 2); apply reaches_done; eexists; [|reflexivity].
  rewrite (label_target _ 15 Hok) by (rewrite boot_asm_length; unfold loop_page_directory; lia). reflexivity.
Qed.

Lemma boot_directory_filled bd m :
  (forall i, 0 <= i < 1024 -> dword m (bd + 4 * i) = Some 0) -> forall i, 0 <= i < 1024 ->
  dword (poke (bd + 4 * (0x300 + 1)) 0x400083 (poke (bd + 4 * (0x300 + 0)) 0x83 (poke bd 0x83 m))) (bd + 4 * i)
    = Some (boot_pde true i).
Proof.
  intros Hz i Hi. unfold boot_pde.
  destruct (Z.eqb_spec i 0) as [->|]; [rewrite !dword_poke_other, Z.mul_0_r, Z.add_0_r by lia; by apply dword_poke_same|].
  destruct (Z.eqb_spec i 0x300) as [->|]; [rewrite dword_poke_other by lia; by apply dword_poke_same|].
  destruct (Z.eqb_spec i 0x301) as [->|]; [by apply dword_poke_same|]. rewrite !dword_poke_other by lia. by apply Hz.
Qed.

(** The page directory: two rounds of the loop. *)
Lemma directory_ok : boot_image_ok -> forall a c d b sp bp si di sg cs0 c0 c3 c4 fl m,
  Z.testbit c0 31 = false ->
  (forall i, 0 <= i < 1024 -> dword m (phys_boot_page_directory + 4 * i) = Some 0) ->
  breaches (Cpu (Gprs a c d b sp bp si di) sg cs0 (Controls c0 c3 c4) (code_phys + pos 6) fl m)
    (fun s' => exists a' fl' m',
       s' = Cpu (Gprs a' 2 d b sp bp si phys_boot_page_directory) sg cs0 (Controls c0 c3 c4) (code_phys + pos 15) fl' m' /\
       boot_directory true m' /\
       forall i, ~ phys_boot_page_directory <= i < phys_boot_page_directory + 4096 -> m' !! i = m !! i).
Proof.
  intros Hok a c d b sp bp si di sg cs0 c0 c3 c4 fl m Hpg Hz.
  pose proof (directory_bounds Hok) as (Hb1 & Hb2 & Hb3). set (bd := phys_boot_page_directory) in *.
  low 6%nat. cbn [exec]. unfold set. wp_step. regs.
  low 7%nat. cbn [exec]. unfold set. wp_step. regs.
  low 8%nat. cbn [exec]. unfold set. wp_step. regs. fold bd. rewrite (wrap_small 32 bd) by (unfold in_width; lia).
  change (u32 0) with 0. change (u32 (Z.lor (Z.lor PT_P PT_RW) PT_PS)) with 0x83.
  low 9%nat. cbn [exec address]. unfold get. repeat wp_step. regs.
  replace (bd + 0 * 4 + 0) with bd by lia. rewrite (wrap_small 32 bd) by (unfold in_width; lia).
  eapply (wp_store _ bd); [unfold in_width; lia|Z.div_mod_to_equations; lia|by apply translate_off|]. regs.
  eapply reaches_trans; [by apply (directory_round 0 0x83)|]. intros s' [fl1 ->].
  eapply reaches_trans; [by apply (directory_round 1 0x400083)|]. intros s' [fl2 ->].
  apply reaches_done. eexists _, _, _. split; [reflexivity|]. split.
  - intros i Hi. by apply boot_directory_filled.
  - intros i Hi. by rewrite !poke_away by lia.
Qed.

(** With paging on, the code is found at both addresses, or at the upper one. *)
Lemma code_translated lo v k ct m :
  boot_image_ok -> paging_on ct -> boot_directory lo m -> (k < 34)%nat ->
  v = code_phys /\ lo = true \/ v = maos_start -> translate ct m (v + pos k) = Some (code_phys + pos k).
Proof.
  intros Hok Hct Hd Hk Hv. pose proof (directory_bounds Hok) as (Hb & _). pose proof Hok as [[B1 B2] _ _ _].
  pose proof (pos_bounds k ltac:(rewrite boot_asm_length; lia)) as [P1 P2]. unfold VM_OFFSET in *.
  rewrite (boot_translate lo) by (try done; unfold in_width; lia). unfold boot_translation, VM_OFFSET.
  destruct Hv as [[-> ->]| ->]; [rewrite decide_False, decide_True by lia; done|].
  rewrite decide_True by lia. f_equal. lia.
Qed.

Tactic Notation "mapped" uconstr(v) constr(k) constr(Hct) constr(Hd) :=
  apply reaches_step; eapply (boot_insn k _ v);
  [ eassumption | reflexivity | reflexivity | first [by left | by right]
  | cbn [ctl bus]; apply (code_translated _ _ _ _ _ ltac:(eassumption) Hct Hd); [lia | first [by left | by right]] | regs ].

(** Paging goes on, and the code with it. *)
Lemma enable_paging_ok : boot_image_ok -> forall a c d b sp bp si di sg cs0 c0 c3 c4 fl m,
  Z.testbit c0 31 = false -> Z.testbit c4 5 = false -> is_u32 c0 -> is_u32 c4 -> boot_directory true m ->
  breaches (Cpu (Gprs a c d b sp bp si di) sg cs0 (Controls c0 c3 c4) (code_phys + pos 15) fl m)
    (fun s' => exists c' fl' ct, paging_on ct /\
       s' = Cpu (Gprs a c' d b sp bp si di) sg cs0 ct (maos_start + pos paged) fl' m).
Proof.
  intros Hok a c d b sp bp si di sg cs0 c0 c3 c4 fl m Hpg Hpae H0' H4' Hd.
  pose proof (directory_bounds Hok) as (Hb1 & Hb2 & Hb3). set (bd := phys_boot_page_directory) in *.
  low 15%nat. cbn [exec]. unfold set. wp_step. regs. fold bd. rewrite (wrap_small 32 bd) by (unfold in_width; lia).
  low 16%nat. cbn [exec]. unfold get. repeat wp_step. regs.
  low 17%nat. cbn [exec]. unfold set. repeat wp_step. regs. rewrite (wrap_small 32 c4) by done.
  low 18%nat. cbn [exec]. unfold get, set, arith. repeat wp_step. regs.
  low 19%nat. cbn [exec]. unfold get. repeat wp_step. regs.
  low 20%nat. cbn [exec]. unfold set. repeat wp_step. regs. rewrite (wrap_small 32 c0) by done.
  low 21%nat. cbn [exec]. unfold get, set, arith. repeat wp_step. regs.
  low 22%nat. cbn [exec]. unfold get. repeat wp_step. regs.
  set (ct := Controls (u32 (Z.lor c0 CR0_PG)) bd (u32 (Z.lor c4 CR4_PSE))).
  assert (paging_on ct) as Hct.
  { unfold paging_on, ct. cbn [c_cr0 c_cr3 c_cr4]. rewrite !wrap_bit, !Z.lor_spec, Hpae by lia.
    split; [apply orb_true_r|]. split; [apply orb_true_r|]. by split. }
  pose proof Hok as [[B1 B2] _ _ _]. pose proof (pos_bounds paged ltac:(rewrite boot_asm_length; unfold paged; lia)) as Hp.
  unfold VM_OFFSET in B1, B2.
  mapped code_phys 23%nat Hct Hd. cbn [exec address]. unfold set. repeat wp_step. regs.
  rewrite wrap_wrap, (wrap_small 32 (maos_start + pos paged)) by (try lia; unfold in_width; lia).
  mapped code_phys 24%nat Hct Hd. cbn [exec]. unfold get, jump. repeat wp_step. regs.
  rewrite (wrap_small 32 (maos_start + pos paged)) by (unfold in_width; lia).
  apply reaches_done. eexists _, _, _. split; [exact Hct|reflexivity].
Qed.

(** The stack below the boot page directory. *)
Lemma boot_directory_keep lo p v m :
  p + 4 <= phys_boot_page_directory -> boot_directory lo m -> boot_directory lo (poke p v m).
Proof. intros Hp Hd i Hi. rewrite dword_poke_other by lia. by apply Hd. Qed.

Lemma boot_push p v a c d b bp si di sg cs0 ct ip fl m (Q : unit -> machine (gmap Z Z) -> Prop) :
  boot_image_ok -> paging_on ct -> boot_directory false m ->
  phys_boot_page_directory - 8 <= p -> p + 4 <= phys_boot_page_directory -> p mod 4 = 0 ->
  Q tt (Cpu (Gprs a c d b (p + VM_OFFSET) bp si di) sg cs0 ct ip fl (poke p v m)) ->
  wp (push v) (Cpu (Gprs a c d b (p + VM_OFFSET + 4) bp si di) sg cs0 ct ip fl m) Q.
Proof.
  intros Hok Hct Hd Hlo Hhi Hal HQ. pose proof (directory_bounds Hok) as (Hb1 & Hb2 & Hb3).
  unfold push, get, set. repeat wp_step. regs. replace (p + VM_OFFSET + 4 - 4) with (p + VM_OFFSET) by lia.
  rewrite (wrap_small 32 (p + VM_OFFSET)) by (unfold in_width, VM_OFFSET; lia).
  eapply (wp_store _ p); [unfold in_width, VM_OFFSET; lia|unfold VM_OFFSET; Z.div_mod_to_equations; lia| |exact HQ].
  cbn [ctl bus]. rewrite (boot_translate false) by (try done; unfold in_width, VM_OFFSET; lia).
  unfold boot_translation, VM_OFFSET. rewrite decide_True by lia. f_equal. lia.
Qed.

Lemma boot_directory_unmapped m : boot_directory true m -> boot_directory false (poke phys_boot_page_directory 0 m).
Proof.
  intros Hd i Hi. destruct (decide (i = 0)) as [->|Hne].
  - rewrite Z.mul_0_r, Z.add_0_r. by apply dword_poke_same.
  - rewrite dword_poke_other, Hd by lia. unfold boot_pde. by destruct (Z.eqb_spec i 0).
Qed.

(** The low mapping goes away; stack, argument and call. *)
Lemma enter_kernel_ok : boot_image_ok -> forall a c d b sp bp si di sg cs0 ct fl m,
  paging_on ct -> boot_directory true m ->
  breaches (Cpu (Gprs a c d b sp bp si di) sg cs0 ct (maos_start + pos paged) fl m)
    (fun s' => exists c' ct' fl' ret m', paging_on ct' /\ boot_directory false m' /\ is_u32 ret /\
       s' = Cpu (Gprs a c' d (u32 (b + VM_OFFSET)) (stack_top - 8) bp si di) sg cs0 ct' addr_kernel_main fl' m' /\
       m' = poke (stack_top - VM_OFFSET - 8) ret (poke (stack_top - VM_OFFSET - 4) (u32 (b + VM_OFFSET))
              (poke phys_boot_page_directory 0 m))).
Proof.
  intros Hok a c d b sp bp si di sg cs0 ct fl m Hct Hd.
  pose proof (directory_bounds Hok) as (Hb1 & Hb2 & Hb3).
  assert (KERNEL_BOOT_PAGE_DIRECTORY = phys_boot_page_directory + VM_OFFSET) as Ebd by (unfold phys_boot_page_directory; lia).
  assert (stack_top = phys_boot_page_directory + VM_OFFSET) as Est by done.
  set (bd := phys_boot_page_directory) in *.
  mapped maos_start 25%nat Hct Hd. cbn [exec address]. repeat wp_step. rewrite Ebd.
  rewrite (wrap_small 32 (bd + VM_OFFSET)) by (unfold in_width, VM_OFFSET; lia).
  eapply (wp_store _ bd); [unfold in_width, VM_OFFSET; lia|unfold VM_OFFSET; Z.div_mod_to_equations; lia| |].
  { cbn [ctl bus]. rewrite (boot_translate true) by (try done; unfold in_width, VM_OFFSET; lia).
    unfold boot_translation, VM_OFFSET. rewrite decide_True by lia. f_equal. lia. }
  regs. pose proof (boot_directory_unmapped m Hd) as Hd'. fold bd in Hd'. destruct ct as [k0 k3 k4]. pose proof Hct as (_ & _ & _ & E3). cbn [c_cr3] in E3. fold bd in E3. subst k3.
  mapped maos_start 26%nat Hct Hd'. cbn [exec]. unfold set. repeat wp_step. regs.
  rewrite (wrap_small 32 bd) by (unfold in_width; lia).
  mapped maos_start 27%nat Hct Hd'. cbn [exec]. unfold get. repeat wp_step. regs.
  mapped maos_start 28%nat Hct Hd'. cbn [exec]. unfold set. repeat wp_step. regs. rewrite Est.
  rewrite (wrap_small 32 (bd + VM_OFFSET)) by (unfold in_width, VM_OFFSET; lia).
  mapped maos_start 29%nat Hct Hd'. cbn [exec]. unfold get, set, arith. repeat wp_step. regs.
  mapped maos_start 30%nat Hct Hd'. cbn [exec]. unfold push_reg, get. repeat wp_step. regs.
  replace (Gprs a bd d (u32 (b + VM_OFFSET)) (bd + VM_OFFSET) bp si di)
    with (Gprs a bd d (u32 (b + VM_OFFSET)) (bd - 4 + VM_OFFSET + 4) bp si di) by (f_equal; lia).
  apply boot_push; [exact Hok|exact Hct|exact Hd'|fold bd; lia|fold bd; lia|Z.div_mod_to_equations; lia|].
  assert (boot_directory false (poke (bd - 4) (u32 (b + VM_OFFSET)) (poke bd 0 m))) as Hd2.
  { apply boot_directory_keep; [fold bd; lia|exact Hd']. }
  mapped maos_start 31%nat Hct Hd2. cbn [exec]. repeat wp_step. regs.
  replace (Gprs a bd d (u32 (b + VM_OFFSET)) (bd - 4 + VM_OFFSET) bp si di)
    with (Gprs a bd d (u32 (b + VM_OFFSET)) (bd - 8 + VM_OFFSET + 4) bp si di) by (f_equal; lia).
  apply boot_push; [exact Hok|exact Hct|exact Hd2|fold bd; lia|fold bd; lia|Z.div_mod_to_equations; lia|].
  unfold boot_callee. cbn [String.eqb Ascii.eqb Bool.eqb]. unfold jump. wp_step. regs.
  pose proof Hok as [[B1 B2] _ _ Hmain]. rewrite (wrap_small 32 addr_kernel_main Hmain).
  pose proof (pos_bounds 32 ltac:(rewrite boot_asm_length; lia)) as Hp. unfold VM_OFFSET in B1, B2.
  apply reaches_done. eexists _, _, _, (maos_start + pos 32), (poke (bd - 8) _ (poke (bd - 4) _ (poke bd 0 m))).
  split; [exact Hct|]. split; [|split; [unfold in_width; lia|split]].
  - apply boot_directory_keep; [fold bd; lia|exact Hd2].
  - replace (bd + VM_OFFSET - 8) with (bd - 8 + VM_OFFSET) by lia. reflexivity.
  - replace (bd + VM_OFFSET - VM_OFFSET - 8) with (bd - 8) by lia.
    replace (bd + VM_OFFSET - VM_OFFSET - 4) with (bd - 4) by lia. reflexivity.
Qed.

(** The first two instructions and the loop. *)
Lemma clear_ok : boot_image_ok -> forall a c d b sp bp si di sg cs0 c0 c3 c4 fl m,
  Z.testbit c0 31 = false ->
  breaches (Cpu (Gprs a c d b sp bp si di) sg cs0 (Controls c0 c3 c4) (code_phys + pos 0) fl m)
    (fun s' => exists c' di' fl' m', s' = Cpu (Gprs a c' d b sp bp si di') sg cs0 (Controls c0 c3 c4) (code_phys + pos 6) fl' m' /\
       written m m' phys_boot_page_directory 0x402000 (fun _ => Some 0)).
Proof.
  intros Hok a c d b sp bp si di sg cs0 c0 c3 c4 fl m Hpg. pose proof (directory_bounds Hok) as (Hb1 & Hb2 & Hb3).
  assert (KERNEL_BSS_ZERO_START - VM_OFFSET = phys_boot_page_directory) as Es by done.
  assert (KERNEL_BSS_ZERO_END - VM_OFFSET = phys_boot_page_directory + 0x402000) as Ee.
  { unfold phys_boot_page_directory, KERNEL_BSS_ZERO_END, bss_page_tables, bss_page_directory. lia. }
  set (bd := phys_boot_page_directory) in *.
  low 0%nat. cbn [exec]. unfold set. wp_step. regs.
  low 1%nat. cbn [exec]. unfold set. wp_step. regs. rewrite Es, Ee, !wrap_small by (unfold in_width; lia).
  assert (exists n, Z.of_nat n = 0x1007FF) as [n Hn] by (exists (Z.to_nat 0x1007FF); apply Z2Nat.id; lia).
  eapply reaches_trans.
  { apply (clear_loop n Hok a (bd + 0x402000) d b sp bp si bd); [done|lia|Z.div_mod_to_equations; lia|lia|lia]. }
  intros s' (fl' & m' & -> & Hw). apply reaches_done. eexists _, _, _, _. split; [reflexivity|].
  by replace (4 * (Z.of_nat n + 1)) with 0x402000 in Hw by lia.
Qed.

(** ** Theorems *)

(** What the boot loader leaves: the code is entered at its physical address, paging is
    off, and EBX points to the multiboot information. *)
Record loaded (s : machine (gmap Z Z)) : Prop := {
  ld_eip : eip s = maos_start - VM_OFFSET;
  ld_paging : Z.testbit (c_cr0 (ctl s)) 31 = false /\ Z.testbit (c_cr4 (ctl s)) 5 = false;
  ld_width : is_u32 (c_cr0 (ctl s)) /\ is_u32 (c_cr4 (ctl s))
}.

(** What [kernel_main] and the memory managers start from. *)
Record kernel_entered (s s' : machine (gmap Z Z)) : Prop := {
  ke_eip : eip s' = addr_kernel_main;
  ke_stack : r_esp (gpr s') = stack_top - 8;
  ke_argument : dword (bus s') (stack_top - 4 - VM_OFFSET) = Some (u32 (r_ebx (gpr s) + VM_OFFSET));
  ke_translation : forall va, is_u32 va -> translate (ctl s') (bus s') va =
    if decide (KERNEL_OFFSET <= va < KERNEL_BOOT_MAPPED) then Some (va - KERNEL_OFFSET) else None;
  ke_tables : forall i, bss_page_directory - VM_OFFSET <= i < KERNEL_BSS_ZERO_END - VM_OFFSET -> bus s' !! i = Some 0;
  ke_kept : forall i, ~ stack_top - 8 - VM_OFFSET <= i < KERNEL_BSS_ZERO_END - VM_OFFSET -> bus s' !! i = bus s !! i
}.

Lemma entered_ok a c d b sp bp si di sg cs0 c0 c3 c4 ip fl m m1 m2 ret g ct fl' :
  boot_image_ok -> paging_on ct -> written m m1 phys_boot_page_directory 0x402000 (fun _ => Some 0) ->
  (forall i, ~ phys_boot_page_directory <= i < phys_boot_page_directory + 4096 -> m2 !! i = m1 !! i) ->
  let m3 := poke (stack_top - VM_OFFSET - 8) ret (poke (stack_top - VM_OFFSET - 4) (u32 (b + VM_OFFSET))
              (poke phys_boot_page_directory 0 m2)) in
  boot_directory false m3 -> r_esp g = stack_top - 8 ->
  kernel_entered (Cpu (Gprs a c d b sp bp si di) sg cs0 (Controls c0 c3 c4) ip fl m) (Cpu g sg cs0 ct addr_kernel_main fl' m3).
Proof.
  intros Hok Hct Hw Hk m3 Hd Hsp. pose proof (directory_bounds Hok) as (Hb1 & Hb2 & Hb3).
  assert (stack_top = phys_boot_page_directory + VM_OFFSET) as Est.
  { unfold phys_boot_page_directory, KERNEL_BOOT_PAGE_DIRECTORY, KERNEL_BSS_ZERO_START. lia. }
  assert (bss_page_directory = phys_boot_page_directory + VM_OFFSET + 4096) as Epd.
  { unfold phys_boot_page_directory, bss_page_directory. lia. }
  assert (KERNEL_BSS_ZERO_END = phys_boot_page_directory + VM_OFFSET + 0x402000) as Ee.
  { unfold phys_boot_page_directory, KERNEL_BSS_ZERO_END, bss_page_tables, bss_page_directory. lia. }
  split; cbn [eip gpr bus ctl r_ebx]; [done|done| | | |].
  - unfold m3. rewrite dword_poke_other by lia. replace (stack_top - 4 - VM_OFFSET) with (stack_top - VM_OFFSET - 4) by lia.
    apply dword_poke_same, wrap_range. lia.
  - intros va Hva. rewrite (boot_translate false) by done. unfold boot_translation, KERNEL_OFFSET, KERNEL_BOOT_MAPPED, VM_OFFSET.
    repeat case_decide; try done; lia.
  - intros i Hi. unfold m3. rewrite !poke_away, Hk, Hw, decide_True by lia. done.
  - intros i Hi. unfold m3. rewrite !poke_away, Hk, Hw, decide_False by lia. done.
Qed.

(** C6: From the boot loader to the first instruction of [kernel_main].  No fetch and no
    access faults on the way; at its end the processor translates the upper half's first
    8 MB, the region [KERNEL_OFFSET] to [KERNEL_BOOT_MAPPED] of the linker script, to the
    first 8 MB of physical memory, and nothing else (the low mapping is gone); the
    kernel's page directory and page tables are zero, as vm.c assumes; the argument of
    [kernel_main] is on the stack, the loader's pointer moved to the upper half; and
    physical memory outside the stack's last 8 bytes and the tables is untouched. *)
Theorem boot_enters_kernel s :
  boot_image_ok -> loaded s ->
  exists n s', run boot_callee boot_asm (maos_start - VM_OFFSET) n s = Ok (tt, s') /\ kernel_entered s s'.
Proof.
  intros Hok [He [Hpg Hpae] [W0 W4]].
  destruct s as [[a c d b sp bp si di] sg cs0 [c0 c3 c4] ip fl m]. cbn [ctl eip c_cr0 c_cr4] in *. subst ip.
  set (s0 := Cpu _ _ _ _ _ _ _) at 2. assert (breaches s0 (kernel_entered s0)) as [n Hn].
  { pose proof (clear_ok Hok a c d b sp bp si di sg cs0 c0 c3 c4 fl m Hpg) as Hclear.
    replace (code_phys + pos 0) with code_phys in Hclear by (simpl; lia).
    eapply reaches_trans; [exact Hclear|]. intros s1 (c1 & di1 & fl1 & m1 & -> & Hw).
    eapply reaches_trans; [apply directory_ok; [done|done|]|].
    { intros i Hi. apply dword_zero. intros j Hj. rewrite Hw, decide_True by lia. done. }
    intros s2 (a2 & fl2 & m2 & -> & Hd & Hk).
    eapply reaches_trans; [exact (enable_paging_ok Hok _ _ _ _ _ _ _ _ _ _ _ _ _ _ _ Hpg Hpae W0 W4 Hd)|]. intros s3 (c3' & fl3 & ct & Hct & ->).
    eapply reaches_trans; [exact (enter_kernel_ok Hok _ _ _ _ _ _ _ _ _ _ _ _ _ Hct Hd)|].
    intros s4 (c4' & ct' & fl4 & ret & m4 & Hct' & Hd' & Hret & -> & ->). apply reaches_done. by eapply (entered_ok _ _ _ _ _ _ _ _ _ _ _ _ _ _ _ _ m1 m2). }
  apply wp_ok in Hn as ([] & s' & Hrun & Hent). by exists n, s'.
Qed.
End Execution.

(** ** paging.asm *)

Section SetPageDirectory.
Context `{Encoding}.
Hypothesis (Hsize : forall k, 0 < insn_size k).

Ltac dir_insn k ct Hcode v Hv := apply reaches_step; eapply (step_insn _ _ _ Hsize k _ v);
  [ reflexivity | reflexivity | exact Hv | assumption
  | cbn [bus_fetch physical_bus ctl bus]; unfold through; rewrite (Hcode ct k) by (by first [by left|by right] || lia); reflexivity
  | regs; cbn [exec] ].

(** [set_page_directory] loads CR3 and returns, if the code is mapped to the same place by
    the old and the new tables, and so is the dword with the return address. *)
Lemma set_page_directory_switches text v dir ret p callee a c d b sp bp si di sg cs0 c0 c3 c4 fl m :
  0 <= v -> v + pos 5 < 2 ^ 32 -> 0 <= sp -> sp + 8 < 2 ^ 32 -> sp mod 4 = 0 -> is_u32 dir -> is_u32 ret ->
  (forall t k, t = c3 \/ t = dir -> (k < 5)%nat -> translate (Controls c0 t c4) m (v + pos k) = Some (text + pos k)) ->
  (exists p', translate (Controls c0 c3 c4) m (sp + 4) = Some p' /\ dword m p' = Some dir) ->
  translate (Controls c0 dir c4) m sp = Some p -> dword m p = Some ret ->
  reaches callee set_page_directory_asm text (Cpu (Gprs a c d b sp bp si di) sg cs0 (Controls c0 c3 c4) (v + pos 0) fl m)
    (fun s' => s' = Cpu (Gprs a dir d b (sp + 4) bp si di) sg cs0 (Controls c0 dir c4) ret fl m).
Proof.
  intros Hv Hend Hsp Hsp' Hal Hdir Hret Hcode (p' & Hp' & Harg) Hp Hdw.
  dir_insn 0%nat c3 Hcode v Hv. cbn [address]. unfold get, set. repeat wp_step. regs.
  assert (forall x, x mod 4 = 0 -> x mod 4096 <= 4092) as Hpage by (intros; Z.div_mod_to_equations; lia).
  rewrite (wrap_small 32 (sp + 4)) by (unfold in_width; lia).
  eapply wp_load_dword; [unfold in_width; lia|apply Hpage; Z.div_mod_to_equations; lia|exact Hp'|exact Harg|].
  wp_step. regs. rewrite (wrap_small 32 dir) by done.
  dir_insn 1%nat c3 Hcode v Hv. unfold get. repeat wp_step. regs.
  dir_insn 2%nat dir Hcode v Hv. unfold set. repeat wp_step. regs. rewrite (wrap_small 32 dir) by done.
  dir_insn 3%nat dir Hcode v Hv. unfold get. repeat wp_step. regs.
  dir_insn 4%nat dir Hcode v Hv. unfold pop, get, set, jump. repeat wp_step. regs.
  eapply wp_load_dword; [unfold in_width; lia|by apply Hpage|exact Hp|exact Hdw|]. repeat wp_step. regs.
  rewrite (wrap_small 32 (sp + 4)), (wrap_small 32 ret) by (try done; unfold in_width; lia). by apply reaches_done.
Qed.
End SetPageDirectory.

(** ** The layout that vm.c starts from *)

(** The hypotheses of the memory managers about the image hold when the linker keeps it
    within the 8 MB that are mapped. *)
Lemma boot_layout_ok `{BootImage} `{Encoding} `{Layout} :
  boot_image_ok -> KERNEL_PAGE_DIRECTORY = bss_page_directory -> KERNEL_PAGE_TABLES = bss_page_tables ->
  addr_vm_first_bucket <> 0 -> VmInit.layout_ok.
Proof.
  intros [_ B3 [B4 B5] _] Ed Et Hb. unfold KERNEL_BSS_ZERO_END, VM_OFFSET in *.
  assert (bss_page_tables = stack_bottom + 0x6000) as E1.
  { unfold bss_page_tables, bss_page_directory, KERNEL_BOOT_PAGE_DIRECTORY, KERNEL_BSS_ZERO_START, stack_top. lia. }
  assert (bss_page_directory = stack_bottom + 0x5000) as E2 by (unfold bss_page_tables in E1; lia).
  split; [rewrite Et, E1; Z.div_mod_to_equations; lia|..|exact Hb]; unfold KERNEL_OFFSET; lia.
Qed.

(** ** Witness: a loaded image *)

Section Examples.
#[local] Instance ex_image : BootImage :=
  {| maos_start := 0xC0100030; stack_bottom := 0xC010B000; addr_kernel_main := 0xC0102000 |}.
#[local] Instance ex_boot_encoding : Encoding := {| insn_size := fun _ => 5 |}.

Lemma ex_image_ok : boot_image_ok.
Proof. split; [vm_compute; split; congruence|done|vm_compute; split; congruence|done]. Qed.

(** The state a boot loader leaves, with the information at 0x9500. *)
Definition ex_loaded : machine (gmap Z Z) :=
  Cpu (Gprs 0x2BADB002 0 0 0x9500 0 0 0 0) (Segments 0x10 0x10 0x10 0x10) 8 (Controls 0x11 0 0) 0x100030 2 ∅.

Lemma boot_enters_kernel_witness :
  exists n s', run boot_callee boot_asm 0x100030 n ex_loaded = Ok (tt, s') /\
    eip s' = 0xC0102000 /\ dword (bus s') 0x10EFFC = Some 0xC0009500 /\
    translate (ctl s') (bus s') 0xC0009500 = Some 0x9500 /\ translate (ctl s') (bus s') 0x9500 = None.
Proof.
  destruct (boot_enters_kernel ltac:(done) ex_loaded ex_image_ok) as (n & s' & Hrun & [E1 E2 E3 E4 E5 E6]).
  { split; [done|done|split; done]. }
  exists n, s'. split; [exact Hrun|]. split; [exact E1|]. split; [exact E3|].
  by rewrite !E4 by done.
Defined.
End Examples.
