(* ===== verification/VmAlloc.v ===== *)
(** * kernel/memory/vm.c: kernel pages

    [vm_alloc_kpages] over any frame allocator that satisfies the laws of Frames.v. *)

From S2P Require Import Prelude Common Frames Cstring Vm VmList VmRanges VmFree VmPaging.

Section Alloc.
Context {PS : Type} `{FrameAllocatorLaws PS} `{Layout}.
Implicit Types (s : vm_state PS) (a : as_t).

(** Everything but the page tables and the frame allocator is as before. *)
Definition only_mapped s s' : Prop :=
  exists pt f, s' = with_frames f
    (with_paging (vm_current_as s) (spaces s) (pdes s) pt (cr3 s) s).

Lemma only_mapped_refl s : only_mapped s s.
Proof. exists (ptes s), (frames s). by destruct s. Qed.

Lemma only_mapped_trans s s1 s2 : only_mapped s s1 -> only_mapped s1 s2 -> only_mapped s s2.
Proof. intros (p1 & f1 & ->) (p2 & f2 & ->). by exists p2, f2. Qed.

Lemma space_wf_frames s asp a f : space_wf s asp a -> space_wf (with_frames f s) asp a.
Proof. intros [? ? ? ? ? ?]. by split. Qed.

(** The frames [fs] were taken. *)
Record taken (p p' : PS) (fs : list Z) : Prop := {
  tk_inv : frames_inv p';
  tk_managed : forall x, frame_managed p' x <-> frame_managed p x;
  tk_nodup : NoDup fs;
  tk_before : Forall (frame_available p) fs;
  tk_after : forall x, frame_available p' x <-> frame_available p x /\ x ∉ fs
}.

(** The available frames are the list [fs], shorter than [n]. *)
Definition fewer_frames (p : PS) (n : nat) : Prop :=
  exists fs, (length fs < n)%nat /\ NoDup fs /\ forall x, frame_available p x <-> x ∈ fs.

(** The translation after the pages from [pn] on were mapped to [fs]. *)
Definition mapped (pn : Z) (fs : list Z) (before after : Z -> option Z) : Prop :=
  forall v, is_u32 v -> after v =
    if decide (pn <= v / 4096 < pn + Z.of_nat (length fs))
    then (fun f => f + v mod 4096) <$> fs !! Z.to_nat (v / 4096 - pn)
    else before v.

Lemma taken_nil p : frames_inv p -> taken p p [].
Proof.
  intros Hi. split; [done|done|constructor|constructor|]. intros x. split; [|tauto].
  intros. split; [done|]. apply not_elem_of_nil.
Qed.

Lemma taken_cons p p1 p2 x fs :
  frame_available p x -> (forall y, frame_managed p1 y <-> frame_managed p y) ->
  (forall y, frame_available p1 y <-> frame_available p y /\ y <> x) ->
  taken p1 p2 fs -> taken p p2 (x :: fs).
Proof.
  intros Hx Hm A1 [Hi Hm2 Hnd Hb Ha]. split; [done|intros y; by rewrite Hm2, Hm| | |].
  - apply NoDup_cons. split; [|done]. intros Hin. rewrite Forall_forall in Hb.
    specialize (Hb x Hin). apply A1 in Hb as [_ ?]. done.
  - constructor; [done|]. eapply Forall_impl; [done|]. intros y Hy. by apply A1 in Hy as [? _].
  - intros y. rewrite Ha, A1, not_elem_of_cons. tauto.
Qed.

Lemma fewer_cons p p1 x n :
  frame_available p x ->
  (forall y, frame_available p1 y <-> frame_available p y /\ y <> x) ->
  fewer_frames p1 n -> fewer_frames p (S n).
Proof.
  intros Hx A1 (fs & Hlen & Hnd & Hfs). exists (x :: fs). split; [simpl; lia|]. split.
  - apply NoDup_cons. split; [|done]. intros Hin. apply Hfs, A1 in Hin as [_ ?]. done.
  - intros y. rewrite elem_of_cons, <- Hfs, A1. destruct (decide (y = x)) as [->|]; tauto.
Qed.

Lemma mapped_cons pn x fs w0 w1 w2 :
  (forall v, is_u32 v -> w1 v = if decide (v / 4096 = pn) then Some (x + v mod 4096) else w0 v) ->
  mapped (pn + 1) fs w1 w2 -> mapped pn (x :: fs) w0 w2.
Proof.
  intros A1 A2 v Hv. rewrite A2, A1 by done. cbn [length].
  destruct (decide (v / 4096 = pn)) as [E|E].
  - rewrite decide_False by lia. rewrite decide_True by lia.
    by replace (v / 4096 - pn) with 0 by lia.
  - destruct (decide (pn + 1 <= v / 4096 < pn + 1 + Z.of_nat (length fs))) as [Hin|Hout].
    + rewrite decide_True by lia.
      by replace (Z.to_nat (v / 4096 - pn)) with (S (Z.to_nat (v / 4096 - (pn + 1)))) by lia.
    + by rewrite decide_False by lia.
Qed.

Lemma mapped_first pn x fs w0 w1 :
  mapped pn (x :: fs) w0 w1 -> is_u32 (pn * 4096) -> w1 (pn * 4096) = Some x.
Proof.
  intros Hm Hpn. rewrite (Hm _ Hpn), Z.div_mul, Z.mod_mul by lia. cbn [length].
  rewrite decide_True, Z.sub_diag by lia. simpl. by rewrite Z.add_0_r.
Qed.

(** The loop of [vm_alloc_kpages]. *)
Definition map_fresh (pageno i : Z) : M (vm_state PS) unit :=
  e ← in_frames (pmm_alloc 1);
  _ ← ASSERT (err_ok e.1) "Out of physical memory";
  cur ← gets vm_current_as;
  vm_map_page cur e.2 (u32 ((pageno + i) * PAGE_SIZE)).

Lemma map_fresh_ok s a pageno i :
  space_wf s (vm_current_as s) a -> frames_inv (frames s) ->
  KERNEL_OFFSET <= (pageno + i) * 4096 -> (pageno + i) * 4096 < 2 ^ 32 ->
  wpp (map_fresh pageno i) s
    (fun _ s' => only_mapped s s' /\ space_wf s' (vm_current_as s) a /\
       frames_inv (frames s') /\
       (forall y, frame_managed (frames s') y <-> frame_managed (frames s) y) /\
       exists x, frame_available (frames s) x /\
       (forall y, frame_available (frames s') y <-> frame_available (frames s) y /\ y <> x) /\
       forall v, is_u32 v -> walk s' (as_directory_phys a) v =
         if decide (v / 4096 = pageno + i) then Some (x + v mod 4096)
         else walk s (as_directory_phys a) v)
    (fun w => w = "Out of physical memory" /\ fewer_frames (frames s) 1).
Proof.
  intros Hwf Hi Hlo Hhi. unfold map_fresh. apply wpp_bind, wpp_wp. unfold in_frames. wp_step.
  eapply wp_mono; [by apply pmm_alloc_one|]. intros [e x] p' (Hi' & Hman & Hpost). simpl in *.
  apply wpp_bind, wpp_assert.
  - intros He%bool_decide_eq_true. subst e. destruct Hpost as [Hx Hafter].
    apply wpp_bind, wpp_wp. wp_step. apply wpp_wp.
    destruct (frame_managed_ok _ _ Hi (frame_available_managed _ _ Hx)) as (B1 & B2 & B3). unfold KERNEL_OFFSET in *.
    rewrite PAGE_SIZE_val, wrap_small by (unfold in_width; lia).
    eapply wp_mono; [apply (vm_map_page_ok _ _ a); [by apply space_wf_frames|..]; try done;
      unfold in_width, KERNEL_OFFSET; lia|].
    intros [] s' ([pt ->] & Hwf' & Hw). cbn. split; [by eexists _, _|].
    split; [done|]. split; [done|]. split; [done|]. exists x. split; [done|]. split; [done|].
    intros v Hv. rewrite Hw by done. by rewrite Z.div_mul by lia.
  - intros He%bool_decide_eq_false. destruct e; [done| |done]. destruct Hpost as [_ Hno].
    split; [done|]. exists []. split; [simpl; lia|]. split; [constructor|]. intros y.
    split; [intros Hy; by apply Hno in Hy|by intros ?%elem_of_nil].
Qed.

Lemma map_fresh_loop n : forall s a pageno i,
  space_wf s (vm_current_as s) a -> frames_inv (frames s) ->
  KERNEL_OFFSET <= (pageno + i) * 4096 -> (pageno + i + Z.of_nat n) * 4096 <= 2 ^ 32 ->
  wpp (for_loop n i (map_fresh pageno)) s
    (fun _ s' => only_mapped s s' /\ space_wf s' (vm_current_as s) a /\
       exists fs, length fs = n /\ taken (frames s) (frames s') fs /\
         mapped (pageno + i) fs (walk s (as_directory_phys a)) (walk s' (as_directory_phys a)))
    (fun w => w = "Out of physical memory" /\ fewer_frames (frames s) n).
Proof.
  induction n as [|n IH]; intros s a pageno i Hwf Hi Hlo Hhi; cbn [for_loop].
  - apply wpp_wp, wp_ret. split; [apply only_mapped_refl|]. split; [done|].
    exists []. split; [done|]. split; [by apply taken_nil|]. intros v Hv.
    by rewrite decide_False by (simpl; lia).
  - apply wpp_bind. eapply wpp_mono; [apply (map_fresh_ok s a); try done; lia|..].
    + intros [] s1 (Ho & Hwf1 & Hi1 & Hman & x & Hx & Hafter & Hw).
      assert (vm_current_as s1 = vm_current_as s) as Hcur by (by destruct Ho as (? & ? & ->)).
      eapply wpp_mono; [apply (IH s1 a pageno (i + 1)); try done; rewrite ?Hcur; try done; lia|..].
      * intros [] s2 (Ho2 & Hwf2 & fs & Hlen & Ht & Hm). rewrite Hcur in Hwf2.
        split; [by eapply only_mapped_trans|]. split; [done|]. exists (x :: fs).
        split; [simpl; lia|]. split; [by eapply taken_cons|].
        eapply mapped_cons; [done|]. by replace (pageno + i + 1) with (pageno + (i + 1)) by lia.
      * intros w [-> Hf]. split; [done|]. by eapply fewer_cons.
    + intros w [-> (fs & Hlen & ? & ?)]. split; [done|]. exists fs. split; [lia|done].
Qed.

(** ** The whole state *)

(** A loaded address space, a sound frame allocator, and ordered, merged buckets of
    pages in the kernel's half. *)
Record vm_inv s (K W : list node) (q : Z) : Prop := {
  vi_paging : paging_wf s;
  vi_frames : frames_inv (frames s);
  vi_lists : vm_lists s K W q;
  vi_coalesced : coalesced K;
  vi_kernel : forall p, free_page K p -> KERNEL_OFFSET <= p * 4096
}.

(** The outcome of a successful call. *)
Record kpages s s' (K W : list node) (q pages ptr pn : Z) (fs : list Z) : Prop := {
  kp_ptr : ptr = pn * 4096;
  kp_run : lowest_run K pn pages;
  kp_length : Z.of_nat (length fs) = pages;
  kp_taken : taken (frames s) (frames s') fs;
  kp_mapped : mapped pn fs (mmu s) (mmu s');
  kp_filled : written (ram s) (ram s') ptr (pages * 4096) (fun _ => Some 0xAA);
  kp_inv : exists K' W' q', vm_inv s' K' W' q' /\
    (item_available s W q -> item_available s' W' q') /\
    forall p, free_page K' p <-> free_page K p /\ ~ (pn <= p < pn + pages);
  kp_spaces : spaces s' = spaces s /\ vm_current_as s' = vm_current_as s
}.

Lemma vm_alloc_kpages_ok s K W q pages :
  vm_inv s K W q -> 0 < pages ->
  (forall pn, lowest_run K pn pages -> pn + pages <= 2 ^ 20) ->
  wpp (vm_alloc_kpages pages) s
    (fun ptr s' => exists pn fs, kpages s s' K W q pages ptr pn fs)
    (fun w => w = "Out of virtual memory" /\ (forall pn, ~ free_run K pn pages) \/
              w = "Out of physical memory" /\ fewer_frames (frames s) (Z.to_nat pages)).
Proof.
  intros [(a & Hwf & Hcr3) Hfi HL Hc Hk] Hp Hlow. unfold vm_alloc_kpages.
  pose proof (vm_reserve_ok _ _ _ s _ _ _ pages HL) as Hres. rewrite with_lists_id in Hres.
  apply wpp_bind, wpp_wp. eapply wp_mono; [exact Hres|].
  intros r s1 (k & w & h & K' & W' & q' & -> & HL' & Hnew & Hpost).
  destruct (reserve_post_free _ _ _ _ _ _ _ _ Hc Hp Hpost) as [Hc' Hr].
  destruct r as [pn|]; [|left; split; [done|apply Hr]].
  destruct Hr as [Hrun Hf]. pose proof (Hlow _ Hrun) as Hend.
  pose proof (Hk pn (proj1 Hrun pn ltac:(lia))) as Hstart. unfold KERNEL_OFFSET in Hstart.
  set (s1 := with_lists k w h s).
  assert (space_wf s1 (vm_current_as s1) a) as Hwf1 by (destruct Hwf; by split).
  apply wpp_bind. eapply wpp_mono.
  { apply (map_fresh_loop (Z.to_nat pages) s1 a pn 0); [done|done|unfold KERNEL_OFFSET; lia|lia]. }
  2: { intros msg Hmsg. by right. }
  intros [] s2 ((pt & f & ->) & Hwf2 & fs & Hlen & Ht & Hm).
  apply wpp_bind, wpp_wp. unfold in_ram. wp_step. rewrite PAGE_SIZE_val.
  rewrite !(wrap_small 32) by (unfold in_width; lia).
  eapply wp_mono; [apply memset_ok; lia|]. intros ? m [-> Hw]. apply wpp_wp. wp_step.
  exists pn, fs. split; [done|done|lia|done| |done| |done].
  - intros v Hv. specialize (Hm v Hv). rewrite Z.add_0_r in Hm. unfold mmu. cbn. rewrite Hcr3.
    exact Hm.
  - exists K', W', q'. split; [|split; [|done]].
    2: { intros Ha. exact (reserve_available s k w h _ _ _ _ _ _ _ _ Ha Hpost Hnew). }
    split.
    + exists a. split; [destruct Hwf2; by split|done].
    + apply Ht.
    + exact HL'.
    + done.
    + intros p Hfp. apply Hk. by apply Hf in Hfp as [? _].
Qed.

(** ** Releasing one page *)

Lemma same_paging_wf s s' asp a :
  same_paging s s' -> space_wf s asp a -> space_wf s' asp a.
Proof.
  intros (_ & E1 & E2 & E3 & _) [A1 A2 A3 A4 A5 A6].
  split; [by rewrite E1|done| |done|done|by rewrite E3].
  intros i Hi. specialize (A3 i Hi). unfold pde_at in *. by rewrite E2.
Qed.

Lemma same_paging_walk s s' dir v : same_paging s s' -> walk s' dir v = walk s dir v.
Proof. intros (_ & _ & E2 & E3 & _). unfold walk, pte_at. by rewrite E2, E3. Qed.

Lemma vm_free_kpage_ok s K W q pn x :
  vm_inv s K W q -> item_available s W q ->
  KERNEL_OFFSET <= pn * 4096 -> pn < 2 ^ 20 -> ~ free_page K pn ->
  (K = [] \/ exists n, n ∈ K /\ pn < n_page n) ->
  mmu s (pn * 4096) = Some x -> frame_managed (frames s) x -> ~ frame_available (frames s) x ->
  wp (vm_free_kpages 1 (pn * 4096)) s (fun _ s' =>
    (exists K' W' q', vm_inv s' K' W' q' /\
       forall p, free_page K' p <-> free_page K p \/ p = pn) /\
    (forall y, frame_available (frames s') y <-> frame_available (frames s) y \/ y = x) /\
    forall v, is_u32 v -> mmu s' v = if decide (v / 4096 = pn) then None else mmu s v).
Proof.
  intros [(a & Hwf & Hcr3) Hfi HL Hc Hk] Hia Hlo Hhi Hnf Hbehind Hmap Hman Hused.
  unfold KERNEL_OFFSET in Hlo. unfold vm_free_kpages.
  change (Z.to_nat 1) with 1%nat. cbn [unmap_down].
  change (Z.of_nat 0 * PAGE_SIZE) with 0. rewrite Z.add_0_r.
  unfold PAGE_BITS. rewrite Z.shiftr_div_pow2 by lia. change (2 ^ 12) with 4096.
  rewrite Z.div_mul, wrap_small by (unfold in_width; lia).
  wp_step. wp_step. eapply wp_mono;
    [apply (vm_unmap_page_ok s a); [done|unfold in_width; lia|unfold KERNEL_OFFSET; lia]|].
  intros r s1 ([pt ->] & Hwf1 & Hr & Hw). wp_step. wp_step.
  unfold mmu in Hmap. rewrite Hcr3 in Hmap. specialize (Hr x Hmap).
  rewrite Z.mod_mul, Z.sub_0_r in Hr by lia. subst r.
  eapply wp_mono; [eapply (vm_return_ok _ K W q 1 pn); try done; try lia|].
  { intros p Hp. by replace p with pn by lia. }
  intros [] s2 (K' & W' & q' & HL2 & Hc2 & Hsame & Hf). unfold in_frames. wp_step.
  pose proof (same_paging_wf _ _ _ _ Hsame Hwf1) as Hwf2.
  pose proof (fun v => same_paging_walk _ _ (as_directory_phys a) v Hsame) as Hw2.
  destruct Hsame as (Ec & _ & _ & _ & E3 & Ef). cbn in Ec, E3, Ef. rewrite Ef.
  eapply wp_mono; [by apply pmm_free_one|]. intros [] f (Hfi' & _ & Hav).
  split; [|split].
  - exists K', W', q'. split.
    + split; [|done|done|done|].
      * exists a. cbn. rewrite Ec, E3. split; [by apply space_wf_frames|done].
      * intros p [Hp|Hp]%Hf; [by apply Hk|]. unfold KERNEL_OFFSET. lia.
    + intros p. rewrite Hf. split; (intros [?|?]; [by left|right; lia]).
  - exact Hav.
  - intros v Hv. unfold mmu. cbn. rewrite E3, Hcr3. change (walk _ _ v) with (walk s2 (as_directory_phys a) v) at 1.
    rewrite Hw2, Hw by done. by rewrite Z.div_mul by lia.
Qed.
End Alloc.
