(* ===== verification/VmProps.v ===== *)
(** * kernel/memory/vm.c: correctness of paging and of kernel pages

    The theorems on [vm_init], [vm_map_page], [vm_unmap_page], [vm_dma],
    [vm_alloc_kpages] and [vm_free_kpages], over the laws of the frame allocator and
    for the buddy allocator of pmm.c. *)

From S2P Require Import Prelude Common Frames Cstring Vm VmList VmRanges VmFree VmPaging.
From S2P Require Import VmInit VmAlloc.
From S2P Require Bitset Pmm PmmFrames.

Section Properties.
Context {PS : Type} `{FrameAllocatorLaws PS} `{Layout}.
Implicit Types (s : vm_state PS) (K W : list node) (q pages pn : Z).

(** From the tables of an address space to the processor's view. *)
Lemma loaded s s' a :
  only_ptes s s' -> space_wf s' (vm_current_as s) a -> cr3 s = as_directory_phys a ->
  paging_wf s' /\ forall v, mmu s' v = walk s' (as_directory_phys a) v.
Proof.
  intros [pt ->] Hwf Hcr3. split; [by exists a|]. intros v. unfold mmu. cbn. by rewrite Hcr3.
Qed.

(** [vm_map_page] maps the page of [vaddr] to the frame at [paddr]: afterwards the
    processor translates every address of that page to the frame, and every other
    address as before; nothing but page table entries changes. *)
Theorem vm_map_page_correct s paddr vaddr :
  paging_wf s -> is_u32 paddr -> paddr mod 4096 = 0 -> is_u32 vaddr -> KERNEL_OFFSET <= vaddr ->
  exists s', vm_map_page (vm_current_as s) paddr vaddr s = Ok (tt, s') /\
    only_ptes s s' /\ paging_wf s' /\
    forall v, is_u32 v -> mmu s' v =
      if decide (v / 4096 = vaddr / 4096) then Some (paddr + v mod 4096) else mmu s v.
Proof.
  intros (a & Hwf & Hcr3) Hp Hpa Hv Hk.
  pose proof (vm_map_page_ok s _ a paddr vaddr Hwf Hp Hpa Hv Hk) as Hwp.
  apply wp_ok in Hwp as ([] & s' & Hrun & Ho & Hwf' & Hw). exists s'.
  destruct (loaded _ _ _ Ho Hwf' Hcr3) as [Hpg Hm]. split_and!; try done.
  intros v Hv'. rewrite Hm, Hw by done. unfold mmu. by rewrite Hcr3.
Qed.

(** the error paths of [vm_map_page]: a frame address that is not page-aligned and
    an address whose directory entry is absent (in the lower half: no user space is
    implemented) end in a panic. *)
Theorem vm_map_page_panics s a paddr vaddr :
  space_wf s (vm_current_as s) a -> is_u32 paddr -> is_u32 vaddr ->
  (paddr mod 4096 <> 0 ->
     vm_map_page (vm_current_as s) paddr vaddr s = Panic "paddr must be page-aligned") /\
  (paddr mod 4096 = 0 -> as_tables a !! (vaddr / 2 ^ 22) = None ->
     vm_map_page (vm_current_as s) paddr vaddr s = Panic "Not implemented").
Proof.
  intros Hwf Hp Hv. unfold vm_map_page. rewrite dir_of_shift, tab_of_shift. split.
  - intros Hpa. destruct (Z.eqb_spec paddr (PAGE_ALIGN paddr)) as [E|]; [|done].
    by apply PAGE_ALIGN_fixed in E.
  - intros Hpa Hnone. rewrite (proj2 (Z.eqb_eq _ _)) by by apply PAGE_ALIGN_fixed.
    pose proof (sw_pde _ _ _ Hwf _ (dir_range vaddr Hv)) as Hpde. fold (dir_of vaddr) in Hnone.
    rewrite Hnone in Hpde. unfold mbind, M_bind, space_at, gets. simpl.
    rewrite (sw_space _ _ _ Hwf), Hpde. simpl.
    destruct (Z.leb_spec 0x300 (dir_of vaddr)) as [Hk|]; [|done].
    pose proof (dir_range vaddr Hv). destruct (sw_kernel _ _ _ Hwf (dir_of vaddr)); [lia|].
    congruence.
Qed.

(** [vm_unmap_page] returns the frame the page was mapped to and removes exactly
    that translation. *)
Theorem vm_unmap_page_correct s vaddr x :
  paging_wf s -> is_u32 vaddr -> KERNEL_OFFSET <= vaddr ->
  mmu s vaddr = Some x ->
  exists s', vm_unmap_page vaddr s = Ok (x - vaddr mod 4096, s') /\
    only_ptes s s' /\ paging_wf s' /\
    forall v, is_u32 v -> mmu s' v =
      if decide (v / 4096 = vaddr / 4096) then None else mmu s v.
Proof.
  intros (a & Hwf & Hcr3) Hv Hk Hx.
  pose proof (vm_unmap_page_ok s a vaddr Hwf Hv Hk) as Hwp.
  apply wp_ok in Hwp as (r & s' & Hrun & Ho & Hwf' & Hr & Hw). exists s'.
  destruct (loaded _ _ _ Ho Hwf' Hcr3) as [Hpg Hm].
  unfold mmu in Hx. rewrite Hcr3 in Hx. rewrite <- (Hr x Hx). split_and!; try done.
  intros v Hv'. rewrite Hm, Hw by done. unfold mmu. by rewrite Hcr3.
Qed.

(** C30: [vm_dma] maps the [size / 4096] whole pages from [vaddr] on to the physical
    range at [paddr] and leaves every other translation alone; bytes of the range
    beyond the last whole page keep their old translation. *)
Theorem vm_dma_correct s paddr vaddr size :
  paging_wf s -> paddr mod 4096 = 0 -> vaddr mod 4096 = 0 ->
  0 <= paddr -> paddr + size <= 2 ^ 32 -> 0 <= size ->
  KERNEL_OFFSET <= vaddr -> vaddr + size <= 2 ^ 32 ->
  exists s', vm_dma paddr vaddr size s = Ok (tt, s') /\ only_ptes s s' /\ paging_wf s' /\
    forall v, is_u32 v -> mmu s' v =
      if decide (vaddr <= v < vaddr + size / 4096 * 4096) then Some (paddr + (v - vaddr))
      else mmu s v.
Proof.
  intros (a & Hwf & Hcr3) Hpa Hva Hp0 Hp1 Hs Hv0 Hv1.
  pose proof (vm_dma_ok s a paddr vaddr size Hwf Hpa Hva Hp0 Hp1 Hs Hv0 Hv1) as Hwp.
  apply wp_ok in Hwp as ([] & s' & Hrun & Ho & Hwf' & Hw). exists s'.
  destruct (loaded _ _ _ Ho Hwf' Hcr3) as [Hpg Hm]. split_and!; try done.
  intros v Hv'. rewrite Hm, Hw by done. unfold mmu. by rewrite Hcr3.
Qed.


(** C29: [vm_free_kpages] of one mapped page in front of some free range gives the page
    back to the free ranges and its frame back to the frame allocator, removes
    exactly its translation and keeps the invariant. *)
Theorem vm_free_kpages_one s K W q pn x :
  vm_inv s K W q -> item_available s W q ->
  KERNEL_OFFSET <= pn * 4096 -> pn < 2 ^ 20 -> ~ free_page K pn ->
  (K = [] \/ exists n, n ∈ K /\ pn < n_page n) ->
  mmu s (pn * 4096) = Some x -> frame_managed (frames s) x -> ~ frame_available (frames s) x ->
  exists s', vm_free_kpages 1 (pn * 4096) s = Ok (tt, s') /\
    (exists K' W' q', vm_inv s' K' W' q' /\
       forall p, free_page K' p <-> free_page K p \/ p = pn) /\
    (forall y, frame_available (frames s') y <-> frame_available (frames s) y \/ y = x) /\
    forall v, is_u32 v -> mmu s' v = if decide (v / 4096 = pn) then None else mmu s v.
Proof.
  intros. pose proof (vm_free_kpage_ok s K W q pn x) as Hwp.
  apply wp_ok in Hwp as ([] & s' & Hrun & Hpost); try done. by exists s'.
Qed.
End Properties.

(** ** The memory subsystem after boot *)

Section Boot.
#[local] Existing Instance PmmFrames.pmm_allocator.
#[local] Existing Instance PmmFrames.pmm_allocator_laws.
Context `{Layout}.

Lemma boot_free_page p :
  free_page [Node addr_vm_first_bucket 0xC0800 0xC1800] p <-> 0xC0800 <= p < 0x182000.
Proof.
  rewrite free_page_cons. unfold covers. cbn. pose proof (free_page_nil p). intuition lia.
Qed.

Lemma boot_lowest pn pages :
  0 < pages <= 0xC1800 -> lowest_run [Node addr_vm_first_bucket 0xC0800 0xC1800] pn pages -> pn = 0xC0800.
Proof.
  intros Hp [Hrun Hlow].
  assert (pn <= 0xC0800) by (apply Hlow; intros x Hx; apply boot_free_page; lia).
  specialize (Hrun pn ltac:(lia)). apply boot_free_page in Hrun. lia.
Qed.

(** When all frames are free there are [n_frames] of them. *)
Lemma free_frames_enough p n :
  (forall f, 0 <= f < Pmm.n_frames p -> Pmm.frame_free p f = true) -> Z.of_nat n <= Pmm.n_frames p -> ~ fewer_frames p n.
Proof.
  intros Hfree Hn (fs & Hlen & Hnd & Hfs).
  pose (gs := (fun i => Pmm.buddy_base p + 4096 * Z.of_nat i) <$> seq 0 n).
  assert (NoDup gs) as Hgs by (apply NoDup_fmap_2; [intros i j ?; lia|apply NoDup_seq]).
  assert (length gs <= length fs)%nat as Hle.
  { apply submseteq_length, NoDup_submseteq; [exact Hgs|]. intros x Hx.
    apply list_elem_of_fmap in Hx as (i & -> & Hi). apply elem_of_seq in Hi. apply Hfs.
    exists (Z.of_nat i). split; [lia|]. split; [reflexivity|]. apply Hfree. lia. }
  unfold gs in Hle. rewrite length_fmap, length_seq in Hle. lia.
Qed.

Lemma vm_init_inv p :
  layout_ok -> Pmm.pmm_inv p ->
  wp vm_init (vm_boot p) (fun _ s =>
    vm_inv s [Node addr_vm_first_bucket 0xC0800 0xC1800] [] 0 /\ (upper_half s /\ ram s = ∅) /\ frames s = p /\
    (forall x, x <> addr_vm_first_bucket -> buckets s !! x = None) /\
    vm_steal_next s = Pmm.pmm_phys2virtual (Pmm.managed_first p) /\
    vm_steal_remaining s
    = u32 (KERNEL_BOOT_MAPPED - Pmm.pmm_phys2virtual (Pmm.managed_first p)) /\
    forall v, is_u32 v -> mmu s v =
      if decide (KERNEL_OFFSET <= v < KERNEL_BOOT_MAPPED) then Some (v - KERNEL_OFFSET) else None).
Proof.
  intros HL Hp. eapply wp_mono; [by apply vm_init_ok|].
  intros [] s (Hpg & Hlow & Hf & Hl & Hb & Hs1 & Hs2 & Hm). split; [|done]. split; [done| |done| |].
  - by rewrite Hf.
  - repeat split; vm_compute; reflexivity || discriminate.
  - intros q Hq%boot_free_page. unfold KERNEL_OFFSET. lia.
Qed.

(** C12: [pmm_init] followed by [vm_init] establishes the invariant of the memory
    subsystem: every frame is available, the first 8 MiB are mapped at
    [KERNEL_OFFSET] and nothing else is, and the kernel's free pages start behind
    that region. *)
Theorem memory_boot_correct upper mem :
  layout_ok -> Pmm.pmm_boot_ok upper mem ->
  exists p s, Pmm.pmm_init upper (Pmm.pmm_boot mem) = Ok (tt, p) /\
    vm_init (vm_boot p) = Ok (tt, s) /\
    vm_inv s [Node addr_vm_first_bucket 0xC0800 0xC1800] [] 0 /\ frames s = p /\
    (forall f, 0 <= f < Pmm.n_frames p -> Pmm.frame_free p f = true) /\
    forall v, is_u32 v -> mmu s v =
      if decide (KERNEL_OFFSET <= v < KERNEL_BOOT_MAPPED) then Some (v - KERNEL_OFFSET) else None.
Proof.
  intros HL Hb. pose proof (Pmm.pmm_init_ok upper mem Hb) as Hwp.
  apply wp_ok in Hwp as ([] & p & Hrun & Hinv & HN & _ & _ & _ & _ & Hfree).
  pose proof (vm_init_inv p HL Hinv) as Hwp.
  apply wp_ok in Hwp as ([] & s & Hrun' & Hvi & _ & Hf & _ & _ & _ & Hm).
  exists p, s. split_and!; done.
Qed.
End Boot.

(** ** Examples: 8 MiB behind the kernel image *)

Section Examples.
#[local] Existing Instance PmmFrames.pmm_allocator.
#[local] Existing Instance PmmFrames.pmm_allocator_laws.
#[local] Existing Instance example_layout.

Lemma ex_layout_ok : layout_ok.
Proof. split; vm_compute; repeat split; discriminate. Qed.

(** The state after boot. *)
Definition after {A} (r : res (A * vm_state Pmm.pmm_state)) : vm_state Pmm.pmm_state :=
  match r with Ok (_, s) => s | _ => vm_boot Pmm.ex_pmm end.
Definition ex_vm0 : vm_state Pmm.pmm_state := after (vm_init (vm_boot Pmm.ex_pmm)).
Definition ex_K0 : list node := [Node addr_vm_first_bucket 0xC0800 0xC1800].

Lemma after_wp {A} (m : M (vm_state Pmm.pmm_state) A) s Q :
  wp m s Q -> exists a, Q a (after (m s)).
Proof. unfold wp. destruct (m s) as [[a s']| | |]; [|done..]. by exists a. Qed.

Lemma ex_vm0_boot :
  vm_inv ex_vm0 ex_K0 [] 0 /\ frames ex_vm0 = Pmm.ex_pmm /\ item_available ex_vm0 [] 0 /\
  forall v, is_u32 v -> mmu ex_vm0 v =
    if decide (KERNEL_OFFSET <= v < KERNEL_BOOT_MAPPED) then Some (v - KERNEL_OFFSET) else None.
Proof.
  destruct (after_wp _ _ _ (vm_init_inv Pmm.ex_pmm ex_layout_ok Pmm.ex_pmm_inv))
    as (_ & Hi & _ & Hf & Hb & Hs1 & Hs2 & Hm).
  split; [exact Hi|]. split; [exact Hf|]. split; [|exact Hm].
  right. split; [reflexivity|]. unfold ex_vm0. rewrite Hs1, Hs2.
  change (Pmm.pmm_phys2virtual (Pmm.managed_first Pmm.ex_pmm)) with 0xC0521000.
  split; [vm_compute; discriminate|]. split; [discriminate|]. apply Hb. discriminate.
Qed.

Lemma memory_boot_correct_witness :
  exists p s, Pmm.pmm_init 0xD21000 (Pmm.pmm_boot Pmm.ex_words) = Ok (tt, p) /\
    vm_init (vm_boot p) = Ok (tt, s) /\ mmu s 0xC0100123 = Some 0x100123.
Proof.
  destruct (memory_boot_correct 0xD21000 Pmm.ex_words ex_layout_ok Pmm.ex_boot_ok)
    as (p & s & Hp & Hs & _ & _ & _ & Hm).
  exists p, s. split; [exact Hp|]. split; [exact Hs|]. rewrite Hm; [reflexivity|].
  unfold in_width. lia.
Defined.

Lemma vm_map_page_correct_witness :
  exists s', vm_map_page (vm_current_as ex_vm0) 0x700000 0xD0000000 ex_vm0 = Ok (tt, s') /\
    mmu s' 0xD0000ABC = Some 0x700ABC.
Proof.
  destruct (vm_map_page_correct ex_vm0 0x700000 0xD0000000 (vi_paging _ _ _ _ (proj1 ex_vm0_boot)))
    as (s' & Hrun & _ & _ & Hm).
  - unfold in_width. lia.
  - reflexivity.
  - unfold in_width. lia.
  - unfold KERNEL_OFFSET. lia.
  - exists s'. split; [exact Hrun|]. rewrite Hm; [reflexivity|]. unfold in_width. lia.
Defined.

Lemma vm_map_page_panics_witness :
  vm_map_page (vm_current_as ex_vm0) 0x1234 0xD0000000 ex_vm0 = Panic "paddr must be page-aligned".
Proof.
  destruct (vi_paging _ _ _ _ (proj1 ex_vm0_boot)) as (a & Hwf & Hcr3).
  apply (vm_map_page_panics ex_vm0 a 0x1234 0xD0000000 Hwf).
  - unfold in_width. lia.
  - unfold in_width. lia.
  - discriminate.
Defined.

Lemma vm_unmap_page_correct_witness :
  exists s', vm_unmap_page 0xC0100000 ex_vm0 = Ok (0x100000, s') /\ mmu s' 0xC0100000 = None.
Proof.
  destruct ex_vm0_boot as (Hi & _ & _ & Hm0).
  destruct (vm_unmap_page_correct ex_vm0 0xC0100000 0x100000 (vi_paging _ _ _ _ Hi))
    as (s' & Hrun & _ & _ & Hm).
  - unfold in_width. lia.
  - unfold KERNEL_OFFSET. lia.
  - rewrite Hm0; [reflexivity|]. unfold in_width. lia.
  - exists s'. split; [exact Hrun|]. rewrite Hm; [reflexivity|]. unfold in_width. lia.
Defined.

(** 0x1800 bytes: only the first page is mapped. *)
Lemma vm_dma_correct_witness :
  exists s', vm_dma 0xFD000000 0xD0000000 0x1800 ex_vm0 = Ok (tt, s') /\
    mmu s' 0xD0000FFF = Some 0xFD000FFF /\ mmu s' 0xD0001000 = None.
Proof.
  destruct ex_vm0_boot as (Hi & _ & _ & Hm0).
  destruct (vm_dma_correct ex_vm0 0xFD000000 0xD0000000 0x1800 (vi_paging _ _ _ _ Hi))
    as (s' & Hrun & _ & _ & Hm); try reflexivity; try (unfold KERNEL_OFFSET; lia).
  exists s'. split; [exact Hrun|].
  rewrite !Hm by (unfold in_width; lia). split; [reflexivity|]. simpl.
  rewrite Hm0 by (unfold in_width; lia). reflexivity.
Defined.

(** The lowest run after boot starts at page 0xC0800. *)
Lemma ex_lowest pages pn :
  0 < pages <= 0x3F800 -> lowest_run ex_K0 pn pages -> pn = 0xC0800.
Proof. intros Hp. apply boot_lowest. lia. Qed.

(** There are 2048 available frames. *)
Lemma ex_frames n : (n <= 2048)%nat -> ~ fewer_frames Pmm.ex_pmm n.
Proof.
  intros Hn. apply free_frames_enough; [|change (Pmm.n_frames Pmm.ex_pmm) with 2048; lia].
  destruct (Pmm.state_of_wp _ _ _ (Pmm.pmm_init_ok 0xD21000 Pmm.ex_words Pmm.ex_boot_ok))
    as (_ & _ & _ & _ & _ & _ & _ & Hf). rewrite Pmm.ex_pmm_eq. exact Hf.
Qed.

(** After boot, a request for at most 2048 pages succeeds. *)
Lemma ex_outcome pages r :
  0 < pages <= 2048 ->
  match r with
  | Ok (ptr, s') => exists pn fs, kpages ex_vm0 s' ex_K0 [] 0 pages ptr pn fs
  | Panic w => w = "Out of virtual memory" /\ (forall pn, ~ free_run ex_K0 pn pages) \/
               w = "Out of physical memory" /\ fewer_frames (frames ex_vm0) (Z.to_nat pages)
  | _ => False
  end ->
  exists s' fs, r = Ok (0xC0800000, s') /\ kpages ex_vm0 s' ex_K0 [] 0 pages 0xC0800000 0xC0800 fs.
Proof.
  intros Hp Hr. destruct r as [[ptr s']|w| |]; [|exfalso|destruct Hr|destruct Hr].
  - destruct Hr as (pn & fs & Hk). pose proof (kp_run _ _ _ _ _ _ _ _ _ Hk) as Hrun.
    apply ex_lowest in Hrun as ->; [|lia]. pose proof (kp_ptr _ _ _ _ _ _ _ _ _ Hk) as ->.
    exists s', fs. split; [reflexivity|exact Hk].
  - destruct Hr as [[_ Hno]|[_ Hf]].
    + apply (Hno 0xC0800). intros x Hx. apply boot_free_page. lia.
    + revert Hf. rewrite (proj1 (proj2 ex_vm0_boot)). apply ex_frames. lia.
Qed.


(** The page allocated first is released again. *)
Lemma vm_free_kpages_one_witness :
  exists s1 s2, vm_alloc_kpages 1 ex_vm0 = Ok (0xC0800000, s1) /\
    vm_free_kpages 1 (0xC0800 * 4096) s1 = Ok (tt, s2) /\ mmu s2 0xC0800000 = None.
Proof.
  destruct (ex_outcome 1 (vm_alloc_kpages 1 ex_vm0)) as (s1 & fs & Hrun & Hk); [lia| |].
  { apply (vm_alloc_kpages_ok ex_vm0 ex_K0 [] 0 1 (proj1 ex_vm0_boot)); [lia|].
    intros pn Hlow. apply ex_lowest in Hlow as ->; lia. }
  destruct Hk as [_ _ Hlen [Hfi Hman Hnd Hbefore Hafter] Hm _ (K' & W' & q' & Hinv & Hav & Hf) _].
  destruct fs as [|x [|y fs]]; [discriminate Hlen| |simpl in Hlen; lia].
  apply Forall_inv in Hbefore. exists s1.
  destruct (vm_free_kpages_one s1 K' W' q' 0xC0800 x Hinv (Hav (proj1 (proj2 (proj2 ex_vm0_boot)))))
    as (s2 & Hfree & _ & _ & Hm2).
  - discriminate.
  - lia.
  - rewrite Hf. lia.
  - right. assert (free_page K' 0xC0801) as (n & Hn & Hcov)
      by (apply Hf; split; [apply boot_free_page; lia|lia]).
    exists n. split; [exact Hn|]. destruct (Z.lt_ge_cases 0xC0800 (n_page n)) as [|Hge]; [lia|].
    exfalso. assert (free_page K' 0xC0800) as Hbad
      by (exists n; split; [exact Hn|unfold covers in *; lia]).
    apply Hf in Hbad as [_ Hbad]. lia.
  - apply (mapped_first _ _ _ _ _ Hm). unfold in_width. lia.
  - apply Hman, frame_available_managed, Hbefore.
  - rewrite Hafter. intros [_ Hnot]. apply Hnot. left.
  - exists s2. split; [exact Hrun|]. split; [exact Hfree|].
    rewrite Hm2; [reflexivity|]. unfold in_width. lia.
Defined.

End Examples.
