(* ===== verification/Liballoc.v ===== *)
(** * libc/liballoc/liballoc.c: definitions

    The heap: boundary tags in front of the blocks, chains of blocks that were split
    from the same pages, and lists of free blocks by the exponent of their size. *)

From S2P Require Import Prelude Cstring.

(** ** Data *)

Definition LIBALLOC_MAGIC : Z := 0xc001c0de.
Definition MAXCOMPLETE : Z := 5.
Definition MAXEXP : Z := 32.
Definition MINEXP : Z := 8.
Definition MODE : Z := 0.
Definition l_pageSize : Z := 4096.
Definition l_pageCount : Z := 16.

(** [struct boundary_tag] and its size. *)
Record boundary_tag : Type := Tag {
  magic : Z;
  tsize : Z;
  real_size : Z;
  index : Z;
  split_left : Z;
  split_right : Z;
  tnext : Z;
  tprev : Z
}.
Definition sizeof_tag : Z := 32.

Definition set_tsize (v : Z) (t : boundary_tag) : boundary_tag :=
  Tag (magic t) v (real_size t) (index t) (split_left t) (split_right t) (tnext t) (tprev t).
Definition set_real_size (v : Z) (t : boundary_tag) : boundary_tag :=
  Tag (magic t) (tsize t) v (index t) (split_left t) (split_right t) (tnext t) (tprev t).
Definition set_index (v : Z) (t : boundary_tag) : boundary_tag :=
  Tag (magic t) (tsize t) (real_size t) v (split_left t) (split_right t) (tnext t) (tprev t).
Definition set_split_left (v : Z) (t : boundary_tag) : boundary_tag :=
  Tag (magic t) (tsize t) (real_size t) (index t) v (split_right t) (tnext t) (tprev t).
Definition set_split_right (v : Z) (t : boundary_tag) : boundary_tag :=
  Tag (magic t) (tsize t) (real_size t) (index t) (split_left t) v (tnext t) (tprev t).
Definition set_tnext (v : Z) (t : boundary_tag) : boundary_tag :=
  Tag (magic t) (tsize t) (real_size t) (index t) (split_left t) (split_right t) v (tprev t).
Definition set_tprev (v : Z) (t : boundary_tag) : boundary_tag :=
  Tag (magic t) (tsize t) (real_size t) (index t) (split_left t) (split_right t) (tnext t) v.

(** The hooks of liballoc.h, and the bytes of the memory they hand out. *)
Class PageSource (PS : Type) : Type := {
  liballoc_alloc : Z -> M PS Z;
  liballoc_free : Z -> Z -> M PS unit;
  memory : PS -> gmap Z Z;
  set_memory : gmap Z Z -> PS -> PS
}.

(** The file's variables, the tags by address and the state behind the hooks.  Tags
    are kept apart from the bytes of the memory: a client that writes outside its
    block, over a tag, is not modelled. *)
Record la_state {PS : Type} : Type := {
  l_freePages : list Z;
  l_completePages : list Z;
  l_initialized : Z;
  tags : gmap Z boundary_tag;
  source : PS
}.
Arguments la_state : clear implicits.

(** ** Helper functions *)

(** [getexp]: the loop starts at [MINEXP], so [MAXEXP - MINEXP] rounds suffice. *)
Fixpoint getexp_loop (fuel : nat) (size shift : Z) : Z :=
  match fuel with
  | O => shift
  | S fuel' =>
      if shift <? MAXEXP then
        if size <? u32 (Z.shiftl 1 shift) then shift else getexp_loop fuel' size (shift + 1)
      else shift
  end.

Definition getexp (size : Z) : Z :=
  if size <? Z.shiftl 1 MINEXP then -1
  else getexp_loop (Z.to_nat (MAXEXP - MINEXP)) size MINEXP - 1.

(** The counter is an [int]: it overflows when [n] is 2^31 or more.  Neither function
    may be handed NULL and a non-zero count. *)
Definition liballoc_memset (s c n : Z) : M (gmap Z Z) Z :=
  if (s =? 0) && negb (n =? 0) || (2 ^ 31 <=? n) then undef
  else
    _ ← for_loop (Z.to_nat n) 0 (fun i => store8 (s + i) (u8 c));
    mret s.

(** Whole words first, then the rest byte by byte. *)
Definition liballoc_memcpy (s1 s2 n : Z) : M (gmap Z Z) Z :=
  if ((s1 =? 0) || (s2 =? 0)) && negb (n =? 0) then undef
  else
    let words := n / 4 in
    _ ← for_loop (Z.to_nat words) 0 (fun i => w ← load32 (s2 + 4 * i); store32 (s1 + 4 * i) w);
    _ ← for_loop (Z.to_nat (n - 4 * words)) 0 (fun i =>
          b ← load8 (s2 + 4 * words + i); store8 (s1 + 4 * words + i) b);
    mret s1.

Section Liballoc.
Context {PS : Type} `{PageSource PS}.
Implicit Types s : la_state PS.

(** ** Access to the state *)

Definition with_free (f : list Z) s : la_state PS :=
  {| l_freePages := f; l_completePages := l_completePages s; l_initialized := l_initialized s;
     tags := tags s; source := source s |}.
Definition with_complete (c : list Z) s : la_state PS :=
  {| l_freePages := l_freePages s; l_completePages := c; l_initialized := l_initialized s;
     tags := tags s; source := source s |}.
Definition with_init (v : Z) s : la_state PS :=
  {| l_freePages := l_freePages s; l_completePages := l_completePages s; l_initialized := v;
     tags := tags s; source := source s |}.
Definition with_tags (t : gmap Z boundary_tag) s : la_state PS :=
  {| l_freePages := l_freePages s; l_completePages := l_completePages s;
     l_initialized := l_initialized s; tags := t; source := source s |}.
Definition with_source (p : PS) s : la_state PS :=
  {| l_freePages := l_freePages s; l_completePages := l_completePages s;
     l_initialized := l_initialized s; tags := tags s; source := p |}.

(** Reading and assigning [*p] and its members. *)
Definition tag_at (p : Z) : M (la_state PS) boundary_tag := fun s =>
  match tags s !! p with Some t => Ok (t, s) | None => Undef end.
Definition put_tag (p : Z) (t : boundary_tag) : M (la_state PS) unit :=
  modify (fun s => with_tags (<[p := t]> (tags s)) s).
Definition upd_tag (p : Z) (f : boundary_tag -> boundary_tag) : M (la_state PS) unit :=
  t ← tag_at p; put_tag p (f t).

(** [l_freePages[i]] and [l_completePages[i]]. *)
Definition free_head (i : Z) : M (la_state PS) Z := fun s =>
  if (0 <=? i) then
    match l_freePages s !! Z.to_nat i with Some p => Ok (p, s) | None => Undef end
  else Undef.
Definition set_free_head (i p : Z) : M (la_state PS) unit :=
  _ ← free_head i; modify (fun s => with_free (<[Z.to_nat i := p]> (l_freePages s)) s).
Definition complete (i : Z) : M (la_state PS) Z := fun s =>
  if (0 <=? i) then
    match l_completePages s !! Z.to_nat i with Some c => Ok (c, s) | None => Undef end
  else Undef.
Definition set_complete (i c : Z) : M (la_state PS) unit :=
  _ ← complete i; modify (fun s => with_complete (<[Z.to_nat i := c]> (l_completePages s)) s).

(** ** Tags *)

Definition insert_tag (tag idx : Z) : M (la_state PS) unit :=
  t ← tag_at tag;
  let realIndex := if idx <? 0 then Z.max MINEXP (getexp (u32 (real_size t - sizeof_tag)))
                   else idx in
  _ ← upd_tag tag (set_index realIndex);
  head ← free_head realIndex;
  _ ← (if head =? 0 then mret tt
       else _ ← upd_tag head (set_tprev tag); upd_tag tag (set_tnext head));
  set_free_head realIndex tag.

Definition remove_tag (tag : Z) : M (la_state PS) unit :=
  t ← tag_at tag;
  head ← free_head (index t);
  _ ← (if head =? tag then set_free_head (index t) (tnext t) else mret tt);
  t ← tag_at tag;
  _ ← (if tprev t =? 0 then mret tt else upd_tag (tprev t) (set_tnext (tnext t)));
  t ← tag_at tag;
  _ ← (if tnext t =? 0 then mret tt else upd_tag (tnext t) (set_tprev (tprev t)));
  _ ← upd_tag tag (set_tnext 0);
  _ ← upd_tag tag (set_tprev 0);
  upd_tag tag (set_index (-1)).

Definition melt_left (tag : Z) : M (la_state PS) Z :=
  t ← tag_at tag;
  let left := split_left t in
  _ ← upd_tag left (fun l => set_real_size (u32 (real_size l + real_size t)) l);
  t ← tag_at tag;
  _ ← upd_tag left (set_split_right (split_right t));
  t ← tag_at tag;
  _ ← (if split_right t =? 0 then mret tt else upd_tag (split_right t) (set_split_left left));
  mret left.

Definition absorb_right (tag : Z) : M (la_state PS) Z :=
  t ← tag_at tag;
  let right := split_right t in
  _ ← remove_tag right;
  r ← tag_at right;
  _ ← upd_tag tag (fun t => set_real_size (u32 (real_size t + real_size r)) t);
  r ← tag_at right;
  _ ← upd_tag tag (set_split_right (split_right r));
  r ← tag_at right;
  _ ← (if split_right r =? 0 then mret tt else upd_tag (split_right r) (set_split_left tag));
  mret tag.

(** The new tag is written to memory that held no tag of the heap; its [size] and
    [index] members keep what was there before ([insert_tag] sets [index]). *)
Definition split_tag (tag : Z) : M (la_state PS) Z :=
  t ← tag_at tag;
  let remainder := u32 (real_size t - sizeof_tag - tsize t) in
  let new_tag := u32 (tag + sizeof_tag + tsize t) in
  old ← gets (fun s => default (Tag 0 0 0 0 0 0 0 0) (tags s !! new_tag));
  _ ← put_tag new_tag (Tag LIBALLOC_MAGIC (tsize old) remainder (index old) tag (split_right t) 0 0);
  _ ← (if split_right t =? 0 then mret tt else upd_tag (split_right t) (set_split_left new_tag));
  _ ← upd_tag tag (set_split_right new_tag);
  _ ← upd_tag tag (fun t => set_real_size (u32 (real_size t - remainder)) t);
  _ ← insert_tag new_tag (-1);
  mret new_tag.

(** ** The interface *)

Definition in_source {A} (m : M PS A) : M (la_state PS) A := zoom source with_source m.
Definition in_memory {A} (m : M (gmap Z Z) A) : M (la_state PS) A :=
  in_source (zoom memory set_memory m).

Definition allocate_new_tag (size : Z) : M (la_state PS) Z :=
  let usage := u32 (size + sizeof_tag) in
  let pages := usage / l_pageSize + (if usage mod l_pageSize =? 0 then 0 else 1) in
  let pages := if pages <? l_pageCount then l_pageCount else pages in
  tag ← in_source (liballoc_alloc pages);
  if tag =? 0 then mret 0
  else
    _ ← put_tag tag (Tag LIBALLOC_MAGIC size (u32 (pages * l_pageSize)) (-1) 0 0 0 0);
    mret tag.

(** The search through one list; a list has no more items than there are tags. *)
Fixpoint find_tag (fuel : nat) (tag size : Z) : M (la_state PS) Z :=
  match fuel with
  | O => nofuel
  | S fuel' =>
      if tag =? 0 then mret 0
      else t ← tag_at tag;
           if u32 (size + sizeof_tag) <=? u32 (real_size t - sizeof_tag) then mret tag
           else find_tag fuel' (tnext t) size
  end.

Definition initialize : M (la_state PS) unit :=
  i ← gets l_initialized;
  if i =? 0 then
    modify (fun s => with_init 1 (with_complete (replicate (Z.to_nat MAXEXP) 0)
                                   (with_free (replicate (Z.to_nat MAXEXP) 0) s)))
  else mret tt.

(** The excess behind the block becomes a tag of its own. *)
Definition split_excess (tag size : Z) : M (la_state PS) unit :=
  t ← tag_at tag;
  let remainder := u32 (real_size t - size - sizeof_tag * 2) in
  if 0 <? s32 remainder then
    if 0 <=? getexp remainder then _ ← split_tag tag; mret tt else mret tt
  else mret tt.

Definition malloc (size : Z) : M (la_state PS) Z :=
  _ ← initialize;
  let idx := Z.max MINEXP (getexp size + MODE) in
  head ← free_head idx;
  fuel ← gets (fun s => S (base.size (tags s)));
  found ← find_tag fuel head size;
  tag ← (if found =? 0 then allocate_new_tag size
         else
           _ ← remove_tag found;
           t ← tag_at found;
           _ ← (if (split_left t =? 0) && (split_right t =? 0) then
                  c ← complete idx; set_complete idx (c - 1)
                else mret tt);
           mret found);
  if tag =? 0 then mret 0
  else
    _ ← upd_tag tag (set_tsize size);
    _ ← split_excess tag size;
    mret (u32 (tag + sizeof_tag)).

(** [MELT LEFT] and [MELT RIGHT]: every round removes a tag from its chain. *)
Fixpoint melt_left_loop (fuel : nat) (tag : Z) : M (la_state PS) Z :=
  match fuel with
  | O => nofuel
  | S fuel' =>
      t ← tag_at tag;
      if split_left t =? 0 then mret tag
      else l ← tag_at (split_left t);
           if 0 <=? index l then
             tag ← melt_left tag;
             _ ← remove_tag tag;
             melt_left_loop fuel' tag
           else mret tag
  end.

Fixpoint melt_right_loop (fuel : nat) (tag : Z) : M (la_state PS) Z :=
  match fuel with
  | O => nofuel
  | S fuel' =>
      t ← tag_at tag;
      if split_right t =? 0 then mret tag
      else r ← tag_at (split_right t);
           if 0 <=? index r then tag ← absorb_right tag; melt_right_loop fuel' tag
           else mret tag
  end.

(** Handing a whole block back; its memory, and the tags in it, are gone. *)
Definition release_block (tag : Z) : M (la_state PS) unit :=
  t ← tag_at tag;
  let pages := real_size t / l_pageSize + (if real_size t mod l_pageSize =? 0 then 0 else 1) in
  let pages := if pages <? l_pageCount then l_pageCount else pages in
  _ ← in_source (liballoc_free tag pages);
  modify (fun s => with_tags
    (filter (fun '(a, _) => ~ tag <= a < tag + pages * l_pageSize) (tags s)) s).

Definition free (ptr : Z) : M (la_state PS) unit :=
  if ptr =? 0 then mret tt
  else
    let tag := u32 (ptr - sizeof_tag) in
    t ← tag_at tag;
    if negb (magic t =? LIBALLOC_MAGIC) then mret tt
    else
      fuel ← gets (fun s => S (base.size (tags s)));
      tag ← melt_left_loop fuel tag;
      fuel ← gets (fun s => S (base.size (tags s)));
      tag ← melt_right_loop fuel tag;
      t ← tag_at tag;
      let idx := Z.max MINEXP (getexp (u32 (real_size t - sizeof_tag))) in
      if (split_left t =? 0) && (split_right t =? 0) then
        c ← complete idx;
        if c =? MAXCOMPLETE then release_block tag
        else _ ← set_complete idx (c + 1); insert_tag tag idx
      else insert_tag tag idx.

Definition calloc (nobj size : Z) : M (la_state PS) Z :=
  let real_size := s32 (nobj * size) in
  p ← malloc (u32 real_size);
  _ ← in_memory (liballoc_memset p 0 (u32 real_size));
  mret p.

Definition realloc (p size : Z) : M (la_state PS) Z :=
  if size =? 0 then _ ← free p; mret 0
  else if p =? 0 then malloc size
  else
    t ← tag_at (u32 (p - sizeof_tag));
    let real_size := if size <? tsize t then size else tsize t in
    ptr ← malloc size;
    _ ← in_memory (liballoc_memcpy ptr p real_size);
    _ ← free p;
    mret ptr.

(** The state before the first call. *)
Definition la_boot (p : PS) : la_state PS :=
  {| l_freePages := replicate (Z.to_nat MAXEXP) 0; l_completePages := replicate (Z.to_nat MAXEXP) 0;
     l_initialized := 0; tags := ∅; source := p |}.
End Liballoc.
