(* ===== verification/LiballocList.v ===== *)
(** * libc/liballoc/liballoc.c: the lists of free blocks

    [getexp], and the specifications of [insert_tag] and [remove_tag] on the doubly
    linked lists of free tags. *)

From stdpp Require Import functions.
From S2P Require Import Prelude Cstring Liballoc.

(** ** [getexp] *)

Lemma getexp_loop_ok fuel : forall size shift,
  0 <= size < 2 ^ 32 -> 0 <= shift <= 32 -> 2 ^ shift <= 2 * size -> 0 < size ->
  (Z.to_nat (32 - shift) <= fuel)%nat -> getexp_loop fuel size shift = Z.log2 size + 1.
Proof.
  induction fuel as [|fuel IH]; intros size shift Hs Hsh Hlo Hpos Hf; cbn [getexp_loop].
  - assert (shift = 32) as -> by lia. symmetry. f_equal. change 32 with (31 + 1) at 1.
    enough (Z.log2 size = 31) by lia. apply Z.log2_unique; lia.
  - unfold MAXEXP. destruct (Z.ltb_spec shift 32) as [Hlt|Hge].
    + rewrite shiftl_1 by lia.
      pose proof (Z.pow_lt_mono_r 2 shift 32 ltac:(lia) ltac:(lia) ltac:(lia)).
      pose proof (Z.pow_pos_nonneg 2 shift ltac:(lia) ltac:(lia)).
      rewrite wrap_small by (unfold in_width; lia).
      destruct (Z.ltb_spec size (2 ^ shift)) as [Hs1|Hs1].
      * assert (shift <> 0) by (intros ->; simpl in *; lia).
        enough (Z.log2 size = shift - 1) by lia.
        replace shift with (Z.succ (shift - 1)) in Hs1, Hlo by lia.
        rewrite Z.pow_succ_r in Hs1, Hlo by lia.
        apply Z.log2_unique; [lia|]. rewrite Z.pow_succ_r by lia. lia.
      * apply IH; try lia. rewrite Z.pow_add_r by lia. lia.
    + assert (shift = 32) as -> by lia. enough (Z.log2 size = 31) by lia.
      apply Z.log2_unique; lia.
Qed.

Lemma getexp_ok size :
  is_u32 size -> getexp size = if size <? 256 then -1 else Z.log2 size.
Proof.
  intros Hs. unfold getexp, MINEXP. change (Z.shiftl 1 8) with 256.
  destruct (Z.ltb_spec size 256); [done|].
  rewrite (getexp_loop_ok _ size 8); [lia|exact Hs|lia|lia|lia|unfold MAXEXP; lia].
Qed.

Lemma getexp_range size : is_u32 size -> -1 <= getexp size < 32.
Proof.
  intros Hs. rewrite getexp_ok by done. destruct (Z.ltb_spec size 256); [lia|].
  pose proof (Z.log2_nonneg size). split; [lia|]. apply Z.log2_lt_pow2; [lia|]. apply Hs.
Qed.

(** The list a block of [len] bytes is kept in. *)
Definition expo (len : Z) : Z := Z.max MINEXP (getexp (u32 (len - sizeof_tag))).

Lemma expo_range len : 0 <= expo len < 32.
Proof.
  unfold expo, MINEXP. pose proof (getexp_range (u32 (len - sizeof_tag)) ltac:(by apply wrap_range)). lia.
Qed.

(** ** Lists of tags *)

Definition links (tg : gmap Z boundary_tag) (a : Z) : option (Z * Z) :=
  (fun t => (tnext t, tprev t)) <$> tg !! a.

(** The list from [hd] on; [p] is the [prev] member of its first tag. *)
Fixpoint flist (tg : gmap Z boundary_tag) (p hd : Z) (L : list Z) : Prop :=
  match L with
  | [] => hd = 0
  | a :: L' => hd = a /\ a <> 0 /\ exists nx, links tg a = Some (nx, p) /\ flist tg a nx L'
  end.

Lemma flist_ext tg tg' p hd L :
  (forall a, a ∈ L -> links tg' a = links tg a) -> flist tg p hd L -> flist tg' p hd L.
Proof.
  revert p hd. induction L as [|a L IH]; intros p hd He; simpl; [done|].
  intros (-> & Hne & nx & Hl & Hf). split; [done|]. split; [done|]. exists nx.
  rewrite He by left. split; [done|]. apply IH; [|done]. intros x Hx. apply He. by right.
Qed.

Lemma flist_head tg p hd L : flist tg p hd L -> hd = 0 <-> L = [].
Proof. destruct L; simpl; [done|]. intros (-> & ? & _). done. Qed.

(** The tag in the middle of a list, and the list without it. *)
Lemma flist_middle tg p hd L1 a L2 :
  flist tg p hd (L1 ++ a :: L2) -> exists nx pv,
    links tg a = Some (nx, pv) /\ flist tg a nx L2 /\ pv = default p (last L1) /\
    (L1 = [] -> hd = a) /\ (L1 <> [] -> hd = default 0 (head L1)).
Proof.
  revert p hd. induction L1 as [|b L1 IH]; intros p hd; simpl.
  - intros (-> & _ & nx & Hl & Hf). exists nx, p. done.
  - intros (-> & _ & nx & Hl & Hf). apply IH in Hf as (nx' & pv & H1 & H2 & -> & _ & _).
    exists nx', (default b (last L1)). split_and!; try done.
    rewrite last_cons. by destruct (last L1).
Qed.

(** What [remove_tag] leaves of the list. *)
Lemma flist_remove tg tg' p hd L1 a L2 nx :
  flist tg p hd (L1 ++ a :: L2) -> NoDup (L1 ++ a :: L2) ->
  fst <$> links tg a = Some nx ->
  (forall x, x ∈ L1 -> last L1 <> Some x -> links tg' x = links tg x) ->
  (forall x, last L1 = Some x -> links tg' x = (fun l => (nx, l.2)) <$> links tg x) ->
  (forall x, x ∈ L2 -> head L2 <> Some x -> links tg' x = links tg x) ->
  (forall x, head L2 = Some x -> links tg' x = (fun l => (l.1, default p (last L1))) <$> links tg x) ->
  flist tg' p (match L1 with [] => nx | _ => hd end) (L1 ++ L2).
Proof.
  revert p hd. induction L1 as [|b L1 IH]; intros p hd Hf Hnd Hnx E1 E2 E3 E4.
  - simpl in *. destruct Hf as (-> & Hne & nx' & Hl & Hf). rewrite Hl in Hnx. injection Hnx as ->.
    destruct L2 as [|c L2]; [done|]. destruct Hf as (-> & Hnc & nx2 & Hl2 & Hf2).
    split; [done|]. split; [done|]. exists nx2. rewrite E4, Hl2 by done. split; [done|].
    apply NoDup_cons in Hnd as [_ [Hcn Hnd]%NoDup_cons].
    eapply flist_ext; [|exact Hf2]. intros x Hx. apply E3; [by right|]. intros [= ->]. done.
  - destruct Hf as (-> & Hne & nb & Hl & Hf). simpl in Hnd. apply NoDup_cons in Hnd as [Hb Hnd].
    simpl. split; [done|]. split; [done|]. destruct (decide (L1 = [])) as [->|Hn1].
    + exists nx. rewrite (E2 b), Hl by done. split; [done|].
      specialize (IH b nb Hf Hnd Hnx). apply IH.
      * by intros x ?%elem_of_nil.
      * done.
      * exact E3.
      * exact E4.
    + exists nb. assert (last (b :: L1) = last L1) as Hlast.
      { rewrite last_cons. destruct (last L1) eqn:E; [done|]. by apply last_None in E. }
      rewrite Hlast in *. split.
      * rewrite E1; [done|left|]. intros Hbl. apply Hb. apply elem_of_app. left.
        by apply last_Some_elem_of.
      * specialize (IH b nb Hf Hnd Hnx).
        destruct L1 as [|c L1]; [done|]. apply IH.
        -- intros x Hx. apply E1. by right.
        -- done.
        -- done.
        -- intros x Hx. rewrite E4 by done. destruct (last (c :: L1)) eqn:E; [done|].
           by apply last_None in E.
Qed.

(** ** Symbolic execution *)

(** A tag without its links. *)
Definition unlinked (t : boundary_tag) : boundary_tag := set_tnext 0 (set_tprev 0 t).

(** The lists [F], by exponent: linked from the heads, without repetition, and every
    member carries the exponent of its list. *)
Record lists_ok (tg : gmap Z boundary_tag) (heads : list Z) (F : Z -> list Z) : Prop := {
  lo_heads : forall i, 0 <= i < 32 -> exists hd, heads !! Z.to_nat i = Some hd /\ flist tg 0 hd (F i);
  lo_nodup : forall i, NoDup (F i);
  lo_index : forall i a, a ∈ F i -> 0 <= i < 32 /\ exists t, tg !! a = Some t /\ index t = i
}.

Lemma lists_disjoint tg heads F i j a : lists_ok tg heads F -> a ∈ F i -> a ∈ F j -> i = j.
Proof.
  intros HL Hi Hj. apply (lo_index _ _ _ HL) in Hi as (_ & t & H1 & <-).
  apply (lo_index _ _ _ HL) in Hj as (_ & t' & H2 & <-). congruence.
Qed.

(** Two tags that differ in their links only. *)
Definition like (o o' : option boundary_tag) : Prop := unlinked <$> o' = unlinked <$> o.

Lemma like_index o o' t : like o o' -> o = Some t -> exists t', o' = Some t' /\ index t' = index t.
Proof.
  unfold like. intros Hl ->. destruct o' as [t'|]; [|done]. exists t'. split; [done|].
  apply (f_equal (fmap index)) in Hl. simpl in Hl. congruence.
Qed.

(** Other lists are untouched when the tags that change are not in them. *)
Lemma lists_ok_upd tg heads F tg' heads' i L :
  lists_ok tg heads F -> 0 <= i < 32 ->
  (forall j, 0 <= j < 32 -> j <> i -> heads' !! Z.to_nat j = heads !! Z.to_nat j) ->
  (forall j x, j <> i -> x ∈ F j -> tg' !! x = tg !! x) ->
  NoDup L -> (exists hd, heads' !! Z.to_nat i = Some hd /\ flist tg' 0 hd L) ->
  (forall x, x ∈ L -> exists t, tg' !! x = Some t /\ index t = i) ->
  lists_ok tg' heads' (<[i := L]> F).
Proof.
  intros HL Hi Hh Ht Hnd Hf Hx. split.
  - intros j Hj. destruct (decide (j = i)) as [->|Hne].
    + by rewrite fn_lookup_insert.
    + rewrite fn_lookup_insert_ne by done. rewrite Hh by done.
      destruct (lo_heads _ _ _ HL j Hj) as (hd & H1 & H2). exists hd. split; [done|].
      eapply flist_ext; [|done]. intros a Ha. unfold links. by rewrite (Ht j).
  - intros j. destruct (decide (j = i)) as [->|Hne]; [by rewrite fn_lookup_insert|].
    rewrite fn_lookup_insert_ne by done. apply HL.
  - intros j a. destruct (decide (j = i)) as [->|Hne].
    + rewrite fn_lookup_insert. intros Ha. split; [done|]. by apply Hx.
    + rewrite fn_lookup_insert_ne by done. intros Ha. rewrite (Ht j a) by done. by apply HL.
Qed.

Section Exec.
Context {PS : Type} `{PageSource PS}.
Implicit Types s : la_state PS.

Lemma with_tags_id s : with_tags (tags s) s = s.
Proof. by destruct s. Qed.
Lemma with_free_id s : with_free (l_freePages s) s = s.
Proof. by destruct s. Qed.

Lemma wp_tag_at s p t Q : tags s !! p = Some t -> Q t s -> wp (tag_at p) s Q.
Proof. intros Hp. unfold wp, tag_at. by rewrite Hp. Qed.

Lemma wp_upd_tag s p f t (Q : unit -> la_state PS -> Prop) :
  tags s !! p = Some t -> Q tt (with_tags (<[p := f t]> (tags s)) s) -> wp (upd_tag p f) s Q.
Proof. intros Hp HQ. unfold upd_tag. apply wp_bind. by eapply wp_tag_at. Qed.

Lemma wp_free_head s i p Q :
  0 <= i -> l_freePages s !! Z.to_nat i = Some p -> Q p s -> wp (free_head i) s Q.
Proof.
  intros Hi Hp HQ. unfold wp, free_head. destruct (Z.leb_spec 0 i); [|lia]. by rewrite Hp.
Qed.

Lemma wp_set_free_head s i p0 p (Q : unit -> la_state PS -> Prop) :
  0 <= i -> l_freePages s !! Z.to_nat i = Some p0 ->
  Q tt (with_free (<[Z.to_nat i := p]> (l_freePages s)) s) -> wp (set_free_head i p) s Q.
Proof. intros Hi Hp HQ. unfold set_free_head. apply wp_bind. by eapply wp_free_head. Qed.

(** Updating the tag at a pointer that may be NULL. *)
Lemma wp_upd_opt s (o : option Z) f (Q : unit -> la_state PS -> Prop) :
  (forall x, o = Some x -> x <> 0 /\ is_Some (tags s !! x)) ->
  (forall T, (forall x, T !! x = if decide (o = Some x) then f <$> tags s !! x else tags s !! x) ->
     Q tt (with_tags T s)) ->
  wp (if default 0 o =? 0 then mret tt else upd_tag (default 0 o) f) s Q.
Proof.
  intros Ho HQ. destruct o as [p|]; simpl.
  - destruct (Ho p eq_refl) as [Hne [t Ht]]. destruct (Z.eqb_spec p 0); [done|].
    eapply wp_upd_tag; [done|]. apply HQ. intros x. case_decide as Hd.
    + injection Hd as ->. by rewrite lookup_insert_eq, Ht.
    + rewrite lookup_insert_ne by congruence. done.
  - apply wp_ret. rewrite <- (with_tags_id s). apply HQ. intros x. by rewrite decide_False.
Qed.

(** ** [remove_tag] *)

(** The members of a list are tags at non-zero addresses. *)
Lemma flist_member tg p hd L a : flist tg p hd L -> a ∈ L -> a <> 0 /\ is_Some (tg !! a).
Proof.
  revert p hd. induction L as [|b L IH]; intros p hd; simpl; [by intros _ ?%elem_of_nil|].
  intros (-> & Hne & nx & Hl & Hf) [->|Ha]%elem_of_cons; [|by eapply IH].
  split; [done|]. unfold links in Hl. by destruct (tg !! b).
Qed.

(** The final tags in terms of the neighbours [o1] in front and [o2] behind. *)
Definition removed (tg tg' : gmap Z boundary_tag) (a : Z) (t : boundary_tag) (o1 o2 : option Z) : Prop :=
  forall x, tg' !! x =
    if decide (x = a) then Some (set_index (-1) (unlinked t))
    else if decide (o2 = Some x) then set_tprev (default 0 o1) <$> tg !! x
    else if decide (o1 = Some x) then set_tnext (default 0 o2) <$> tg !! x
    else tg !! x.

(** What a tag in the middle of its list says. *)
Lemma listed_tag tg fp F i L1 a L2 t :
  lists_ok tg fp F -> F i = L1 ++ a :: L2 -> tg !! a = Some t ->
  exists hd, 0 <= i < 32 /\ index t = i /\ fp !! Z.to_nat i = Some hd /\
    tnext t = default 0 (head L2) /\ tprev t = default 0 (last L1) /\
    (L1 = [] -> hd = a) /\ (forall b L, L1 = b :: L -> hd = b) /\
    (forall x, x ∈ L1 ++ a :: L2 -> x <> 0 /\ is_Some (tg !! x)).
Proof.
  intros HL HF Ht. assert (a ∈ F i) as Ha by (rewrite HF, elem_of_app, elem_of_cons; tauto).
  destruct (lo_index _ _ _ HL i a Ha) as (Hi & t' & Ht' & Hidx). rewrite Ht in Ht'. injection Ht' as <-.
  destruct (lo_heads _ _ _ HL i Hi) as (hd & Hhd & Hf). rewrite HF in Hf. exists hd.
  destruct (flist_middle _ _ _ _ _ _ Hf) as (nx & pv & Hl & Hf2 & -> & H1 & H2).
  unfold links in Hl. rewrite Ht in Hl. simpl in Hl. injection Hl as Hnx Hpv.
  split; [done|]. do 2 (split; [done|]). split_and!.
  - rewrite Hnx. destruct L2; simpl in Hf2; [done|]. by destruct Hf2 as (-> & _).
  - done.
  - done.
  - intros b L E. rewrite H2 by (by rewrite E). by rewrite E.
  - intros x. by apply (flist_member _ _ _ _ x Hf).
Qed.

Lemma listed_once tg fp F i L1 a L2 :
  lists_ok tg fp F -> F i = L1 ++ a :: L2 -> a ∉ L1 /\ a ∉ L2 /\ (forall x, x ∈ L1 -> x ∉ a :: L2).
Proof.
  intros HL HF. pose proof (lo_nodup _ _ _ HL i) as Hnd. rewrite HF in Hnd.
  apply NoDup_app in Hnd as (_ & Hdis & [Ha2 _]%NoDup_cons). split; [|done]. intros Hin. apply (Hdis a Hin). left.
Qed.

Lemma remove_tag_run s F i L1 a L2 t :
  lists_ok (tags s) (l_freePages s) F -> F i = L1 ++ a :: L2 -> tags s !! a = Some t ->
  wp (remove_tag a) s (fun _ s' => exists tg,
    removed (tags s) tg a t (last L1) (head L2) /\
    s' = with_tags tg (with_free
      (match L1 with [] => <[Z.to_nat i := default 0 (head L2)]> (l_freePages s)
                   | _ => l_freePages s end) s)).
Proof.
  intros HL HF Ht. destruct (listed_tag _ _ _ _ _ _ _ _ HL HF Ht) as (hd & Hi & Hidx & Hhd & Hnx & Hpv & H1 & H2 & Hmem).
  destruct (listed_once _ _ _ _ _ _ _ HL HF) as (Ha1 & Ha2 & Hdis). unfold remove_tag. wp_step. eapply wp_tag_at; [done|]. rewrite Hidx, Hnx.
  wp_step. eapply wp_free_head; [lia|done|].
  set (hs := match L1 with [] => _ | _ => _ end).
  wp_step. apply (wp_mono _ _ (fun _ s1 => s1 = with_free hs s)).
  { destruct L1 as [|b L1].
    - rewrite H1 by done. rewrite Z.eqb_refl. eapply wp_set_free_head; [lia|exact Hhd|reflexivity].
    - rewrite (H2 b L1) by done. destruct (Z.eqb_spec b a) as [->|]; [destruct Ha1; left|].
      apply wp_ret. symmetry. apply with_free_id. }
  intros [] s1 ->. wp_step. eapply wp_tag_at; [exact Ht|]. rewrite Hnx, Hpv.
  wp_step. apply wp_upd_opt.
  { intros x Hx%last_Some_elem_of. apply Hmem, elem_of_app. by left. }
  intros T1 HT1. cbn [tags with_free] in HT1.
  assert (T1 !! a = Some t) as Ht1.
  { rewrite HT1, decide_False; [done|]. by intros ?%last_Some_elem_of. }
  wp_step. eapply wp_tag_at; [exact Ht1|]. rewrite Hnx, Hpv.
  wp_step. apply wp_upd_opt.
  { intros x Hx. assert (x ∈ L2) as Hx2 by (destruct L2; [done|]; injection Hx as ->; left).
    split; [apply Hmem, elem_of_app; by right; right|]. cbn [tags with_tags]. rewrite HT1.
    assert (is_Some (tags s !! x)) as [tx Htx] by (apply Hmem, elem_of_app; by right; right).
    rewrite Htx. by case_decide. }
  intros T2 HT2. cbn [tags with_tags] in HT2.
  assert (T2 !! a = Some t) as Ht2.
  { rewrite HT2, decide_False; [done|]. intros Hx. apply Ha2. destruct L2; [done|].
    injection Hx as ->. left. }
  wp_step. eapply wp_upd_tag; [exact Ht2|]. cbn [tags with_tags].
  wp_step. eapply wp_upd_tag; [apply lookup_insert_eq|]. cbn [tags with_tags].
  eapply wp_upd_tag; [apply lookup_insert_eq|]. cbn [tags with_tags].
  eexists. split; [|reflexivity]. intros x. rewrite !insert_insert_eq.
  destruct (decide (x = a)) as [->|Hne].
  - rewrite lookup_insert_eq. by destruct t.
  - rewrite lookup_insert_ne, HT2, HT1 by done.
    destruct (decide (head L2 = Some x)) as [Hx|]; [|done].
    rewrite decide_False; [done|]. intros Hy%last_Some_elem_of. apply (Hdis x Hy). right.
    destruct L2; [done|]. injection Hx as ->. left.
Qed.

Lemma removed_like tg tg' a t o1 o2 x : removed tg tg' a t o1 o2 -> x <> a -> like (tg !! x) (tg' !! x).
Proof.
  intros HR Hx. unfold like. rewrite HR, decide_False by done.
  repeat case_decide; try done; by destruct (tg !! x) as [[]|].
Qed.

Lemma removed_links tg tg' a t o1 o2 x : removed tg tg' a t o1 o2 -> x <> a ->
  links tg' x = if decide (o2 = Some x) then (fun l => (l.1, default 0 o1)) <$> links tg x
                else if decide (o1 = Some x) then (fun l => (default 0 o2, l.2)) <$> links tg x
                else links tg x.
Proof.
  intros HR Hx. unfold links. rewrite HR, decide_False by done.
  repeat case_decide; try done; by destruct (tg !! x) as [[]|].
Qed.

Lemma remove_tag_ok s F i L1 a L2 t :
  lists_ok (tags s) (l_freePages s) F -> F i = L1 ++ a :: L2 -> tags s !! a = Some t ->
  wp (remove_tag a) s (fun _ s' => exists tg hs, s' = with_tags tg (with_free hs s) /\
    lists_ok tg hs (<[i := L1 ++ L2]> F) /\
    tg !! a = Some (set_index (-1) (unlinked t)) /\
    (forall x, x <> a -> like (tags s !! x) (tg !! x)) /\
    (forall x, x ∉ F i -> tg !! x = tags s !! x)).
Proof.
  intros HL HF Ht. eapply wp_mono; [by eapply remove_tag_run|].
  intros [] s' (tg & HR & ->). eexists tg, _. split; [reflexivity|].
  assert (a ∈ F i) as Ha by (rewrite HF, elem_of_app, elem_of_cons; tauto).
  destruct (lo_index _ _ _ HL i a Ha) as (Hi & _).
  destruct (lo_heads _ _ _ HL i Hi) as (hd & Hhd & Hf). pose proof (lo_nodup _ _ _ HL i) as Hnd.
  rewrite HF in Hf, Hnd. pose proof Hnd as (Hnd1 & Hdis & [Ha2 Hnd2]%NoDup_cons)%NoDup_app.
  assert (a ∉ L1) as Ha1 by (intros Hin; apply (Hdis a Hin); left).
  assert (forall x, head L2 = Some x -> x ∈ L2) as Hh2
    by (intros x Hx; destruct L2; [done|]; injection Hx as ->; left).
  assert (forall x, x ∉ F i -> tg !! x = tags s !! x) as Hout.
  { intros x Hx. rewrite HR. rewrite HF, not_elem_of_app, not_elem_of_cons in Hx.
    rewrite decide_False by (intros ->; tauto). rewrite decide_False by (intros ?%Hh2; tauto).
    rewrite decide_False by (intros ?%last_Some_elem_of; tauto). done. }
  split_and!; [|by rewrite HR, decide_True|intros x; by apply (removed_like _ _ _ _ _ _ _ HR)|done].
  apply (lists_ok_upd (tags s) (l_freePages s) F); try done.
  - intros j Hj Hne. destruct L1; [|done]. rewrite list_lookup_insert_ne; [done|lia].
  - intros j x Hne Hx. apply Hout. intros Hxi. apply Hne. by eapply lists_disjoint.
  - apply NoDup_app. split; [done|]. split; [|done]. intros x Hx Hx2. apply (Hdis x Hx). by right.
  - exists (match L1 with [] => default 0 (head L2) | _ => hd end). split.
    + destruct L1; [|done]. apply list_lookup_insert_eq. by apply lookup_lt_Some in Hhd.
    + destruct (flist_middle _ _ _ _ _ _ Hf) as (nx & pv & Hl & Hf2 & -> & _ & _).
      assert (nx = default 0 (head L2)) as ->.
      { destruct L2; simpl in Hf2; [done|]. by destruct Hf2 as (-> & _). }
      eapply (flist_remove (tags s) tg 0 hd L1 a L2); [done|done|by rewrite Hl|..].
      * intros x Hx Hnl. rewrite (removed_links _ _ _ _ _ _ _ HR) by (by intros ->).
        rewrite !decide_False; [done|done|]. intros Hx2%Hh2. apply (Hdis x Hx). by right.
      * intros x Hx. pose proof (last_Some_elem_of _ _ Hx) as Hx1.
        rewrite (removed_links _ _ _ _ _ _ _ HR) by (by intros ->).
        rewrite decide_False, decide_True; [done|done|]. intros Hx2%Hh2. apply (Hdis x Hx1). by right.
      * intros x Hx Hnh. rewrite (removed_links _ _ _ _ _ _ _ HR) by (by intros ->).
        rewrite !decide_False; [done| |done]. intros Hx1%last_Some_elem_of. apply (Hdis x Hx1). by right.
      * intros x Hx. pose proof (Hh2 x Hx) as Hx2.
        rewrite (removed_links _ _ _ _ _ _ _ HR) by (by intros ->). by rewrite decide_True.
  - intros x Hx. assert (x ∈ F i) as Hxi.
    { rewrite HF. apply elem_of_app in Hx as [?|?]; apply elem_of_app; [by left|right; by right]. }
    destruct (lo_index _ _ _ HL i x Hxi) as (_ & tx & Htx & Hix).
    assert (x <> a) as Hne by (intros ->; apply elem_of_app in Hx as [?|?]; done).
    destruct (like_index _ (tg !! x) tx (removed_like _ _ _ _ _ _ _ HR Hne) Htx)
      as (t' & Ht' & He). exists t'. split; [done|congruence].
Qed.

(** ** [insert_tag] *)

(** The list a tag is inserted into. *)
Definition insert_index (t : boundary_tag) (idx : Z) : Z :=
  if idx <? 0 then expo (real_size t) else idx.

(** The final tags when [o] is the old head. *)
Definition inserted (tg tg' : gmap Z boundary_tag) (a i : Z) (t : boundary_tag) (o : option Z) : Prop :=
  forall x, tg' !! x =
    if decide (x = a) then Some (set_tnext (default 0 o) (set_index i t))
    else if decide (o = Some x) then set_tprev a <$> tg !! x else tg !! x.

Lemma flist_default tg p hd L : flist tg p hd L -> hd = default 0 (head L).
Proof. destruct L; simpl; [done|]. by intros (-> & _). Qed.

Lemma insert_tag_run s F a t idx :
  lists_ok (tags s) (l_freePages s) F -> tags s !! a = Some t -> tnext t = 0 ->
  0 <= insert_index t idx < 32 -> a ∉ F (insert_index t idx) ->
  wp (insert_tag a idx) s (fun _ s' => exists tg,
    inserted (tags s) tg a (insert_index t idx) t (head (F (insert_index t idx))) /\
    s' = with_tags tg (with_free (<[Z.to_nat (insert_index t idx) := a]> (l_freePages s)) s)).
Proof.
  intros HL Ht Hnx Hi Ha. destruct (lo_heads _ _ _ HL _ Hi) as (hd & Hhd & Hf).
  pose proof (flist_default _ _ _ _ Hf) as ->.
  assert (head (F (insert_index t idx)) <> Some a) as Hha.
  { intros Hx. apply Ha. destruct (F (insert_index t idx)); [done|]. injection Hx as ->. left. }
  unfold insert_tag. wp_step. eapply wp_tag_at; [done|].
  change (if idx <? 0 then _ else idx) with (insert_index t idx).
  wp_step. eapply wp_upd_tag; [done|]. wp_step. eapply wp_free_head; [lia|exact Hhd|].
  wp_step. apply (wp_mono _ _ (fun _ s1 => exists tg, s1 = with_tags tg s /\
    inserted (tags s) tg a (insert_index t idx) t (head (F (insert_index t idx))))).
  { destruct (F (insert_index t idx)) as [|h L] eqn:EF; cbn [head default] in *.
    - simpl. apply wp_ret. eexists. split; [done|]. intros x. destruct (decide (x = a)) as [->|Hx].
      + rewrite lookup_insert_eq. f_equal. destruct t. simpl in *. by subst.
      + by rewrite lookup_insert_ne, decide_False.
    - destruct Hf as (_ & Hne & _). simpl. destruct (Z.eqb_spec h 0); [done|].
      assert (h <> a) as Hnea by congruence.
      assert (h ∈ F (insert_index t idx)) as Hin by (rewrite EF; left).
      assert (is_Some (tags s !! h)) as [th Hth].
      { apply (lo_index _ _ _ HL (insert_index t idx)) in Hin as (_ & th & ? & _). by exists th. }
      wp_step. eapply wp_upd_tag; [cbn [tags with_tags]; by rewrite lookup_insert_ne|].
      cbn [tags with_tags].
      eapply wp_upd_tag; [cbn [tags with_tags]; rewrite lookup_insert_ne by done;
                          apply lookup_insert_eq|].
      cbn [tags with_tags]. eexists. split; [reflexivity|]. intros x.
      destruct (decide (x = a)) as [->|Hx].
      + by rewrite lookup_insert_eq.
      + rewrite lookup_insert_ne by done. destruct (decide (Some h = Some x)) as [[= <-]|Hxh].
        * by rewrite lookup_insert_eq, Hth.
        * rewrite !lookup_insert_ne by congruence. done. }
  intros [] s1 (tg & -> & HI). eapply wp_set_free_head; [lia|exact Hhd|]. by exists tg.
Qed.

Lemma inserted_like tg tg' a i t o x : inserted tg tg' a i t o -> x <> a -> like (tg !! x) (tg' !! x).
Proof.
  intros HI Hx. unfold like. rewrite HI, decide_False by done.
  case_decide; [by destruct (tg !! x) as [[]|]|done].
Qed.

Lemma insert_tag_ok s F a t idx :
  lists_ok (tags s) (l_freePages s) F -> tags s !! a = Some t -> tnext t = 0 -> tprev t = 0 ->
  0 <= insert_index t idx < 32 -> a <> 0 -> (forall j, a ∉ F j) ->
  wp (insert_tag a idx) s (fun _ s' => exists tg hs, s' = with_tags tg (with_free hs s) /\
    lists_ok tg hs (<[insert_index t idx := a :: F (insert_index t idx)]> F) /\
    unlinked <$> tg !! a = Some (unlinked (set_index (insert_index t idx) t)) /\
    (forall x, x <> a -> like (tags s !! x) (tg !! x)) /\
    (forall x, x <> a -> x ∉ F (insert_index t idx) -> tg !! x = tags s !! x)).
Proof.
  intros HL Ht Hnx Hpv Hi Ha Hnin. eapply wp_mono; [by eapply insert_tag_run|].
  intros [] s' (tg & HI & ->). eexists tg, _. split; [reflexivity|].
  set (i := insert_index t idx) in *.
  destruct (lo_heads _ _ _ HL i Hi) as (hd & Hhd & Hf).
  assert (forall x, head (F i) = Some x -> x ∈ F i) as Hh
    by (intros x Hx; destruct (F i); [done|]; injection Hx as ->; left).
  assert (forall x, x <> a -> x ∉ F i -> tg !! x = tags s !! x) as Hout.
  { intros x Hx Hxi. rewrite HI, decide_False by done. rewrite decide_False; [done|].
    intros Hy. by apply Hxi, Hh. }
  assert (tg !! a = Some (set_tnext (default 0 (head (F i))) (set_index i t))) as Hta
    by by rewrite HI, decide_True.
  split_and!; [|by rewrite Hta; destruct t|intros x; by apply (inserted_like _ _ _ _ _ _ _ HI)|done].
  apply (lists_ok_upd (tags s) (l_freePages s) F); try done.
  - intros j Hj Hne. rewrite list_lookup_insert_ne; [done|lia].
  - intros j x Hne Hx. apply Hout; [by intros ->; apply (Hnin j)|].
    intros Hxi. apply Hne. by eapply lists_disjoint.
  - apply NoDup_cons. split; [done|]. apply HL.
  - exists a. split; [apply list_lookup_insert_eq; by apply lookup_lt_Some in Hhd|].
    split; [done|]. split; [done|]. exists hd. unfold links at 1. rewrite Hta. simpl.
    rewrite Hpv, (flist_default _ _ _ _ Hf). split; [by destruct (F i)|].
    pose proof (lo_nodup _ _ _ HL i) as Hnd. destruct (F i) as [|h L] eqn:EF; [done|].
    destruct Hf as (-> & Hne & nx & Hl & Hf). split; [done|]. split; [done|].
    apply NoDup_cons in Hnd as [HhL Hnd]. exists nx.
    assert (h <> a /\ a ∉ L) as [Hha HaL].
    { specialize (Hnin i). rewrite EF, not_elem_of_cons in Hnin. intuition congruence. }
    split.
    + unfold links in *. rewrite HI, decide_False, decide_True by done. simpl.
      destruct (tags s !! h) as [th|]; [|done]. simpl in *. by injection Hl as <- _.
    + eapply flist_ext; [|done]. intros x Hx. unfold links. rewrite HI.
      rewrite decide_False by (by intros ->). rewrite decide_False; [done|].
      simpl. by intros [= ->].
  - intros x [->|Hx]%elem_of_cons; [eexists; split; [done|]; by destruct t|].
    destruct (lo_index _ _ _ HL i x Hx) as (_ & tx & Htx & Hix).
    assert (x <> a) as Hne by (by intros ->; apply (Hnin i)).
    destruct (like_index _ (tg !! x) tx (inserted_like _ _ _ _ _ _ _ HI Hne) Htx)
      as (t' & Ht' & He). exists t'. split; [done|congruence].
Qed.
End Exec.
