(* ===== verification/LiballocHeap.v ===== *)
(** * libc/liballoc/liballoc.c: the invariant of the heap

    The heap as chains of adjacent blocks, and what its tags, lists and memory
    regions have to do with them. *)

From stdpp Require Import functions.
From S2P Require Import Prelude Cstring Liballoc LiballocList.

(** ** The page source *)

(** [region p n]: the [n] pages from [p] on were handed out and not taken back; their
    bytes can be read and written.  An allocation returns NULL or pages disjoint from
    every region, or panics. *)
Class PageSourceLaws (PS : Type) `{PageSource PS} : Type := {
  pages_inv : PS -> Prop;
  region : PS -> Z -> Z -> Prop;
  region_disjoint : forall s p n q m, pages_inv s -> region s p n -> region s q m ->
    p = q \/ p + 4096 * n <= q \/ q + 4096 * m <= p;
  region_memory : forall s p n x, pages_inv s -> region s p n -> p <= x < p + 4096 * n ->
    is_Some (memory s !! x);
  memory_bytes : forall s, pages_inv s -> bytes_ok (memory s);
  liballoc_alloc_ok : forall s n, pages_inv s -> 0 < n ->
    wpp (liballoc_alloc n) s (fun r s' => pages_inv s' /\
      if r =? 0 then memory s' = memory s /\ forall p m, region s' p m <-> region s p m
      else 0 < r /\ r + 4096 * n <= 2 ^ 32 /\
           (forall x, ~ r <= x < r + 4096 * n -> memory s' !! x = memory s !! x) /\
           (forall p m, region s p m -> p + 4096 * m <= r \/ r + 4096 * n <= p) /\
           forall p m, region s' p m <-> region s p m \/ p = r /\ m = n)
      (fun _ => True);
  memory_set : forall s m, memory (set_memory m s) = m;
  set_memory_ok : forall s m, pages_inv s ->
    (forall x, is_Some (memory s !! x) -> is_Some (m !! x)) -> bytes_ok m ->
    pages_inv (set_memory m s) /\ forall p n, region (set_memory m s) p n <-> region s p n
}.

(** Sources that take regions back as a whole. *)
Class PageReleaseLaws (PS : Type) `{PageSourceLaws PS} : Prop := {
  liballoc_free_ok : forall s p n, pages_inv s -> region s p n ->
    wp (liballoc_free p n) s (fun _ s' => pages_inv s' /\
      (forall x, ~ p <= x < p + 4096 * n -> memory s' !! x = memory s !! x) /\
      forall q m, region s' q m <-> region s q m /\ q <> p)
}.

(** ** Blocks and chains *)

(** A block is free, used with the requested size, or between the two states ([Raw]:
    its tag was just written and has no index yet). *)
Inductive bstate : Type := Free | Used (n : Z) | Limbo | Raw.
Record blk : Type := Blk { b_at : Z; b_len : Z; b_st : bstate }.

#[global] Instance bstate_eq_dec : EqDecision bstate.
Proof. solve_decision. Defined.
#[global] Instance blk_eq_dec : EqDecision blk.
Proof. solve_decision. Defined.

Abbreviation chain := (list blk).

Definition is_free (b : blk) : bool := match b_st b with Free => true | _ => false end.

Definition blk_ok (b : blk) : Prop :=
  sizeof_tag <= b_len b /\
  match b_st b with Used n => 0 <= n /\ n + sizeof_tag <= b_len b | _ => True end.

(** Adjacent blocks from [a] on. *)
Fixpoint contig (a : Z) (c : chain) : Prop :=
  match c with [] => True | b :: c' => b_at b = a /\ blk_ok b /\ contig (a + b_len b) c' end.

Fixpoint total (c : chain) : Z := match c with [] => 0 | b :: c' => b_len b + total c' end.

(** No two neighbours are free; [p]: the block in front is. *)
Fixpoint sep (p : bool) (c : chain) : Prop :=
  match c with [] => True | b :: c' => p && is_free b = false /\ sep (is_free b) c' end.

Definition last_free (p : bool) (c : chain) : bool := default p (is_free <$> last c).
Definition first_at (c : chain) (r : Z) : Z := default r (b_at <$> head c).
Definition last_at (l : Z) (c : chain) : Z := default l (b_at <$> last c).

Lemma last_at_cons l b c : last_at l (b :: c) = last_at (b_at b) c.
Proof. unfold last_at. rewrite last_cons. by destruct (last c). Qed.
Lemma last_at_snoc l c b : last_at l (c ++ [b]) = b_at b.
Proof. unfold last_at. by rewrite last_snoc. Qed.

Lemma contig_app a c1 c2 : contig a (c1 ++ c2) <-> contig a c1 /\ contig (a + total c1) c2.
Proof.
  revert a. induction c1 as [|b c1 IH]; intros a; simpl.
  - rewrite Z.add_0_r. tauto.
  - rewrite IH, Z.add_assoc. tauto.
Qed.

Lemma total_app c1 c2 : total (c1 ++ c2) = total c1 + total c2.
Proof. induction c1 as [|b c1 IH]; simpl; lia. Qed.

Lemma sep_app p c1 c2 : sep p (c1 ++ c2) <-> sep p c1 /\ sep (last_free p c1) c2.
Proof.
  revert p. induction c1 as [|b c1 IH]; intros p; simpl; [tauto|]. rewrite IH.
  assert (last_free p (b :: c1) = last_free (is_free b) c1) as ->.
  { unfold last_free. rewrite last_cons. by destruct (last c1). }
  tauto.
Qed.

Lemma total_nonneg a c : contig a c -> 0 <= total c.
Proof.
  revert a. induction c as [|b c IH]; intros a; simpl; [lia|].
  intros (_ & [Hl _] & Hc). specialize (IH _ Hc). unfold sizeof_tag in Hl. lia.
Qed.

Lemma contig_bounds a c b :
  contig a c -> b ∈ c -> a <= b_at b /\ b_at b + b_len b <= a + total c /\ blk_ok b.
Proof.
  revert a. induction c as [|b' c IH]; intros a; simpl; [by intros _ ?%elem_of_nil|].
  intros (<- & Hok & Hc) [->|Hb]%elem_of_cons.
  - pose proof (total_nonneg _ _ Hc). split; [lia|]. split; [lia|done].
  - destruct (IH _ Hc Hb) as (? & ? & ?). destruct Hok as [Hl _]. unfold sizeof_tag in Hl.
    split; [lia|]. split; [lia|done].
Qed.

(** Two blocks of a chain are the same or disjoint. *)
Lemma contig_disjoint a c b b' :
  contig a c -> b ∈ c -> b' ∈ c ->
  b = b' \/ b_at b + b_len b <= b_at b' \/ b_at b' + b_len b' <= b_at b.
Proof.
  revert a. induction c as [|b0 c IH]; intros a; simpl; [by intros _ ?%elem_of_nil|].
  intros (Ha & Hok & Hc) [->|Hb]%elem_of_cons [->|Hb']%elem_of_cons.
  - by left.
  - destruct (contig_bounds _ _ _ Hc Hb') as (? & _). right. left. lia.
  - destruct (contig_bounds _ _ _ Hc Hb) as (? & _). right. right. lia.
  - by eapply IH.
Qed.

(** ** Tags of a chain *)

Definition state_ok (t : boundary_tag) (b : blk) : Prop :=
  match b_st b with
  | Free => index t = expo (b_len b)
  | Used n => index t = -1 /\ tsize t = n
  | Limbo => index t = -1
  | Raw => True
  end.

(** The tag of block [b] between the neighbours at [l] and [r]. *)
Definition tag_ok (tg : gmap Z boundary_tag) (b : blk) (l r : Z) : Prop :=
  exists t, tg !! b_at b = Some t /\ magic t = LIBALLOC_MAGIC /\ real_size t = b_len b /\
    split_left t = l /\ split_right t = r /\ state_ok t b.

Fixpoint cseg (tg : gmap Z boundary_tag) (l : Z) (c : chain) (r : Z) : Prop :=
  match c with
  | [] => True
  | b :: c' => tag_ok tg b l (first_at c' r) /\ cseg tg (b_at b) c' r
  end.

Lemma cseg_app tg l c1 c2 r :
  cseg tg l (c1 ++ c2) r <-> cseg tg l c1 (first_at c2 r) /\ cseg tg (last_at l c1) c2 r.
Proof.
  revert l. induction c1 as [|b c1 IH]; intros l; simpl; [tauto|].
  rewrite IH, last_at_cons.
  assert (first_at (c1 ++ c2) r = first_at c1 (first_at c2 r)) as -> by by destruct c1.
  tauto.
Qed.

Lemma tag_ok_like tg tg' b l r :
  like (tg !! b_at b) (tg' !! b_at b) -> tag_ok tg b l r -> tag_ok tg' b l r.
Proof.
  intros Hl (t & Ht & H1 & H2 & H3 & H4 & H5). unfold like in Hl. rewrite Ht in Hl.
  destruct (tg' !! b_at b) as [t'|] eqn:Ht'; [|done]. simpl in Hl.
  destruct t, t'. unfold unlinked in Hl. simpl in *. injection Hl as -> -> -> -> -> ->.
  eexists. split; [done|]. simpl. split_and!; try done.
Qed.

Lemma cseg_like tg tg' l c r :
  (forall b, b ∈ c -> like (tg !! b_at b) (tg' !! b_at b)) -> cseg tg l c r -> cseg tg' l c r.
Proof.
  revert l. induction c as [|b c IH]; intros l Hl; simpl; [done|].
  intros [Ht Hc]. split; [eapply tag_ok_like; [apply Hl; left|done]|].
  apply IH; [|done]. intros b' Hb'. apply Hl. by right.
Qed.

Lemma cseg_present tg l c r b : cseg tg l c r -> b ∈ c -> exists t, tg !! b_at b = Some t.
Proof.
  revert l. induction c as [|b' c IH]; intros l; simpl; [by intros _ ?%elem_of_nil|].
  intros [(t & Ht & _) Hc] [->|Hb]%elem_of_cons; [by exists t|by eapply IH].
Qed.

(** ** The heap *)

Section Heap.
Context {PS : Type} `{PageSourceLaws PS}.
Implicit Types (s : la_state PS) (C : list chain) (c : chain) (F : Z -> list Z).

(** A chain covers the whole of one region. *)
Record chain_ok (src : PS) (tg : gmap Z boundary_tag) (c : chain) : Prop := {
  co_tags : cseg tg 0 c 0;
  co_contig : contig (first_at c 0) c;
  co_sep : sep false c;
  co_base : 0 < first_at c 0;
  co_end : first_at c 0 + total c <= 2 ^ 32;
  co_region : exists n, region src (first_at c 0) n /\ total c = 4096 * n /\ l_pageCount <= n
}.

Definition in_heap C (b : blk) : Prop := exists c, c ∈ C /\ b ∈ c.
Definition base (c : chain) : Z := first_at c 0.

(** The chains [C] and the lists [F] describe the state: the lists hold exactly the
    free blocks, by exponent, and the other tags are unlinked. *)
Record heap_ok s C F : Prop := {
  hk_source : pages_inv (source s);
  hk_lists : lists_ok (tags s) (l_freePages s) F;
  hk_chains : forall c, c ∈ C -> chain_ok (source s) (tags s) c;
  hk_bases : NoDup (base <$> C);
  hk_free : forall i a, a ∈ F i <->
    exists b, in_heap C b /\ b_st b = Free /\ b_at b = a /\ expo (b_len b) = i;
  hk_links : forall b, in_heap C b -> b_st b <> Free -> links (tags s) (b_at b) = Some (0, 0)
}.

Lemma chain_bounds src tg c b :
  chain_ok src tg c -> b ∈ c ->
  0 < b_at b /\ base c <= b_at b /\ b_at b + b_len b <= base c + total c /\
  base c + total c <= 2 ^ 32 /\ blk_ok b.
Proof.
  intros Hc Hb. destruct (contig_bounds _ _ _ (co_contig _ _ _ Hc) Hb) as (B1 & B2 & B3).
  pose proof (co_base _ _ _ Hc). pose proof (co_end _ _ _ Hc). unfold base. split_and!; lia || done.
Qed.

(** Blocks of the heap are the same or disjoint. *)
Lemma heap_disjoint s C F b b' :
  heap_ok s C F -> in_heap C b -> in_heap C b' ->
  b = b' \/ b_at b + b_len b <= b_at b' \/ b_at b' + b_len b' <= b_at b.
Proof.
  intros HK (c & Hc & Hb) (c' & Hc' & Hb').
  pose proof (hk_chains _ _ _ HK _ Hc) as Hok. pose proof (hk_chains _ _ _ HK _ Hc') as Hok'.
  destruct (chain_bounds _ _ _ _ Hok Hb) as (_ & B1 & B2 & _).
  destruct (chain_bounds _ _ _ _ Hok' Hb') as (_ & B3 & B4 & _).
  destruct (co_region _ _ _ Hok) as (n & Hr & Ht & _).
  destruct (co_region _ _ _ Hok') as (n' & Hr' & Ht' & _).
  destruct (region_disjoint _ _ _ _ _ (hk_source _ _ _ HK) Hr Hr') as [He|Hd].
  - assert (c = c') as <-.
    { apply list_elem_of_lookup in Hc as [i Hi]. apply list_elem_of_lookup in Hc' as [j Hj].
      assert (i = j) as ->; [|congruence].
      eapply NoDup_lookup; [exact (hk_bases _ _ _ HK)| |]; rewrite list_lookup_fmap.
      - by rewrite Hi.
      - rewrite Hj. simpl. unfold base. by rewrite He. }
    by eapply contig_disjoint; [apply Hok|..].
  - right. unfold base in *. lia.
Qed.

Lemma blk_ok_len b : blk_ok b -> 0 < b_len b.
Proof. intros [Hl _]. unfold sizeof_tag in Hl. lia. Qed.

(** An address belongs to one block. *)
Lemma heap_unique s C F b b' :
  heap_ok s C F -> in_heap C b -> in_heap C b' -> b_at b = b_at b' -> b = b'.
Proof.
  intros HK Hb Hb' He. destruct (heap_disjoint _ _ _ _ _ HK Hb Hb') as [?|Hd]; [done|].
  destruct Hb as (c & Hc & Hb). destruct Hb' as (c' & Hc' & Hb').
  destruct (chain_bounds _ _ _ _ (hk_chains _ _ _ HK _ Hc) Hb) as (_ & _ & _ & _ & Hok%blk_ok_len).
  destruct (chain_bounds _ _ _ _ (hk_chains _ _ _ HK _ Hc') Hb') as (_ & _ & _ & _ & Hok'%blk_ok_len).
  lia.
Qed.

(** The blocks that are not free are in no list. *)
Lemma not_in_lists s C F b i :
  heap_ok s C F -> in_heap C b -> b_st b <> Free -> b_at b ∉ F i.
Proof.
  intros HK Hb Hst Hin. apply (hk_free _ _ _ HK) in Hin as (b' & Hb' & Hf & He & _).
  by rewrite (heap_unique _ _ _ _ _ HK Hb' Hb He) in Hf.
Qed.

Lemma in_heap_mid C1 c C2 b :
  in_heap (C1 ++ c :: C2) b <-> b ∈ c \/ in_heap (C1 ++ C2) b.
Proof.
  unfold in_heap. split.
  - intros (c' & [Hc|[->|Hc]%elem_of_cons]%elem_of_app & Hb); [right|by left|right];
      exists c'; rewrite elem_of_app; tauto.
  - intros [Hb|(c' & Hc & Hb)]; [exists c|exists c']; rewrite elem_of_app, elem_of_cons;
      [tauto|]. apply elem_of_app in Hc. tauto.
Qed.

(** Replacing a chain by one that covers the same region: the common part of all
    operations. *)
Lemma heap_replace s C1 c C2 F tg hs c' F' :
  heap_ok s (C1 ++ c :: C2) F ->
  lists_ok tg hs F' ->
  (forall b, in_heap (C1 ++ C2) b -> like (tags s !! b_at b) (tg !! b_at b) /\
     (b_st b <> Free -> tg !! b_at b = tags s !! b_at b)) ->
  first_at c' 0 = first_at c 0 -> total c' = total c ->
  contig (first_at c 0) c' -> sep false c' -> cseg tg 0 c' 0 ->
  (forall b, b ∈ c' -> b_st b <> Free -> links tg (b_at b) = Some (0, 0)) ->
  (forall i a, a ∈ F' i <->
     (exists b, in_heap (C1 ++ C2) b /\ b_st b = Free /\ b_at b = a /\ expo (b_len b) = i) \/
     (exists b, b ∈ c' /\ b_st b = Free /\ b_at b = a /\ expo (b_len b) = i)) ->
  heap_ok (with_tags tg (with_free hs s)) (C1 ++ c' :: C2) F'.
Proof.
  intros HK HL Hother Hbase Htot Hcon Hsep Hseg Hlk HF.
  assert (c ∈ C1 ++ c :: C2) as Hcin by (rewrite elem_of_app, elem_of_cons; tauto).
  pose proof (hk_chains _ _ _ HK _ Hcin) as Hc.
  split; cbn [source tags l_freePages with_tags with_free].
  - apply HK.
  - done.
  - intros c0 Hc0. rewrite elem_of_app, elem_of_cons in Hc0.
    assert (c0 = c' \/ c0 ∈ C1 ++ C2) as [->|Hin] by (rewrite elem_of_app; tauto).
    + split; rewrite ?Hbase, ?Htot; try done; apply Hc.
    + assert (c0 ∈ C1 ++ c :: C2) as Hin'.
      { rewrite elem_of_app, elem_of_cons. rewrite elem_of_app in Hin. tauto. }
      destruct (hk_chains _ _ _ HK _ Hin') as [K1 K2 K3 K4 K5 K6]. split; try done.
      eapply cseg_like; [|done]. intros b Hb. apply Hother. by exists c0.
  - pose proof (hk_bases _ _ _ HK) as Hnd. rewrite fmap_app, fmap_cons in *.
    unfold base at 2. rewrite Hbase. exact Hnd.
  - intros i a. rewrite HF. split.
    + intros [(b & Hb & ?)|(b & Hb & ?)]; exists b; rewrite in_heap_mid; tauto.
    + intros (b & Hb & ?). rewrite in_heap_mid in Hb. destruct Hb; [right|left]; exists b; tauto.
  - intros b Hb Hst. rewrite in_heap_mid in Hb. destruct Hb as [Hb|Hb]; [by apply Hlk|].
    unfold links. destruct (Hother b Hb) as [_ ->]; [|done].
    apply (hk_links _ _ _ HK); [|done]. rewrite in_heap_mid. by right.
Qed.
End Heap.
