(* ===== verification/LiballocOps.v ===== *)
(** * libc/liballoc/liballoc.c: the steps of malloc and free

    What each helper does to the chains of blocks: taking a block out of the lists,
    putting it back, merging with a neighbour, splitting. *)

From stdpp Require Import functions.
From S2P Require Import Prelude Cstring Liballoc LiballocList LiballocHeap.

Definition set_st (st : bstate) (b : blk) : blk := Blk (b_at b) (b_len b) st.

Lemma cseg_mid tg l k1 b k2 r :
  cseg tg l (k1 ++ b :: k2) r <->
  cseg tg l k1 (b_at b) /\ tag_ok tg b (last_at l k1) (first_at k2 r) /\ cseg tg (b_at b) k2 r.
Proof. rewrite cseg_app. simpl. unfold first_at at 1. simpl. tauto. Qed.

Lemma contig_mid a k1 b k2 :
  contig a (k1 ++ b :: k2) <->
  contig a k1 /\ b_at b = a + total k1 /\ blk_ok b /\ contig (b_at b + b_len b) k2.
Proof. rewrite contig_app. simpl. split; intros (? & <- & ? & ?) || intros (? & ? & ? & ?); simplify_eq; tauto. Qed.

Lemma sep_weaken p c : sep p c -> sep false c.
Proof. destruct c as [|b c]; simpl; [done|]. tauto. Qed.

Lemma sep_mid p k1 b k2 :
  sep p (k1 ++ b :: k2) <-> sep p k1 /\ last_free p k1 && is_free b = false /\ sep (is_free b) k2.
Proof. rewrite sep_app. done. Qed.

Lemma first_at_mid k1 b b' k2 r : b_at b' = b_at b -> first_at (k1 ++ b' :: k2) r = first_at (k1 ++ b :: k2) r.
Proof. intros E. destruct k1; unfold first_at; simpl; congruence. Qed.

Lemma total_mid k1 b b' k2 : b_len b' = b_len b -> total (k1 ++ b' :: k2) = total (k1 ++ b :: k2).
Proof. intros E. rewrite !total_app. simpl. lia. Qed.

(** Membership in the lists after a removal and after an insertion. *)
Lemma lists_remove tg hs F i L1 a L2 j x :
  lists_ok tg hs F -> F i = L1 ++ a :: L2 ->
  x ∈ (<[i := L1 ++ L2]> F : Z -> list Z) j <-> x ∈ F j /\ x <> a.
Proof.
  intros HL HF. pose proof (lo_nodup _ _ _ HL i) as Hnd. rewrite HF in Hnd.
  apply NoDup_app in Hnd as (_ & Hdis & [Ha2 _]%NoDup_cons).
  assert (a ∈ F i) as Hai by (rewrite HF, elem_of_app, elem_of_cons; tauto).
  destruct (decide (j = i)) as [->|Hne].
  - rewrite fn_lookup_insert, HF, !elem_of_app, elem_of_cons. split.
    + intros [Hx|Hx]; (split; [tauto|]); intros ->; [apply (Hdis a Hx); left|done].
    + intros [[?|[?|?]] ?]; tauto.
  - rewrite fn_lookup_insert_ne by done. split; [|tauto]. intros Hx. split; [done|].
    intros ->. apply Hne. by eapply lists_disjoint.
Qed.

Lemma lists_insert (F : Z -> list Z) i a j x :
  x ∈ (<[i := a :: F i]> F : Z -> list Z) j <-> x ∈ F j \/ j = i /\ x = a.
Proof.
  destruct (decide (j = i)) as [->|Hne].
  - rewrite fn_lookup_insert, elem_of_cons. tauto.
  - rewrite fn_lookup_insert_ne by done. tauto.
Qed.

Section Ops.
Context {PS : Type} `{PageSourceLaws PS}.
Implicit Types (s : la_state PS) (C : list chain) (c k : chain) (F : Z -> list Z) (b : blk).

(** The chain around a block. *)
Lemma mid_in C1 k1 b k2 C2 : in_heap (C1 ++ (k1 ++ b :: k2) :: C2) b.
Proof. rewrite in_heap_mid. left. rewrite elem_of_app, elem_of_cons. tauto. Qed.

Lemma mid_chain s C1 c C2 F : heap_ok s (C1 ++ c :: C2) F -> chain_ok (source s) (tags s) c.
Proof. intros HK. apply (hk_chains _ _ _ HK). rewrite elem_of_app, elem_of_cons. tauto. Qed.

Lemma mid_tag s C1 k1 b k2 C2 F :
  heap_ok s (C1 ++ (k1 ++ b :: k2) :: C2) F -> tag_ok (tags s) b (last_at 0 k1) (first_at k2 0).
Proof. intros HK. by apply mid_chain, co_tags, cseg_mid in HK as (_ & ? & _). Qed.

(** The blocks of a chain other than [b] have other addresses. *)
Lemma mid_other s C1 k1 b k2 C2 F b' :
  heap_ok s (C1 ++ (k1 ++ b :: k2) :: C2) F ->
  b' ∈ k1 \/ b' ∈ k2 \/ in_heap (C1 ++ C2) b' -> b_at b' <> b_at b.
Proof.
  intros HK Hb' He.
  assert (in_heap (C1 ++ (k1 ++ b :: k2) :: C2) b') as Hin
    by (rewrite in_heap_mid, elem_of_app, elem_of_cons; tauto).
  pose proof (heap_unique _ _ _ _ _ HK Hin (mid_in _ _ _ _ _) He) as ->.
  pose proof (mid_chain _ _ _ _ _ HK) as Hc.
  pose proof (co_contig _ _ _ Hc) as (H1 & Ha & Hok & H2)%contig_mid.
  pose proof (blk_ok_len _ Hok).
  destruct Hb' as [Hb|[Hb|(c & Hc' & Hb)]].
  - destruct (contig_bounds _ _ _ H1 Hb) as (? & ? & _). lia.
  - destruct (contig_bounds _ _ _ H2 Hb) as (? & ? & _). lia.
  - (* another chain would cover the same bytes *)
    assert (c ∈ C1 ++ (k1 ++ b :: k2) :: C2) as Hc2.
    { rewrite elem_of_app, elem_of_cons. rewrite elem_of_app in Hc'. tauto. }
    pose proof (hk_chains _ _ _ HK _ Hc2) as Hcc.
    destruct (chain_bounds _ _ _ _ Hcc Hb) as (_ & B1 & B2 & _).
    assert (b ∈ k1 ++ b :: k2) as Hbm by (rewrite elem_of_app, elem_of_cons; tauto).
    destruct (chain_bounds _ _ _ _ Hc Hbm) as (_ & B3 & B4 & _).
    destruct (co_region _ _ _ Hcc) as (n & Hr & Ht & _).
    destruct (co_region _ _ _ Hc) as (n' & Hr' & Ht' & _).
    destruct (region_disjoint _ _ _ _ _ (hk_source _ _ _ HK) Hr Hr') as [Heq|Hd];
      [|unfold base in *; lia].
    pose proof (hk_bases _ _ _ HK) as Hnd. rewrite fmap_app, fmap_cons in Hnd.
    apply NoDup_app in Hnd as (_ & Hd1 & [Hd2 _]%NoDup_cons).
    assert (base c = base (k1 ++ b :: k2)) as Hbase by exact Heq.
    apply elem_of_app in Hc' as [Hin1|Hin2].
    + apply (Hd1 (base c)); [by apply list_elem_of_fmap_2|]. rewrite Hbase. left.
    + apply Hd2. rewrite <- Hbase. by apply list_elem_of_fmap_2.
Qed.

(** Changing the state of one block. *)
Lemma mid_replace s C1 k1 b k2 C2 F st tg hs F' :
  heap_ok s (C1 ++ (k1 ++ b :: k2) :: C2) F -> blk_ok (set_st st b) ->
  lists_ok tg hs F' ->
  (forall x, x <> b_at b -> like (tags s !! x) (tg !! x)) ->
  (forall x, x <> b_at b -> (forall i, x ∉ F i) -> tg !! x = tags s !! x) ->
  tag_ok tg (set_st st b) (last_at 0 k1) (first_at k2 0) ->
  sep false (k1 ++ set_st st b :: k2) ->
  (st <> Free -> links tg (b_at b) = Some (0, 0)) ->
  (forall j x, x ∈ F' j <-> x ∈ F j /\ x <> b_at b \/ st = Free /\ x = b_at b /\ j = expo (b_len b)) ->
  heap_ok (with_tags tg (with_free hs s)) (C1 ++ (k1 ++ set_st st b :: k2) :: C2) F'.
Proof.
  intros HK Hok HL Hlike Hsame Htag Hsep Hlk HF.
  pose proof (fun b' => mid_other _ _ _ _ _ _ _ b' HK) as Hoth.
  pose proof (mid_chain _ _ _ _ _ HK) as Hc.
  apply (heap_replace s C1 (k1 ++ b :: k2) C2 F); try done.
  - intros b0 Hb0. pose proof (Hoth b0 ltac:(tauto)) as Hne. split; [by apply Hlike|].
    intros Hst. apply Hsame; [done|]. intros i. apply (not_in_lists s (C1 ++ (k1 ++ b :: k2) :: C2) F); try done.
    rewrite in_heap_mid. by right.
  - by apply first_at_mid.
  - by apply total_mid.
  - pose proof (co_contig _ _ _ Hc) as Hcon. apply contig_mid in Hcon as (? & ? & ? & ?).
    apply contig_mid. done.
  - apply cseg_mid. pose proof (co_tags _ _ _ Hc) as (S1 & _ & S2)%cseg_mid.
    split; [eapply cseg_like; [|exact S1]|split; [done|eapply cseg_like; [|exact S2]]];
      intros b0 Hb0; apply Hlike, Hoth; tauto.
  - intros b0 Hb0 Hst. rewrite elem_of_app, elem_of_cons in Hb0.
    assert (b0 = set_st st b \/ b0 ∈ k1 \/ b0 ∈ k2) as [->|Hb] by tauto; [by apply Hlk|].
    unfold links. rewrite Hsame.
    + apply (hk_links _ _ _ HK); [|done]. rewrite in_heap_mid, elem_of_app, elem_of_cons. tauto.
    + apply Hoth. tauto.
    + intros i. apply (not_in_lists s (C1 ++ (k1 ++ b :: k2) :: C2) F); try done.
      rewrite in_heap_mid, elem_of_app, elem_of_cons. tauto.
  - intros i a. rewrite HF, (hk_free _ _ _ HK). split.
    + intros [[(b0 & Hb0 & Hf & He & Hx) Hne]|(-> & -> & ->)].
      * rewrite in_heap_mid, elem_of_app, elem_of_cons in Hb0.
        destruct Hb0 as [[Hb0|[->|Hb0]]|Hb0]; [right|congruence|right|left]; exists b0;
          rewrite ?elem_of_app, ?elem_of_cons; tauto.
      * right. exists (set_st Free b). rewrite elem_of_app, elem_of_cons. tauto.
    + intros [(b0 & Hb0 & Hf & <- & <-)|(b0 & Hb0 & Hf & <- & <-)].
      * left. split; [|apply Hoth; tauto]. exists b0. rewrite in_heap_mid. tauto.
      * rewrite elem_of_app, elem_of_cons in Hb0.
        assert (b0 = set_st st b \/ b0 ∈ k1 \/ b0 ∈ k2) as [->|Hb] by tauto.
        -- right. by simpl in Hf.
        -- left. split; [|apply Hoth; tauto]. exists b0.
           rewrite in_heap_mid, elem_of_app, elem_of_cons. tauto.
Qed.

(** [remove_tag] takes a free block out of the lists. *)
Lemma take_ok s C1 k1 b k2 C2 F :
  heap_ok s (C1 ++ (k1 ++ b :: k2) :: C2) F -> b_st b = Free ->
  wp (remove_tag (b_at b)) s (fun _ s' => exists tg hs F', s' = with_tags tg (with_free hs s) /\
    heap_ok s' (C1 ++ (k1 ++ set_st Limbo b :: k2) :: C2) F').
Proof.
  intros HK Hst. pose proof (mid_tag _ _ _ _ _ _ _ HK) as (t & Ht & T1 & T2 & T3 & T4 & T5).
  assert (b_at b ∈ F (expo (b_len b))) as Hin.
  { apply (hk_free _ _ _ HK). exists b. split; [apply mid_in|done]. }
  apply list_elem_of_split in Hin as (L1 & L2 & HF).
  eapply wp_mono; [eapply remove_tag_ok; [apply HK|exact HF|exact Ht]|].
  intros [] s' (tg & hs & -> & HL & Hta & Hlike & Hsame).
  eexists tg, hs, _. split; [done|].
  pose proof (mid_chain _ _ _ _ _ HK) as Hc.
  eapply (mid_replace s C1 k1 b k2 C2 F Limbo); try done.
  - pose proof (co_contig _ _ _ Hc) as (_ & _ & [? _] & _)%contig_mid. done.
  - intros x Hx Hni. apply Hsame, Hni.
  - exists (set_index (-1) (unlinked t)). by destruct t.
  - pose proof (co_sep _ _ _ Hc) as (S1 & _ & S2)%sep_mid. apply sep_mid.
    split; [done|]. rewrite andb_false_r. split; [done|]. by eapply sep_weaken.
  - intros _. unfold links. rewrite Hta. by destruct t.
  - intros j x. rewrite (lists_remove (tags s) (l_freePages s) F _ L1 (b_at b) L2) by (done || apply HK).
    split; [by left|]. by intros [?|[? _]].
Qed.

(** Forgetting the size of a used block changes no state. *)
Lemma limbo_ok s C1 k1 b k2 C2 F n :
  heap_ok s (C1 ++ (k1 ++ b :: k2) :: C2) F -> b_st b = Used n ->
  heap_ok s (C1 ++ (k1 ++ set_st Limbo b :: k2) :: C2) F.
Proof.
  intros HK Hst. pose proof (mid_tag _ _ _ _ _ _ _ HK) as (t & Ht & T1 & T2 & T3 & T4 & T5).
  pose proof (mid_chain _ _ _ _ _ HK) as Hc.
  assert (s = with_tags (tags s) (with_free (l_freePages s) s)) as Hs by by destruct s.
  rewrite Hs. eapply (mid_replace s C1 k1 b k2 C2 F Limbo); try done.
  - pose proof (co_contig _ _ _ Hc) as (_ & _ & [? _] & _)%contig_mid. done.
  - apply HK.
  - exists t. split_and!; try done. unfold state_ok in *. rewrite Hst in T5. simpl. tauto.
  - pose proof (co_sep _ _ _ Hc) as (S1 & _ & S2)%sep_mid. apply sep_mid.
    split; [done|]. rewrite andb_false_r. split; [done|]. by eapply sep_weaken.
  - intros _. apply (hk_links _ _ _ HK); [apply mid_in|]. by rewrite Hst.
  - intros j x. split; [|intros [[? _]|[? _]]; done]. intros Hx. left. split; [done|]. intros ->.
    revert Hx. apply (not_in_lists s _ F _ _ HK (mid_in _ _ _ _ _)). by rewrite Hst.
Qed.

(** Assigning the requested size. *)
Lemma set_size_ok s C1 k1 b k2 C2 F n :
  heap_ok s (C1 ++ (k1 ++ b :: k2) :: C2) F -> b_st b = Limbo ->
  0 <= n -> n + sizeof_tag <= b_len b ->
  wp (upd_tag (b_at b) (set_tsize n)) s (fun _ s' => exists tg,
    s' = with_tags tg (with_free (l_freePages s) s) /\
    heap_ok s' (C1 ++ (k1 ++ set_st (Used n) b :: k2) :: C2) F).
Proof.
  intros HK Hst Hn0 Hn. pose proof (mid_tag _ _ _ _ _ _ _ HK) as (t & Ht & T1 & T2 & T3 & T4 & T5).
  pose proof (mid_chain _ _ _ _ _ HK) as Hc.
  assert (forall i, b_at b ∉ F i) as Hni.
  { intros i. apply (not_in_lists s _ F _ _ HK (mid_in _ _ _ _ _)). by rewrite Hst. }
  assert (forall x, <[b_at b := set_tsize n t]> (tags s) !! x = tags s !! x \/ x = b_at b) as Hx.
  { intros x. destruct (decide (x = b_at b)); [by right|left; by rewrite lookup_insert_ne]. }
  eapply wp_upd_tag; [done|]. eexists. split; [by destruct s|].
  replace (with_tags _ s) with (with_tags (<[b_at b := set_tsize n t]> (tags s)) (with_free (l_freePages s) s))
    by by destruct s.
  eapply (mid_replace s C1 k1 b k2 C2 F (Used n)).
  - exact HK.
  - split; [|done]. pose proof (co_contig _ _ _ Hc) as (_ & _ & [? _] & _)%contig_mid. done.
  - pose proof (hk_lists _ _ _ HK) as [L1 L2 L3]. split; [|done|].
    + intros i Hi. destruct (L1 i Hi) as (hd & Hhd & Hf). exists hd. split; [done|].
      eapply flist_ext; [|done]. intros x Hxi. unfold links.
      destruct (Hx x) as [->| ->]; [done|]. by destruct (Hni i).
    + intros i x Hxi. destruct (Hx x) as [->| ->]; [by apply L3|]. by destruct (Hni i).
  - intros x Hne. destruct (Hx x) as [->| ->]; done.
  - intros x Hne _. by rewrite lookup_insert_ne.
  - exists (set_tsize n t). rewrite lookup_insert_eq. split_and!; try done.
    unfold state_ok in *. rewrite Hst in T5. by destruct t.
  - pose proof (co_sep _ _ _ Hc) as (S1 & S0 & S2)%sep_mid. apply sep_mid.
    split; [done|]. rewrite andb_false_r. split; [done|]. by eapply sep_weaken.
  - intros _. pose proof (hk_links _ _ _ HK b (mid_in _ _ _ _ _)) as Hl. rewrite Hst in Hl.
    specialize (Hl ltac:(done)). unfold links in *. rewrite Ht in Hl. rewrite lookup_insert_eq.
    by destruct t.
  - intros j x. split; [|intros [[? _]|[? _]]; done]. intros Hxj. left. split; [done|].
    intros ->. by destruct (Hni j).
Qed.

(** [insert_tag] puts a block back whose neighbours are not free. *)
Lemma put_ok s C1 k1 b k2 C2 F idx :
  heap_ok s (C1 ++ (k1 ++ b :: k2) :: C2) F -> b_st b <> Free ->
  last_free false k1 = false -> sep true k2 -> idx = expo (b_len b) \/ idx < 0 ->
  wp (insert_tag (b_at b) idx) s (fun _ s' => exists tg hs F', s' = with_tags tg (with_free hs s) /\
    heap_ok s' (C1 ++ (k1 ++ set_st Free b :: k2) :: C2) F').
Proof.
  intros HK Hst Hk1 Hk2 Hidx. pose proof (mid_tag _ _ _ _ _ _ _ HK) as (t & Ht & T1 & T2 & T3 & T4 & T5).
  pose proof (mid_chain _ _ _ _ _ HK) as Hc.
  pose proof (expo_range (b_len b)) as Hr.
  assert (insert_index t idx = expo (b_len b)) as Hii.
  { unfold insert_index. rewrite T2. destruct Hidx as [->|]; destruct (Z.ltb_spec idx 0) || destruct (Z.ltb_spec (expo (b_len b)) 0); lia || done. }
  pose proof (hk_links _ _ _ HK b (mid_in _ _ _ _ _) Hst) as Hl. unfold links in Hl. rewrite Ht in Hl. simpl in Hl.
  injection Hl as Hnx Hpv.
  assert (forall j, b_at b ∉ F j) as Hni.
  { intros j. by apply (not_in_lists s _ F _ _ HK (mid_in _ _ _ _ _)). }
  assert (b ∈ k1 ++ b :: k2) as Hbm by (rewrite elem_of_app, elem_of_cons; tauto).
  destruct (chain_bounds _ _ _ _ Hc Hbm) as (Hpos & _).
  eapply wp_mono.
  { eapply (insert_tag_ok s F (b_at b) t idx); try done; [apply HK|by rewrite Hii|lia]. }
  rewrite Hii. intros [] s' (tg & hs & -> & HL & Hta & Hlike & Hsame).
  eexists tg, hs, _. split; [done|].
  eapply (mid_replace s C1 k1 b k2 C2 F Free); try done.
  - pose proof (co_contig _ _ _ Hc) as (_ & _ & [? _] & _)%contig_mid. done.
  - intros x Hx Hnx'. by apply Hsame.
  - destruct (tg !! b_at b) as [t'|] eqn:Ht'; [|done]. exists t'. split; [done|].
    destruct t, t'. unfold unlinked in Hta. simpl in Hta. injection Hta as -> -> -> -> -> ->.
    simpl in *. done.
  - pose proof (co_sep _ _ _ Hc) as (S1 & _ & S2)%sep_mid. apply sep_mid. by rewrite Hk1.
  - intros j x. rewrite lists_insert. split.
    + intros [Hx|[-> ->]]; [left|by right]. split; [done|]. intros ->. by apply (Hni j).
    + intros [[? _]|(_ & -> & ->)]; tauto.
Qed.

(** ** Merging and splitting *)

(** Changes to tags that keep the links and the exponent. *)
Lemma lists_ok_fields tg tg' heads F :
  lists_ok tg heads F ->
  (forall i x, x ∈ F i -> (fun t => (index t, tnext t, tprev t)) <$> tg' !! x
                          = (fun t => (index t, tnext t, tprev t)) <$> tg !! x) ->
  lists_ok tg' heads F.
Proof.
  intros [L1 L2 L3] Hx. split; [|done|].
  - intros i Hi. destruct (L1 i Hi) as (hd & Hhd & Hf). exists hd. split; [done|].
    eapply flist_ext; [|done]. intros x Hxi. specialize (Hx i x Hxi). unfold links.
    destruct (tg' !! x), (tg !! x); simpl in *; congruence.
  - intros i x Hxi. destruct (L3 i x Hxi) as (Hi & t & Ht & He). split; [done|].
    specialize (Hx i x Hxi). rewrite Ht in Hx.
    destruct (tg' !! x) as [t'|]; [|done]. exists t'. simpl in Hx. split; congruence.
Qed.

(** The part of a chain behind a changed neighbour. *)
Lemma cseg_first tg tg' l l' c r :
  cseg tg l c r ->
  (forall b, b ∈ c -> head c <> Some b -> like (tg !! b_at b) (tg' !! b_at b)) ->
  (forall b, head c = Some b -> like (set_split_left l' <$> tg !! b_at b) (tg' !! b_at b)) ->
  NoDup (b_at <$> c) -> cseg tg' l' c r.
Proof.
  destruct c as [|b c]; simpl; [done|]. intros [(t & Ht & T1 & T2 & T3 & T4 & T5) Hc] Hr Hh.
  intros [Hnin Hnd]%NoDup_cons. split.
  - eapply (tag_ok_like (<[b_at b := set_split_left l' t]> tg)).
    + rewrite lookup_insert_eq. specialize (Hh b eq_refl). by rewrite Ht in Hh.
    + exists (set_split_left l' t). rewrite lookup_insert_eq. by destruct t.
  - eapply cseg_like; [|exact Hc]. intros b' Hb'. apply Hr; [by right|]. intros [= <-].
    apply Hnin. by apply list_elem_of_fmap_2.
Qed.

Lemma contig_nodup a c : contig a c -> NoDup (b_at <$> c).
Proof.
  revert a. induction c as [|b c IH]; intros a; simpl; [constructor|].
  intros (Ha & Hok & Hc). apply NoDup_cons. split; [|by eapply IH].
  intros (b' & He & Hb')%list_elem_of_fmap. destruct (contig_bounds _ _ _ Hc Hb') as (? & _).
  apply blk_ok_len in Hok. lia.
Qed.

(** Rewriting a chain without touching the lists. *)
Lemma heap_rewrite s C1 c C2 F T c' :
  heap_ok s (C1 ++ c :: C2) F ->
  (forall i x, x ∈ F i -> (fun t => (index t, tnext t, tprev t)) <$> T !! x
                          = (fun t => (index t, tnext t, tprev t)) <$> tags s !! x) ->
  (forall b, in_heap (C1 ++ C2) b -> T !! b_at b = tags s !! b_at b) ->
  first_at c' 0 = first_at c 0 -> total c' = total c ->
  contig (first_at c 0) c' -> sep false c' -> cseg T 0 c' 0 ->
  (forall b, b ∈ c' -> b_st b <> Free -> links T (b_at b) = Some (0, 0)) ->
  (forall b, b_st b = Free -> b ∈ c' <-> b ∈ c) ->
  heap_ok (with_tags T s) (C1 ++ c' :: C2) F.
Proof.
  intros HK Hx Hoth Hb Ht Hcon Hsep Hseg Hlk Hfree.
  replace (with_tags T s) with (with_tags T (with_free (l_freePages s) s)) by by destruct s.
  apply (heap_replace s C1 c C2 F); try done.
  - eapply lists_ok_fields; [apply HK|done].
  - intros b Hbi. by rewrite Hoth.
  - intros i a. rewrite (hk_free _ _ _ HK). split.
    + intros (b & Hbi & Hf & Hrest). rewrite in_heap_mid in Hbi.
      destruct Hbi as [Hbi|Hbi]; [right|left]; exists b; [rewrite Hfree by done|]; done.
    + intros [(b & Hbi & Hf & Hrest)|(b & Hbi & Hf & Hrest)]; exists b; rewrite in_heap_mid.
      * split; [by right|done].
      * split; [left; by apply Hfree|done].
Qed.

(** The tags after block [a] absorbed its right neighbour; [o] is the next block. *)
Definition joined (tg T : gmap Z boundary_tag) (a sum : Z) (o : option Z) : Prop :=
  forall x, T !! x =
    if decide (x = a) then (fun t => set_split_right (default 0 o) (set_real_size sum t)) <$> tg !! x
    else if decide (o = Some x) then set_split_left a <$> tg !! x else tg !! x.

Lemma joined_cseg tg T tg' k1 b1 b2 k2 a0 :
  contig a0 (k1 ++ b1 :: b2 :: k2) -> cseg tg 0 (k1 ++ b1 :: b2 :: k2) 0 ->
  joined tg T (b_at b1) (b_len b1 + b_len b2) (b_at <$> head k2) ->
  (forall x, x <> b_at b1 -> like (T !! x) (tg' !! x)) ->
  tag_ok tg' (Blk (b_at b1) (b_len b1 + b_len b2) Limbo) (last_at 0 k1) (first_at k2 0) ->
  cseg tg' 0 (k1 ++ Blk (b_at b1) (b_len b1 + b_len b2) Limbo :: k2) 0.
Proof.
  intros Hcon Hc HJ Hl Htag. pose proof (contig_nodup _ _ Hcon) as Hnd.
  rewrite fmap_app, !fmap_cons in Hnd.
  apply NoDup_app in Hnd as (Hnd1 & Hdis & [Hb1 [Hb2 Hnd2]%NoDup_cons]%NoDup_cons).
  apply cseg_mid in Hc as (S1 & _ & S2). cbn [cseg] in S2. destruct S2 as [_ S2].
  assert (forall b, head k2 = Some b -> b ∈ k2) as Hhead
    by (intros b Hb; destruct k2; [done|]; injection Hb as ->; left).
  assert (forall b, b ∈ k2 -> b_at b ∈ b_at <$> k2) as Hin by (intros; by apply list_elem_of_fmap_2).
  apply cseg_mid. cbn [b_at]. split; [|split; [done|]].
  - eapply cseg_like; [|exact S1]. intros b Hb.
    assert (b_at b ∈ b_at <$> k1) as Hbk by by apply list_elem_of_fmap_2.
    specialize (Hdis _ Hbk). rewrite !elem_of_cons in Hdis.
    replace (tg !! b_at b) with (T !! b_at b); [apply Hl; tauto|].
    rewrite HJ, decide_False by tauto. rewrite decide_False; [done|].
    destruct (head k2) as [b'|] eqn:E; [|done]. simpl. intros [= Heq].
    apply Hdis. right. right. rewrite <- Heq. by apply Hin, Hhead.
  - assert (forall b, b ∈ k2 -> b_at b <> b_at b1) as Hne.
    { intros b Hb He. apply Hb1. right. rewrite <- He. by apply Hin. }
    eapply (cseg_first tg tg' (b_at b2)); [exact S2|..|done].
    + intros b Hb Hh. replace (tg !! b_at b) with (T !! b_at b); [by apply Hl, Hne|].
      rewrite HJ, decide_False by by apply Hne. rewrite decide_False; [done|].
      destruct k2 as [|b' k2]; [done|]. simpl. intros [= Heq]. apply Hh. simpl. f_equal.
      apply elem_of_cons in Hb as [->|Hb]; [done|]. exfalso.
      rewrite fmap_cons in Hnd2. apply NoDup_cons in Hnd2 as [Hx _]. apply Hx.
      rewrite Heq. by apply list_elem_of_fmap_2.
    + intros b Hb. replace (set_split_left (b_at b1) <$> tg !! b_at b) with (T !! b_at b);
        [by apply Hl, Hne, Hhead|].
      rewrite HJ, decide_False by by apply Hne, Hhead. rewrite decide_True; [done|]. by rewrite Hb.
Qed.

(** The addresses of a chain occur in no other chain. *)
Lemma other_chain s C1 c C2 F b b' :
  heap_ok s (C1 ++ c :: C2) F -> in_heap (C1 ++ C2) b -> b' ∈ c -> b_at b <> b_at b'.
Proof.
  intros HK Hb (k1 & k2 & ->)%list_elem_of_split. eapply mid_other; [exact HK|tauto].
Qed.

Lemma contig_join a k1 b1 b2 k2 :
  contig a (k1 ++ b1 :: b2 :: k2) ->
  contig a (k1 ++ Blk (b_at b1) (b_len b1 + b_len b2) Limbo :: k2) /\
  b_at b2 = b_at b1 + b_len b1.
Proof.
  intros (H1 & H2 & [H3 _] & H4)%contig_mid. simpl in H4. destruct H4 as (H5 & [H6 _] & H7).
  split; [|done]. apply contig_mid. cbn [b_at b_len]. split; [done|]. split; [done|].
  unfold sizeof_tag in *. split; [split; [unfold sizeof_tag; simpl; lia|done]|].
  by replace (b_at b1 + (b_len b1 + b_len b2)) with (b_at b1 + b_len b1 + b_len b2) by lia.
Qed.

Lemma sep_join p k1 b1 b2 k2 a n :
  sep p (k1 ++ b1 :: b2 :: k2) -> sep p (k1 ++ Blk a n Limbo :: k2).
Proof.
  intros (S1 & _ & S2)%sep_mid. simpl in S2. apply sep_mid. split; [done|].
  rewrite andb_false_r. split; [done|]. by eapply sep_weaken, S2.
Qed.

Lemma join_size s C1 k1 b1 b2 k2 C2 F :
  heap_ok s (C1 ++ (k1 ++ b1 :: b2 :: k2) :: C2) F -> u32 (b_len b1 + b_len b2) = b_len b1 + b_len b2.
Proof.
  intros HK. pose proof (mid_chain _ _ _ _ _ HK) as Hc.
  assert (b1 ∈ k1 ++ b1 :: b2 :: k2 /\ b2 ∈ k1 ++ b1 :: b2 :: k2) as [Hb1 Hb2]
    by (rewrite !elem_of_app, !elem_of_cons; tauto).
  destruct (chain_bounds _ _ _ _ Hc Hb1) as (B0 & B1 & B2 & B3 & Ok1%blk_ok_len).
  destruct (chain_bounds _ _ _ _ Hc Hb2) as (_ & B4 & B5 & _ & Ok2%blk_ok_len).
  pose proof (contig_join _ _ _ _ _ (co_contig _ _ _ Hc)) as [_ He].
  apply wrap_small. unfold in_width. lia.
Qed.

(** The next block, if any, lies at a non-zero address and has a tag. *)
Lemma next_present s C1 k1 b1 b2 k2 C2 F x :
  heap_ok s (C1 ++ (k1 ++ b1 :: b2 :: k2) :: C2) F -> b_at <$> head k2 = Some x ->
  x <> 0 /\ is_Some (tags s !! x) /\ b_at b1 <> x /\ b_at b2 <> x.
Proof.
  intros HK Hx. pose proof (mid_chain _ _ _ _ _ HK) as Hc.
  destruct k2 as [|b' k2]; [done|]. injection Hx as <-.
  assert (b' ∈ k1 ++ b1 :: b2 :: b' :: k2) as Hb' by (rewrite elem_of_app, !elem_of_cons; tauto).
  destruct (chain_bounds _ _ _ _ Hc Hb') as (Hpos & _).
  destruct (cseg_present _ _ _ _ _ (co_tags _ _ _ Hc) Hb') as (t & Ht).
  pose proof (contig_nodup _ _ (co_contig _ _ _ Hc)) as Hnd.
  rewrite fmap_app, !fmap_cons in Hnd.
  apply NoDup_app in Hnd as (_ & _ & [Hn1 [Hn2 _]%NoDup_cons]%NoDup_cons).
  rewrite !not_elem_of_cons in *. split; [lia|]. split; [by exists t|]. tauto.
Qed.

Lemma pair_distinct s C1 k1 b1 b2 k2 C2 F :
  heap_ok s (C1 ++ (k1 ++ b1 :: b2 :: k2) :: C2) F -> b_at b2 <> b_at b1.
Proof.
  intros HK. eapply (mid_other s C1 k1 b1 (b2 :: k2)); [exact HK|]. right. left. left.
Qed.

Lemma second_tag s C1 k1 b1 b2 k2 C2 F :
  heap_ok s (C1 ++ (k1 ++ b1 :: b2 :: k2) :: C2) F ->
  tag_ok (tags s) b2 (b_at b1) (first_at k2 0).
Proof.
  intros HK. change (b1 :: b2 :: k2) with ([b1] ++ b2 :: k2) in HK. rewrite app_assoc in HK.
  apply mid_tag in HK. by rewrite last_at_snoc in HK.
Qed.

(** Tags of other blocks are not touched by a join. *)
Lemma joined_other s C1 k1 b1 b2 k2 C2 F T sum b0 :
  heap_ok s (C1 ++ (k1 ++ b1 :: b2 :: k2) :: C2) F -> in_heap (C1 ++ C2) b0 ->
  joined (tags s) T (b_at b1) sum (b_at <$> head k2) -> T !! b_at b0 = tags s !! b_at b0.
Proof.
  intros HK Hb0 HJ. rewrite HJ, decide_False, decide_False; [done|..].
  - destruct k2 as [|b3 k2]; [done|]. intros [= He]. symmetry in He. revert He.
    eapply other_chain; [exact HK|done|]. rewrite elem_of_app, !elem_of_cons. tauto.
  - eapply other_chain; [exact HK|done|]. rewrite elem_of_app, !elem_of_cons. tauto.
Qed.

Lemma joined_fields tg T a sum o x :
  joined tg T a sum o ->
  (fun t => (index t, tnext t, tprev t)) <$> T !! x = (fun t => (index t, tnext t, tprev t)) <$> tg !! x.
Proof. intros HJ. rewrite HJ. repeat case_decide; try done; by destruct (tg !! x). Qed.

Lemma joined_links tg T a sum o x : joined tg T a sum o -> links T x = links tg x.
Proof. intros HJ. unfold links. rewrite HJ. repeat case_decide; try done; by destruct (tg !! x). Qed.

(** Joining two blocks that are in no list. *)
Lemma heap_join s C1 k1 b1 b2 k2 C2 F T :
  heap_ok s (C1 ++ (k1 ++ b1 :: b2 :: k2) :: C2) F -> b_st b1 = Limbo -> b_st b2 = Limbo ->
  joined (tags s) T (b_at b1) (b_len b1 + b_len b2) (b_at <$> head k2) ->
  heap_ok (with_tags T s) (C1 ++ (k1 ++ Blk (b_at b1) (b_len b1 + b_len b2) Limbo :: k2) :: C2) F.
Proof.
  intros HK Hst1 Hst2 HJ. pose proof (mid_chain _ _ _ _ _ HK) as Hc.
  pose proof (mid_tag _ _ _ _ _ _ _ HK) as (t & Ht & A1 & A2 & A3 & A4 & A5).
  apply (heap_rewrite s C1 (k1 ++ b1 :: b2 :: k2) C2 F); try done.
  - intros i x _. by eapply joined_fields.
  - intros b0 Hb0. by eapply joined_other.
  - by destruct k1.
  - rewrite !total_app. simpl. lia.
  - by apply contig_join, Hc.
  - apply (sep_join _ _ b1 b2). apply Hc.
  - eapply (joined_cseg (tags s) T T k1 b1 b2 k2); [apply Hc|apply Hc|done|done|].
    exists (set_split_right (default 0 (b_at <$> head k2)) (set_real_size (b_len b1 + b_len b2) t)).
    split; [cbn [b_at]; by rewrite HJ, decide_True, Ht|].
    unfold state_ok in *. rewrite Hst1 in A5. by destruct t.
  - intros b0 Hb0 Hst0. rewrite (joined_links _ _ _ _ _ _ HJ).
    rewrite elem_of_app, elem_of_cons in Hb0.
    destruct Hb0 as [Hb0|[->|Hb0]]; [|apply (hk_links _ _ _ HK b1); [apply mid_in|by rewrite Hst1]|];
      (apply (hk_links _ _ _ HK); [|done]); rewrite in_heap_mid, elem_of_app, !elem_of_cons; tauto.
  - intros b0 Hf. rewrite !elem_of_app, !elem_of_cons. split; [|].
    + intros [?|[->|?]]; [tauto|done|tauto].
    + intros [?|[->|[->|?]]]; [tauto|congruence|congruence|tauto].
Qed.

(** [absorb_right] merges a block with the free block behind it. *)
Lemma absorb_right_ok s C1 k1 b r k2 C2 F :
  heap_ok s (C1 ++ (k1 ++ b :: r :: k2) :: C2) F -> b_st b = Limbo -> b_st r = Free ->
  wp (absorb_right (b_at b)) s (fun x s' => x = b_at b /\ exists tg hs F',
    s' = with_tags tg (with_free hs s) /\
    heap_ok s' (C1 ++ (k1 ++ Blk (b_at b) (b_len b + b_len r) Limbo :: k2) :: C2) F').
Proof.
  intros HK Hst Hr. pose proof (mid_tag _ _ _ _ _ _ _ HK) as (t0 & Ht0 & _ & _ & _ & T4 & _).
  unfold absorb_right. wp_step. eapply wp_tag_at; [exact Ht0|]. rewrite T4.
  change (first_at (r :: k2) 0) with (b_at r). wp_step. eapply wp_mono.
  { apply (take_ok s C1 (k1 ++ [b]) r k2 C2 F); [by rewrite <- app_assoc|done]. }
  intros [] s1 (tg1 & hs & F' & Hs1 & HK1). rewrite <- app_assoc in HK1. cbn [app] in HK1.
  pose proof (mid_tag _ _ _ _ _ _ _ HK1) as (t & Ht & _ & A2 & _ & _ & _).
  pose proof (second_tag _ _ _ _ _ _ _ _ HK1) as (tr & Htr & _ & B2 & _ & B4 & _).
  pose proof (pair_distinct _ _ _ _ _ _ _ _ HK1) as Hne.
  pose proof (fun x => next_present _ _ _ _ _ _ _ _ x HK1) as Hnext.
  pose proof (join_size _ _ _ _ _ _ _ _ HK1) as Hsz.
  cbn [b_len b_at set_st] in Hsz, Hne, Hnext, B2, Htr.
  wp_step. eapply wp_tag_at; [exact Htr|]. wp_step. eapply wp_upd_tag; [exact Ht|].
  wp_step. eapply wp_tag_at; [cbn [tags with_tags]; by rewrite lookup_insert_ne|].
  wp_step. eapply wp_upd_tag; [cbn [tags with_tags]; apply lookup_insert_eq|].
  wp_step. eapply wp_tag_at; [cbn [tags with_tags]; rewrite !lookup_insert_ne by done; exact Htr|].
  rewrite B4, A2, B2, Hsz. wp_step. unfold first_at. apply wp_upd_opt.
  { intros x Hx. destruct (Hnext x Hx) as (N1 & N2 & N3 & N4). split; [done|].
    cbn [tags with_tags]. by rewrite !lookup_insert_ne. }
  intros T HT. cbn [tags with_tags] in HT. wp_step. split; [done|].
  exists T, hs, F'. split; [by rewrite Hs1|].
  change (with_tags T _) with (with_tags T s1).
  apply (heap_join s1 C1 k1 b (set_st Limbo r) k2 C2 F'); try done.
  intros x. rewrite HT. cbn [b_len set_st]. destruct (decide (x = b_at b)) as [->|Hx].
  - rewrite Ht, insert_insert_eq, lookup_insert_eq, decide_False; [done|].
    by intros (_ & _ & N & _)%Hnext.
  - by rewrite !lookup_insert_ne.
Qed.

(** The tags after [melt_left]. *)
Lemma melt_left_ok s C1 k1 l b k2 C2 F :
  heap_ok s (C1 ++ (k1 ++ l :: b :: k2) :: C2) F ->
  wp (melt_left (b_at b)) s (fun x s' => x = b_at l /\ exists T, s' = with_tags T s /\
    joined (tags s) T (b_at l) (b_len l + b_len b) (b_at <$> head k2)).
Proof.
  intros HK. pose proof (mid_tag _ _ _ _ _ _ _ HK) as (tl & Htl & A1 & A2 & A3 & A4 & A5).
  pose proof (second_tag _ _ _ _ _ _ _ _ HK) as (tb & Htb & _ & B2 & B3 & B4 & _).
  pose proof (pair_distinct _ _ _ _ _ _ _ _ HK) as Hne.
  pose proof (fun x => next_present _ _ _ _ _ _ _ _ x HK) as Hnext.
  pose proof (join_size _ _ _ _ _ _ _ _ HK) as Hsz.
  unfold melt_left. wp_step. eapply wp_tag_at; [exact Htb|]. rewrite B3.
  wp_step. eapply wp_upd_tag; [exact Htl|].
  wp_step. eapply wp_tag_at; [cbn [tags with_tags]; by rewrite lookup_insert_ne|].
  wp_step. eapply wp_upd_tag; [cbn [tags with_tags]; apply lookup_insert_eq|].
  wp_step. eapply wp_tag_at; [cbn [tags with_tags]; rewrite !lookup_insert_ne by done; exact Htb|].
  rewrite B4, A2, B2, Hsz. wp_step. unfold first_at. apply wp_upd_opt.
  { intros x Hx. destruct (Hnext x Hx) as (N1 & N2 & N3 & N4). split; [done|].
    cbn [tags with_tags]. by rewrite !lookup_insert_ne. }
  intros T HT. cbn [tags with_tags] in HT. wp_step.
  split; [done|]. exists T. split; [done|].
  intros x. rewrite HT. destruct (decide (x = b_at l)) as [->|Hx].
  - rewrite Htl, insert_insert_eq, lookup_insert_eq, decide_False; [done|].
    by intros (_ & _ & N & _)%Hnext.
  - by rewrite !lookup_insert_ne.
Qed.

(** The blocks that are listed when the left one [l] is not any more. *)
Lemma melt_listed s C1 k1 l b k2 C2 F blk i x :
  heap_ok s (C1 ++ (k1 ++ l :: b :: k2) :: C2) F -> b_st b = Limbo -> b_st blk = Limbo ->
  ((exists b0, in_heap (C1 ++ (k1 ++ l :: b :: k2) :: C2) b0 /\ b_st b0 = Free /\ b_at b0 = x /\ expo (b_len b0) = i) /\
    x <> b_at l) <->
  (exists b0, in_heap (C1 ++ C2) b0 /\ b_st b0 = Free /\ b_at b0 = x /\ expo (b_len b0) = i) \/
  (exists b0, b0 ∈ k1 ++ blk :: k2 /\ b_st b0 = Free /\ b_at b0 = x /\ expo (b_len b0) = i).
Proof.
  intros HK Hst Hblk. split.
  - intros [(b0 & Hb0 & Hf & Hx & Hi) Hnx]. rewrite in_heap_mid, elem_of_app, !elem_of_cons in Hb0.
    destruct Hb0 as [[Hb0|[->|[->|Hb0]]]|Hb0]; [right|congruence|congruence|right|left];
      exists b0; rewrite ?elem_of_app, ?elem_of_cons; tauto.
  - intros [(b0 & Hb0 & Hf & <- & <-)|(b0 & Hb0 & Hf & <- & <-)].
    + split; [|eapply mid_other; [exact HK|tauto]]. exists b0. rewrite in_heap_mid. tauto.
    + rewrite elem_of_app, elem_of_cons in Hb0. destruct Hb0 as [Hb0|[->|Hb0]]; [|congruence|];
        (split; [exists b0; rewrite in_heap_mid, elem_of_app, !elem_of_cons; tauto|]);
        (eapply mid_other; [exact HK|]); rewrite ?elem_of_cons; tauto.
Qed.

(** [melt_left], followed by the removal of the left block from its list. *)
Lemma melt_ok s C1 k1 l b k2 C2 F :
  heap_ok s (C1 ++ (k1 ++ l :: b :: k2) :: C2) F -> b_st l = Free -> b_st b = Limbo ->
  wp (tag ← melt_left (b_at b); _ ← remove_tag tag; mret tag) s (fun x s' =>
    x = b_at l /\ exists tg hs F', s' = with_tags tg (with_free hs s) /\
    heap_ok s' (C1 ++ (k1 ++ Blk (b_at l) (b_len l + b_len b) Limbo :: k2) :: C2) F').
Proof.
  intros HK Hl Hst. pose proof (mid_chain _ _ _ _ _ HK) as Hc.
  pose proof (mid_tag _ _ _ _ _ _ _ HK) as (tl & Htl & A1 & A2 & A3 & A4 & A5).
  wp_step. eapply wp_mono; [by eapply melt_left_ok|]. intros ? ? (-> & T & -> & HJ).
  assert (b_at l ∈ F (expo (b_len l))) as Hin.
  { apply (hk_free _ _ _ HK). exists l. split; [apply mid_in|done]. }
  apply list_elem_of_split in Hin as (L1 & L2 & HF).
  wp_step. eapply wp_mono.
  { eapply remove_tag_ok; [|exact HF|cbn [tags with_tags]; by rewrite HJ, decide_True, Htl].
    eapply lists_ok_fields; [apply HK|]. intros i x _. by eapply joined_fields. }
  intros [] s' (tg & hs & -> & HL & Htg & Hlike & Hsame). cbn [tags with_tags] in *.
  wp_step. split; [done|]. eexists tg, hs, _. split; [done|].
  change (with_tags tg _) with (with_tags tg (with_free hs s)).
  assert (forall b0, in_heap (C1 ++ (k1 ++ l :: b :: k2) :: C2) b0 -> b_st b0 <> Free ->
    tg !! b_at b0 = T !! b_at b0) as Hnf.
  { intros b0 Hb0 Hst0. apply Hsame. by apply (not_in_lists _ _ _ _ _ HK). }
  apply (heap_replace s C1 (k1 ++ l :: b :: k2) C2 F); try done.
  - intros b0 Hb0. assert (b_at b0 <> b_at l) as Hn0 by (eapply mid_other; [exact HK|tauto]).
    split.
    + rewrite <- (joined_other _ _ _ _ _ _ _ _ _ _ _ HK Hb0 HJ). by apply Hlike.
    + intros Hst0. rewrite Hnf; [by eapply joined_other| |done]. rewrite in_heap_mid. by right.
  - by destruct k1.
  - rewrite !total_app. simpl. lia.
  - by apply contig_join, Hc.
  - apply (sep_join _ _ l b). apply Hc.
  - eapply (joined_cseg (tags s) T tg k1 l b k2); [apply Hc|apply Hc|done|exact Hlike|].
    eexists. split; [exact Htg|]. by destruct tl.
  - intros b0 Hb0 Hst0. rewrite elem_of_app, elem_of_cons in Hb0.
    destruct (decide (b0 = Blk (b_at l) (b_len l + b_len b) Limbo)) as [->|Hn0].
    + unfold links. cbn [b_at]. rewrite Htg. by destruct tl.
    + assert (in_heap (C1 ++ (k1 ++ l :: b :: k2) :: C2) b0) as Hin
        by (rewrite in_heap_mid, elem_of_app, !elem_of_cons; tauto).
      unfold links. rewrite Hnf by done. fold (links T (b_at b0)).
      rewrite (joined_links _ _ _ _ _ _ HJ). by apply (hk_links _ _ _ HK).
  - intros i x. rewrite (lists_remove (tags s) (l_freePages s) F _ L1 (b_at l) L2) by (done || apply HK).
    rewrite (hk_free _ _ _ HK). by eapply melt_listed.
Qed.

(** An address inside a block is the address of no other block. *)
Lemma inside_fresh s C F b b0 v :
  heap_ok s C F -> in_heap C b -> in_heap C b0 -> b0 <> b ->
  b_at b < v < b_at b + b_len b -> b_at b0 <> v.
Proof.
  intros HK Hb Hb0 Hne Hv. destruct (heap_disjoint _ _ _ _ _ HK Hb Hb0) as [?|Hd]; [by subst|].
  destruct Hb0 as (c & Hc & Hin).
  destruct (chain_bounds _ _ _ _ (hk_chains _ _ _ HK _ Hc) Hin) as (_ & _ & _ & _ & Hok%blk_ok_len).
  lia.
Qed.

(** The tags after the excess [v] of block [a] was cut off. *)
Definition cut (tg T : gmap Z boundary_tag) (a v len : Z) (o : option Z) : Prop :=
  exists tn, magic tn = LIBALLOC_MAGIC /\ real_size tn = len /\ split_left tn = a /\
    split_right tn = default 0 o /\ tnext tn = 0 /\ tprev tn = 0 /\
  forall x, T !! x =
    if decide (x = a) then (fun t => set_real_size (v - a) (set_split_right v t)) <$> tg !! x
    else if decide (x = v) then Some tn
    else if decide (o = Some x) then set_split_left v <$> tg !! x else tg !! x.

Lemma next_of s C1 k1 b k2 C2 F x :
  heap_ok s (C1 ++ (k1 ++ b :: k2) :: C2) F -> b_at <$> head k2 = Some x ->
  x <> 0 /\ is_Some (tags s !! x) /\ x = b_at b + b_len b.
Proof.
  intros HK Hx. pose proof (mid_chain _ _ _ _ _ HK) as Hc.
  destruct k2 as [|b' k2]; [done|]. injection Hx as <-.
  assert (b' ∈ k1 ++ b :: b' :: k2) as Hb' by (rewrite elem_of_app, !elem_of_cons; tauto).
  destruct (chain_bounds _ _ _ _ Hc Hb') as (Hpos & _).
  split; [lia|]. split.
  - destruct (cseg_present _ _ _ _ _ (co_tags _ _ _ Hc) Hb') as (t & Ht). by exists t.
  - pose proof (co_contig _ _ _ Hc) as (_ & _ & _ & He & _)%contig_mid. done.
Qed.

Section Cut.
Context s C1 k1 b k2 C2 F (n : Z) (T : gmap Z boundary_tag).
Hypothesis (HK : heap_ok s (C1 ++ (k1 ++ b :: k2) :: C2) F).
Hypothesis (Hst : b_st b = Used n).
Hypothesis (Hn : n + 2 * sizeof_tag <= b_len b).
Hypothesis (Hcut : cut (tags s) T (b_at b) (b_at b + sizeof_tag + n) (b_len b - sizeof_tag - n) (b_at <$> head k2)).

(** The parts of the block. *)
Lemma cut_used : 0 <= n.
Proof.
  pose proof (co_contig _ _ _ (mid_chain _ _ _ _ _ HK)) as (_ & _ & [_ Q] & _)%contig_mid. rewrite Hst in Q. apply Q.
Qed.

Lemma cut_fresh b0 :
  in_heap (C1 ++ (k1 ++ b :: k2) :: C2) b0 -> b0 <> b -> b_at b0 <> b_at b + sizeof_tag + n.
Proof.
  intros Hb0 Hne. pose proof cut_used. unfold sizeof_tag in *.
  eapply (inside_fresh _ _ _ b); [exact HK|apply mid_in|done|done|lia].
Qed.

(** The tag of another block that does not follow. *)
Lemma cut_same b0 :
  in_heap (C1 ++ (k1 ++ b :: k2) :: C2) b0 -> b_at b0 <> b_at b -> b_at <$> head k2 <> Some (b_at b0) ->
  T !! b_at b0 = tags s !! b_at b0.
Proof.
  intros Hb0 Hne Hnx. destruct Hcut as (tn & _ & _ & _ & _ & _ & _ & HT).
  rewrite HT, decide_False by done. rewrite decide_False by (apply cut_fresh; [done|congruence]).
  by rewrite decide_False.
Qed.

(** The members that link the lists of free blocks stay. *)
Lemma cut_fields b0 :
  in_heap (C1 ++ (k1 ++ b :: k2) :: C2) b0 ->
  (fun t => (index t, tnext t, tprev t)) <$> T !! b_at b0 = (fun t => (index t, tnext t, tprev t)) <$> tags s !! b_at b0.
Proof.
  intros Hb0. destruct Hcut as (tn & _ & _ & _ & _ & _ & _ & HT). rewrite HT.
  destruct (decide (b_at b0 = b_at b)) as [He|Hne]; [by destruct (tags s !! b_at b0)|].
  rewrite decide_False by (apply cut_fresh; [done|congruence]).
  case_decide; [by destruct (tags s !! b_at b0)|done].
Qed.

Lemma cut_links b0 :
  b0 ∈ k1 ++ Blk (b_at b) (sizeof_tag + n) (Used n)
    :: Blk (b_at b + sizeof_tag + n) (b_len b - sizeof_tag - n) Raw :: k2 ->
  b_st b0 <> Free -> links T (b_at b0) = Some (0, 0).
Proof.
  intros Hb0 Hst0. rewrite elem_of_app, !elem_of_cons in Hb0.
  assert (forall b', in_heap (C1 ++ (k1 ++ b :: k2) :: C2) b' -> b_st b' <> Free -> links T (b_at b') = Some (0, 0)) as Hlk.
  { intros b' Hb' Hst'. rewrite <- (hk_links _ _ _ HK b' Hb' Hst'). unfold links. pose proof (cut_fields b' Hb') as E.
    destruct (T !! b_at b'), (tags s !! b_at b'); simpl in *; congruence. }
  destruct Hb0 as [Hb0|[->|[->|Hb0]]].
  - apply Hlk; [|done]. rewrite in_heap_mid, elem_of_app. tauto.
  - apply (Hlk b); [apply mid_in|by rewrite Hst].
  - destruct Hcut as (tn & _ & _ & _ & _ & N5 & N6 & HT). pose proof cut_used. unfold sizeof_tag in *.
    cbn [b_at]. unfold links. rewrite HT, decide_False, decide_True by lia. simpl. by rewrite N5, N6.
  - apply Hlk; [|done]. rewrite in_heap_mid, elem_of_app, elem_of_cons. tauto.
Qed.

(** The tags of the chain. *)
Lemma cut_cseg :
  cseg T 0 (k1 ++ Blk (b_at b) (sizeof_tag + n) (Used n)
    :: Blk (b_at b + sizeof_tag + n) (b_len b - sizeof_tag - n) Raw :: k2) 0.
Proof.
  pose proof (mid_chain _ _ _ _ _ HK) as Hc. pose proof (mid_tag _ _ _ _ _ _ _ HK) as (t & Ht & A1 & A2 & A3 & A4 & A5).
  pose proof (co_contig _ _ _ Hc) as (Q1 & Q2 & [Q3 _] & Q4)%contig_mid. pose proof cut_used as Hu.
  pose proof Hcut as (tn & N1 & N2 & N3 & N4 & _ & _ & HT). unfold sizeof_tag in *.
  assert (forall b0, b0 ∈ k1 \/ b0 ∈ k2 -> in_heap (C1 ++ (k1 ++ b :: k2) :: C2) b0 /\ b_at b0 <> b_at b) as Hoth.
  { intros b0 Hb0. split; [rewrite in_heap_mid, elem_of_app, elem_of_cons; tauto|].
    eapply mid_other; [exact HK|tauto]. }
  pose proof (co_tags _ _ _ Hc) as (S1 & _ & S2)%cseg_mid. apply cseg_mid. cbn [b_at].
  split; [|split; [|cbn [cseg]; split]].
  - eapply cseg_like; [|exact S1]. intros b0 Hb0. destruct (Hoth b0 ltac:(by left)) as [Hin Hne]. rewrite cut_same; [done..|].
    intros Hx. destruct (next_of _ _ _ _ _ _ _ _ HK Hx) as (_ & _ & He).
    destruct (contig_bounds _ _ _ Q1 Hb0) as (_ & B & Hok%blk_ok_len). unfold sizeof_tag in *. lia.
  - exists (set_real_size (32 + n) (set_split_right (b_at b + 32 + n) t)).
    cbn [b_at b_len]. rewrite HT, decide_True, Ht by done. simpl.
    split; [do 2 f_equal; lia|]. unfold state_ok in *. rewrite Hst in A5. by destruct t.
  - exists tn. cbn [b_at b_len]. rewrite HT, decide_False, decide_True by lia. done.
  - cbn [b_at]. eapply (cseg_first (tags s) T (b_at b)); [exact S2|..|by eapply contig_nodup].
    + intros b0 Hb0 Hh. destruct (Hoth b0 ltac:(by right)) as [Hin Hne]. rewrite cut_same; [done..|].
      destruct k2 as [|b2 k2']; [done|]. simpl. intros [= He]. apply Hh. simpl. f_equal.
      apply elem_of_cons in Hb0 as [->|Hb0]; [done|]. simpl in Q4. destruct Q4 as (E2 & Hok%blk_ok_len & Q5).
      destruct (contig_bounds _ _ _ Q5 Hb0) as (B & _). unfold sizeof_tag in *. lia.
    + intros b0 Hb0. assert (b0 ∈ k2) as Hin2 by (destruct k2; [done|]; injection Hb0 as ->; left).
      destruct (Hoth b0 ltac:(by right)) as [Hin Hne]. pose proof (cut_fresh b0 Hin ltac:(congruence)) as Hf.
      unfold sizeof_tag in Hf. rewrite HT, !decide_False by done. by rewrite Hb0, decide_True.
Qed.

Lemma heap_cut :
  heap_ok (with_tags T s) (C1 ++ (k1 ++ Blk (b_at b) (sizeof_tag + n) (Used n)
    :: Blk (b_at b + sizeof_tag + n) (b_len b - sizeof_tag - n) Raw :: k2) :: C2) F.
Proof.
  pose proof (mid_chain _ _ _ _ _ HK) as Hc. pose proof cut_used as Hu.
  apply (heap_rewrite s C1 (k1 ++ b :: k2) C2 F); try done.
  - intros i x Hx. apply (hk_free _ _ _ HK) in Hx as (b0 & Hb0 & Hf & <- & _). by apply cut_fields.
  - intros b0 Hb0. apply cut_same.
    + rewrite in_heap_mid. tauto.
    + eapply mid_other; [exact HK|tauto].
    + destruct k2 as [|b2 k2']; [done|]. intros [= He]. symmetry in He. revert He. eapply other_chain; [exact HK|done|].
      rewrite elem_of_app, !elem_of_cons. tauto.
  - by destruct k1.
  - rewrite !total_app. simpl. unfold sizeof_tag. lia.
  - pose proof (co_contig _ _ _ Hc) as (Q1 & Q2 & [Q3 Q3'] & Q4)%contig_mid. rewrite Hst in Q3'. unfold sizeof_tag in *.
    apply contig_mid. cbn [b_at b_len]. split; [done|]. split; [done|].
    split; [split; [unfold sizeof_tag; cbn; lia|cbn; unfold sizeof_tag; lia]|].
    split; [cbn; lia|]. split; [split; [unfold sizeof_tag; cbn; lia|done]|]. cbn [b_len].
    by replace (b_at b + (32 + n) + (b_len b - 32 - n)) with (b_at b + b_len b) by lia.
  - pose proof (co_sep _ _ _ Hc) as (S1 & _ & S2)%sep_mid. apply sep_mid. split; [done|].
    rewrite andb_false_r. split; [done|]. simpl. split; [done|]. by eapply sep_weaken.
  - exact cut_cseg.
  - exact cut_links.
  - intros b0 Hf. rewrite !elem_of_app, !elem_of_cons. split.
    + intros [?|[->|[->|?]]]; [tauto|done|done|tauto].
    + intros [?|[->|?]]; [tauto|congruence|tauto].
Qed.
End Cut.


(** [split_tag] cuts the excess off a used block and frees it. *)
Lemma split_ok s C1 k1 b k2 C2 F n :
  heap_ok s (C1 ++ (k1 ++ b :: k2) :: C2) F -> b_st b = Used n ->
  n + 2 * sizeof_tag <= b_len b -> sep true k2 ->
  wp (split_tag (b_at b)) s (fun _ s' => exists tg hs F', s' = with_tags tg (with_free hs s) /\
    heap_ok s' (C1 ++ (k1 ++ Blk (b_at b) (sizeof_tag + n) (Used n)
      :: Blk (b_at b + sizeof_tag + n) (b_len b - sizeof_tag - n) Free :: k2) :: C2) F').
Proof.
  intros HK Hst Hn Hk2. pose proof (mid_chain _ _ _ _ _ HK) as Hc.
  pose proof (mid_tag _ _ _ _ _ _ _ HK) as (t & Ht & A1 & A2 & A3 & A4 & A5).
  unfold state_ok in A5. rewrite Hst in A5. destruct A5 as [A5 A6].
  assert (b ∈ k1 ++ b :: k2) as Hbm by (rewrite elem_of_app, elem_of_cons; tauto).
  destruct (chain_bounds _ _ _ _ Hc Hbm) as (B1 & _ & B2 & B3 & [_ B4]). rewrite Hst in B4.
  pose proof (co_base _ _ _ Hc) as B0. unfold base, sizeof_tag in *.
  pose proof (fun x => next_of _ _ _ _ _ _ _ x HK) as Hnext.
  unfold split_tag, sizeof_tag. wp_step. eapply wp_tag_at; [exact Ht|]. rewrite A2, A6, A4.
  rewrite !(wrap_small 32) by (unfold in_width; lia).
  wp_step. wp_step. wp_step. unfold put_tag at 1. wp_step.
  set (v := b_at b + 32 + n). set (tn := Tag _ _ _ _ _ _ _ _).
  wp_step. unfold first_at at 1. apply wp_upd_opt.
  { intros x Hx. destruct (Hnext x Hx) as (N1 & N2 & N3). split; [done|]. cbn [tags with_tags].
    rewrite lookup_insert_ne by (unfold v; lia). done. }
  intros T1 HT1. cbn [tags with_tags] in HT1. wp_step.
  assert (T1 !! b_at b = Some t) as Ht1.
  { rewrite HT1, decide_False by (intros (_ & _ & N3)%Hnext; lia).
    rewrite lookup_insert_ne by (unfold v; lia). done. }
  eapply wp_upd_tag; [exact Ht1|]. wp_step.
  eapply wp_upd_tag; [cbn [tags with_tags]; apply lookup_insert_eq|].
  cbn [tags with_tags real_size set_split_right]. rewrite A2, insert_insert_eq.
  rewrite wrap_small by (unfold in_width; lia). wp_step.
  set (T := <[b_at b := _]> T1). change (with_tags T _) with (with_tags T s).
  assert (cut (tags s) T (b_at b) v (b_len b - 32 - n) (b_at <$> head k2)) as Hcut.
  { exists tn. split_and!; try done. intros x. unfold T.
    destruct (decide (x = b_at b)) as [->|Hx].
    - rewrite lookup_insert_eq, Ht. simpl. do 2 f_equal. unfold v. lia.
    - rewrite lookup_insert_ne, HT1 by done. destruct (decide (x = v)) as [->|Hv].
      + rewrite decide_False by (intros (_ & _ & N3)%Hnext; unfold v in N3; lia).
        by rewrite lookup_insert_eq.
      + by rewrite !lookup_insert_ne. }
  pose proof (heap_cut s C1 k1 b k2 C2 F n T HK Hst ltac:(unfold sizeof_tag; lia) Hcut) as HK1.
  unfold sizeof_tag in HK1. fold v in HK1.
  eapply wp_mono.
  { eapply (put_ok (with_tags T s) C1 (k1 ++ [Blk (b_at b) (32 + n) (Used n)])
      (Blk v (b_len b - 32 - n) Raw) k2 C2 F (-1)); [rewrite <- app_assoc; exact HK1|done| |done|by right].
    unfold last_free. by rewrite last_snoc. }
  intros [] s2 (tg & hs & F' & -> & HK2). wp_step. exists tg, hs, F'. split; [done|].
  rewrite <- app_assoc in HK2. exact HK2.
Qed.
End Ops.
