(* ===== verification/LiballocProofs.v ===== *)
(** * libc/liballoc/liballoc.c: malloc and free

    The invariant between calls and the specifications of [malloc] and [free]. *)

From stdpp Require Import functions.
From S2P Require Import Prelude Cstring Liballoc LiballocList LiballocHeap LiballocOps.

(** ** Whole free blocks *)

(** A chain that is one free block of exponent [i]. *)
Definition whole (i : Z) (c : chain) : bool :=
  match c with [b] => is_free b && (expo (b_len b) =? i) | _ => false end.
Definition count (i : Z) (C : list chain) : nat := length (filter (fun c => whole i c = true) C).

Lemma count_app i C1 C2 : count i (C1 ++ C2) = (count i C1 + count i C2)%nat.
Proof. unfold count. by rewrite filter_app, length_app. Qed.

Lemma count_mid i C1 c C2 : count i (C1 ++ c :: C2) = (count i (C1 ++ C2) + Nat.b2n (whole i c))%nat.
Proof.
  rewrite !count_app. unfold count at 2. rewrite filter_cons.
  destruct (decide (whole i c = true)) as [E|E]; [rewrite E|apply not_true_is_false in E; rewrite E];
    simpl; unfold count; lia.
Qed.

(** [l_completePages] counts them, and never more than [MAXCOMPLETE]. *)
Definition complete_ok (cp : list Z) (C : list chain) : Prop :=
  forall i, 0 <= i < 32 -> cp !! Z.to_nat i = Some (Z.of_nat (count i C)) /\ Z.of_nat (count i C) <= MAXCOMPLETE.

Section Proofs.
Context {PS : Type} `{PageSourceLaws PS}.
Implicit Types (s : la_state PS) (C : list chain) (c k : chain) (F : Z -> list Z) (b : blk).

Definition settled C : Prop := forall b, in_heap C b -> b_st b = Free \/ exists n, b_st b = Used n.

(** Between two calls, after the first. *)
Record heap_inv s C F : Prop := {
  hi_init : l_initialized s <> 0;
  hi_ok : heap_ok s C F;
  hi_complete : complete_ok (l_completePages s) C;
  hi_settled : settled C
}.

(** Before the first call. *)
Definition heap_new s : Prop := l_initialized s = 0 /\ pages_inv (source s).

(** The blocks in use. *)
Definition used C (a n : Z) : Prop := exists b, in_heap C b /\ b_st b = Used n /\ b_at b = a.

(** [x] lies in memory the heap holds. *)
Definition held s (x : Z) : Prop := exists p n, region (source s) p n /\ p <= x < p + 4096 * n.

Lemma used_block s C F a n :
  heap_ok s C F -> used C a n -> 0 < a /\ 0 <= n /\ a + sizeof_tag + n <= 2 ^ 32 /\
    forall x, a <= x < a + sizeof_tag + n -> held s x.
Proof.
  intros HK (b & (c & Hc & Hb) & Hst & <-). pose proof (hk_chains _ _ _ HK _ Hc) as Hok.
  destruct (chain_bounds _ _ _ _ Hok Hb) as (B1 & B2 & B3 & B4 & [_ B5]). rewrite Hst in B5.
  split; [done|]. split; [lia|]. split; [lia|]. intros x Hx.
  destruct (co_region _ _ _ Hok) as (m & Hr & Ht & _). exists (first_at c 0), m.
  unfold base in *. split; [done|lia].
Qed.

(** Used blocks do not overlap. *)
Lemma used_disjoint s C F a n a' n' :
  heap_ok s C F -> used C a n -> used C a' n' ->
  (a = a' /\ n = n') \/ a + sizeof_tag + n <= a' \/ a' + sizeof_tag + n' <= a.
Proof.
  intros HK (b & Hb & Hst & <-) (b' & Hb' & Hst' & <-).
  assert (forall b0 m, in_heap C b0 -> b_st b0 = Used m -> m + sizeof_tag <= b_len b0) as Hlen.
  { intros b0 m (c & Hc & Hin) Hm.
    destruct (chain_bounds _ _ _ _ (hk_chains _ _ _ HK _ Hc) Hin) as (_ & _ & _ & _ & [_ B]).
    rewrite Hm in B. lia. }
  pose proof (Hlen _ _ Hb Hst). pose proof (Hlen _ _ Hb' Hst').
  destruct (heap_disjoint _ _ _ _ _ HK Hb Hb') as [->|Hd]; [left; split; congruence|lia].
Qed.

(** ** [initialize] *)

Lemma lists_ok_empty tg : lists_ok tg (replicate 32 0) (fun _ => []).
Proof.
  split.
  - intros i Hi. exists 0. split; [|done]. apply lookup_replicate. split; [done|lia].
  - intros. constructor.
  - by intros i a ?%elem_of_nil.
Qed.

Lemma initialize_ok s :
  heap_new s \/ (exists C F, heap_inv s C F) ->
  wp initialize s (fun _ s' => source s' = source s /\
    (heap_new s -> heap_inv s' [] (fun _ => [])) /\
    (forall C F, heap_inv s C F -> s' = s)).
Proof.
  intros Hs. unfold initialize. wp_step. wp_step. destruct (Z.eqb_spec (l_initialized s) 0) as [E|Hne].
  - wp_step. split; [done|]. split; [|intros C F Hi; by destruct (hi_init _ _ _ Hi)].
    intros [_ Hp]. split; [done| | |].
    + split; cbn; try done.
      * apply lists_ok_empty.
      * by intros c ?%elem_of_nil.
      * constructor.
      * intros i a. split; [by intros ?%elem_of_nil|]. by intros (b & (c & ?%elem_of_nil & _) & _).
      * by intros b (c & ?%elem_of_nil & _).
    + intros i Hi. split; [|unfold count, MAXCOMPLETE; simpl; lia].
      apply lookup_replicate. split; [done|]. unfold MAXEXP. lia.
    + by intros b (c & ?%elem_of_nil & _).
  - wp_step. split; [done|]. split; [by intros [? _]|done].
Qed.

(** ** [find_tag] *)

Lemma flist_length tg p hd L : flist tg p hd L -> NoDup L -> (length L <= base.size tg)%nat.
Proof.
  intros Hf Hnd. rewrite <- (size_list_to_set (C:=gset Z) L) by done.
  rewrite <- (size_dom (D:=gset Z)). apply subseteq_size. intros x Hx.
  apply elem_of_list_to_set in Hx. apply elem_of_dom. by eapply flist_member.
Qed.

Lemma find_tag_ok fuel : forall s p hd L size,
  flist (tags s) p hd L -> (length L < fuel)%nat ->
  wp (find_tag fuel hd size) s (fun r s' => s' = s /\
    (r = 0 \/ r ∈ L /\ exists t, tags s !! r = Some t /\
       u32 (size + sizeof_tag) <= u32 (real_size t - sizeof_tag))).
Proof.
  induction fuel as [|fuel IH]; intros s p hd L size Hf Hlen; [lia|]. cbn [find_tag].
  destruct L as [|a L].
  - simpl in Hf. subst hd. simpl. apply wp_ret. split; [done|by left].
  - destruct Hf as (-> & Hne & nx & Hl & Hf). destruct (Z.eqb_spec a 0); [done|].
    unfold links in Hl. destruct (tags s !! a) as [t|] eqn:Ht; [|done]. injection Hl as Hnx Hpv.
    wp_step. eapply wp_tag_at; [done|]. rewrite Hnx.
    destruct (Z.leb_spec (u32 (size + sizeof_tag)) (u32 (real_size t - sizeof_tag))).
    + apply wp_ret. split; [done|]. right. split; [left|]. by exists t.
    + eapply wp_mono; [eapply (IH s a nx L); [done|simpl in Hlen; lia]|].
      intros r s' [-> [->|(Hin & Hr)]]; (split; [done|]); [by left|right]. split; [by right|done].
Qed.

(** ** A block of new pages *)

Definition pages_for (size : Z) : Z :=
  let usage := u32 (size + sizeof_tag) in
  Z.max l_pageCount (usage / l_pageSize + (if usage mod l_pageSize =? 0 then 0 else 1)).

Lemma pages_for_ok size :
  0 <= size -> size + sizeof_tag < 2 ^ 32 ->
  l_pageCount <= pages_for size /\ size + sizeof_tag <= pages_for size * l_pageSize.
Proof.
  intros H1 H2. unfold pages_for, sizeof_tag, l_pageSize, l_pageCount in *.
  rewrite wrap_small by (unfold in_width; lia).
  destruct (Z.eqb_spec ((size + 32) mod 4096) 0); Z.div_mod_to_equations; lia.
Qed.

(** A region of the source, and the memory it keeps. *)
Definition grown (src src' : PS) : Prop :=
  pages_inv src' /\ (forall p n, region src p n -> region src' p n) /\
  forall x p n, region src p n -> p <= x < p + 4096 * n -> memory src' !! x = memory src !! x.

Lemma grown_refl src : pages_inv src -> grown src src.
Proof. by intros Hi. Qed.

Lemma heap_extend s C F src r n len st t :
  heap_ok s C F -> grown (source s) src -> 0 < r -> r + 4096 * n <= 2 ^ 32 -> l_pageCount <= n ->
  (forall p m, region (source s) p m -> p + 4096 * m <= r \/ r + 4096 * n <= p) ->
  region src r n -> len = 4096 * n -> st <> Free -> blk_ok (Blk r len st) ->
  magic t = LIBALLOC_MAGIC -> real_size t = len -> split_left t = 0 -> split_right t = 0 ->
  state_ok t (Blk r len st) -> tnext t = 0 -> tprev t = 0 ->
  heap_ok (with_tags (<[r := t]> (tags s)) (with_source src s)) ([Blk r len st] :: C) F.
Proof.
  intros HK (Hi & Hreg & _) Hr Hend Hn Hdis Hrn -> Hst Hok M1 M2 M3 M4 M5 M6 M7.
  unfold l_pageCount in Hn.
  assert (forall b, in_heap C b -> b_at b <> r) as Hne.
  { intros b (c & Hc & Hb) He. pose proof (hk_chains _ _ _ HK _ Hc) as Hco.
    destruct (chain_bounds _ _ _ _ Hco Hb) as (_ & B1 & B2 & _ & B3%blk_ok_len).
    destruct (co_region _ _ _ Hco) as (m & Hm & Ht & _). specialize (Hdis _ _ Hm). unfold base in *. lia. }
  assert (forall b, in_heap C b -> <[r := t]> (tags s) !! b_at b = tags s !! b_at b) as Hsame.
  { intros b Hb. rewrite lookup_insert_ne; [done|]. intros E. by apply (Hne b). }
  assert (forall b, in_heap ([Blk r (4096 * n) st] :: C) b <-> b = Blk r (4096 * n) st \/ in_heap C b) as Hin.
  { intros b. unfold in_heap. split.
    - intros (c & [->|Hc]%elem_of_cons & Hb); [left; by apply list_elem_of_singleton|right; by exists c].
    - intros [->|(c & Hc & Hb)]; [eexists; split; left|exists c; split; [by right|done]]. }
  split; cbn [source tags l_freePages with_tags with_source].
  - done.
  - eapply lists_ok_fields; [apply HK|]. intros i x (b & Hb & _ & <- & _)%(hk_free _ _ _ HK).
    by rewrite Hsame.
  - intros c [->|Hc]%elem_of_cons.
    + split; try (unfold first_at; simpl; lia).
      * split; [|done]. exists t. rewrite lookup_insert_eq. done.
      * split; [done|]. split; [exact Hok|done].
      * exists n. unfold first_at. simpl. rewrite Z.add_0_r. done.
    + destruct (hk_chains _ _ _ HK _ Hc) as [K1 K2 K3 K4 K5 (m & K6 & K7)]. split; try done.
      * eapply cseg_like; [|exact K1]. intros b Hb. unfold like. rewrite Hsame; [done|]. by exists c.
      * exists m. split; [by apply Hreg|done].
  - rewrite fmap_cons. apply NoDup_cons. split; [|apply HK].
    intros (c & He & Hc)%list_elem_of_fmap. pose proof (hk_chains _ _ _ HK _ Hc) as Hco.
    destruct (co_region _ _ _ Hco) as (m & Hm & Ht & Hm16). unfold l_pageCount in Hm16.
    specialize (Hdis _ _ Hm). unfold base, first_at in *. simpl in He. lia.
  - intros i x. rewrite (hk_free _ _ _ HK). split; intros (b & Hb & Hrest); exists b.
    + rewrite Hin. split; [by right|done].
    + rewrite Hin in Hb. destruct Hb as [->|Hb]; [by destruct Hrest|done].
  - intros b Hb Hstb. rewrite Hin in Hb. unfold links. destruct Hb as [->|Hb].
    + cbn [b_at]. rewrite lookup_insert_eq. simpl. by rewrite M6, M7.
    + rewrite Hsame by done. by apply (hk_links _ _ _ HK).
Qed.

Lemma heap_source s C F src :
  heap_ok s C F -> pages_inv src ->
  (forall p n, region (source s) p n -> region src p n) -> heap_ok (with_source src s) C F.
Proof.
  intros HK Hi Hreg. split; cbn [source tags l_freePages with_source]; try apply HK; [done|].
  intros c Hc. destruct (hk_chains _ _ _ HK _ Hc) as [K1 K2 K3 K4 K5 (m & K6 & K7)]. split; try done.
  exists m. split; [by apply Hreg|done].
Qed.

Lemma allocate_new_tag_ok s C F size :
  heap_ok s C F -> 0 <= size -> size + sizeof_tag < 2 ^ 32 ->
  wpp (allocate_new_tag size) s (fun r s' => exists T src, s' = with_tags T (with_source src s) /\
    grown (source s) src /\
    if r =? 0 then heap_ok s' C F
    else exists len, heap_ok s' ([Blk r len Limbo] :: C) F /\ size + sizeof_tag <= len)
    (fun _ => True).
Proof.
  intros HK H1 H2. destruct (pages_for_ok size H1 H2) as [P1 P2]. unfold allocate_new_tag.
  change (if _ <? l_pageCount then _ else _) with
    (let usage := u32 (size + sizeof_tag) in
     let p := usage / l_pageSize + (if usage mod l_pageSize =? 0 then 0 else 1) in
     if p <? l_pageCount then l_pageCount else p).
  assert ((let usage := u32 (size + sizeof_tag) in
     let p := usage / l_pageSize + (if usage mod l_pageSize =? 0 then 0 else 1) in
     if p <? l_pageCount then l_pageCount else p) = pages_for size) as ->.
  { unfold pages_for. cbv zeta.
    match goal with |- context [?a <? ?b] => destruct (Z.ltb_spec a b) end; lia. }
  generalize dependent (pages_for size). intros n P1 P2. unfold l_pageSize, l_pageCount in *.
  apply wpp_bind. unfold in_source. eapply wpp_zoom, wpp_mono.
  { apply liballoc_alloc_ok; [apply HK|lia]. }
  2: done. intros r src [Hi Hr]. cbv beta.
  destruct (Z.eqb_spec r 0) as [->|Hne].
  - apply wpp_wp, wp_ret. destruct Hr as [Hmem Hreg]. exists (tags s), src.
    split; [by destruct s|]. split; [|simpl; apply heap_source; [done|done|intros; by apply Hreg]].
    split; [done|]. split; [intros; by apply Hreg|by rewrite Hmem].
  - destruct Hr as (Hpos & Hend & Hold & Hdis & Hreg). apply wpp_wp. unfold put_tag. wp_step. wp_step. wp_step.
    assert (grown (source s) src) as Hg.
    { split; [done|]. split; [intros; apply Hreg; by left|]. intros x p m Hp Hx. apply Hold.
      specialize (Hdis _ _ Hp). lia. }
    eexists _, src. split; [reflexivity|]. split; [done|].
    destruct (Z.eqb_spec r 0); [done|]. exists (4096 * n). split; [|lia].
    eapply (heap_extend s C F src r n); try done; try (cbn; reflexivity).
    + apply Hreg. by right.
    + split; [unfold sizeof_tag in *; cbn; lia|done].
    + cbn. rewrite wrap_small by (unfold in_width; lia). lia.
Qed.

(** ** [malloc] *)

(** The blocks beside [b] in the chain [k1 ++ b :: k2] and in the other chains. *)
Definition others (C1 : list chain) k1 k2 (C2 : list chain) b : Prop :=
  b ∈ k1 \/ b ∈ k2 \/ in_heap (C1 ++ C2) b.

Lemma in_heap_others C1 k1 b k2 C2 b0 :
  in_heap (C1 ++ (k1 ++ b :: k2) :: C2) b0 <-> b0 = b \/ others C1 k1 k2 C2 b0.
Proof. unfold others. rewrite in_heap_mid, elem_of_app, elem_of_cons. tauto. Qed.

(** Only tags and list heads differ. *)
Definition same_rest s s' : Prop :=
  source s' = source s /\ l_completePages s' = l_completePages s /\ l_initialized s' = l_initialized s.

Lemma whole_alone i k1 b k2 :
  whole i (k1 ++ b :: k2) = true -> k1 = [] /\ k2 = [] /\ b_st b = Free /\ expo (b_len b) = i.
Proof.
  destruct k1 as [|b1 k1]; simpl.
  - destruct k2; [|done]. intros [Hf He]%andb_true_iff. apply Z.eqb_eq in He. unfold is_free in Hf.
    by destruct (b_st b).
  - by destruct k1.
Qed.

Lemma whole_not_free i k1 b k2 : b_st b <> Free -> whole i (k1 ++ b :: k2) = false.
Proof. intros Hst. apply not_true_is_false. intros (_ & _ & ? & _)%whole_alone. done. Qed.

Lemma whole_split i k1 b b' k2 : whole i (k1 ++ b :: b' :: k2) = false.
Proof. apply not_true_is_false. intros (_ & ? & _)%whole_alone. done. Qed.

(** [k'] holds the blocks of [k] and possibly free ones. *)
Definition extra_free k k' : Prop :=
  (forall b, b ∈ k -> b ∈ k') /\ (forall b, b ∈ k' -> b ∈ k \/ b_st b = Free).

Lemma split_excess_ok s C1 k1 b k2 C2 F n :
  heap_ok s (C1 ++ (k1 ++ b :: k2) :: C2) F -> b_st b = Used n -> sep true k2 ->
  wp (split_excess (b_at b) n) s (fun _ s' => exists F' len k', same_rest s s' /\
    heap_ok s' (C1 ++ (k1 ++ Blk (b_at b) len (Used n) :: k') :: C2) F' /\
    extra_free k2 k').
Proof.
  intros HK Hst Hk2. pose proof (mid_chain _ _ _ _ _ HK) as Hc.
  pose proof (mid_tag _ _ _ _ _ _ _ HK) as (t & Ht & _ & A2 & _).
  assert (b ∈ k1 ++ b :: k2) as Hbm by (rewrite elem_of_app, elem_of_cons; tauto).
  destruct (chain_bounds _ _ _ _ Hc Hbm) as (B1 & _ & B2 & B3 & [_ B4]). rewrite Hst in B4.
  unfold sizeof_tag in B4. pose proof (blk_ok_len) as Hlen.
  assert (b = Blk (b_at b) (b_len b) (Used n)) as Hb by (destruct b; simpl in *; congruence).
  assert (exists F' len k', same_rest s s /\
    heap_ok s (C1 ++ (k1 ++ Blk (b_at b) len (Used n) :: k') :: C2) F' /\
    extra_free k2 k') as Hno.
  { exists F, (b_len b), k2. split; [done|]. rewrite <- Hb. split; [done|]. split; tauto. }
  unfold split_excess. wp_step. eapply wp_tag_at; [done|]. rewrite A2. unfold sizeof_tag.
  destruct (Z.ltb_spec 0 (s32 (u32 (b_len b - n - 32 * 2)))) as [Hpos|]; [|by apply wp_ret].
  destruct (Z.leb_spec 0 (getexp (u32 (b_len b - n - 32 * 2)))) as [He|]; [|by apply wp_ret].
  assert (0 <= b_len b - n - 64) as Hrem.
  { (* a deficit of less than a tag wraps around to a negative int *)
    destruct (Z.le_gt_cases 0 (b_len b - n - 64)) as [|Hneg]; [done|]. exfalso.
    unfold s32 in Hpos. rewrite wrap_wrap in Hpos by lia. unfold wrap in Hpos.
    rewrite <- (Z.mod_unique (b_len b - n - 32 * 2) (2 ^ 32) (-1) (b_len b - n - 64 + 2 ^ 32)) in Hpos
      by lia.
    destruct (Z.ltb_spec (b_len b - n - 64 + 2 ^ 32) (2 ^ 31)); lia. }
  wp_step. eapply wp_mono; [eapply (split_ok s C1 k1 b k2 C2 F n); try done; unfold sizeof_tag; lia|].
  intros ? s' (tg & hs & F' & -> & HK'). wp_step. eexists F', _, _. split; [done|]. split; [exact HK'|].
  split; intros b0; rewrite elem_of_cons; [tauto|]. intros [->|?]; [by right|by left].
Qed.

(** The chain that holds a free block. *)
Lemma free_in_chain C b :
  in_heap C b -> exists C1 k1 k2 C2, C = C1 ++ (k1 ++ b :: k2) :: C2.
Proof.
  intros (c & (C1 & C2 & ->)%list_elem_of_split & (k1 & k2 & ->)%list_elem_of_split).
  by exists C1, k1, k2, C2.
Qed.

(** A tag without neighbours is the tag of a whole chain. *)
Lemma mid_alone s C1 k1 b k2 C2 F t :
  heap_ok s (C1 ++ (k1 ++ b :: k2) :: C2) F -> tags s !! b_at b = Some t ->
  (split_left t =? 0) && (split_right t =? 0) = true <-> k1 = [] /\ k2 = [].
Proof.
  intros HK Ht. pose proof (mid_tag _ _ _ _ _ _ _ HK) as (t' & Ht' & _ & _ & A3 & A4 & _).
  rewrite Ht in Ht'. injection Ht' as <-. pose proof (mid_chain _ _ _ _ _ HK) as Hc.
  rewrite A3, A4, andb_true_iff, !Z.eqb_eq.
  assert (forall b0, b0 ∈ k1 \/ b0 ∈ k2 -> b_at b0 <> 0) as Hnz.
  { intros b0 Hb0. assert (b0 ∈ k1 ++ b :: k2) as Hin by (rewrite elem_of_app, elem_of_cons; tauto).
    destruct (chain_bounds _ _ _ _ Hc Hin) as (? & _). lia. }
  split; [|by intros [-> ->]]. intros [E1 E2]. split.
  - destruct k1 as [|b1 k1 _] using rev_ind; [done|]. rewrite last_at_snoc in E1.
    destruct (Hnz b1); [left; rewrite elem_of_app; right; left|done].
  - destruct k2 as [|b2 k2]; [done|]. destruct (Hnz b2); [right; left|done].
Qed.

(** A found block leaves the lists, and a whole one the count. *)
Lemma take_found_ok s C1 k1 b k2 C2 F :
  heap_ok s (C1 ++ (k1 ++ b :: k2) :: C2) F -> b_st b = Free ->
  complete_ok (l_completePages s) (C1 ++ (k1 ++ b :: k2) :: C2) ->
  wp (_ ← remove_tag (b_at b);
      t ← tag_at (b_at b);
      _ ← (if (split_left t =? 0) && (split_right t =? 0) then
             c ← complete (expo (b_len b)); set_complete (expo (b_len b)) (c - 1)
           else mret tt);
      mret (b_at b)) s (fun r s' => r = b_at b /\ exists F', source s' = source s /\
    l_initialized s' = l_initialized s /\
    heap_ok s' (C1 ++ (k1 ++ set_st Limbo b :: k2) :: C2) F' /\
    complete_ok (l_completePages s') (C1 ++ (k1 ++ set_st Limbo b :: k2) :: C2)).
Proof.
  intros HK Hst Hcp. wp_step. eapply wp_mono; [by eapply take_ok|].
  intros [] s1 (tg & hs & F' & -> & HK1). set (s1 := with_tags tg (with_free hs s)) in *.
  pose proof (mid_tag _ _ _ _ _ _ _ HK1) as (t & Ht & _). wp_step. eapply wp_tag_at; [exact Ht|].
  pose proof (expo_range (b_len b)) as Hi.
  pose proof (mid_alone _ _ _ _ _ _ _ _ HK1 Ht) as Halone.
  assert (forall cp, (forall i, 0 <= i < 32 -> cp !! Z.to_nat i =
      Some (Z.of_nat (count i (C1 ++ (k1 ++ set_st Limbo b :: k2) :: C2)))) ->
    complete_ok cp (C1 ++ (k1 ++ set_st Limbo b :: k2) :: C2)) as Hle.
  { intros cp E i Hi'. split; [by apply E|]. destruct (Hcp i Hi') as [_ Hmax].
    rewrite count_mid in Hmax |- *. rewrite whole_not_free by done. simpl. lia. }
  wp_step. destruct ((split_left t =? 0) && (split_right t =? 0)) eqn:Ea.
  - destruct (proj1 Halone eq_refl) as [-> ->].
    destruct (Hcp _ Hi) as [Hcount _].
    wp_step. unfold set_complete, complete. unfold wp at 1. destruct (Z.leb_spec 0 (expo (b_len b))); [|lia].
    cbn [l_completePages with_tags with_free s1]. rewrite Hcount.
    wp_step. unfold wp at 1. destruct (Z.leb_spec 0 (expo (b_len b))); [|lia].
    cbn [l_completePages with_tags with_free s1]. rewrite Hcount. wp_step. wp_step. split; [done|].
    exists F'. split; [done|]. split; [done|]. split.
    + destruct HK1 as [K1 K2 K3 K4 K5 K6]. by split.
    + cbn [l_completePages with_complete]. apply Hle. intros i Hi'.
      destruct (Hcp i Hi') as [Hci _].
      rewrite (count_mid i C1 ([] ++ [set_st Limbo b])), (whole_not_free i [] (set_st Limbo b) []) by done.
      rewrite count_mid in Hci. rewrite count_mid in Hcount. rewrite count_mid. simpl in *.
      destruct (decide (i = expo (b_len b))) as [->|Hne].
      * rewrite list_lookup_insert_eq by by apply lookup_lt_Some in Hcount.
        f_equal. unfold is_free. rewrite Hst, Z.eqb_refl. simpl. lia.
      * rewrite list_lookup_insert_ne by lia. rewrite Hci. do 2 f_equal. unfold is_free. rewrite Hst.
        destruct (Z.eqb_spec (expo (b_len b)) i); [congruence|]. simpl. done.
  - wp_step. wp_step. split; [done|]. exists F'. split; [done|]. split; [done|]. split; [done|].
    apply Hle. intros i Hi'. destruct (Hcp i Hi') as [Hci _]. cbn [l_completePages with_tags with_free s1].
    rewrite Hci, !count_mid, (whole_not_free i k1 (set_st Limbo b) k2) by done.
    destruct (whole i (k1 ++ b :: k2)) eqn:Ew; [|done].
    apply whole_alone in Ew as (-> & -> & _). discriminate (proj2 Halone (conj eq_refl eq_refl)).
Qed.

(** Blocks that are not free do not count. *)
Lemma complete_ok_used cp C1 k1 b k2 k1' b' k2' C2 :
  b_st b <> Free -> b_st b' <> Free ->
  complete_ok cp (C1 ++ (k1 ++ b :: k2) :: C2) -> complete_ok cp (C1 ++ (k1' ++ b' :: k2') :: C2).
Proof.
  intros H1 H2 Hc i Hi. specialize (Hc i Hi).
  by rewrite count_mid, whole_not_free in Hc |- * by done.
Qed.

(** A settled heap but for the block [b]. *)
Definition settled_but C1 k1 b k2 C2 : Prop :=
  forall b0, others C1 k1 k2 C2 b0 -> b_st b0 = Free \/ exists n, b_st b0 = Used n.

(** The end of [malloc]: the block is given its size, and the excess is cut off. *)
Lemma malloc_tail_ok s C1 k1 b k2 C2 F size :
  heap_ok s (C1 ++ (k1 ++ b :: k2) :: C2) F -> b_st b = Limbo ->
  0 <= size -> size + sizeof_tag <= b_len b -> sizeof_tag < b_len b -> sep true k2 ->
  l_initialized s <> 0 -> complete_ok (l_completePages s) (C1 ++ (k1 ++ b :: k2) :: C2) ->
  settled_but C1 k1 b k2 C2 ->
  wp (_ ← upd_tag (b_at b) (set_tsize size);
      _ ← split_excess (b_at b) size;
      mret (u32 (b_at b + sizeof_tag))) s (fun r s' => r = b_at b + sizeof_tag /\
    source s' = source s /\ exists C' F', heap_inv s' C' F' /\
    forall a m, used C' a m <-> (a = b_at b /\ m = size) \/
      exists b0, others C1 k1 k2 C2 b0 /\ b_st b0 = Used m /\ b_at b0 = a).
Proof.
  intros HK Hst Hsz Hn Hlen Hsep Hini Hcp Hset. pose proof (mid_chain _ _ _ _ _ HK) as Hc.
  assert (b ∈ k1 ++ b :: k2) as Hb by (rewrite elem_of_app, elem_of_cons; tauto).
  destruct (chain_bounds _ _ _ _ Hc Hb) as (B1 & _ & B2 & B3 & _).
  wp_step. wp_apply set_size_ok; [exact HK|done|done|done|].
  intros [] s1 (tg & -> & HK1). wp_step.
  wp_apply (split_excess_ok _ C1 k1 (set_st (Used size) b) k2 C2 F size); [exact HK1|done|done|].
  intros [] s2 (F' & len & k' & (R1 & R2 & R3) & HK2 & [X1 X2]). cbn [b_at set_st] in *. wp_step.
  unfold sizeof_tag in *.
  split; [apply wrap_small; unfold in_width; lia|]. split; [done|].
  exists (C1 ++ (k1 ++ Blk (b_at b) len (Used size) :: k') :: C2), F'. split.
  - split; [by rewrite R3|exact HK2| |].
    + rewrite R2. cbn [l_completePages with_tags with_free].
      eapply complete_ok_used; [| |exact Hcp]; simpl; congruence.
    + intros b0. rewrite in_heap_others. intros [->|[?|[[?|?]%X2|?]]]; unfold others in *; cbn [b_st].
      * right. by eexists.
      * apply Hset. unfold others. tauto.
      * apply Hset. unfold others. tauto.
      * by left.
      * apply Hset. unfold others. tauto.
  - intros a m. unfold used. split.
    + intros (b0 & Hb0 & Hs0 & <-). rewrite in_heap_others in Hb0. destruct Hb0 as [->|Hb0].
      * left. simpl in *. split; [done|congruence].
      * right. exists b0. split; [|done]. unfold others in *.
        destruct Hb0 as [?|[[?|?]%X2|?]]; try tauto. congruence.
    + intros [[-> ->]|(b0 & Hb0 & Hs0 & Ha0)].
      * eexists. rewrite in_heap_others. split; [by left|done].
      * exists b0. rewrite in_heap_others. split; [|done]. unfold others in *.
        destruct Hb0 as [?|[?%X1|?]]; tauto.
Qed.

(** The chains [C] describe the heap, before the first call or between two calls. *)
Definition heap_at s C : Prop := heap_new s /\ C = [] \/ exists F, heap_inv s C F.

Lemma heap_at_initialize s C :
  heap_at s C -> wp initialize s (fun _ s' => source s' = source s /\ exists F, heap_inv s' C F).
Proof.
  intros HC. wp_apply initialize_ok.
  - destruct HC as [[Hn _]|[F Hi]]; [by left|right; by exists C, F].
  - intros [] s' (Hsrc & Hnew & Hold). split; [done|].
    destruct HC as [[Hn ->]|[F Hi]]; [exists (fun _ => []); by apply Hnew|].
    exists F. by rewrite (Hold _ _ Hi).
Qed.

(** What [find_tag] finds is a block that is large enough. *)
Lemma find_block_ok s C F idx size :
  heap_inv s C F -> 0 <= idx < 32 -> 0 <= size -> size + sizeof_tag < 2 ^ 32 ->
  wp (head ← free_head idx;
      fuel ← gets (fun s => S (base.size (tags s)));
      find_tag fuel head size) s (fun r s' => s' = s /\ (r = 0 \/
    exists b, in_heap C b /\ b_st b = Free /\ b_at b = r /\ expo (b_len b) = idx /\
      size + 2 * sizeof_tag <= b_len b)).
Proof.
  intros [_ HK _ _] Hi Hn Hmax. pose proof (hk_lists _ _ _ HK) as HL.
  destruct (lo_heads _ _ _ HL idx Hi) as (hd & Hhd & Hf). wp_step.
  eapply wp_free_head; [lia|exact Hhd|]. wp_step. wp_step.
  wp_apply find_tag_ok; [exact Hf| |].
  { pose proof (flist_length _ _ _ _ Hf (lo_nodup _ _ _ HL idx)). lia. }
  intros r s' [-> [->|(Hin & t & Ht & Hle)]]; (split; [done|]); [by left|right].
  apply (hk_free _ _ _ HK) in Hin as (b & Hb & Hst & <- & He). exists b.
  do 4 (split; [done|]).
  destruct Hb as (c & Hc & Hb). pose proof (hk_chains _ _ _ HK _ Hc) as Hco.
  destruct (chain_bounds _ _ _ _ Hco Hb) as (B1 & _ & B2 & B3 & B4 & _).
  apply list_elem_of_split in Hb as (k1 & k2 & ->).
  pose proof (co_tags _ _ _ Hco) as (_ & (t' & Ht' & _ & A2 & _) & _)%cseg_mid.
  rewrite Ht in Ht'. injection Ht' as <-. rewrite A2 in Hle. unfold sizeof_tag in *.
  rewrite !wrap_small in Hle by (unfold in_width; lia). lia.
Qed.

Lemma malloc_unfold size s :
  malloc size s = (_ ← initialize;
    found ← (head ← free_head (Z.max MINEXP (getexp size + MODE));
             fuel ← gets (fun s => S (base.size (tags s)));
             find_tag fuel head size);
    tag ← (if found =? 0 then allocate_new_tag size
         else
           _ ← remove_tag found;
           t ← tag_at found;
           _ ← (if (split_left t =? 0) && (split_right t =? 0) then
                  c ← complete (Z.max MINEXP (getexp size + MODE));
                  set_complete (Z.max MINEXP (getexp size + MODE)) (c - 1)
                else mret tt);
           mret found);
    if tag =? 0 then mret 0
    else _ ← upd_tag tag (set_tsize size); _ ← split_excess tag size; mret (u32 (tag + sizeof_tag))) s.
Proof.
  unfold malloc, mbind, M_bind. destruct (initialize s) as [[a s1]| | |]; try done.
  by destruct (free_head _ s1) as [[b s2]| | |].
Qed.

(** What a call of [malloc] may return and leave. *)
Definition malloc_post s C size (r : Z) s' : Prop :=
  grown (source s) (source s') /\
  if r =? 0 then heap_at s' C
  else sizeof_tag < r < 2 ^ 32 /\ exists C', heap_at s' C' /\
    (forall m, ~ used C (r - sizeof_tag) m) /\
    forall a m, used C' a m <-> used C a m \/ a = r - sizeof_tag /\ m = size.

(** The last step, on the block [b] in limbo: a free block of [C] before, or a new one. *)
Lemma malloc_last_ok s s1 C C1 k1 b k2 C2 F size :
  heap_ok s1 (C1 ++ (k1 ++ b :: k2) :: C2) F -> b_st b = Limbo ->
  0 <= size -> size + sizeof_tag <= b_len b -> sizeof_tag < b_len b -> sep true k2 ->
  l_initialized s1 <> 0 -> complete_ok (l_completePages s1) (C1 ++ (k1 ++ b :: k2) :: C2) ->
  settled C -> grown (source s) (source s1) ->
  (forall b0, others C1 k1 k2 C2 b0 -> in_heap C b0) ->
  (forall b0, in_heap C b0 -> b_st b0 = Free \/ others C1 k1 k2 C2 b0) ->
  wp (if b_at b =? 0 then mret 0
      else _ ← upd_tag (b_at b) (set_tsize size); _ ← split_excess (b_at b) size;
           mret (u32 (b_at b + sizeof_tag))) s1 (malloc_post s C size).
Proof.
  intros HK Hst Hsz Hn Hlen Hsep Hini Hcp Hset Hg Ho1 Ho2.
  pose proof (mid_in C1 k1 b k2 C2) as Hb. pose proof (mid_chain _ _ _ _ _ HK) as Hc.
  destruct (chain_bounds _ _ _ b Hc) as (B1 & _ & B2 & B3 & _);
    [rewrite elem_of_app, elem_of_cons; tauto|].
  destruct (Z.eqb_spec (b_at b) 0); [lia|].
  wp_apply malloc_tail_ok; [exact HK|done..| |].
  { intros b0 Hb0. by apply Hset, Ho1. }
  intros r s2 (-> & Hsrc & C' & F' & HI & HC'). unfold malloc_post, sizeof_tag in *.
  rewrite Hsrc. split; [done|]. destruct (Z.eqb_spec (b_at b + 32) 0); [lia|]. split; [lia|].
  replace (b_at b + 32 - 32) with (b_at b) by lia.
  exists C'. split; [right; by exists F'|]. split.
  - intros m (b0 & [Hf|Hb0]%Ho2 & Hs0 & Ha0); [congruence|].
    by eapply (mid_other s1 C1 k1 b k2 C2 F b0); [exact HK|exact Hb0|].
  - intros a m. rewrite HC'. unfold used. split.
    + intros [?|(b0 & ?%Ho1 & Hrest)]; [by right|left; by exists b0].
    + intros [(b0 & [Hf|Hb0]%Ho2 & Hs0 & Ha0)|?]; [congruence|right; by exists b0|by left].
Qed.

Lemma malloc_found_ok s C F b size :
  heap_inv s C F -> in_heap C b -> b_st b = Free -> size + 2 * sizeof_tag <= b_len b -> 0 <= size ->
  wp (tag ← (_ ← remove_tag (b_at b);
             t ← tag_at (b_at b);
             _ ← (if (split_left t =? 0) && (split_right t =? 0) then
                    c ← complete (expo (b_len b)); set_complete (expo (b_len b)) (c - 1)
                  else mret tt);
             mret (b_at b));
      if tag =? 0 then mret 0
      else _ ← upd_tag tag (set_tsize size); _ ← split_excess tag size; mret (u32 (tag + sizeof_tag)))
    s (malloc_post s C size).
Proof.
  intros [Hini HK Hcp Hset] Hb Hst Hlen Hsz.
  destruct (free_in_chain _ _ Hb) as (C1 & k1 & k2 & C2 & ->).
  pose proof (co_sep _ _ _ (mid_chain _ _ _ _ _ HK)) as (_ & _ & Hsep)%sep_mid.
  unfold is_free in Hsep. rewrite Hst in Hsep. unfold sizeof_tag in Hlen.
  wp_step. wp_apply take_found_ok; [exact HK|done|exact Hcp|].
  intros r s1 (-> & F1 & Hsrc & Hini1 & HK1 & Hcp1). cbv beta.
  apply (malloc_last_ok s s1 _ C1 k1 (set_st Limbo b) k2 C2 F1); try done.
  1,2: unfold sizeof_tag; simpl; lia.
  - by rewrite Hini1.
  - rewrite Hsrc. apply grown_refl, HK.
  - intros b0 Hb0. rewrite in_heap_others. by right.
  - intros b0. rewrite in_heap_others. intros [->|?]; [by left|by right].
Qed.

Lemma malloc_ok s C size :
  heap_at s C -> 0 <= size -> size + sizeof_tag < 2 ^ 32 ->
  wpp (malloc size) s (malloc_post s C size) (fun _ => True).
Proof.
  intros HC Hsz Hmax. unfold wpp. rewrite malloc_unfold.
  match goal with |- match ?m s with _ => _ end => change (wpp m s (malloc_post s C size) (fun _ => True)) end.
  apply wpp_bind. eapply wpp_wp_mono; [apply heap_at_initialize; exact HC|].
  intros [] s1 (Hsrc & F & HI).
  assert (forall r s', malloc_post s1 C size r s' -> malloc_post s C size r s') as Hpost.
  { unfold malloc_post. by rewrite Hsrc. }
  assert (0 <= Z.max MINEXP (getexp size + MODE) < 32) as Hidx.
  { pose proof (getexp_range size). unfold MINEXP, MODE, in_width, sizeof_tag in *. lia. }
  apply wpp_bind. eapply wpp_wp_mono; [by eapply find_block_ok|].
  intros r s1' [-> [->|(b & Hb & Hst & <- & Hexp & Hlen)]]; cbv beta.
  - simpl. pose proof (allocate_new_tag_ok s1 C F size (hi_ok _ _ _ HI) Hsz Hmax) as Hnew.
    apply wpp_bind. eapply wpp_mono; [exact Hnew| |done].
    intros r s2 (T & src & -> & Hg & Hr). cbv beta. apply wpp_wp.
    destruct HI as [Hini HK Hcp Hset].
    destruct (Z.eqb_spec r 0) as [->|Hne].
    + simpl. apply wp_ret, Hpost. split; [exact Hg|]. right. exists F. by split.
    + destruct Hr as (len & HK2 & Hlen). eapply wp_mono; [|exact Hpost].
      pose proof (mid_chain _ [] _ C _ HK2) as Hc.
      destruct (co_region _ _ _ Hc) as (n & _ & Ht & Hn). simpl in Ht.
      assert ((r =? 0) = false) as Hr0 by by apply Z.eqb_neq.
      assert (sizeof_tag < len) by (unfold l_pageCount, sizeof_tag in *; lia).
      epose proof (malloc_last_ok s1 _ C [] [] (Blk r len Limbo) [] C F size HK2) as Hlast.
      cbn [b_at b_len b_st] in Hlast. rewrite Hr0 in Hlast.
      apply Hlast; try done.
      * intros b0 [?%elem_of_nil|[?%elem_of_nil|?]]; done.
      * intros b0 Hb0. right. unfold others. tauto.
  - destruct (Z.eqb_spec (b_at b) 0) as [E|].
    + exfalso. destruct Hb as (c & Hc & Hb).
      destruct (chain_bounds _ _ _ _ (hk_chains _ _ _ (hi_ok _ _ _ HI) _ Hc) Hb). lia.
    + apply wpp_wp. eapply wp_mono; [|exact Hpost]. rewrite <- Hexp. by eapply malloc_found_ok.
Qed.
End Proofs.
