(* ===== verification/HeapFirst.v ===== *)
(** * libc/liballoc: the first request

    The first [malloc] takes fresh pages from the hook and is answered from their start;
    apart from that call nothing it does touches the state behind the hooks. *)

From S2P Require Import Prelude Liballoc LiballocList LiballocProofs.

Section First.
Context {PS : Type} `{PageSource PS}.
Implicit Types s : la_state PS.

(** The operation does not panic and leaves the state behind the hooks alone. *)
Definition keeps_source {A} (m : M (la_state PS) A) : Prop := forall s,
  match m s with Ok (_, s') => source s' = source s | Panic _ => False | _ => True end.

Lemma keeps_ret {A} (a : A) : keeps_source (mret a).
Proof. done. Qed.

Lemma keeps_gets {A} (f : la_state PS -> A) : keeps_source (gets f).
Proof. done. Qed.

Lemma keeps_modify f : (forall s, source (f s) = source s) -> keeps_source (modify f).
Proof. done. Qed.

Lemma keeps_bind {A B} (m : M (la_state PS) A) (k : A -> M (la_state PS) B) :
  keeps_source m -> (forall a, keeps_source (k a)) -> keeps_source (m ≫= k).
Proof.
  intros Hm Hk s. unfold mbind, M_bind. specialize (Hm s). destruct (m s) as [[a s1]| | |]; [|done..].
  specialize (Hk a s1). destruct (k a s1) as [[b s2]| | |]; [congruence|done..].
Qed.

Lemma keeps_tag_at p : keeps_source (tag_at p).
Proof. intros s. unfold tag_at. by destruct (tags s !! p). Qed.

Lemma keeps_free_head i : keeps_source (free_head i).
Proof. intros s. unfold free_head. destruct (0 <=? i); [|done]. by destruct (l_freePages s !! _). Qed.

Create HintDb keep discriminated.
#[local] Hint Resolve keeps_ret keeps_gets keeps_tag_at keeps_free_head : keep.
#[local] Hint Extern 1 (keeps_source (modify _)) => apply keeps_modify; reflexivity : keep.

#[local] Ltac keep :=
  repeat first
    [ solve [auto with keep]
    | apply keeps_bind; [|intros ?]
    | match goal with |- keeps_source (if ?b then _ else _) => destruct b end
    | progress cbv zeta ].

Lemma keeps_put_tag p t : keeps_source (put_tag p t).
Proof. unfold put_tag. keep. Qed.
#[local] Hint Resolve keeps_put_tag : keep.

Lemma keeps_upd_tag p f : keeps_source (upd_tag p f).
Proof. unfold upd_tag. keep. Qed.
#[local] Hint Resolve keeps_upd_tag : keep.

Lemma keeps_set_free_head i p : keeps_source (set_free_head i p).
Proof. unfold set_free_head. keep. Qed.
#[local] Hint Resolve keeps_set_free_head : keep.

Lemma keeps_insert_tag t i : keeps_source (insert_tag t i).
Proof. unfold insert_tag. keep. Qed.
#[local] Hint Resolve keeps_insert_tag : keep.

Lemma keeps_split_tag t : keeps_source (split_tag t).
Proof. unfold split_tag. keep. Qed.
#[local] Hint Resolve keeps_split_tag : keep.

Lemma keeps_split_excess t n : keeps_source (split_excess t n).
Proof. unfold split_excess. keep. Qed.
#[local] Hint Resolve keeps_split_excess : keep.

(** The pages [allocate_new_tag] asks for. *)
Definition request_pages (size : Z) : Z :=
  let usage := u32 (size + sizeof_tag) in
  Z.max l_pageCount (usage / l_pageSize + (if usage mod l_pageSize =? 0 then 0 else 1)).

Lemma request_pages_ok size :
  0 <= size -> size + sizeof_tag < 2 ^ 32 ->
  16 <= request_pages size /\ size + sizeof_tag <= 4096 * request_pages size /\
  request_pages size <= 16 + (size + sizeof_tag + 4095) / 4096.
Proof.
  intros Hlo Hhi. unfold request_pages, l_pageCount, l_pageSize, sizeof_tag in *.
  rewrite wrap_small by (unfold in_width; lia).
  destruct (Z.eqb_spec ((size + 32) mod 4096) 0); Z.div_mod_to_equations; lia.
Qed.

Lemma keeps_run {A} (m : M (la_state PS) A) s (Q : A -> la_state PS -> Prop) :
  keeps_source m -> match m s with Ok (a, s') => source s' = source s -> Q a s' | _ => True end ->
  match m s with Ok (a, s') => Q a s' | Panic _ => False | _ => True end.
Proof. intros Hk. specialize (Hk s). destruct (m s) as [[a s']| | |]; auto. Qed.

(** The first request: its answer is the memory behind the tag at the start of the pages. *)
Lemma malloc_first size v :
  0 <= size -> size + sizeof_tag < 2 ^ 32 ->
  match liballoc_alloc (request_pages size) v with
  | Ok (r, v') =>
      match malloc size (la_boot v) with
      | Ok (p, s') => source s' = v' /\ p = if r =? 0 then 0 else u32 (r + sizeof_tag)
      | Panic _ => False
      | _ => True
      end
  | _ => True
  end.
Proof.
  intros Hlo Hhi. destruct (liballoc_alloc (request_pages size) v) as [[r v']| | |] eqn:Hrun; [|done..].
  unfold malloc. set (idx := Z.max MINEXP (getexp size + MODE)).
  assert (0 <= idx < 32) as Hidx.
  { pose proof (getexp_range size). unfold idx, MINEXP, MODE, in_width, sizeof_tag in *. lia. }
  rewrite (bind_ok _ _ (la_boot v) tt (with_init 1 (la_boot v)) eq_refl). set (s1 := with_init 1 (la_boot v)).
  assert (free_head idx s1 = Ok (0, s1)) as Hhead.
  { unfold free_head. destruct (Z.leb_spec 0 idx); [|lia]. cbn [l_freePages s1 with_init la_boot].
    rewrite lookup_replicate_2 by (unfold MAXEXP; lia). done. }
  rewrite (bind_ok _ _ _ _ _ Hhead), (bind_ok _ _ s1 1%nat s1), (bind_ok (find_tag 1 0 size) _ s1 0 s1) by done.
  assert (allocate_new_tag size s1 = (tag ← in_source (liballoc_alloc (request_pages size));
    if tag =? 0 then mret 0
    else _ ← put_tag tag (Tag LIBALLOC_MAGIC size (u32 (request_pages size * l_pageSize)) (-1) 0 0 0 0); mret tag) s1) as Enew.
  { unfold allocate_new_tag. cbv zeta.
    assert ((if u32 (size + sizeof_tag) / l_pageSize + (if u32 (size + sizeof_tag) mod l_pageSize =? 0 then 0 else 1) <? l_pageCount
      then l_pageCount else u32 (size + sizeof_tag) / l_pageSize + (if u32 (size + sizeof_tag) mod l_pageSize =? 0 then 0 else 1))
      = request_pages size) as ->; [|done].
    unfold request_pages. destruct (Z.ltb_spec (u32 (size + sizeof_tag) / l_pageSize + (if u32 (size + sizeof_tag) mod l_pageSize =? 0 then 0 else 1)) l_pageCount); lia. }
  rewrite Z.eqb_refl. unfold mbind at 1, M_bind at 1. rewrite Enew.
  assert (in_source (liballoc_alloc (request_pages size)) s1 = Ok (r, with_source v' s1)) as Hsrc
    by (unfold in_source, zoom; cbn [source s1 with_init la_boot]; by rewrite Hrun).
  rewrite (bind_ok _ _ _ _ _ Hsrc). destruct (Z.eqb_spec r 0) as [->|Hne]; [done|].
  set (s2 := with_source v' s1).
  set (t := Tag LIBALLOC_MAGIC size (u32 (request_pages size * l_pageSize)) (-1) 0 0 0 0).
  rewrite (bind_ok (put_tag r t) _ s2 tt (with_tags (<[r := t]> (tags s2)) s2)) by done.
  cbn [mret M_ret]. destruct (Z.eqb_spec r 0); [done|].
  apply (keeps_run _ _ (fun p s' => source s' = v' /\ p = u32 (r + sizeof_tag))); [keep|].
  unfold mbind, M_bind. set (s3 := with_tags _ s2).
  destruct (upd_tag r (set_tsize size) s3) as [[[] s4]| | |]; [|done..].
  by destruct (split_excess r size s4) as [[[] s5]| | |].
Qed.
End First.
