(* ===== verification/LiballocFree.v ===== *)
(** * libc/liballoc/liballoc.c: free

    The specification of [free] against the invariant of LiballocProofs.v: merging
    with the free neighbours, and keeping or releasing whole blocks. *)

From stdpp Require Import functions.
From S2P Require Import Prelude Cstring Liballoc LiballocList LiballocHeap LiballocOps LiballocProofs.

Lemma wp_reassoc {S A B} (m : M S A) (f : A -> M S unit) (g : A -> M S B) s Q :
  wp (a ← m; _ ← f a; mret a) s (fun a s' => wp (g a) s' Q) -> wp (a ← m; _ ← f a; g a) s Q.
Proof.
  unfold wp, mbind, M_bind. destruct (m s) as [[a s1]| | |]; [|done..].
  by destruct (f a s1) as [[[] s2]| | |].
Qed.

Section Free.
Context {PS : Type} `{PageSourceLaws PS}.
Implicit Types (s : la_state PS) (C : list chain) (c k : chain) (F : Z -> list Z) (b : blk).

(** A chain has no more blocks than there are tags. *)
Lemma chain_length s C F c : heap_ok s C F -> c ∈ C -> (length c <= base.size (tags s))%nat.
Proof.
  intros HK Hc. pose proof (hk_chains _ _ _ HK _ Hc) as Hco.
  pose proof (contig_nodup _ _ (co_contig _ _ _ Hco)) as Hnd.
  rewrite <- (length_fmap b_at), <- (size_list_to_set (C:=gset Z)) by done.
  rewrite <- (size_dom (D:=gset Z)). apply subseteq_size. intros x Hx.
  apply elem_of_list_to_set, list_elem_of_fmap in Hx as (b & -> & Hb). apply elem_of_dom.
  destruct (cseg_present _ _ _ _ _ (co_tags _ _ _ Hco) Hb) as (t & Ht). by exists t.
Qed.

(** The index of a settled tag tells whether it is free. *)
Lemma settled_index s C F b t :
  heap_ok s C F -> in_heap C b -> tags s !! b_at b = Some t ->
  b_st b = Free \/ (exists n, b_st b = Used n) -> (0 <=? index t) = is_free b.
Proof.
  intros HK (c & Hc & (k1 & k2 & ->)%list_elem_of_split) Ht Hset.
  pose proof (co_tags _ _ _ (hk_chains _ _ _ HK _ Hc)) as (_ & (t' & Ht' & Hok) & _)%cseg_mid.
  rewrite Ht in Ht'. injection Ht' as <-. destruct Hok as (_ & _ & _ & _ & Hok).
  unfold state_ok in Hok. unfold is_free. destruct Hset as [Hst|[n Hst]]; rewrite Hst in *.
  - rewrite Hok. pose proof (expo_range (b_len b)). apply Z.leb_le. lia.
  - by destruct Hok as [-> _].
Qed.

(** ** The loops *)

Definition settled_list k : Prop := forall b, b ∈ k -> b_st b = Free \/ exists n, b_st b = Used n.

(** The blocks of [k] that are not free are those of [k']. *)
Definition only_free_gone k k' : Prop :=
  forall b, (b ∈ k' -> b ∈ k) /\ (b ∈ k -> b_st b = Free \/ b ∈ k').

Lemma only_free_gone_refl k : only_free_gone k k.
Proof. intros b. tauto. Qed.

Lemma melt_left_loop_ok fuel : forall s C1 k1 b k2 C2 F,
  heap_ok s (C1 ++ (k1 ++ b :: k2) :: C2) F -> b_st b = Limbo -> settled_list k1 ->
  (length k1 < fuel)%nat ->
  wp (melt_left_loop fuel (b_at b)) s (fun r s' => exists k1' b' F', same_rest s s' /\
    r = b_at b' /\ b_st b' = Limbo /\ last_free false k1' = false /\ only_free_gone k1 k1' /\
    heap_ok s' (C1 ++ (k1' ++ b' :: k2) :: C2) F').
Proof.
  induction fuel as [|fuel IH]; intros s C1 k1 b k2 C2 F HK Hst Hset Hlen; [lia|]. cbn [melt_left_loop].
  pose proof (mid_tag _ _ _ _ _ _ _ HK) as (t & Ht & _ & _ & A3 & _).
  wp_step. eapply wp_tag_at; [exact Ht|].
  assert (last_free false k1 = false -> wp (mret (b_at b)) s (fun r s' => exists k1' b' F', same_rest s s' /\
    r = b_at b' /\ b_st b' = Limbo /\ last_free false k1' = false /\ only_free_gone k1 k1' /\
    heap_ok s' (C1 ++ (k1' ++ b' :: k2) :: C2) F')) as Hstop.
  { intros Hlf. wp_step. exists k1, b, F. repeat (split; [done|]). split; [apply only_free_gone_refl|done]. }
  destruct k1 as [|l k1 _] using rev_ind.
  { rewrite A3. by apply Hstop. }
  rewrite last_at_snoc in A3. rewrite A3. rewrite <- app_assoc in HK.
  pose proof (mid_tag _ _ _ _ _ _ _ HK) as (tl & Htl & _).
  assert (in_heap (C1 ++ (k1 ++ [l] ++ b :: k2) :: C2) l) as Hl by apply mid_in.
  pose proof (chain_bounds _ _ _ l (mid_chain _ _ _ _ _ HK)) as Hpos.
  destruct Hpos as (Hpos & _); [rewrite elem_of_app; right; left|].
  destruct (Z.eqb_spec (b_at l) 0); [lia|]. wp_step. eapply wp_tag_at; [exact Htl|].
  rewrite (settled_index _ _ _ _ _ HK Hl Htl) by (apply Hset; rewrite elem_of_app; right; left).
  destruct (is_free l) eqn:Ef.
  - assert (b_st l = Free) as Hlf by (unfold is_free in Ef; by destruct (b_st l)).
    apply wp_reassoc. eapply wp_mono; [eapply (melt_ok s C1 k1 l b k2 C2 F); done|].
    intros r s1 (-> & tg & hs & F1 & -> & HK1). cbv beta.
    change (b_at l) with (b_at (Blk (b_at l) (b_len l + b_len b) Limbo)).
    eapply wp_mono; [eapply IH; [exact HK1|done| |]|].
    + intros b0 Hb0. apply Hset. rewrite elem_of_app. by left.
    + rewrite length_app in Hlen. simpl in Hlen. lia.
    + intros r s2 (k1' & b' & F' & HR & Hrest). exists k1', b', F'. split; [exact HR|].
      destruct Hrest as (-> & Hst' & Hlast & Hgone & HK2). repeat (split; [done|]). split; [|done].
      intros b0. destruct (Hgone b0) as [G1 G2]. rewrite elem_of_app, list_elem_of_singleton. split; [tauto|].
      intros [?| ->]; [tauto|by left].
  - apply Hstop. unfold last_free. by rewrite last_snoc.
Qed.

Lemma melt_right_loop_ok fuel : forall s C1 k1 b k2 C2 F,
  heap_ok s (C1 ++ (k1 ++ b :: k2) :: C2) F -> b_st b = Limbo -> settled_list k2 ->
  (length k2 < fuel)%nat ->
  wp (melt_right_loop fuel (b_at b)) s (fun r s' => exists b' k2' F', same_rest s s' /\
    r = b_at b' /\ b_st b' = Limbo /\ sep true k2' /\ only_free_gone k2 k2' /\
    heap_ok s' (C1 ++ (k1 ++ b' :: k2') :: C2) F').
Proof.
  induction fuel as [|fuel IH]; intros s C1 k1 b k2 C2 F HK Hst Hset Hlen; [lia|]. cbn [melt_right_loop].
  pose proof (mid_tag _ _ _ _ _ _ _ HK) as (t & Ht & _ & _ & _ & A4 & _).
  pose proof (co_sep _ _ _ (mid_chain _ _ _ _ _ HK)) as (_ & _ & Hsep)%sep_mid.
  wp_step. eapply wp_tag_at; [exact Ht|].
  assert (sep true k2 -> wp (mret (b_at b)) s (fun r s' => exists b' k2' F', same_rest s s' /\
    r = b_at b' /\ b_st b' = Limbo /\ sep true k2' /\ only_free_gone k2 k2' /\
    heap_ok s' (C1 ++ (k1 ++ b' :: k2') :: C2) F')) as Hstop.
  { intros Hs. wp_step. exists b, k2, F. repeat (split; [done|]). split; [apply only_free_gone_refl|done]. }
  rewrite A4. destruct k2 as [|r k2]; [by apply Hstop|]. change (first_at (r :: k2) 0) with (b_at r).
  assert (in_heap (C1 ++ (k1 ++ b :: r :: k2) :: C2) r) as Hr.
  { rewrite in_heap_others. right. right. left. left. }
  assert (r ∈ k1 ++ b :: r :: k2) as Hin by (rewrite elem_of_app; right; right; left).
  destruct (chain_bounds _ _ _ r (mid_chain _ _ _ _ _ HK) Hin) as (Hpos & _).
  destruct (cseg_present _ _ _ _ _ (co_tags _ _ _ (mid_chain _ _ _ _ _ HK)) Hin) as (tr & Htr).
  destruct (Z.eqb_spec (b_at r) 0); [lia|]. wp_step. eapply wp_tag_at; [exact Htr|].
  rewrite (settled_index _ _ _ _ _ HK Hr Htr) by (apply Hset; left).
  destruct (is_free r) eqn:Ef.
  - assert (b_st r = Free) as Hrf by (unfold is_free in Ef; by destruct (b_st r)).
    wp_step. eapply wp_mono; [eapply (absorb_right_ok s C1 k1 b r k2 C2 F); done|].
    intros x s1 (-> & tg & hs & F1 & -> & HK1). cbv beta.
    change (b_at b) with (b_at (Blk (b_at b) (b_len b + b_len r) Limbo)).
    eapply wp_mono; [eapply IH; [exact HK1|done| |]|].
    + intros b0 Hb0. apply Hset. by right.
    + simpl in Hlen. lia.
    + intros x s2 (b' & k2' & F' & HR & -> & Hst' & Hs' & Hgone & HK2). exists b', k2', F'.
      split; [exact HR|]. repeat (split; [done|]). split; [|done].
      intros b0. destruct (Hgone b0) as [G1 G2]. rewrite elem_of_cons. split; [tauto|].
      intros [->|?]; [by left|tauto].
  - apply Hstop. simpl in Hsep |- *. rewrite Ef in *. tauto.
Qed.

(** ** Releasing a whole block *)

(** A chain less, and its tags. *)
Lemma heap_drop s C1 b C2 F src n :
  heap_ok s (C1 ++ [b] :: C2) F -> b_st b <> Free -> b_len b = 4096 * n ->
  pages_inv src -> (forall q m, region src q m <-> region (source s) q m /\ q <> b_at b) ->
  heap_ok (with_tags (filter (fun '(a, _) => ~ b_at b <= a < b_at b + 4096 * n) (tags s))
    (with_source src s)) (C1 ++ C2) F.
Proof.
  intros HK Hst Hlen Hi Hreg.
  set (T := filter (fun '(a, _) => ~ b_at b <= a < b_at b + 4096 * n) (tags s)).
  change [b] with ([] ++ b :: []) in HK.
  assert (forall b0, in_heap (C1 ++ C2) b0 -> in_heap (C1 ++ ([] ++ [b]) :: C2) b0) as Hsub.
  { intros b0 Hb0. rewrite in_heap_mid. by right. }
  assert (forall b0, in_heap (C1 ++ C2) b0 -> b_at b0 <> b_at b) as Hne.
  { intros b0 Hb0. eapply mid_other; [exact HK|]. tauto. }
  assert (forall b0, in_heap (C1 ++ C2) b0 -> T !! b_at b0 = tags s !! b_at b0) as Hsame.
  { intros b0 Hb0. unfold T. destruct (tags s !! b_at b0) as [t|] eqn:E.
    - apply map_lookup_filter_Some. split; [done|].
      pose proof (heap_disjoint _ _ _ _ _ HK (Hsub _ Hb0) (mid_in C1 [] b [] C2)) as [->|Hd].
      + by destruct (Hne _ Hb0).
      + destruct Hb0 as (c & Hc & Hb0).
        assert (c ∈ C1 ++ ([] ++ [b]) :: C2) as Hc'.
        { rewrite elem_of_app, elem_of_cons in *. tauto. }
        destruct (chain_bounds _ _ _ _ (hk_chains _ _ _ HK _ Hc') Hb0) as (_ & _ & _ & _ & Hpos%blk_ok_len).
        lia.
    - apply map_lookup_filter_None. by left. }
  split; cbn [source tags l_freePages with_tags with_source].
  - done.
  - eapply lists_ok_fields; [apply HK|]. intros i x Hx.
    pose proof Hx as (b0 & Hb0 & Hf & <- & _)%(hk_free _ _ _ HK).
    rewrite in_heap_mid in Hb0. destruct Hb0 as [->%list_elem_of_singleton|Hb0]; [done|].
    by rewrite Hsame.
  - intros c Hc.
    assert (c ∈ C1 ++ ([] ++ [b]) :: C2) as Hc' by (rewrite elem_of_app, elem_of_cons in *; tauto).
    destruct (hk_chains _ _ _ HK _ Hc') as [K1 K2 K3 K4 K5 (m & K6 & K7)]. split; try done.
    + eapply cseg_like; [|exact K1]. intros b0 Hb0. unfold like. rewrite Hsame; [done|]. by exists c.
    + exists m. split; [|done]. apply Hreg. split; [done|].
      destruct c as [|b0 c]; [unfold first_at in K4; simpl in K4; lia|]. unfold first_at. simpl.
      apply Hne. exists (b0 :: c). split; [done|left].
  - pose proof (hk_bases _ _ _ HK) as Hnd. rewrite fmap_app, fmap_cons in Hnd. rewrite fmap_app.
    apply NoDup_ListNoDup. eapply NoDup_remove_1. apply NoDup_ListNoDup. exact Hnd.
  - intros i a. rewrite (hk_free _ _ _ HK). split; intros (b0 & Hb0 & Hf & Hrest); exists b0.
    + rewrite in_heap_mid in Hb0. destruct Hb0 as [->%list_elem_of_singleton|Hb0]; done.
    + split; [by apply Hsub|done].
  - intros b0 Hb0 Hf. unfold links. rewrite Hsame by done. apply (hk_links _ _ _ HK); [by apply Hsub|done].
Qed.

Lemma release_block_ok `{!PageReleaseLaws PS} s C1 b C2 F :
  heap_ok s (C1 ++ [b] :: C2) F -> b_st b <> Free ->
  wp (release_block (b_at b)) s (fun _ s' => heap_ok s' (C1 ++ C2) F /\
    l_initialized s' = l_initialized s /\ l_completePages s' = l_completePages s /\
    forall x, ~ b_at b <= x < b_at b + b_len b -> memory (source s') !! x = memory (source s) !! x).
Proof.
  intros HK Hst. change [b] with ([] ++ b :: []) in HK.
  pose proof (mid_tag _ _ _ _ _ _ _ HK) as (t & Ht & _ & A2 & _).
  pose proof (mid_chain _ _ _ _ _ HK) as Hc. destruct (co_region _ _ _ Hc) as (n & Hr & Htot & Hn).
  unfold first_at in Hr. simpl in Hr, Htot. rewrite Z.add_0_r in Htot.
  unfold release_block. wp_step. eapply wp_tag_at; [exact Ht|]. rewrite A2, Htot. unfold l_pageSize, l_pageCount in *.
  assert (4096 * n / 4096 = n) as Hdiv by (Z.div_mod_to_equations; lia).
  assert (4096 * n mod 4096 = 0) as Hmod by (Z.div_mod_to_equations; lia).
  rewrite Hdiv, Hmod. change (if 0 =? 0 then 0 else 1) with 0. rewrite Z.add_0_r.
  destruct (Z.ltb_spec n 16); [lia|]. wp_step. unfold in_source. wp_step.
  eapply wp_mono; [apply liballoc_free_ok; [apply HK|exact Hr]|]. intros [] src (Hi & Hmem & Hreg).
  rewrite (Z.mul_comm n). wp_step. cbn [tags with_source]. split.
  - eapply (heap_drop s C1 b C2 F src n); done.
  - cbn. split; [done|]. split; [done|]. exact Hmem.
Qed.

(** ** [free] *)

(** What [free] does with the merged block. *)
Definition put_back (tag : Z) : M (la_state PS) unit :=
  t ← tag_at tag;
  let idx := Z.max MINEXP (getexp (u32 (real_size t - sizeof_tag))) in
  if (split_left t =? 0) && (split_right t =? 0) then
    c ← complete idx;
    if c =? MAXCOMPLETE then release_block tag
    else _ ← set_complete idx (c + 1); insert_tag tag idx
  else insert_tag tag idx.

(** [free] hands a block back when [MAXCOMPLETE] whole blocks of its exponent stand by:
    then it needs a source that takes regions back. *)
Definition no_release s : Prop := Forall (fun n : Z => n <> MAXCOMPLETE) (l_completePages s).
Definition can_free s : Prop := PageReleaseLaws PS \/ no_release s.

Lemma laws_can_free s : PageReleaseLaws PS -> can_free s.
Proof. by left. Qed.

(** A heap whose blocks in use are those of the chains but [b]. *)
Definition freed s C1 k1 k2 C2 b s' : Prop :=
  (exists C' F', heap_inv s' C' F' /\ forall a m, used C' a m <->
     exists b0, others C1 k1 k2 C2 b0 /\ b_st b0 = Used m /\ b_at b0 = a) /\
  forall x, ~ b_at b <= x < b_at b + b_len b -> memory (source s') !! x = memory (source s) !! x.

Lemma freed_kept s s' C1 k1 b k2 C2 F :
  heap_ok s' (C1 ++ (k1 ++ set_st Free b :: k2) :: C2) F -> l_initialized s' <> 0 ->
  complete_ok (l_completePages s') (C1 ++ (k1 ++ set_st Free b :: k2) :: C2) ->
  settled_but C1 k1 b k2 C2 -> source s' = source s -> freed s C1 k1 k2 C2 b s'.
Proof.
  intros HK Hini Hcp Hset Hsrc. split; [|intros; by rewrite Hsrc].
  exists (C1 ++ (k1 ++ set_st Free b :: k2) :: C2), F. split.
  - split; [done|exact HK|exact Hcp|]. intros b0. rewrite in_heap_others.
    intros [->|Hb0]; [by left|by apply Hset].
  - intros a m. unfold used. split; intros (b0 & Hb0 & Hst & Ha); exists b0.
    + rewrite in_heap_others in Hb0. destruct Hb0 as [->|?]; [done|split; done].
    + rewrite in_heap_others. split; [by right|done].
Qed.

(** The counts after the block has become free. *)
Lemma complete_ok_free cp cp' C1 k1 b k2 C2 :
  complete_ok cp (C1 ++ (k1 ++ b :: k2) :: C2) -> b_st b <> Free ->
  (forall i, 0 <= i < 32 -> whole i (k1 ++ set_st Free b :: k2) = false -> cp' !! Z.to_nat i = cp !! Z.to_nat i) ->
  (forall i, 0 <= i < 32 -> whole i (k1 ++ set_st Free b :: k2) = true -> exists v,
     cp !! Z.to_nat i = Some v /\ v <> MAXCOMPLETE /\ cp' !! Z.to_nat i = Some (v + 1)) ->
  complete_ok cp' (C1 ++ (k1 ++ set_st Free b :: k2) :: C2).
Proof.
  intros Hcp Hst E1 E2 i Hi. destruct (Hcp i Hi) as [Hc Hmax].
  rewrite count_mid, whole_not_free in Hc, Hmax by done. simpl in Hc, Hmax. rewrite count_mid.
  destruct (whole i (k1 ++ set_st Free b :: k2)) eqn:Ew.
  - destruct (E2 i Hi Ew) as (v & Hv & Hne & ->). rewrite Hc in Hv. injection Hv as <-.
    simpl. split; [f_equal; lia|lia].
  - rewrite (E1 i Hi Ew), Hc. simpl. split; [done|lia].
Qed.

Lemma put_back_ok s C1 k1 b k2 C2 F :
  heap_ok s (C1 ++ (k1 ++ b :: k2) :: C2) F -> b_st b = Limbo ->
  last_free false k1 = false -> sep true k2 -> l_initialized s <> 0 ->
  complete_ok (l_completePages s) (C1 ++ (k1 ++ b :: k2) :: C2) ->
  settled_but C1 k1 b k2 C2 -> can_free s ->
  wp (put_back (b_at b)) s (fun _ s' => freed s C1 k1 k2 C2 b s').
Proof.
  intros HK Hst Hk1 Hk2 Hini Hcp Hset Hcan.
  assert (b_st b <> Free) as Hnf by congruence.
  pose proof (mid_tag _ _ _ _ _ _ _ HK) as (t & Ht & _ & A2 & _).
  pose proof (mid_alone _ _ _ _ _ _ _ _ HK Ht) as Halone.
  pose proof (expo_range (b_len b)) as Hi.
  unfold put_back. wp_step. eapply wp_tag_at; [exact Ht|]. rewrite A2. fold (expo (b_len b)).
  assert (forall cp, l_initialized s <> 0 -> 
    complete_ok cp (C1 ++ (k1 ++ set_st Free b :: k2) :: C2) ->
    wp (insert_tag (b_at b) (expo (b_len b))) (with_complete cp s)
      (fun _ s' => freed s C1 k1 k2 C2 b s')) as Hput.
  { intros cp _ Hcp'. assert (heap_ok (with_complete cp s) (C1 ++ (k1 ++ b :: k2) :: C2) F) as HKc
      by by destruct HK; split.
    eapply wp_mono; [apply (put_ok (with_complete cp s) C1 k1 b k2 C2 F); [exact HKc|done..|by left]|].
    intros [] s' (tg & hs & F' & -> & HK'). by eapply freed_kept. }
  destruct ((split_left t =? 0) && (split_right t =? 0)) eqn:Ea.
  - destruct (proj1 Halone eq_refl) as [-> ->]. destruct (Hcp _ Hi) as [Hc Hmax].
    assert (Hget : forall Q, Q (Z.of_nat (count (expo (b_len b)) (C1 ++ ([] ++ [b]) :: C2))) s ->
      wp (complete (expo (b_len b))) s Q).
    { intros Q HQ. unfold wp, complete. destruct (Z.leb_spec 0 (expo (b_len b))); [|lia]. by rewrite Hc. }
    wp_step. apply Hget. destruct (Z.eqb_spec (Z.of_nat (count (expo (b_len b)) (C1 ++ ([] ++ [b]) :: C2)))
      MAXCOMPLETE) as [Hfull|Hne].
    + destruct Hcan as [Hlaws|Hno]; [|by eapply Forall_lookup_1 in Hno; [|exact Hc]].
      eapply wp_mono; [by eapply release_block_ok|]. intros [] s' (HK' & R1 & R2 & Hmem).
      split; [|exact Hmem]. exists (C1 ++ C2), F. split.
      * split; [congruence|exact HK'| |].
        -- intros i Hi'. specialize (Hcp i Hi'). rewrite count_mid, (whole_not_free i [] b []) in Hcp by done.
           simpl in Hcp. by rewrite Nat.add_0_r, <- R2 in Hcp.
        -- intros b0 Hb0. apply Hset. unfold others. tauto.
      * intros a m. unfold used, others. split; intros (b0 & Hb0 & Hrest); exists b0; [tauto|].
        split; [|done]. by destruct Hb0 as [?%elem_of_nil|[?%elem_of_nil|?]].
    + wp_step. unfold set_complete. wp_step. apply Hget. wp_step. apply Hput; [done|].
      eapply complete_ok_free; [exact Hcp|done| |].
      * intros i Hi' Hw. apply list_lookup_insert_ne. intros E. assert (i = expo (b_len b)) as -> by lia.
        simpl in Hw. unfold is_free in Hw. simpl in Hw. by rewrite Z.eqb_refl in Hw.
      * intros i Hi' Hw. apply (whole_alone i [] _ []) in Hw as (_ & _ & _ & E). simpl in E. subst i.
        eexists. split; [exact Hc|]. split; [done|]. apply list_lookup_insert_eq.
        by apply lookup_lt_Some in Hc.
  - assert (s = with_complete (l_completePages s) s) as Hs by by destruct s. rewrite Hs at 1.
    apply Hput; [done|]. eapply complete_ok_free; [exact Hcp|done|done|].
    intros i Hi' (-> & -> & _)%whole_alone. discriminate (proj2 Halone (conj eq_refl eq_refl)).
Qed.

(** What a call of [free] on the block at [a] leaves. *)
Definition free_post s C (a : Z) s' : Prop :=
  exists C', heap_at s' C' /\ (forall a' m, used C' a' m <-> used C a' m /\ a' <> a) /\
    forall a' m x, used C' a' m -> a' <= x < a' + sizeof_tag + m ->
      memory (source s') !! x = memory (source s) !! x.

Lemma free_block_ok s C F b n :
  heap_inv s C F -> in_heap C b -> b_st b = Used n -> can_free s ->
  wp (fuel ← gets (fun s => S (base.size (tags s)));
      tag ← melt_left_loop fuel (b_at b);
      fuel ← gets (fun s => S (base.size (tags s)));
      tag ← melt_right_loop fuel tag;
      put_back tag) s (fun _ s' => free_post s C (b_at b) s').
Proof.
  intros [Hini HK Hcp Hset] Hb Hst Hcan.
  destruct (free_in_chain _ _ Hb) as (C1 & k1 & k2 & C2 & ->). wp_step. wp_step.
  assert (settled_but C1 k1 b k2 C2) as Hbut.
  { intros b0 Hb0. apply Hset. rewrite in_heap_others. by right. }
  assert (k1 ++ b :: k2 ∈ C1 ++ (k1 ++ b :: k2) :: C2) as Hin by (rewrite elem_of_app, elem_of_cons; tauto).
  pose proof (chain_length _ _ _ _ HK Hin) as Hlen. rewrite length_app in Hlen. simpl in Hlen.
  pose proof (limbo_ok _ _ _ _ _ _ _ _ HK Hst) as HK0. wp_step.
  change (b_at b) with (b_at (set_st Limbo b)). eapply wp_mono.
  { eapply melt_left_loop_ok; [exact HK0|done| |lia]. intros b0 ?. apply Hbut. by left. }
  intros r s1 (k1' & b1 & F1 & (S1 & S2 & S3) & -> & Hst1 & Hlast & Hgone1 & HK1). cbv beta. wp_step. wp_step. wp_step.
  assert (k1' ++ b1 :: k2 ∈ C1 ++ (k1' ++ b1 :: k2) :: C2) as Hin1 by (rewrite elem_of_app, elem_of_cons; tauto).
  pose proof (chain_length _ _ _ _ HK1 Hin1) as Hlen1. rewrite length_app in Hlen1. simpl in Hlen1.
  eapply wp_mono.
  { eapply melt_right_loop_ok; [exact HK1|done| |lia]. intros b0 ?. apply Hbut. right. by left. }
  intros r s2 (b2 & k2' & F2 & (S1' & S2' & S3') & -> & Hst2 & Hsep & Hgone2 & HK2). cbv beta.
  assert (forall b0, others C1 k1' k2' C2 b0 -> others C1 k1 k2 C2 b0) as Ho1.
  { intros b0 [?%Hgone1|[?%Hgone2|?]]; unfold others; tauto. }
  eapply wp_mono.
  { eapply put_back_ok; [exact HK2|done|done|done|congruence| | |].
    - rewrite S2', S2. eapply complete_ok_used; [| |exact Hcp]; congruence.
    - intros b0 Hb0. by apply Hbut, Ho1.
    - destruct Hcan as [?|Hno]; [by left|]. right. unfold no_release. by rewrite S2', S2. }
  intros [] s3 [(C' & F' & HI & HC') Hmem]. exists C'. split; [right; by exists F'|].
  split.
  - intros a m. rewrite HC'. unfold used. split.
    + intros (b0 & Hb0 & Hs0 & <-). split.
      * exists b0. rewrite in_heap_others. split; [right; by apply Ho1|done].
      * by eapply (mid_other s C1 k1 b k2 C2 F b0); [exact HK|apply Ho1].
    + intros [(b0 & Hb0 & Hs0 & <-) Hne]. exists b0. split; [|done]. rewrite in_heap_others in Hb0.
      destruct Hb0 as [->|[Hb0|[Hb0|?]]]; [done| | |by right; right].
      * apply Hgone1 in Hb0 as [?|?]; [congruence|by left].
      * apply Hgone2 in Hb0 as [?|?]; [congruence|by right; left].
  - intros a m x Hu Hx. rewrite HC' in Hu. destruct Hu as (b0 & Hb0 & Hs0 & <-).
    rewrite Hmem; [by rewrite S1', S1|].
    assert (in_heap (C1 ++ (k1' ++ b2 :: k2') :: C2) b0) as Hin0 by (rewrite in_heap_others; by right).
    destruct Hin0 as (c & Hc & Hbc).
    destruct (chain_bounds _ _ _ _ (hk_chains _ _ _ HK2 _ Hc) Hbc) as (_ & _ & _ & _ & [_ Hl]).
    rewrite Hs0 in Hl.
    destruct (heap_disjoint _ _ _ _ _ HK2 (ex_intro _ c (conj Hc Hbc)) (mid_in C1 k1' b2 k2' C2)) as [->|]; [|lia].
    by destruct (mid_other _ _ _ _ _ _ _ _ HK2 Hb0).
Qed.

Lemma free_ok s C a n :
  heap_at s C -> used C a n -> a + sizeof_tag < 2 ^ 32 -> can_free s ->
  wp (free (a + sizeof_tag)) s (fun _ s' => free_post s C a s').
Proof.
  intros [[_ ->]|[F HI]] Hu Ha Hcan.
  { by destruct Hu as (b & (c & ?%elem_of_nil & _) & _). }
  pose proof (hi_ok _ _ _ HI) as HK. pose proof (used_block _ _ _ _ _ HK Hu) as (Hpos & _).
  destruct Hu as (b & Hb & Hst & <-). unfold sizeof_tag in *. unfold free.
  destruct (Z.eqb_spec (b_at b + 32) 0); [lia|]. unfold sizeof_tag.
  rewrite wrap_small by (unfold in_width; lia). replace (b_at b + 32 - 32) with (b_at b) by lia.
  destruct (free_in_chain _ _ Hb) as (C1 & k1 & k2 & C2 & E). pose proof HK as HK'. rewrite E in HK'.
  pose proof (mid_tag _ _ _ _ _ _ _ HK') as (t & Ht & A1 & _). wp_step. eapply wp_tag_at; [exact Ht|].
  rewrite A1, Z.eqb_refl. cbn [negb]. by eapply free_block_ok.
Qed.

(** [free] of NULL, and of a pointer whose tag does not carry the magic number. *)
Lemma free_null s : wp (free 0) s (fun _ s' => s' = s).
Proof. done. Qed.

Lemma free_no_magic s p t :
  tags s !! u32 (p - sizeof_tag) = Some t -> magic t <> LIBALLOC_MAGIC ->
  wp (free p) s (fun _ s' => s' = s).
Proof.
  intros Ht Hm. unfold free. destruct (Z.eqb_spec p 0); [done|]. wp_step. eapply wp_tag_at; [exact Ht|].
  by apply Z.eqb_neq in Hm as ->.
Qed.
End Free.
