(* ===== verification/LiballocSpec.v ===== *)
(** * libc/liballoc/liballoc.c: the heap as a map of allocations

    What a client of the heap sees: a finite map from the pointers in use to the
    sizes asked for.  The operations are specified by their effect on that map and on
    the bytes of the blocks. *)

From S2P Require Import Prelude Cstring Liballoc LiballocList LiballocHeap LiballocOps LiballocProofs LiballocFree.

Section Spec.
Context {PS : Type} `{PageSourceLaws PS}.
Implicit Types (s : la_state PS) (A : gmap Z Z).

(** The memory behind the heap. *)
Definition heap_memory s : gmap Z Z := memory (source s).

(** The allocations of the state [s]: a pointer is [sizeof_tag] above its tag. *)
Definition allocated s A : Prop :=
  exists C, heap_at s C /\ (forall p n, A !! p = Some n <-> used C (p - sizeof_tag) n) /\
    forall p n, A !! p = Some n -> p < 2 ^ 32.

(** The blocks of [A], tags included, hold the same bytes. *)
Definition same_blocks A s s' : Prop :=
  forall p n x, A !! p = Some n -> p - sizeof_tag <= x < p + n -> heap_memory s' !! x = heap_memory s !! x.

Lemma allocated_at s C A p n :
  heap_at s C -> (forall p n, A !! p = Some n <-> used C (p - sizeof_tag) n) -> A !! p = Some n ->
  exists F, heap_inv s C F /\ used C (p - sizeof_tag) n.
Proof.
  intros [[_ ->]|[F HI]] HA Hp; apply HA in Hp; [|by exists F].
  by destruct Hp as (b & (c & ?%elem_of_nil & _) & _).
Qed.

Lemma allocated_pages_inv s A : allocated s A -> pages_inv (source s).
Proof. by intros (C & [[[_ Hp] _]|[F HI]] & _); [|apply HI]. Qed.

(** Every byte of a block lies in a region of the page source. *)
Lemma allocated_region s A p n x :
  allocated s A -> A !! p = Some n -> p - sizeof_tag <= x < p + n ->
  exists q m, region (source s) q m /\ q <= x < q + 4096 * m.
Proof.
  intros (C & HC & HA & _) Hp Hx. destruct (allocated_at _ _ _ _ _ HC HA Hp) as (F & HI & Hu).
  destruct (used_block _ _ _ _ _ (hi_ok _ _ _ HI) Hu) as (_ & _ & _ & B4). apply B4. lia.
Qed.

(** Blocks lie in readable memory, behind their tag. *)
Lemma allocated_block s A p n :
  allocated s A -> A !! p = Some n -> sizeof_tag < p /\ 0 <= n /\ p + n <= 2 ^ 32 /\ p < 2 ^ 32 /\
    forall x, p - sizeof_tag <= x < p + n -> is_Some (heap_memory s !! x).
Proof.
  intros HA Hp. pose proof (allocated_pages_inv _ _ HA) as Hpi. destruct HA as (C & HC & HA & Hmax).
  destruct (allocated_at _ _ _ _ _ HC HA Hp) as (F & HI & Hu).
  destruct (used_block _ _ _ _ _ (hi_ok _ _ _ HI) Hu) as (B1 & B2 & B3 & B4).
  specialize (Hmax _ _ Hp). split; [lia|]. split; [lia|]. split; [lia|]. split; [done|].
  intros x Hx. destruct (B4 x) as (q & m & Hq & Hin); [lia|]. by eapply region_memory.
Qed.

Lemma allocated_disjoint s A p n q m :
  allocated s A -> A !! p = Some n -> A !! q = Some m -> p <> q ->
  p + n <= q - sizeof_tag \/ q + m <= p - sizeof_tag.
Proof.
  intros (C & HC & HA & _) Hp Hq Hne.
  destruct (allocated_at _ _ _ _ _ HC HA Hp) as (F & HI & Hu). apply HA in Hq.
  destruct (used_disjoint _ _ _ _ _ _ _ (hi_ok _ _ _ HI) Hu Hq) as [[? _]|Hd]; lia.
Qed.

(** The tag of a block. *)
Lemma allocated_tag s A p n :
  allocated s A -> A !! p = Some n -> exists t, tags s !! u32 (p - sizeof_tag) = Some t /\
    magic t = LIBALLOC_MAGIC /\ tsize t = n.
Proof.
  intros HA Hp. destruct (allocated_block _ _ _ _ HA Hp) as (B1 & _ & _ & B2 & _).
  destruct HA as (C & HC & HA & _). destruct (allocated_at _ _ _ _ _ HC HA Hp) as (F & HI & b & Hb & Hst & He).
  unfold sizeof_tag in *. rewrite wrap_small by (unfold in_width; lia). rewrite <- He.
  destruct (free_in_chain _ _ Hb) as (C1 & k1 & k2 & C2 & ->).
  destruct (mid_tag _ _ _ _ _ _ _ (hi_ok _ _ _ HI)) as (t & Ht & A1 & _ & _ & _ & A2).
  unfold state_ok in A2. rewrite Hst in A2. exists t. split; [done|]. split; [done|]. by destruct A2.
Qed.

(** ** [malloc] and [free] *)

Lemma grown_same_blocks s s' A : allocated s A -> grown (source s) (source s') -> same_blocks A s s'.
Proof.
  intros (C & HC & HA & _) (_ & _ & Hmem) p n x Hp Hx.
  destruct (allocated_at _ _ _ _ _ HC HA Hp) as (F & HI & Hu).
  destruct (used_block _ _ _ _ _ (hi_ok _ _ _ HI) Hu) as (_ & _ & _ & B4).
  destruct (B4 x) as (q & m & Hq & Hin); [lia|]. by eapply Hmem.
Qed.

Definition malloc_spec s A size (p : Z) s' : Prop :=
  same_blocks A s s' /\
  if p =? 0 then allocated s' A
  else A !! p = None /\ allocated s' (<[p := size]> A).

Lemma malloc_spec_ok s A size :
  allocated s A -> 0 <= size -> size + sizeof_tag < 2 ^ 32 ->
  wpp (malloc size) s (malloc_spec s A size) (fun _ => True).
Proof.
  intros HA Hsz Hmax. pose proof HA as (C & HC & HAC & Hlt).
  eapply wpp_mono; [by apply (malloc_ok s C size)| |done].
  intros p s' [Hg Hp]. split; [by apply grown_same_blocks|].
  destruct (Z.eqb_spec p 0) as [->|Hne]; [by exists C|].
  destruct Hp as (Hr & C' & HC' & Hnew & Hu). assert (A !! p = None) as Hnone.
  { destruct (A !! p) as [m|] eqn:E; [|done]. apply HAC in E. by destruct (Hnew m). }
  split; [done|]. exists C'. split; [done|]. split.
  - intros q m. rewrite Hu. destruct (decide (q = p)) as [->|Hq].
    + rewrite lookup_insert_eq. split; [intros [= ->]; by right|].
      intros [Hc|[_ ->]]; [by destruct (Hnew m)|done].
    + rewrite lookup_insert_ne, HAC by done. split; [by left|]. intros [?|[? _]]; [done|lia].
  - intros q m. destruct (decide (q = p)) as [->|Hq]; [lia|]. rewrite lookup_insert_ne by done. apply Hlt.
Qed.

(** ** Writing to the blocks *)

Lemma set_memory_allocated s A m :
  allocated s A -> (forall x, is_Some (heap_memory s !! x) -> is_Some (m !! x)) -> bytes_ok m ->
  allocated (with_source (set_memory m (source s)) s) A.
Proof.
  intros HA Hkeep Hb. destruct (set_memory_ok _ m (allocated_pages_inv _ _ HA) Hkeep Hb) as [Hi Hr].
  destruct HA as (C & HC & HA). exists C. split; [|done]. destruct HC as [[[Hn _] ->]|(F & [H1 H2 H3 H4])].
  - by left.
  - right. exists F. split; [done| |done|done]. apply heap_source; [done|done|]. intros p n Hp. by apply Hr.
Qed.

(** Overwriting bytes that can be read. *)
Lemma written_keeps m m' dest n f :
  written m m' dest n f -> (forall i, 0 <= i < n -> is_Some (f i)) ->
  forall x, is_Some (m !! x) -> is_Some (m' !! x).
Proof. intros Hw Hf x Hx. rewrite Hw. case_decide; [apply Hf; lia|done]. Qed.

(** A routine that overwrites bytes inside the block at [p]. *)
Lemma in_memory_ok {T} (op : M (gmap Z Z) T) s A p size n (r : T) f :
  allocated s A -> A !! p = Some size -> n <= size ->
  (forall i, 0 <= i < n -> exists b, f i = Some b /\ is_u8 b) ->
  wp op (heap_memory s) (fun x m' => x = r /\ written (heap_memory s) m' p n f) ->
  wp (in_memory op) s (fun x s' => x = r /\ allocated s' A /\ same_blocks (delete p A) s s' /\
    l_completePages s' = l_completePages s /\ forall i, 0 <= i < n -> heap_memory s' !! (p + i) = f i).
Proof.
  intros HA Hp Hn Hf Hop. unfold in_memory, in_source. do 2 apply wp_zoom.
  eapply wp_mono; [exact Hop|]. intros x m' [-> Hw]. split; [done|].
  assert (heap_memory (with_source (set_memory m' (source s)) s) = m') as Hm by apply memory_set.
  split; [|split; [|split; [done|]]].
  - apply set_memory_allocated; [done| |].
    + eapply written_keeps; [exact Hw|]. intros i Hi. destruct (Hf i Hi) as (b & -> & _). by eexists.
    + eapply written_ok; [by eapply memory_bytes, allocated_pages_inv|exact Hw|].
      intros i b Hi Hb. destruct (Hf i Hi) as (b' & E & Hu). congruence.
  - intros q k y [Hne Hq]%lookup_delete_Some Hy. rewrite Hm, Hw, decide_False; [done|].
    destruct (allocated_disjoint _ _ _ _ _ _ HA Hp Hq ltac:(done)) as [?|?]; unfold sizeof_tag in *; lia.
  - intros i Hi. rewrite Hm, Hw, decide_True by lia. by replace (p + i - p) with i by lia.
Qed.

(** A state [s'] that keeps the blocks of [A] keeps those of a smaller map. *)
Lemma same_blocks_sub A A' s s' : A' ⊆ A -> same_blocks A s s' -> same_blocks A' s s'.
Proof. intros HA Hs p n x Hp. apply Hs. by eapply lookup_weaken. Qed.

Lemma same_blocks_trans A s s1 s2 : same_blocks A s s1 -> same_blocks A s1 s2 -> same_blocks A s s2.
Proof. intros S1 S2 p n x Hp Hx. by rewrite (S2 p n), (S1 p n). Qed.

(** ** [calloc] *)

Lemma u32_s32 n : 0 <= n < 2 ^ 31 -> u32 (s32 n) = n.
Proof.
  intros Hn. unfold s32. rewrite (wrap_small 32 n) by (unfold in_width; lia).
  destruct (Z.ltb_spec n (2 ^ 31)); [|lia]. apply wrap_small. unfold in_width. lia.
Qed.

Lemma liballoc_memset_ok p v n m :
  p <> 0 -> 0 <= n < 2 ^ 31 ->
  wp (liballoc_memset p v n) m (fun r m' => r = p /\ written m m' p n (fun _ => Some (u8 v))).
Proof.
  intros Hp Hn. pose proof (memset_ok p v n m ltac:(lia)) as Hm. unfold memset in Hm. unfold liballoc_memset.
  destruct (Z.eqb_spec p 0); [done|]. destruct (Z.leb_spec (2 ^ 31) n); [lia|]. exact Hm.
Qed.

Definition calloc_spec s A size (p r : Z) s' : Prop :=
  r = p /\ allocated s' (<[p := size]> A) /\ same_blocks A s s' /\
  forall i, 0 <= i < size -> heap_memory s' !! (p + i) = Some 0.

Lemma calloc_ok s s1 A nobj size p :
  allocated s A -> 0 <= nobj * size < 2 ^ 31 ->
  malloc (nobj * size) s = Ok (p, s1) -> p <> 0 ->
  wp (calloc nobj size) s (calloc_spec s A (nobj * size) p).
Proof.
  intros HA Hn Hm Hp. unfold sizeof_tag in *.
  pose proof (malloc_spec_ok s A (nobj * size) HA ltac:(lia) ltac:(unfold sizeof_tag; lia)) as Hms.
  unfold wpp in Hms. rewrite Hm in Hms. destruct Hms as [Hsame Hms].
  destruct (Z.eqb_spec p 0); [done|]. destruct Hms as [Hnone HA1].
  unfold calloc. rewrite u32_s32 by lia. apply wp_bind. unfold wp at 1. rewrite Hm. apply wp_bind.
  eapply wp_mono.
  { eapply (in_memory_ok _ s1 _ p (nobj * size) (nobj * size) p (fun _ => Some 0)); [exact HA1| |lia| |].
    - apply lookup_insert_eq.
    - intros i _. by exists 0.
    - by apply liballoc_memset_ok. }
  intros r s2 (-> & HA2 & Hs2 & _ & Hz). wp_step. split; [done|]. split; [done|]. split; [|done].
  rewrite delete_insert_id in Hs2 by done. by eapply same_blocks_trans.
Qed.

Definition free_spec s A (p : Z) s' : Prop :=
  allocated s' (delete p A) /\ same_blocks (delete p A) s s'.

Lemma free_spec_ok s A p n :
  allocated s A -> A !! p = Some n -> can_free s -> wp (free p) s (fun _ s' => free_spec s A p s').
Proof.
  intros HA Hp Hcan. destruct (allocated_block _ _ _ _ HA Hp) as (B1 & B2 & B3 & B4 & _).
  destruct HA as (C & HC & HA & Hlt). destruct (allocated_at _ _ _ _ _ HC HA Hp) as (F & _ & Hu).
  assert (p = p - sizeof_tag + sizeof_tag) as E by lia. rewrite E at 1.
  eapply wp_mono; [eapply (free_ok s C (p - sizeof_tag)); [exact HC|exact Hu|lia|exact Hcan]|].
  intros _ s' (C' & HC' & HU & Hmem).
  assert (forall q m, delete p A !! q = Some m <-> used C' (q - sizeof_tag) m) as HA'.
  { intros q m. rewrite HU, lookup_delete_Some, HA. intuition lia. }
  split.
  - exists C'. split; [done|]. split; [exact HA'|]. intros q m [_ Hq]%lookup_delete_Some. by eapply Hlt.
  - intros q m x Hq Hx. apply (Hmem (q - sizeof_tag) m); [by apply HA'|lia].
Qed.

(** ** [realloc] *)

Lemma liballoc_memcpy_ok dest src n m :
  dest <> 0 -> src <> 0 -> 0 <= n < 2 ^ 32 -> bytes_ok m ->
  (forall i, 0 <= i < n -> is_Some (m !! (src + i))) -> dest + n <= src \/ src + n <= dest ->
  wp (liballoc_memcpy dest src n) m (fun r m' => r = dest /\ written m m' dest n (fun i => m !! (src + i))).
Proof.
  intros Hd Hs Hn Hb Hread Hsep. unfold liballoc_memcpy.
  destruct (Z.eqb_spec dest 0); [done|]. destruct (Z.eqb_spec src 0); [done|]. cbn [orb andb].
  assert (4 * (n / 4) <= n < 4 * (n / 4) + 4) as Hq by (Z.div_mod_to_equations; lia).
  wp_step. eapply wp_mono.
  { apply (wp_for _ _ (fun i => copied m dest src (4 * i))); [apply written_nil|].
    intros i m' Hi Hc. apply (copy_dword m dest src n); done || lia. }
  intros [] m1 Hc. rewrite Z.add_0_l, Z2Nat.id in Hc by lia. wp_step. eapply wp_mono.
  { apply (wp_for _ _ (fun i => copied m dest src (4 * (n / 4) + i))); [by rewrite Z.add_0_r|].
    intros i m' Hi Hc'. rewrite <- !Z.add_assoc. eapply wp_mono.
    - apply (copy_byte m dest src n); done || lia.
    - intros ? m'' Hc''. by rewrite (Z.add_assoc (4 * (n / 4))). }
  intros [] m2 Hc2. wp_step. split; [done|].
  by replace (4 * (n / 4) + (0 + Z.of_nat _)) with n in Hc2 by lia.
Qed.

Definition realloc_spec s A p n size (ptr r : Z) s' : Prop :=
  r = ptr /\ allocated s' (<[ptr := size]> (delete p A)) /\ same_blocks (delete p A) s s' /\
  forall i, 0 <= i < Z.min n size -> heap_memory s' !! (ptr + i) = heap_memory s !! (p + i).

Lemma realloc_ok s s1 A p n size ptr :
  allocated s A -> A !! p = Some n -> 0 < size -> size + sizeof_tag < 2 ^ 32 ->
  malloc size s = Ok (ptr, s1) -> ptr <> 0 -> can_free s1 ->
  wp (realloc p size) s (realloc_spec s A p n size ptr).
Proof.
  intros HA Hp Hsz Hmax Hm Hptr Hcan.
  destruct (allocated_block _ _ _ _ HA Hp) as (B1 & B2 & B3 & B4 & B5). unfold sizeof_tag in *.
  pose proof (malloc_spec_ok s A size HA ltac:(lia) ltac:(unfold sizeof_tag; lia)) as Hms.
  unfold wpp in Hms. rewrite Hm in Hms. destruct Hms as [Hsame Hms].
  destruct (Z.eqb_spec ptr 0); [done|]. destruct Hms as [Hnone HA1].
  assert (ptr <> p) as Hne by congruence.
  assert (<[ptr := size]> A !! p = Some n) as Hp1 by by rewrite lookup_insert_ne.
  assert (<[ptr := size]> A !! ptr = Some size) as Hptr1 by apply lookup_insert_eq.
  destruct (allocated_tag _ _ _ _ HA Hp) as (t & Ht & _ & Hts). unfold realloc.
  destruct (Z.eqb_spec size 0); [lia|]. destruct (Z.eqb_spec p 0); [lia|].
  wp_step. eapply wp_tag_at; [exact Ht|]. rewrite Hts.
  assert ((if size <? n then size else n) = Z.min n size) as ->.
  { destruct (Z.ltb_spec size n); lia. }
  apply wp_bind. unfold wp at 1. rewrite Hm. apply wp_bind.
  assert (ptr + Z.min n size <= p \/ p + Z.min n size <= ptr) as Hd.
  { destruct (allocated_disjoint _ _ _ _ _ _ HA1 Hp1 Hptr1 ltac:(done)); unfold sizeof_tag in *; lia. }
  pose proof (memory_bytes _ (allocated_pages_inv _ _ HA1)) as Hbytes.
  destruct (allocated_block _ _ _ _ HA1 Hp1) as (_ & _ & _ & _ & Hread). unfold sizeof_tag in Hread.
  eapply wp_mono.
  { eapply (in_memory_ok _ s1 _ ptr size (Z.min n size) ptr (fun i => heap_memory s1 !! (p + i)));
      [exact HA1|done|lia| |].
    - intros i Hi. destruct (Hread (p + i)) as [b Hb]; [lia|]. exists b. split; [done|exact (Hbytes _ _ Hb)].
    - apply liballoc_memcpy_ok; done || lia || (intros; apply Hread; lia). }
  intros r s2 (-> & HA2 & Hs2 & Hcp & Hcopy). apply wp_bind. eapply wp_mono.
  { eapply free_spec_ok; [exact HA2|done|]. destruct Hcan as [?|Hno]; [by left|]. right. unfold no_release. by rewrite Hcp. }
  intros [] s3 [HA3 Hs3]. wp_step. rewrite delete_insert_ne in HA3, Hs3 by done.
  rewrite delete_insert_id in Hs2 by done.
  split; [done|]. split; [done|]. split.
  - intros q m x Hq Hx. assert (q <> ptr) as Hqp.
    { intros ->. apply lookup_delete_Some in Hq as [_ Hq]. congruence. }
    rewrite (Hs3 q m), (Hs2 q m), (Hsame q m); try done; [by apply lookup_delete_Some in Hq as []..|].
    by rewrite lookup_insert_ne.
  - intros i Hi. rewrite (Hs3 ptr size), Hcopy, (Hsame p n); try done; unfold sizeof_tag; try lia.
    apply lookup_insert_eq.
Qed.
End Spec.
