(* ===== verification/LiballocBump.v ===== *)
(** * A page source that hands out pages in order

    An instance of the interface of the heap to its pages: it shows that the laws can
    hold, and runs the examples. *)

From S2P Require Import Prelude Cstring Liballoc LiballocList LiballocHeap.

(** Bytes, or zeroed pages in front of them: kept as a description, so that a state
    can be computed without the bytes. *)
Inductive bytes : Type :=
| Bytes (m : gmap Z Z)
| Zeroed (len a : Z) (b : bytes).

(** [n] bytes from [a] on are 0. *)
Fixpoint zeros (n : nat) (a : Z) (m : gmap Z Z) : gmap Z Z :=
  match n with O => m | S n' => <[a := 0]> (zeros n' (a + 1) m) end.

Fixpoint bytes_map (b : bytes) : gmap Z Z :=
  match b with Bytes m => m | Zeroed len a b => zeros (Z.to_nat len) a (bytes_map b) end.

(** The next page, the end of the pages, the regions by address and the bytes. *)
Record pages : Type := Pages {
  p_next : Z;
  p_end : Z;
  p_regions : gmap Z Z;
  p_store : bytes
}.
Definition p_bytes (s : pages) : gmap Z Z := bytes_map (p_store s).

Definition bump_alloc (n : Z) : M pages Z := fun s =>
  let len := 4096 * n in
  if p_next s + len <=? p_end s then
    Ok (p_next s, Pages (p_next s + len) (p_end s) (<[p_next s := n]> (p_regions s))
                        (Zeroed len (p_next s) (p_store s)))
  else Ok (0, s).

(** Released pages are not handed out again. *)
Definition bump_free (p n : Z) : M pages unit :=
  modify (fun s => Pages (p_next s) (p_end s) (delete p (p_regions s)) (p_store s)).

#[export] Instance bump_source : PageSource pages := {
  liballoc_alloc := bump_alloc;
  liballoc_free := bump_free;
  memory := p_bytes;
  set_memory := fun m s => Pages (p_next s) (p_end s) (p_regions s) (Bytes m)
}.

Definition bump_boot (limit : Z) : pages := Pages 65536 limit ∅ (Bytes ∅).

(** ** The laws *)

Lemma zeros_lookup n : forall a m x,
  zeros n a m !! x = if decide (a <= x < a + Z.of_nat n) then Some 0 else m !! x.
Proof.
  induction n as [|n IH]; intros a m x; cbn [zeros].
  - by rewrite decide_False by lia.
  - destruct (decide (x = a)) as [->|Hne].
    + rewrite lookup_insert_eq. by rewrite decide_True by lia.
    + rewrite lookup_insert_ne, IH by done. destruct (decide (a + 1 <= x < a + 1 + Z.of_nat n)).
      * by rewrite decide_True by lia.
      * by rewrite decide_False by lia.
Qed.

Lemma zeroed_lookup next e r len a b x :
  0 <= len -> p_bytes (Pages next e r (Zeroed len a b)) !! x =
    if decide (a <= x < a + len) then Some 0 else bytes_map b !! x.
Proof. intros Hl. unfold p_bytes. cbn. by rewrite zeros_lookup, Z2Nat.id. Qed.

Record bump_inv (s : pages) : Prop := {
  bi_next : 0 < p_next s;
  bi_end : p_end s <= 2 ^ 32;
  bi_regions : forall p n, p_regions s !! p = Some n ->
    0 < p /\ 0 < n /\ p + 4096 * n <= p_next s /\ forall x, p <= x < p + 4096 * n -> is_Some (p_bytes s !! x);
  bi_disjoint : forall p n q m, p_regions s !! p = Some n -> p_regions s !! q = Some m -> p < q ->
    p + 4096 * n <= q;
  bi_bytes : bytes_ok (p_bytes s)
}.

Lemma bump_alloc_ok s n : bump_inv s -> 0 < n -> p_next s + 4096 * n <= p_end s ->
  bump_inv (Pages (p_next s + 4096 * n) (p_end s) (<[p_next s := n]> (p_regions s))
                  (Zeroed (4096 * n) (p_next s) (p_store s))).
Proof.
  intros [B1 B2 B3 B4 B5] Hn He. split; cbn [p_next p_end p_regions].
  - lia.
  - done.
  - intros p m [[<- <-]|[Hne Hp]]%lookup_insert_Some.
    + split; [done|]. split; [done|]. split; [lia|]. intros x Hx. rewrite zeroed_lookup, decide_True by lia.
      by exists 0.
    + destruct (B3 _ _ Hp) as (C1 & C2 & C3 & C4). split; [done|]. split; [done|]. split; [lia|].
      intros x Hx. rewrite zeroed_lookup, decide_False by lia. by apply C4.
  - intros p m q k [[<- <-]|[Hne Hp]]%lookup_insert_Some [[<- <-]|[Hne' Hq]]%lookup_insert_Some Hlt.
    + lia.
    + destruct (B3 _ _ Hq) as (_ & ? & ? & _). lia.
    + destruct (B3 _ _ Hp) as (_ & ? & ? & _). lia.
    + by apply (B4 p m q k).
  - intros x b. rewrite zeroed_lookup by lia. case_decide; [intros [= <-]; by split|apply B5].
Qed.

#[export, refine] Instance bump_laws : PageSourceLaws pages := {
  pages_inv := bump_inv;
  region := fun s p n => p_regions s !! p = Some n
}.
Proof.
  - intros s p n q m [B1 B2 B3 B4 B5] Hp Hq. destruct (Z.lt_trichotomy p q) as [Hlt|[Heq|Hlt]].
    + right. left. by apply (B4 p n q m).
    + by left.
    + right. right. by apply (B4 q m p n).
  - intros s p n x [B1 B2 B3 B4 B5] Hp Hx. destruct (B3 _ _ Hp) as (_ & _ & _ & C). by apply C.
  - by intros s [].
  - intros s n HB Hn. unfold wpp. cbn. unfold bump_alloc.
    destruct (Z.leb_spec (p_next s + 4096 * n) (p_end s)) as [Hle|].
    + pose proof (bump_alloc_ok s n HB Hn Hle) as HB'. destruct HB as [B1 B2 B3 B4 B5].
      split; [done|]. destruct (Z.eqb_spec (p_next s) 0); [lia|]. cbn [p_regions memory bump_source].
      split; [done|]. split; [lia|]. split.
      * intros x Hx. by rewrite zeroed_lookup, decide_False by lia.
      * split; [intros p m Hp; destruct (B3 _ _ Hp) as (_ & _ & ? & _); by left|].
        intros p m. rewrite lookup_insert_Some. split.
        -- intros [[-> ->]|[_ ?]]; [by right|by left].
        -- intros [Hp|[-> ->]]; [right|by left]. split; [|done]. destruct (B3 _ _ Hp) as (_ & ? & ? & _). lia.
    + done.
  - done.
  - intros s m [B1 B2 B3 B4 B5] Hk Hb. split; [|done]. split; try done.
    intros p n Hp. destruct (B3 p n Hp) as (C1 & C2 & C3 & C4). repeat (split; [done|]).
    intros x Hx. by apply Hk, C4.
Defined.

#[export] Instance bump_release_laws : PageReleaseLaws pages.
Proof.
  split. intros s p n [B1 B2 B3 B4 B5] Hp. unfold wp. cbn. split; [|split].
  - split; cbn; try done.
    + intros q m [_ Hq]%lookup_delete_Some. by apply B3.
    + intros q m q' m' [_ Hq]%lookup_delete_Some [_ Hq']%lookup_delete_Some. by eapply B4.
  - done.
  - intros q m. rewrite lookup_delete_Some. split; [intros [? ?]; done|intros [? ?]; done].
Qed.

Lemma bump_boot_inv limit : limit <= 2 ^ 32 -> bump_inv (bump_boot limit).
Proof. intros Hl. split; cbn; done. Qed.
