(* ===== verification/LiballocProps.v ===== *)
(** * libc/liballoc: properties of the heap *)

From S2P Require Import Prelude Cstring Liballoc LiballocList LiballocHeap LiballocOps LiballocProofs LiballocFree LiballocSpec LiballocBump.

Section Properties.
Context {PS : Type} `{PageReleaseLaws PS}.
Implicit Types (s : la_state PS) (A : gmap Z Z).

(** A client of the heap: from the first call on, it may allocate, and free what it
    was given. *)
Inductive client : la_state PS -> gmap Z Z -> Prop :=
| client_boot p : pages_inv p -> client (la_boot p) ∅
| client_malloc s A size p s' : client s A -> 0 <= size -> size + sizeof_tag < 2 ^ 32 ->
    malloc size s = Ok (p, s') -> p <> 0 -> client s' (<[p := size]> A)
| client_malloc_null s A size s' : client s A -> 0 <= size -> size + sizeof_tag < 2 ^ 32 ->
    malloc size s = Ok (0, s') -> client s' A
| client_free s A p n s' : client s A -> A !! p = Some n -> free p s = Ok (tt, s') ->
    client s' (delete p A).

Lemma boot_allocated p : pages_inv p -> allocated (la_boot p) ∅.
Proof.
  intros Hp. exists []. split; [by left|]. split; [|by intros ? ? ?%lookup_empty_Some].
  intros q n. split; [by intros ?%lookup_empty_Some|]. by intros (b & (c & ?%elem_of_nil & _) & _).
Qed.

Lemma client_allocated s A : client s A -> allocated s A.
Proof.
  induction 1 as [p Hp|s A size p s' _ IH Hlo Hhi Hm Hp|s A size s' _ IH Hlo Hhi Hm|s A p n s' _ IH Hp Hf].
  - by apply boot_allocated.
  - pose proof (malloc_spec_ok s A size IH Hlo Hhi) as Hw. unfold wpp in Hw. rewrite Hm in Hw.
    destruct Hw as [_ Hw]. apply Z.eqb_neq in Hp. rewrite Hp in Hw. apply Hw.
  - pose proof (malloc_spec_ok s A size IH Hlo Hhi) as Hw. unfold wpp in Hw. rewrite Hm in Hw. apply Hw.
  - pose proof (free_spec_ok s A p n IH Hp (laws_can_free s _)) as Hw. unfold wp in Hw. rewrite Hf in Hw. apply Hw.
Qed.

(** ** Theorems *)

(** C1: [malloc] implements its abstract specification.  From a state whose blocks in use
    are the map [A], it has defined behaviour and terminates: it panics (in the page
    source), returns NULL and leaves [A] as it is, or returns a new pointer, and the
    blocks in use are then [A] with that pointer and the size asked for.  No byte of a
    block in use changes. *)
Theorem malloc_refines s A size :
  allocated s A -> 0 <= size -> size + sizeof_tag < 2 ^ 32 ->
  match malloc size s with
  | Ok (p, s') => same_blocks A s s' /\
      if p =? 0 then allocated s' A else A !! p = None /\ allocated s' (<[p := size]> A)
  | Panic _ => True
  | _ => False
  end.
Proof. exact (malloc_spec_ok s A size). Qed.



(** C17: When its call of [malloc] returns a block, [calloc] clears it and changes no other
    block. *)
Theorem calloc_refines s s1 A nobj size p :
  allocated s A -> 0 <= nobj * size < 2 ^ 31 ->
  malloc (nobj * size) s = Ok (p, s1) -> p <> 0 ->
  exists s', calloc nobj size s = Ok (p, s') /\ allocated s' (<[p := nobj * size]> A) /\
    same_blocks A s s' /\ forall i, 0 <= i < nobj * size -> heap_memory s' !! (p + i) = Some 0.
Proof.
  intros HA Hn Hm Hne. pose proof (calloc_ok s s1 A nobj size p HA Hn Hm Hne) as Hw.
  apply wp_ok in Hw as (r & s' & Hrun & -> & Hs). by exists s'.
Qed.



(** [calloc] and [realloc] do not check the result of [malloc]: when it is NULL and
    there is a byte to write, they write to it. *)
Theorem null_from_malloc_is_written s s1 A p n size nobj osize :
  allocated s A -> A !! p = Some n -> 0 < n -> 0 < size ->
  malloc size s = Ok (0, s1) -> 0 < nobj * osize < 2 ^ 31 -> malloc (nobj * osize) s = Ok (0, s1) ->
  realloc p size s = Undef /\ calloc nobj osize s = Undef.
Proof.
  intros HA Hp Hn Hsz Hm Ho Hm'.
  destruct (allocated_block _ _ _ _ HA Hp) as (B1 & _). unfold sizeof_tag in B1.
  destruct (allocated_tag _ _ _ _ HA Hp) as (t & Ht & _ & Hts). split.
  - unfold realloc. destruct (Z.eqb_spec size 0); [lia|]. destruct (Z.eqb_spec p 0); [lia|].
    unfold mbind, M_bind, tag_at. rewrite Ht, Hts, Hm. unfold in_memory, in_source, zoom, liballoc_memcpy.
    destruct (Z.eqb_spec (if size <? n then size else n) 0) as [E|]; [destruct (Z.ltb_spec size n); lia|done].
  - unfold calloc. rewrite u32_s32 by lia.
    unfold mbind, M_bind. rewrite Hm'. unfold in_memory, in_source, zoom, liballoc_memset.
    destruct (Z.eqb_spec (nobj * osize) 0); [lia|done].
Qed.

(** [getexp] is the position of the highest bit set of a size of at least 256 bytes,
    below 32, and -1 of a smaller one. *)
Theorem getexp_correct size :
  is_u32 size ->
  getexp size < 32 /\ (size < 256 -> getexp size = -1) /\
  (256 <= size -> 8 <= getexp size /\ 2 ^ getexp size <= size < 2 ^ (getexp size + 1)).
Proof.
  intros Hs. split; [by apply getexp_range|]. rewrite getexp_ok by done.
  destruct (Z.ltb_spec size 256); (split; [lia|]); intros; [lia|]. split.
  - by apply (Z.log2_le_mono 256).
  - apply Z.log2_spec. lia.
Qed.

(** The number of pages wraps around for the largest sizes: a request of 4 GB less at
    most 32 bytes is served with 16 pages. *)
Theorem allocate_new_tag_wraps s size p src :
  2 ^ 32 - sizeof_tag <= size < 2 ^ 32 -> liballoc_alloc l_pageCount (source s) = Ok (p, src) -> p <> 0 ->
  exists s', allocate_new_tag size s = Ok (p, s') /\ tsize <$> tags s' !! p = Some size /\
    real_size <$> tags s' !! p = Some 65536.
Proof.
  unfold sizeof_tag. intros Hsz Hal Hp. unfold allocate_new_tag.
  assert (u32 (size + sizeof_tag) = size + 32 - 2 ^ 32) as ->.
  { unfold wrap, sizeof_tag. symmetry. apply (Z.mod_unique _ _ 1); lia. }
  assert ((size + 32 - 2 ^ 32) / l_pageSize = 0) as -> by (apply Z.div_small; unfold l_pageSize; lia).
  match goal with |- context [if ?c <? l_pageCount then l_pageCount else ?c] =>
    assert ((if c <? l_pageCount then l_pageCount else c) = l_pageCount) as -> end.
  { unfold l_pageCount. destruct ((size + 32 - 2 ^ 32) mod l_pageSize =? 0); done. }
  unfold mbind, M_bind, in_source, zoom. rewrite Hal. apply Z.eqb_neq in Hp. rewrite Hp.
  eexists. split; [reflexivity|]. cbn [tags with_tags with_source]. by rewrite lookup_insert_eq.
Qed.

(** [calloc] computes the size of the array modulo 2^32: when the product overflows, it
    returns a block of the remainder, too small for the array. *)
Theorem calloc_overflows s s1 A nobj size p :
  allocated s A -> 2 ^ 32 <= nobj * size -> u32 (nobj * size) < 2 ^ 31 ->
  malloc (u32 (nobj * size)) s = Ok (p, s1) -> p <> 0 ->
  exists s', calloc nobj size s = Ok (p, s') /\ allocated s' (<[p := u32 (nobj * size)]> A) /\
    u32 (nobj * size) < nobj * size.
Proof.
  intros HA Hbig Hsmall Hm Hne. assert (calloc nobj size s = calloc 1 (u32 (nobj * size)) s) as ->.
  { unfold calloc. rewrite Z.mul_1_l. assert (s32 (u32 (nobj * size)) = s32 (nobj * size)) as ->; [|done].
    unfold s32. by rewrite wrap_wrap by lia. }
  pose proof (wrap_range 32 (nobj * size) ltac:(lia)) as Hr. unfold in_width in Hr.
  pose proof (calloc_ok s s1 A 1 (u32 (nobj * size)) p HA) as Hw. rewrite Z.mul_1_l in Hw.
  specialize (Hw ltac:(lia) Hm Hne). apply wp_ok in Hw as (r & s' & Hrun & -> & HA' & _).
  exists s'. split; [done|]. split; [done|lia].
Qed.

(** [free] of NULL, or of a pointer whose tag does not carry the magic number, changes
    nothing. *)
Theorem free_ignores s p t :
  tags s !! u32 (p - sizeof_tag) = Some t -> magic t <> LIBALLOC_MAGIC ->
  free p s = Ok (tt, s) /\ free 0 s = Ok (tt, s).
Proof.
  intros Ht Hm. split; [|done]. pose proof (free_no_magic s p t Ht Hm) as Hw.
  apply wp_ok in Hw as ([] & s' & Hrun & ->). done.
Qed.
End Properties.

(** ** Witnesses: a heap on sixteen megabytes of pages *)

Section Examples.

Definition ex_heap0 : la_state pages := la_boot (bump_boot (2 ^ 24)).

(** The state after a call that returned. *)
Definition after {A} (m : M (la_state pages) A) (s : la_state pages) : la_state pages :=
  match m s with Ok (_, s') => s' | _ => s end.

Definition ex_heap1 : la_state pages := Eval vm_compute in after (malloc 100) ex_heap0.
Definition ex_heap2 : la_state pages := Eval vm_compute in after (malloc 40000) ex_heap1.

Lemma ex_inv : bump_inv (bump_boot (2 ^ 24)).
Proof. by apply bump_boot_inv. Qed.

Lemma ex_malloc1 : malloc 100 ex_heap0 = Ok (65568, ex_heap1).
Proof. reflexivity. Qed.

Lemma ex_malloc2 : malloc 40000 ex_heap1 = Ok (65700, ex_heap2).
Proof. reflexivity. Qed.

Lemma ex_allocated1 : allocated ex_heap1 {[65568 := 100]}.
Proof.
  apply client_allocated. eapply client_malloc; [|lia|done|exact ex_malloc1|lia]. apply client_boot, ex_inv.
Qed.

Lemma ex_client2 : client ex_heap2 {[65700 := 40000; 65568 := 100]}.
Proof.
  eapply client_malloc; [|lia|done|exact ex_malloc2|lia].
  eapply client_malloc; [|lia|done|exact ex_malloc1|lia].
  apply client_boot, ex_inv.
Qed.

Lemma ex_allocated2 : allocated ex_heap2 {[65700 := 40000; 65568 := 100]}.
Proof. apply client_allocated, ex_client2. Qed.

Lemma malloc_refines_witness :
  match malloc 40000 ex_heap1 with
  | Ok (p, s') => p = 65700 /\ allocated s' (<[p := 40000]> {[65568 := 100]})
  | _ => False
  end.
Proof.
  pose proof (malloc_refines ex_heap1 {[65568 := 100]} 40000 ex_allocated1 ltac:(lia) ltac:(done)) as Hm.
  rewrite ex_malloc2 in Hm |- *. split; [reflexivity|apply Hm].
Defined.



Lemma calloc_refines_witness :
  exists s', calloc 25 4 ex_heap0 = Ok (65568, s') /\ heap_memory s' !! (65568 + 99) = Some 0.
Proof.
  destruct (calloc_refines ex_heap0 ex_heap1 ∅ 25 4 65568) as (s' & Hrun & _ & _ & Hz).
  - apply boot_allocated, ex_inv.
  - lia.
  - exact ex_malloc1.
  - lia.
  - exists s'. split; [exact Hrun|]. apply (Hz 99). lia.
Defined.



(** All the pages are taken by the first block. *)
Definition ex_full : la_state pages :=
  Eval vm_compute in after (malloc 100) (la_boot (bump_boot 131072)).

Lemma ex_full_malloc : malloc 100 (la_boot (bump_boot 131072)) = Ok (65568, ex_full).
Proof. reflexivity. Qed.

Lemma ex_full_null : malloc 300 ex_full = Ok (0, ex_full).
Proof. reflexivity. Qed.

Lemma null_from_malloc_is_written_witness :
  realloc 65568 300 ex_full = Undef /\ calloc 3 100 ex_full = Undef.
Proof.
  apply (null_from_malloc_is_written ex_full ex_full {[65568 := 100]} 65568 100); try lia.
  - apply client_allocated. eapply client_malloc; [|lia|done|exact ex_full_malloc|lia].
    apply client_boot. by apply bump_boot_inv.
  - reflexivity.
  - exact ex_full_null.
  - exact ex_full_null.
Defined.

Lemma getexp_correct_witness : getexp 5000 = 12 /\ 2 ^ getexp 5000 <= 5000 < 2 ^ (getexp 5000 + 1).
Proof.
  split; [reflexivity|]. destruct (getexp_correct 5000) as (_ & _ & Hg); [by split|]. apply Hg. lia.
Defined.

Lemma allocate_new_tag_wraps_witness :
  exists s', allocate_new_tag 0xFFFFFFE0 ex_heap0 = Ok (65536, s') /\
    tsize <$> tags s' !! 65536 = Some 0xFFFFFFE0 /\ real_size <$> tags s' !! 65536 = Some 65536.
Proof.
  eapply (allocate_new_tag_wraps ex_heap0 0xFFFFFFE0 65536); [by split|reflexivity|lia].
Defined.

Definition ex_empty_block : la_state pages := Eval vm_compute in after (malloc 0) ex_heap0.

Lemma calloc_overflows_witness : exists s', calloc 65536 65536 ex_heap0 = Ok (65568, s').
Proof.
  destruct (calloc_overflows ex_heap0 ex_empty_block ∅ 65536 65536 65568) as (s' & Hrun & _).
  - apply boot_allocated, ex_inv.
  - lia.
  - done.
  - reflexivity.
  - lia.
  - by exists s'.
Defined.

Definition ex_foreign : la_state pages := with_tags {[65536 := Tag 7 0 0 0 0 0 0 0]} ex_heap0.

Lemma free_ignores_witness : free 65568 ex_foreign = Ok (tt, ex_foreign).
Proof. by apply (free_ignores ex_foreign 65568 (Tag 7 0 0 0 0 0 0 0)). Defined.
End Examples.
