(* ===== verification/Stdlib.v ===== *)
(** * libc/stdlib/stdlib.c, libc/cpp/new.cpp and strdup

    The hooks that put the heap on the kernel's pages, and the callers of the heap in
    the C library. *)

From S2P Require Import Prelude Common Frames Cstring Vm Liballoc LiballocHeap LiballocProofs LiballocSpec LiballocBump LiballocProps.

Section Hooks.
Context {FS : Type} `{FrameAllocator FS} `{Layout}.

(** The hooks of the kernel; the memory of the heap is the memory behind the current
    address space. *)
#[export] Instance kernel_pages : PageSource (vm_state FS) := {
  liballoc_alloc := fun npages => vm_alloc_kpages npages;
  liballoc_free := fun ptr npages => vm_free_kpages npages ptr;
  memory := ram;
  set_memory := with_ram
}.

(** Nothing is locked. *)
Definition liballoc_lock : M (vm_state FS) Z := mret 0.
Definition liballoc_unlock : M (vm_state FS) Z := mret 0.
End Hooks.

Section Callers.
Context {PS : Type} `{PageSource PS}.

Definition operator_new (size : Z) : M (la_state PS) Z := malloc size.
Definition operator_new_array (size : Z) : M (la_state PS) Z := malloc size.
Definition operator_delete (p : Z) : M (la_state PS) unit := free p.
Definition operator_delete_array (p : Z) : M (la_state PS) unit := free p.

(** string.c. *)
Definition strdup (s : Z) : M (la_state PS) Z :=
  len ← in_memory (strlen s);
  dest ← malloc (u32 (len + 1));
  if dest =? 0 then mret 0 else in_memory (memcpy dest s (u32 (len + 1))).
End Callers.

(** ** [strdup] *)

Section Strdup.
Context {PS : Type} `{PageSourceLaws PS}.
Implicit Types (s : la_state PS) (A : gmap Z Z).

Definition strdup_spec s A str k (p : Z) s' : Prop :=
  same_blocks A s s' /\
  if p =? 0 then allocated s' A
  else A !! p = None /\ allocated s' (<[p := k + 1]> A) /\
       forall i, 0 <= i <= k -> heap_memory s' !! (p + i) = heap_memory s !! (str + i).

Lemma strdup_ok s A q n str k :
  allocated s A -> A !! q = Some n -> q <= str -> str + k + 1 <= q + n ->
  cstring (heap_memory s) str k -> k + 1 + sizeof_tag < 2 ^ 32 ->
  wpp (strdup str) s (strdup_spec s A str k) (fun _ => True).
Proof.
  intros HA Hq Hlo Hhi Hstr Hk. pose proof Hstr as (Hk0 & _). unfold sizeof_tag in *.
  set (s0 := with_source (set_memory (heap_memory s) (source s)) s).
  assert (heap_memory s0 = heap_memory s) as Hm0 by apply memory_set.
  assert (allocated s0 A) as HA0.
  { apply set_memory_allocated; [done|done|]. exact (memory_bytes _ (allocated_pages_inv _ _ HA)). }
  unfold strdup. apply wpp_bind. unfold wpp at 1, in_memory at 1, in_source, zoom.
  change (memory (source s)) with (heap_memory s). rewrite (strlen_ok _ str k Hstr) by lia. fold s0. rewrite wrap_small by (unfold in_width; lia).
  apply wpp_bind. eapply wpp_mono; [apply (malloc_spec_ok s0 A (k + 1) HA0); unfold sizeof_tag; lia| |done].
  intros p s1 [Hsame Hms]. cbv beta.
  assert (same_blocks A s s1) as Hsame1.
  { intros r m x Hr Hx. by rewrite (Hsame r m), Hm0. }
  destruct (Z.eqb_spec p 0) as [->|Hne]; [apply wpp_wp, wp_ret; by split|].
  destruct Hms as [Hnone HA1]. apply wpp_wp.
  assert (<[p := k + 1]> A !! q = Some n) as Hq1 by (rewrite lookup_insert_ne; congruence).
  destruct (allocated_block _ _ _ _ HA1 Hq1) as (_ & _ & _ & _ & Hread). unfold sizeof_tag in Hread.
  pose proof (memory_bytes _ (allocated_pages_inv _ _ HA1)) as Hbytes.
  eapply wp_mono.
  { eapply (in_memory_ok _ s1 _ p (k + 1) (k + 1) p (fun i => heap_memory s1 !! (str + i)));
      [exact HA1|apply lookup_insert_eq|lia| |].
    - intros i Hi. destruct (Hread (str + i)) as [b Hb]; [lia|]. exists b. split; [done|exact (Hbytes _ _ Hb)].
    - apply memcpy_ok; [lia|done| | |lia]; [intros i Hi; apply Hread; lia|].
      destruct (allocated_disjoint _ _ _ _ _ _ HA1 Hq1 (lookup_insert_eq A p (k + 1))); unfold sizeof_tag in *;
        [congruence|lia|lia]. }
  intros r s2 (-> & HA2 & Hs2 & _ & Hcopy). unfold strdup_spec. destruct (Z.eqb_spec p 0); [done|].
  rewrite delete_insert_id in Hs2 by done. split; [by eapply same_blocks_trans|]. split; [done|].
  split; [done|]. intros i Hi. rewrite Hcopy by lia. apply (Hsame1 q n); [done|unfold sizeof_tag; lia].
Qed.
(** [strdup] of a string inside a block in use returns NULL, or a new block with a copy
    of the string and its terminator; no block in use changes. *)
Theorem strdup_correct s A q n str k :
  allocated s A -> A !! q = Some n -> q <= str -> str + k + 1 <= q + n ->
  cstring (heap_memory s) str k -> k + 1 + sizeof_tag < 2 ^ 32 ->
  match strdup str s with
  | Ok (p, s') => same_blocks A s s' /\
      if p =? 0 then allocated s' A
      else A !! p = None /\ allocated s' (<[p := k + 1]> A) /\
           forall i, 0 <= i <= k -> heap_memory s' !! (p + i) = heap_memory s !! (str + i)
  | Panic _ => True
  | _ => False
  end.
Proof. exact (strdup_ok s A q n str k). Qed.
End Strdup.

(** ** Witness *)

(** A block of 100 zero bytes is the empty string. *)
Lemma ex_string : cstring (heap_memory ex_heap1) 65568 0.
Proof.
  split; [lia|]. split; [|lia]. unfold heap_memory. cbn [memory bump_source source ex_heap1].
  unfold p_bytes. cbn [p_store bytes_map]. by rewrite zeros_lookup, decide_True by lia.
Qed.

Lemma strdup_correct_witness :
  match strdup 65568 ex_heap1 with Ok (p, s') => p = 0 \/ heap_memory s' !! p = Some 0 | Panic _ => True | _ => False end.
Proof.
  pose proof (strdup_correct ex_heap1 {[65568 := 100]} 65568 100 65568 0 ex_allocated1) as Hd.
  specialize (Hd ltac:(reflexivity) ltac:(lia) ltac:(lia) ex_string ltac:(unfold sizeof_tag; lia)).
  destruct (strdup 65568 ex_heap1) as [[p s']| | |]; [|exact Hd..].
  destruct Hd as [_ Hd]. destruct (Z.eqb_spec p 0) as [->|]; [by left|right].
  destruct Hd as (_ & _ & Hc). rewrite <- (Z.add_0_r p), Hc by lia. apply ex_string.
Defined.

