(* ===== verification/HeapPages.v ===== *)
(** * The pages of the kernel as a source for the heap

    [vm_alloc_kpages] satisfies the laws that the heap assumes of its hooks, once the
    regions handed out are recorded next to the state.  A request that reaches beyond
    the end of the address space panics: the range of free pages after boot is longer
    than the address space. *)

From S2P Require Import Prelude Common Frames Cstring Vm VmList VmRanges VmFree VmPaging VmAlloc VmProps.
From S2P Require Import Liballoc LiballocHeap.

(** ** Requests beyond the end of the address space *)

Section Beyond.
Context {FS : Type} `{FrameAllocatorLaws FS} `{Layout}.
Implicit Types (s : vm_state FS) (a : as_t) (K W : list node).

(** A page behind the last one is the address of a page in the lower half, where no
    page can be mapped. *)
Lemma map_fresh_beyond s a pageno i :
  space_wf s (vm_current_as s) a -> (forall j, j < 0x300 -> as_tables a !! j = None) ->
  frames_inv (frames s) -> 2 ^ 20 <= pageno + i < 2 ^ 20 + 0xC0000 ->
  wpp (map_fresh pageno i) s (fun _ _ => False) (fun _ => True).
Proof.
  intros Hwf Hlow Hi Hb. unfold map_fresh. apply wpp_bind, wpp_wp. unfold in_frames. wp_step.
  eapply wp_mono; [by apply pmm_alloc_one|]. intros [e x] p (Hi' & _ & Hpost). simpl in *.
  apply wpp_bind, wpp_assert; [|done]. intros He%bool_decide_eq_true. subst e. destruct Hpost as [Hx _].
  apply wpp_bind, wpp_wp. wp_step.
  destruct (frame_managed_ok _ _ Hi (frame_available_managed _ _ Hx)) as (B1 & B2 & B3).
  rewrite PAGE_SIZE_val. set (va := u32 _).
  assert (va = (pageno + i - 2 ^ 20) * 4096) as Hva.
  { unfold va, wrap. symmetry. apply (Z.mod_unique _ _ 1); lia. }
  destruct (vm_map_page_panics (with_frames p s) a x va) as [_ Hpanic].
  - by apply space_wf_frames.
  - unfold in_width. lia.
  - unfold in_width. lia.
  - unfold wpp. change (vm_current_as s) with (vm_current_as (with_frames p s)). rewrite Hpanic; [done|done|].
    apply Hlow. rewrite Hva. Z.div_mod_to_equations. lia.
Qed.

Lemma map_fresh_loop_beyond s a pageno n :
  space_wf s (vm_current_as s) a -> (forall j, j < 0x300 -> as_tables a !! j = None) ->
  frames_inv (frames s) -> KERNEL_OFFSET <= pageno * 4096 -> pageno < 2 ^ 20 + 0xC0000 -> (0 < n)%nat ->
  2 ^ 20 < pageno + Z.of_nat n ->
  wpp (for_loop n 0 (map_fresh pageno)) s (fun _ _ => False) (fun _ => True).
Proof.
  intros Hwf Hlow Hi Hlo Hhi Hn Hb. unfold KERNEL_OFFSET in Hlo.
  destruct (Z.le_gt_cases (2 ^ 20) pageno) as [Hge|Hlt].
  - destruct n as [|n]; [lia|]. cbn [for_loop]. apply wpp_bind.
    eapply wpp_mono; [apply (map_fresh_beyond s a); [done..|lia]|done|done].
  - set (k := Z.to_nat (2 ^ 20 - pageno)). replace n with (k + S (n - k - 1))%nat by lia.
    apply wpp_for_app, wpp_bind. eapply wpp_mono.
    { apply (map_fresh_loop k s a pageno 0); [done|done|unfold KERNEL_OFFSET; lia|lia]. }
    2: done. intros [] s1 ((pt & f & ->) & Hwf1 & fs & _ & Ht & _). cbn [for_loop]. apply wpp_bind.
    eapply wpp_mono; [apply (map_fresh_beyond _ a); [exact Hwf1|done|apply Ht|lia]|done|done].
Qed.

(** A request is served from the lowest run within the address space, or panics. *)
Lemma vm_alloc_kpages_total s K W q pages :
  vm_inv s K W q -> upper_half s -> (forall p, free_page K p -> p < 2 ^ 20 + 0xC0000) -> 0 < pages ->
  wpp (vm_alloc_kpages pages) s
    (fun ptr s' => exists pn fs, pn + pages <= 2 ^ 20 /\ kpages s s' K W q pages ptr pn fs) (fun _ => True).
Proof.
  intros HI Hup Hbound Hp. pose proof HI as [(a & Hwf & Hcr3) Hfi HL Hc Hk].
  pose proof (vm_reserve_ok _ _ _ s _ _ _ pages HL) as Hres. rewrite with_lists_id in Hres.
  apply wp_ok in Hres as (r & s1 & Hrun & k & w & h & K' & W' & q' & -> & HL' & Hnew & Hpost).
  destruct (reserve_post_free _ _ _ _ _ _ _ _ Hc Hp Hpost) as [Hc' Hr].
  destruct r as [pn|].
  2: { unfold wpp, vm_alloc_kpages, mbind, M_bind. by rewrite Hrun. }
  destruct Hr as [[Hfree Hlow] _]. destruct (Z.le_gt_cases (pn + pages) (2 ^ 20)) as [Hle|Hgt].
  - eapply wpp_mono; [apply (vm_alloc_kpages_ok s K W q pages HI Hp)| |done].
    + intros pn' [Hfree' Hlow']. assert (pn = pn') as <- by (apply Z.le_antisymm; auto). done.
    + intros ptr s' (pn' & fs & HK). exists pn', fs. split; [|done].
      destruct (kp_run _ _ _ _ _ _ _ _ _ HK) as [Hfree' Hlow'].
      assert (pn = pn') as <- by (apply Z.le_antisymm; auto). done.
  - assert (free_page K pn) as Hpn by (apply Hfree; lia).
    unfold wpp, vm_alloc_kpages, mbind at 1, M_bind at 1. rewrite Hrun. apply wpp_bind.
    eapply wpp_mono; [apply (map_fresh_loop_beyond _ a)|done|done].
    + destruct Hwf. by split.
    + intros j Hj. exact (Hup a j (sw_space _ _ _ Hwf) Hj).
    + exact Hfi.
    + by apply Hk.
    + by apply Hbound.
    + lia.
    + lia.
Qed.
End Beyond.

(** ** Regions recorded next to the state *)

Record recorded {FS : Type} : Type := Recorded { r_vm : vm_state FS; r_regions : gmap Z Z }.
Arguments recorded : clear implicits.
Arguments Recorded {FS}.

Section Recorded.
Context {FS : Type} `{FrameAllocator FS} `{Layout}.

Definition with_r_vm (v : vm_state FS) (s : recorded FS) : recorded FS := Recorded v (r_regions s).
Definition record_regions (f : gmap Z Z -> gmap Z Z) : M (recorded FS) unit :=
  modify (fun s => Recorded (r_vm s) (f (r_regions s))).

#[export] Instance recorded_pages : PageSource (recorded FS) := {
  liballoc_alloc := fun npages =>
    p ← zoom r_vm with_r_vm (vm_alloc_kpages npages);
    _ ← record_regions (<[p := npages]>); mret p;
  liballoc_free := fun ptr npages =>
    _ ← zoom r_vm with_r_vm (vm_free_kpages npages ptr); record_regions (delete ptr);
  memory := fun s => ram (r_vm s);
  set_memory := fun m s => with_r_vm (with_ram m (r_vm s)) s
}.
End Recorded.

Section Laws.
Context {FS : Type} `{FrameAllocatorLaws FS} `{Layout}.
Implicit Types (s : vm_state FS) (K W : list node) (R : gmap Z Z).

(** The page [k] lies in a region that was handed out. *)
Definition held_page R (k : Z) : Prop := exists p n, R !! p = Some n /\ p <= k * 4096 < p + 4096 * n.

(** The regions lie in readable memory of the kernel's half, apart from each other
    and from the free pages; each of their pages is mapped to a frame of its own. *)
Record record_inv s R : Prop := {
  ri_vm : exists K W q, vm_inv s K W q /\ (forall p, free_page K p -> p < 2 ^ 20 + 0xC0000) /\
    forall k, held_page R k -> ~ free_page K k;
  ri_upper : upper_half s;
  ri_bytes : bytes_ok (ram s);
  ri_region : forall p n, R !! p = Some n -> 0 < p /\ 0 < n /\ p mod 4096 = 0 /\ p + 4096 * n <= 2 ^ 32 /\
    forall x, p <= x < p + 4096 * n -> is_Some (ram s !! x);
  ri_disjoint : forall p n q m, R !! p = Some n -> R !! q = Some m ->
    p = q \/ p + 4096 * n <= q \/ q + 4096 * m <= p;
  ri_frame : forall k, held_page R k -> exists f,
    frame_managed (frames s) f /\ ~ frame_available (frames s) f /\
    forall v, is_u32 v -> v / 4096 = k -> mmu s v = Some (f + v mod 4096);
  ri_inj : forall k k', held_page R k -> held_page R k' ->
    mmu s (k * 4096) = mmu s (k' * 4096) -> k = k'
}.

Lemma held_insert R p n k :
  R !! p = None -> held_page (<[p := n]> R) k <-> p <= k * 4096 < p + 4096 * n \/ held_page R k.
Proof.
  intros Hp. split.
  - intros (q & m & [[<- <-]|[Hne Hq]]%lookup_insert_Some & Hk); [by left|right; by exists q, m].
  - intros [Hk|(q & m & Hq & Hk)]; [exists p, n|exists q, m; split; [|done]].
    + split; [apply lookup_insert_eq|done].
    + rewrite lookup_insert_ne by (intros ->; congruence). done.
Qed.

Lemma held_u32 s R k : record_inv s R -> held_page R k -> is_u32 (k * 4096).
Proof. intros HI (p & n & Hp & Hk). destruct (ri_region _ _ HI _ _ Hp) as (? & ? & ? & ? & _). unfold in_width. lia. Qed.

(** The new pages. *)
Lemma kpages_frames s s' K W q pages ptr pn fs :
  kpages s s' K W q pages ptr pn fs -> pn + pages <= 2 ^ 20 -> 0 <= pn ->
  forall k, pn <= k < pn + pages -> exists f, fs !! Z.to_nat (k - pn) = Some f /\
    forall v, is_u32 v -> v / 4096 = k -> mmu s' v = Some (f + v mod 4096).
Proof.
  intros HK Hend Hpn k Hk. pose proof (kp_length _ _ _ _ _ _ _ _ _ HK) as Hlen.
  destruct (lookup_lt_is_Some_2 fs (Z.to_nat (k - pn))) as [f Hf]; [lia|]. exists f. split; [done|].
  intros v Hv Hvk. rewrite (kp_mapped _ _ _ _ _ _ _ _ _ HK v Hv), decide_True, Hvk, Hf by lia. done.
Qed.

Lemma kpages_old s s' K W q pages ptr pn fs k v :
  kpages s s' K W q pages ptr pn fs -> ~ free_page K k -> is_u32 v -> v / 4096 = k -> mmu s' v = mmu s v.
Proof.
  intros HK Hk Hv Hvk. rewrite (kp_mapped _ _ _ _ _ _ _ _ _ HK v Hv), (kp_length _ _ _ _ _ _ _ _ _ HK), Hvk.
  rewrite decide_False; [done|]. intros Hin. apply Hk. by apply (kp_run _ _ _ _ _ _ _ _ _ HK).
Qed.

(** Every page, old or new, has a frame of its own. *)
Lemma record_frames s s' R K W q pages pn fs :
  record_inv s R -> (forall k, held_page R k -> ~ free_page K k) ->
  kpages s s' K W q pages (pn * 4096) pn fs -> pn + pages <= 2 ^ 20 -> 0 <= pn -> R !! (pn * 4096) = None ->
  forall k, held_page (<[pn * 4096 := pages]> R) k -> exists f,
    frame_managed (frames s') f /\ ~ frame_available (frames s') f /\
    (forall v, is_u32 v -> v / 4096 = k -> mmu s' v = Some (f + v mod 4096)) /\
    ((exists i, k = pn + Z.of_nat i /\ fs !! i = Some f) \/
     held_page R k /\ ~ frame_available (frames s) f /\ mmu s' (k * 4096) = mmu s (k * 4096)).
Proof.
  intros HI Hheld HK Hend Hpos Hnone k. pose proof (kp_taken _ _ _ _ _ _ _ _ _ HK) as [_ Hman _ Hbefore Hafter].
  rewrite Forall_forall in Hbefore. intros [Hk|Hk]%held_insert; [| |done].
  - destruct (kpages_frames _ _ _ _ _ _ _ _ _ HK Hend Hpos k) as (f & Hf & Hm); [lia|].
    pose proof (list_elem_of_lookup_2 _ _ _ Hf) as Hin. exists f.
    split; [apply Hman, frame_available_managed, Hbefore, Hin|]. split; [by intros [_ ?]%Hafter|].
    split; [done|]. left. exists (Z.to_nat (k - pn)). split; [lia|done].
  - assert (forall v, is_u32 v -> v / 4096 = k -> mmu s' v = mmu s v) as Hold
      by (intros v; by eapply kpages_old, Hheld).
    destruct (ri_frame _ _ HI k Hk) as (f & Hf1 & Hf2 & Hm). exists f. split; [by apply Hman|].
    split; [by intros [? _]%Hafter|]. split; [intros v Hv Hvk; by rewrite (Hold v Hv Hvk), Hm|]. right.
    split; [done|]. split; [done|]. apply Hold; [by apply (held_u32 s R)|apply Z.div_mul; lia].
Qed.

Lemma record_inj s s' R K W q pages pn fs :
  record_inv s R -> (forall k, held_page R k -> ~ free_page K k) ->
  kpages s s' K W q pages (pn * 4096) pn fs -> pn + pages <= 2 ^ 20 -> 0 <= pn -> R !! (pn * 4096) = None ->
  forall k k', held_page (<[pn * 4096 := pages]> R) k -> held_page (<[pn * 4096 := pages]> R) k' ->
    mmu s' (k * 4096) = mmu s' (k' * 4096) -> k = k'.
Proof.
  intros HI Hheld HK Hend Hpos Hnone. pose proof (kp_taken _ _ _ _ _ _ _ _ _ HK) as [_ _ Hnd Hbefore _].
  rewrite Forall_forall in Hbefore. pose proof (kp_length _ _ _ _ _ _ _ _ _ HK) as Hlen.
  assert (forall k, held_page (<[pn * 4096 := pages]> R) k -> is_u32 (k * 4096)) as Hu.
  { intros k [Hk|Hk]%held_insert; [unfold in_width; lia|by apply (held_u32 s R)|done]. }
  intros k k' Hk Hk' Heq.
  destruct (record_frames _ _ _ _ _ _ _ _ _ HI Hheld HK Hend Hpos Hnone k Hk) as (f & _ & _ & Hf & Cf).
  destruct (record_frames _ _ _ _ _ _ _ _ _ HI Hheld HK Hend Hpos Hnone k' Hk') as (g & _ & _ & Hg & Cg).
  pose proof (Hf (k * 4096) (Hu k Hk) (Z.div_mul k 4096 ltac:(lia))) as Ef.
  pose proof (Hg (k' * 4096) (Hu k' Hk') (Z.div_mul k' 4096 ltac:(lia))) as Eg.
  rewrite Z.mod_mul, Z.add_0_r in Ef, Eg by lia. assert (f = g) as <- by congruence.
  destruct Cf as [(i & -> & Hi)|(Rk & Nf & E1)], Cg as [(j & -> & Hj)|(Rk' & Ng & E2)].
  - by rewrite (NoDup_lookup _ _ _ _ Hnd Hi Hj).
  - by apply list_elem_of_lookup_2, Hbefore in Hi.
  - by apply list_elem_of_lookup_2, Hbefore in Hj.
  - apply (ri_inj _ _ HI); [done..|]. congruence.
Qed.

Lemma record_alloc s s' R K W q pages ptr pn fs :
  record_inv s R -> vm_inv s K W q -> (forall p, free_page K p -> p < 2 ^ 20 + 0xC0000) ->
  (forall k, held_page R k -> ~ free_page K k) ->
  kpages s s' K W q pages ptr pn fs -> pn + pages <= 2 ^ 20 -> 0 < pages -> 0 < ptr ->
  (forall p n, R !! p = Some n -> p + 4096 * n <= ptr \/ ptr + 4096 * pages <= p) /\
  record_inv s' (<[ptr := pages]> R).
Proof.
  intros HI Hvm Hbound Hheld HK Hend Hp Hpos. pose proof (kp_ptr _ _ _ _ _ _ _ _ _ HK) as ->.
  pose proof (kp_run _ _ _ _ _ _ _ _ _ HK) as [Hrun _].
  assert (forall p n, R !! p = Some n -> p + 4096 * n <= pn * 4096 \/ pn * 4096 + 4096 * pages <= p) as Hapart.
  { intros p n Hpn. destruct (ri_region _ _ HI _ _ Hpn) as (B1 & B2 & B3 & B4 & _).
    assert (p = p / 4096 * 4096) as Ep by (Z.div_mod_to_equations; lia).
    destruct (Z.le_gt_cases (p + 4096 * n) (pn * 4096)); [by left|]. right.
    destruct (Z.le_gt_cases (pn * 4096 + 4096 * pages) p); [done|]. exfalso.
    apply (Hheld (Z.max pn (p / 4096))); [exists p, n; split; [done|lia]|apply Hrun; lia]. }
  split; [done|].
  assert (R !! (pn * 4096) = None) as Hnone.
  { destruct (R !! (pn * 4096)) as [n|] eqn:Hn; [|done]. destruct (ri_region _ _ HI _ _ Hn) as (_ & ? & _).
    destruct (Hapart _ _ Hn); lia. }
  assert (forall x, is_Some (ram s !! x) \/ pn * 4096 <= x < pn * 4096 + pages * 4096 -> is_Some (ram s' !! x)) as Hmem.
  { intros x Hx. rewrite (kp_filled _ _ _ _ _ _ _ _ _ HK). case_decide; [by eexists|by destruct Hx]. }
  split.
  - destruct (kp_inv _ _ _ _ _ _ _ _ _ HK) as (K' & W' & q' & Hinv & _ & Hf). exists K', W', q'.
    split; [done|]. split; [intros p [Hfp _]%Hf; by apply Hbound|].
    intros k [Hk|Hk]%held_insert [Hfk Hn]%Hf; [lia| |done]. by apply (Hheld k).
  - destruct (kp_spaces _ _ _ _ _ _ _ _ _ HK) as [E1 E2]. intros a i. rewrite E1, E2. apply (ri_upper _ _ HI).
  - intros x b. rewrite (kp_filled _ _ _ _ _ _ _ _ _ HK). case_decide; [intros [= <-]; done|apply (ri_bytes _ _ HI)].
  - intros p n [[<- <-]|[Hne Hpn]]%lookup_insert_Some.
    + split; [done|]. split; [done|]. split; [apply Z.mod_mul; lia|]. split; [lia|]. intros x Hx. apply Hmem. right. lia.
    + destruct (ri_region _ _ HI _ _ Hpn) as (B1 & B2 & B3 & B4 & B5). do 4 (split; [done|]).
      intros x Hx. apply Hmem. left. by apply B5.
  - intros p n q0 m [[<- <-]|[Hne Hpn]]%lookup_insert_Some [[<- <-]|[Hne' Hqm]]%lookup_insert_Some.
    + by left.
    + destruct (Hapart _ _ Hqm); lia.
    + destruct (Hapart _ _ Hpn); lia.
    + by apply (ri_disjoint _ _ HI).
  - intros k Hk. destruct (record_frames _ _ _ _ _ _ _ _ _ HI Hheld HK Hend ltac:(lia) Hnone k Hk)
      as (f & ? & ? & ? & _). by exists f.
  - exact (record_inj _ _ _ _ _ _ _ _ _ HI Hheld HK Hend ltac:(lia) Hnone).
Qed.

Lemma record_memory s R m :
  record_inv s R -> (forall x, is_Some (ram s !! x) -> is_Some (m !! x)) -> bytes_ok m ->
  record_inv (with_ram m s) R.
Proof.
  intros [(K & W & q & HI & Hb & Hh) H2 H3 H4 H5 H6 H7] Hdom Hm. split; try done.
  - exists K, W, q. split; [|done]. destruct HI as [(a & [] & Hc) ? ? ? ?]. split; try done.
    exists a. by split.
  - intros p n Hp. destruct (H4 _ _ Hp) as (B1 & B2 & B3 & B4 & B5). do 4 (split; [done|]).
    intros x Hx. by apply Hdom, B5.
Qed.

Lemma record_alloc_ok (s : recorded FS) n :
  record_inv (r_vm s) (r_regions s) -> 0 < n ->
  wpp (liballoc_alloc n) s (fun r (s' : recorded FS) => record_inv (r_vm s') (r_regions s') /\
    0 < r /\ r + 4096 * n <= 2 ^ 32 /\
    (forall x, ~ r <= x < r + 4096 * n -> ram (r_vm s') !! x = ram (r_vm s) !! x) /\
    (forall p m, r_regions s !! p = Some m -> p + 4096 * m <= r \/ r + 4096 * n <= p) /\
    r_regions s' = <[r := n]> (r_regions s)) (fun _ => True).
Proof.
  intros HI Hn. pose proof (ri_vm _ _ HI) as (K & W & q & Hvm & Hbound & Hheld).
  cbn [liballoc_alloc recorded_pages]. apply wpp_bind, wpp_zoom. eapply wpp_mono;
    [apply (vm_alloc_kpages_total _ K W q n Hvm (ri_upper _ _ HI) Hbound Hn)| |done].
  intros ptr v (pn & fs & Hend & HK). apply wpp_wp. unfold record_regions. do 3 wp_step.
  cbn [r_vm r_regions with_r_vm].
  assert (0 < ptr /\ ptr = pn * 4096) as [Hpos Hptr].
  { pose proof (kp_ptr _ _ _ _ _ _ _ _ _ HK) as ->. split; [|done].
    pose proof (proj1 (kp_run _ _ _ _ _ _ _ _ _ HK) pn ltac:(lia)) as Hf. apply (vi_kernel _ _ _ _ Hvm) in Hf.
    unfold KERNEL_OFFSET in Hf. lia. }
  destruct (record_alloc _ _ _ _ _ _ _ _ _ _ HI Hvm Hbound Hheld HK Hend Hn Hpos) as [Hapart HI'].
  split; [done|]. split; [done|]. split; [lia|]. split; [|done].
  intros x Hx. rewrite (kp_filled _ _ _ _ _ _ _ _ _ HK), decide_False by lia. done.
Qed.

#[export] Program Instance recorded_laws : PageSourceLaws (recorded FS) := {
  pages_inv := fun (s : recorded FS) => record_inv (r_vm s) (r_regions s);
  region := fun (s : recorded FS) p n => r_regions s !! p = Some n
}.
Next Obligation. intros t p n q m HI Hp Hq. by apply (ri_disjoint _ _ HI). Qed.
Next Obligation. intros t p n x HI Hp Hx. by apply (ri_region _ _ HI _ _ Hp). Qed.
Next Obligation. intros t HI. apply (ri_bytes _ _ HI). Qed.
Next Obligation.
  intros t n HI Hn. eapply wpp_mono; [by apply record_alloc_ok| |done].
  intros r s' (HI' & Hr & Hend & Hmem & Hapart & HR). split; [done|]. rewrite (proj2 (Z.eqb_neq r 0)) by lia.
  split; [done|]. split; [done|]. split; [done|]. split; [done|]. intros p m. rewrite HR, lookup_insert_Some. split.
  - intros [[-> ->]|[_ Hp]]; [by right|by left].
  - intros [Hp|[-> ->]]; [|by left]. right. split; [|done]. intros ->.
    destruct (ri_region _ _ HI _ _ Hp) as (_ & ? & _). destruct (Hapart _ _ Hp); lia.
Qed.
Next Obligation. done. Qed.
Next Obligation. intros t m HI Hdom Hm. split; [by apply record_memory|done]. Qed.
End Laws.
