(* ===== verification/HeapErase.v ===== *)
(** * libc/liballoc: two page sources that behave alike

    When one page source is the image of another, the heap behaves alike on both: an
    operation on the second heap is the image of the operation on the first.  So facts
    about the heap on a source with recorded regions hold of the heap on the kernel's
    pages, where nothing is recorded. *)

From S2P Require Import Prelude Common Frames Cstring Vm Liballoc.

(** The outcome of an operation, with the state mapped. *)
Definition image {S T A} (e : S -> T) (r : res (A * S)) : res (A * T) :=
  match r with
  | Ok (a, s) => Ok (a, e s)
  | Panic why => Panic why
  | Undef => Undef
  | NoFuel => NoFuel
  end.

Section Images.
Context {S T : Type} (e : S -> T).

(** [m'] does on the image what [m] does. *)
Definition erases {A} (m : M S A) (m' : M T A) : Prop := forall s, m' (e s) = image e (m s).

Lemma erases_ret {A} (a : A) : erases (mret a) (mret a).
Proof. done. Qed.

Lemma erases_undef {A} : erases (undef : M S A) undef.
Proof. done. Qed.

Lemma erases_nofuel {A} : erases (nofuel : M S A) nofuel.
Proof. done. Qed.

Lemma erases_bind {A B} (m : M S A) m' (k : A -> M S B) k' :
  erases m m' -> (forall a, erases (k a) (k' a)) -> erases (m ≫= k) (m' ≫= k').
Proof.
  intros Hm Hk s. unfold mbind, M_bind. rewrite Hm. destruct (m s) as [[a s']| | |]; [apply Hk|done..].
Qed.

Lemma erases_gets {A} (f : S -> A) f' : (forall s, f' (e s) = f s) -> erases (gets f) (gets f').
Proof. intros Hf s. unfold gets. simpl. by rewrite Hf. Qed.

Lemma erases_modify f f' : (forall s, f' (e s) = e (f s)) -> erases (modify f) (modify f').
Proof. intros Hf s. unfold modify. simpl. by rewrite Hf. Qed.

(** An operation on a part of the state. *)
Lemma erases_zoom {P Q A} (f : P -> Q) (get : S -> P) set get' set' (m : M P A) (m' : M Q A) :
  (forall s, get' (e s) = f (get s)) -> (forall p s, set' (f p) (e s) = e (set p s)) ->
  (forall p, m' (f p) = image f (m p)) -> erases (zoom get set m) (zoom get' set' m').
Proof.
  intros Hg Hs Hm s. unfold zoom. rewrite Hg, Hm. destruct (m (get s)) as [[a p]| | |]; [|done..].
  simpl. by rewrite Hs.
Qed.
End Images.

Create HintDb erase discriminated.
#[export] Hint Resolve erases_ret erases_undef erases_nofuel : erase.

(** The structure of an operation, branch by branch. *)
Ltac erase_step :=
  first
    [ solve [auto with erase]
    | apply erases_bind; [|intros ?]
    | match goal with |- erases _ (if ?b then _ else _) _ => destruct b end
    | progress cbv zeta ].
Ltac erase := repeat erase_step.

(** ** The heap *)

Section Heap.
Context {P Q : Type} `{PageSource P} `{PageSource Q} (f : P -> Q).
Hypothesis (Halloc : forall n p, liballoc_alloc n (f p) = image f (liballoc_alloc n p)).
Hypothesis (Hfree : forall a n p, liballoc_free a n (f p) = image f (liballoc_free a n p)).
Hypothesis (Hmemory : forall p, memory (f p) = memory p).
Hypothesis (Hset : forall m p, set_memory m (f p) = f (set_memory m p)).

Definition heap_image (s : la_state P) : la_state Q :=
  {| l_freePages := l_freePages s; l_completePages := l_completePages s;
     l_initialized := l_initialized s; tags := tags s; source := f (source s) |}.

Lemma tag_at_erases p : erases heap_image (tag_at p) (tag_at p).
Proof. intros s. unfold tag_at. simpl. by destruct (tags s !! p). Qed.

Lemma put_tag_erases p t : erases heap_image (put_tag p t) (put_tag p t).
Proof. done. Qed.

Lemma free_head_erases i : erases heap_image (free_head i) (free_head i).
Proof. intros s. unfold free_head. destruct (0 <=? i); [|done]. simpl. by destruct (l_freePages s !! _). Qed.

Lemma complete_erases i : erases heap_image (complete i) (complete i).
Proof. intros s. unfold complete. destruct (0 <=? i); [|done]. simpl. by destruct (l_completePages s !! _). Qed.

Lemma modify_erases g g' :
  (forall s, g' (heap_image s) = heap_image (g s)) -> erases heap_image (modify g) (modify g').
Proof. apply erases_modify. Qed.

Lemma in_source_erases {A} (m : M P A) m' :
  (forall p, m' (f p) = image f (m p)) -> erases heap_image (in_source m) (in_source m').
Proof. intros Hm. by apply erases_zoom with (f := f). Qed.

Lemma in_memory_erases {A} (m : M (gmap Z Z) A) : erases heap_image (in_memory m) (in_memory m).
Proof.
  apply in_source_erases. intros p. unfold zoom. rewrite Hmemory.
  destruct (m (memory p)) as [[a x]| | |]; [|done..]. simpl. by rewrite Hset.
Qed.

#[local] Hint Resolve tag_at_erases put_tag_erases free_head_erases complete_erases in_memory_erases : erase.
#[local] Hint Extern 1 (erases _ (modify _) (modify _)) => apply modify_erases; reflexivity : erase.
#[local] Hint Extern 1 (erases _ (gets _) (gets _)) => apply erases_gets; reflexivity : erase.
#[local] Hint Extern 1 (erases _ (in_source (liballoc_alloc _)) _) => apply in_source_erases, Halloc : erase.
#[local] Hint Extern 1 (erases _ (in_source (liballoc_free _ _)) _) => apply in_source_erases, Hfree : erase.

Lemma upd_tag_erases p g : erases heap_image (upd_tag p g) (upd_tag p g).
Proof. unfold upd_tag. erase. Qed.
Lemma set_free_head_erases i p : erases heap_image (set_free_head i p) (set_free_head i p).
Proof. unfold set_free_head. erase. Qed.
Lemma set_complete_erases i c : erases heap_image (set_complete i c) (set_complete i c).
Proof. unfold set_complete. erase. Qed.
#[local] Hint Resolve upd_tag_erases set_free_head_erases set_complete_erases : erase.

Lemma insert_tag_erases t i : erases heap_image (insert_tag t i) (insert_tag t i).
Proof. unfold insert_tag. erase. Qed.
Lemma remove_tag_erases t : erases heap_image (remove_tag t) (remove_tag t).
Proof. unfold remove_tag. erase. Qed.
Lemma melt_left_erases t : erases heap_image (melt_left t) (melt_left t).
Proof. unfold melt_left. erase. Qed.
#[local] Hint Resolve insert_tag_erases remove_tag_erases melt_left_erases : erase.

Lemma absorb_right_erases t : erases heap_image (absorb_right t) (absorb_right t).
Proof. unfold absorb_right. erase. Qed.
Lemma split_tag_erases t : erases heap_image (split_tag t) (split_tag t).
Proof. unfold split_tag. erase. Qed.
Lemma allocate_new_tag_erases n : erases heap_image (allocate_new_tag n) (allocate_new_tag n).
Proof. unfold allocate_new_tag. erase. Qed.
Lemma find_tag_erases n : forall t size, erases heap_image (find_tag n t size) (find_tag n t size).
Proof. induction n as [|n IH]; intros t size; cbn [find_tag]; erase. Qed.
Lemma initialize_erases : erases heap_image initialize initialize.
Proof. unfold initialize. erase. Qed.
#[local] Hint Resolve absorb_right_erases split_tag_erases allocate_new_tag_erases find_tag_erases initialize_erases : erase.

Lemma split_excess_erases t n : erases heap_image (split_excess t n) (split_excess t n).
Proof. unfold split_excess. erase. Qed.
#[local] Hint Resolve split_excess_erases : erase.

Lemma malloc_erases size : erases heap_image (malloc size) (malloc size).
Proof. unfold malloc. erase. Qed.

Lemma melt_left_loop_erases n : forall t, erases heap_image (melt_left_loop n t) (melt_left_loop n t).
Proof. induction n as [|n IH]; intros t; cbn [melt_left_loop]; erase. Qed.
Lemma melt_right_loop_erases n : forall t, erases heap_image (melt_right_loop n t) (melt_right_loop n t).
Proof. induction n as [|n IH]; intros t; cbn [melt_right_loop]; erase. Qed.
Lemma release_block_erases t : erases heap_image (release_block t) (release_block t).
Proof. unfold release_block. erase. Qed.
#[local] Hint Resolve malloc_erases melt_left_loop_erases melt_right_loop_erases release_block_erases : erase.

Lemma free_erases p : erases heap_image (free p) (free p).
Proof. unfold free. erase. Qed.
#[local] Hint Resolve free_erases : erase.

Lemma calloc_erases n size : erases heap_image (calloc n size) (calloc n size).
Proof. unfold calloc. erase. Qed.
Lemma realloc_erases p size : erases heap_image (realloc p size) (realloc p size).
Proof. unfold realloc. erase. Qed.
End Heap.
