(* ===== verification/KernelHeap.v ===== *)
(** * The heap of the kernel

    liballoc on the kernel's pages (libc/stdlib/stdlib.c), on vm.c, on the buddy
    allocator of pmm.c: all the layers of the memory in one state.  A release of pages
    corrupts the frame allocator ([vm_free_kpages_frees_used_frame]), so [free] and
    [realloc] are followed as long as the heap keeps what is freed: it hands a block back
    when [MAXCOMPLETE] whole blocks of the same exponent stand by. *)

From S2P Require Import Prelude Common Frames Cstring Vm VmList VmFree VmPaging VmInit VmAlloc VmProps.
From S2P Require Import Liballoc LiballocHeap LiballocFree LiballocSpec LiballocProps Stdlib HeapPages HeapErase.
From S2P Require Pmm PmmFrames.

Section Client.
Context {FS : Type} `{FrameAllocatorLaws FS} `{Layout}.
Implicit Types (v : vm_state FS) (s : la_state (vm_state FS)) (A : gmap Z Z).

(** A user of the heap, from the first call on: it allocates, writes to the blocks it was
    given, resizes them and frees them while no block is handed back to the pages. *)
Inductive heap_user (v : vm_state FS) : la_state (vm_state FS) -> gmap Z Z -> Prop :=
| user_boot : heap_user v (la_boot v) ∅
| user_malloc s A size p s' : heap_user v s A -> 0 <= size -> size + sizeof_tag < 2 ^ 32 ->
    malloc size s = Ok (p, s') -> heap_user v s' (if p =? 0 then A else <[p := size]> A)
| user_calloc s A nobj size p s' : heap_user v s A -> 0 <= nobj * size < 2 ^ 31 ->
    calloc nobj size s = Ok (p, s') -> p <> 0 -> heap_user v s' (<[p := nobj * size]> A)
| user_store s A p n i b s' : heap_user v s A -> A !! p = Some n -> 0 <= i < n ->
    in_memory (store8 (p + i) b) s = Ok (tt, s') -> heap_user v s' A
| user_free s A p n s' : heap_user v s A -> A !! p = Some n -> no_release s ->
    free p s = Ok (tt, s') -> heap_user v s' (delete p A)
| user_realloc s A p n size q s1 s' : heap_user v s A -> A !! p = Some n -> 0 < size ->
    size + sizeof_tag < 2 ^ 32 -> malloc size s = Ok (q, s1) -> q <> 0 -> no_release s1 ->
    realloc p size s = Ok (q, s') -> heap_user v s' (<[q := size]> (delete p A)).

(** The same heap on pages that are recorded. *)
Definition tracked s A : Prop :=
  exists t : la_state (recorded FS), s = heap_image r_vm t /\ allocated t A.

Lemma recorded_alloc_image n (p : recorded FS) :
  liballoc_alloc n (r_vm p) = image r_vm (liballoc_alloc n p).
Proof.
  cbn [liballoc_alloc kernel_pages recorded_pages]. unfold mbind, M_bind, zoom.
  by destruct (vm_alloc_kpages n (r_vm p)) as [[? ?]| | |].
Qed.

Lemma recorded_free_image a n (p : recorded FS) :
  liballoc_free a n (r_vm p) = image r_vm (liballoc_free a n p).
Proof.
  cbn [liballoc_free kernel_pages recorded_pages]. unfold mbind, M_bind, zoom.
  by destruct (vm_free_kpages n a (r_vm p)) as [[[] ?]| | |].
Qed.

(** What returns on the kernel's pages returns on the recorded ones. *)
Lemma erased_run {T} (m : M (la_state (recorded FS)) T) m' t x s' :
  erases (heap_image r_vm) m m' -> m' (heap_image r_vm t) = Ok (x, s') ->
  exists t', m t = Ok (x, t') /\ s' = heap_image r_vm t'.
Proof.
  intros He. rewrite He. destruct (m t) as [[y t']| | |]; [|done..]. intros [= -> <-]. by exists t'.
Qed.

Lemma tracked_malloc s A size :
  tracked s A -> 0 <= size -> size + sizeof_tag < 2 ^ 32 ->
  wpp (malloc size) s (fun p s' => tracked s' (if p =? 0 then A else <[p := size]> A)) (fun _ => True).
Proof.
  intros (t & -> & HA) Hlo Hhi. unfold wpp.
  rewrite (malloc_erases r_vm recorded_alloc_image).
  pose proof (malloc_spec_ok t A size HA Hlo Hhi) as Hm. unfold wpp in Hm.
  destruct (malloc size t) as [[p t']| | |]; [|done..]. destruct Hm as [_ Hm]. exists t'. split; [done|].
  destruct (p =? 0); [done|apply Hm].
Qed.

(** Bytes may change as long as they can still be read. *)
Lemma tracked_memory s A m :
  tracked s A -> (forall x, is_Some (ram (source s) !! x) -> is_Some (m !! x)) -> bytes_ok m ->
  tracked (with_source (with_ram m (source s)) s) A.
Proof.
  intros (t & -> & HA) Hkeep Hb. exists (with_source (set_memory m (source t)) t). split; [done|].
  by apply set_memory_allocated.
Qed.

Lemma tracked_store s A p n i b :
  tracked s A -> A !! p = Some n -> 0 <= i < n ->
  wp (in_memory (store8 (p + i) b)) s (fun _ s' => tracked s' A).
Proof.
  intros (t & -> & HA) Hp Hi. unfold wp. rewrite (in_memory_erases r_vm); [|done..].
  assert (wp (in_memory (store8 (p + i) b)) t (fun _ t' => allocated t' A)) as Hw.
  { unfold in_memory, in_source. do 2 wp_step. apply store8_ok.
    destruct (allocated_block _ _ _ _ HA Hp) as (_ & _ & _ & _ & Hread). unfold sizeof_tag in Hread.
    apply set_memory_allocated; [done| |].
    - intros x Hx. destruct (decide (x = p + i)) as [->|Hne]; [rewrite lookup_insert_eq; by eexists|].
      by rewrite lookup_insert_ne.
    - apply map_Forall_insert_2; [by apply wrap_range|]. by eapply memory_bytes, allocated_pages_inv. }
  apply wp_ok in Hw as ([] & t' & -> & Ht). by exists t'.
Qed.

Lemma tracked_calloc s A nobj size p s' :
  tracked s A -> 0 <= nobj * size < 2 ^ 31 -> calloc nobj size s = Ok (p, s') -> p <> 0 ->
  tracked s' (<[p := nobj * size]> A).
Proof.
  intros (t & -> & HA) Hn Hrun Hp.
  destruct (erased_run _ _ _ _ _ (calloc_erases r_vm recorded_alloc_image ltac:(done) ltac:(done) nobj size) Hrun)
    as (t' & Ht & ->).
  assert (exists t1, malloc (nobj * size) t = Ok (p, t1)) as (t1 & Hm).
  { unfold calloc in Ht. rewrite u32_s32 in Ht by lia. unfold mbind, M_bind in Ht.
    destruct (malloc (nobj * size) t) as [[p1 t1]| | |]; [|done..]. exists t1.
    destruct (in_memory _ t1) as [[? ?]| | |]; [|done..]. by injection Ht as -> _. }
  pose proof (calloc_ok t t1 A nobj size p HA Hn Hm Hp) as Hw. unfold wp in Hw. rewrite Ht in Hw.
  exists t'. split; [done|]. by destruct Hw as (_ & ? & _).
Qed.

Lemma tracked_free s A p n :
  tracked s A -> A !! p = Some n -> no_release s ->
  wp (free p) s (fun _ s' => tracked s' (delete p A)).
Proof.
  intros (t & -> & HA) Hp Hno. unfold wp. rewrite (free_erases r_vm recorded_free_image).
  pose proof (free_spec_ok t A p n HA Hp (or_intror Hno)) as Hw. unfold wp in Hw.
  destruct (free p t) as [[[] t']| | |]; [|done..]. exists t'. by destruct Hw.
Qed.

Lemma tracked_realloc s A p n size q s1 s' :
  tracked s A -> A !! p = Some n -> 0 < size -> size + sizeof_tag < 2 ^ 32 ->
  malloc size s = Ok (q, s1) -> q <> 0 -> no_release s1 -> realloc p size s = Ok (q, s') ->
  tracked s' (<[q := size]> (delete p A)).
Proof.
  intros (t & -> & HA) Hp Hlo Hhi Hm Hq Hno Hrun.
  destruct (erased_run _ _ _ _ _ (malloc_erases r_vm recorded_alloc_image size) Hm) as (t1 & Ht1 & ->).
  destruct (erased_run _ _ _ _ _ (realloc_erases r_vm recorded_alloc_image recorded_free_image ltac:(done) ltac:(done)
    p size) Hrun) as (t' & Ht & ->).
  pose proof (realloc_ok t t1 A p n size q HA Hp Hlo Hhi Ht1 Hq (or_intror Hno)) as Hw. unfold wp in Hw.
  rewrite Ht in Hw. exists t'. split; [done|]. by destruct Hw as (_ & ? & _).
Qed.

Lemma heap_user_tracked v s A : record_inv v ∅ -> heap_user v s A -> tracked s A.
Proof.
  intros Hv. induction 1 as [|s A size p s' _ IH Hlo Hhi Hm|s A nobj size p s' _ IH Hn Hm Hp
    |s A p n i b s' _ IH Hp Hi Hm|s A p n s' _ IH Hp Hno Hm|s A p n size q s1 s' _ IH Hp Hlo Hhi Hm Hq Hno Hr].
  - exists (la_boot (Recorded v ∅)). split; [done|]. by apply boot_allocated.
  - pose proof (tracked_malloc _ _ _ IH Hlo Hhi) as Hw. unfold wpp in Hw. by rewrite Hm in Hw.
  - by eapply tracked_calloc.
  - pose proof (tracked_store _ _ _ _ _ b IH Hp Hi) as Hw. unfold wp in Hw. by rewrite Hm in Hw.
  - pose proof (tracked_free _ _ _ _ IH Hp Hno) as Hw. unfold wp in Hw. by rewrite Hm in Hw.
  - by eapply tracked_realloc.
Qed.

(** A byte of a block is mapped to a frame that is not available. *)
Lemma tracked_mapped t A p n x :
  allocated t A -> A !! p = Some n -> p - sizeof_tag <= x < p + n ->
  held_page (r_regions (source t)) (x / 4096) /\ is_u32 x /\
  exists f, frame_managed (frames (r_vm (source t))) f /\ ~ frame_available (frames (r_vm (source t))) f /\
    mmu (r_vm (source t)) x = Some (f + x mod 4096).
Proof.
  intros HA Hp Hx. destruct (allocated_region _ _ _ _ _ HA Hp Hx) as (q & m & Hq & Hin).
  pose proof (allocated_pages_inv _ _ HA) as HI. cbn in HI, Hq.
  destruct (ri_region _ _ HI _ _ Hq) as (B1 & B2 & B3 & B4 & _).
  assert (held_page (r_regions (source t)) (x / 4096)) as Hheld.
  { exists q, m. split; [done|]. Z.div_mod_to_equations. lia. }
  assert (is_u32 x) as Hu by (unfold in_width; lia).
  split; [done|]. split; [done|].
  destruct (ri_frame _ _ HI _ Hheld) as (f & Hf1 & Hf2 & Hm). exists f. split_and!; auto.
Qed.

Lemma tracked_apart t A p n q m x y :
  allocated t A -> A !! p = Some n -> A !! q = Some m ->
  p - sizeof_tag <= x < p + n -> q - sizeof_tag <= y < q + m -> x <> y ->
  mmu (r_vm (source t)) x <> mmu (r_vm (source t)) y.
Proof.
  intros HA Hp Hq Hx Hy Hne Heq. pose proof (allocated_pages_inv _ _ HA) as HI. cbn in HI.
  destruct (tracked_mapped _ _ _ _ _ HA Hp Hx) as (Hhx & Hux & f & Hf & _ & Ex).
  destruct (tracked_mapped _ _ _ _ _ HA Hq Hy) as (Hhy & Huy & g & Hg & _ & Ey).
  rewrite Ex, Ey in Heq. injection Heq as Heq.
  destruct (ri_vm _ _ HI) as (K & W & q0 & Hvm & _).
  destruct (frame_managed_ok _ _ (vi_frames _ _ _ _ Hvm) Hf) as (_ & _ & Hfa).
  destruct (frame_managed_ok _ _ (vi_frames _ _ _ _ Hvm) Hg) as (_ & _ & Hga).
  assert (f = g /\ x mod 4096 = y mod 4096) as [-> Hmod] by (Z.div_mod_to_equations; lia).
  enough (x / 4096 = y / 4096) by (Z.div_mod_to_equations; lia).
  apply (ri_inj _ _ HI); [done..|]. destruct (ri_frame _ _ HI _ Hhx) as (f1 & _ & _ & M1).
  destruct (ri_frame _ _ HI _ Hhy) as (g1 & _ & _ & M2).
  pose proof (M1 x Hux eq_refl) as N1. pose proof (M2 y Huy eq_refl) as N2.
  rewrite Ex in N1. rewrite Ey in N2. injection N1 as N1. injection N2 as N2.
  pose proof (held_u32 _ _ _ HI Hhx) as Ux. pose proof (held_u32 _ _ _ HI Hhy) as Uy.
  rewrite M1, M2 by (done || apply Z.div_mul; lia). rewrite !Z.mod_mul by lia. f_equal. lia.
Qed.
End Client.

(** ** After boot *)

Section Boot.
#[local] Existing Instances PmmFrames.pmm_allocator PmmFrames.pmm_allocator_laws.
Context `{Layout}.

Lemma no_regions_recorded v K W q :
  vm_inv v K W q -> (forall p, free_page K p -> p < 2 ^ 20 + 0xC0000) -> upper_half v -> bytes_ok (ram v) ->
  record_inv v ∅.
Proof.
  intros Hvm HK Hup Hb. assert (forall k, ~ held_page ∅ k) as Hno by (by intros k (q' & n & ?%lookup_empty_Some & _)).
  split.
  - exists K, W, q. split; [exact Hvm|]. split; [exact HK|]. by intros k ?%Hno.
  - exact Hup.
  - exact Hb.
  - by intros q' n ?%lookup_empty_Some.
  - by intros q' n r m ?%lookup_empty_Some.
  - by intros k ?%Hno.
  - by intros k k' ?%Hno.
Qed.

Lemma boot_recorded p :
  layout_ok -> Pmm.pmm_inv p -> wp vm_init (vm_boot p) (fun _ v => record_inv v ∅).
Proof.
  intros HL Hp. eapply wp_mono; [by apply vm_init_inv|]. intros [] v (Hvm & [Hup Hram] & _).
  apply (no_regions_recorded v _ _ _ Hvm); [intros k Hk%boot_free_page; lia|exact Hup|].
  rewrite Hram. apply map_Forall_empty.
Qed.

(** C5: The heap of the kernel, on the pages of vm.c and the frames of pmm.c as they are
    after boot.  Whatever a user of the heap allocated, wrote, resized and freed (as long
    as no block went back to the pages), a further [malloc] is defined and terminates (it
    may panic for want of memory), a further [free] that keeps the block returns; and every
    byte of its blocks and of their tags is readable and translated by the processor to a
    managed frame that is not available.  Different blocks do not overlap, and no two bytes
    of blocks share physical memory. *)
Theorem kernel_heap_isolated upper mem pm v s A :
  layout_ok -> Pmm.pmm_boot_ok upper mem ->
  Pmm.pmm_init upper (Pmm.pmm_boot mem) = Ok (tt, pm) -> vm_init (vm_boot pm) = Ok (tt, v) ->
  heap_user v s A ->
  (forall size, 0 <= size -> size + sizeof_tag < 2 ^ 32 -> malloc size s <> Undef /\ malloc size s <> NoFuel) /\
  (forall p n, A !! p = Some n -> no_release s -> exists s', free p s = Ok (tt, s') /\ heap_user v s' (delete p A)) /\
  forall p n x, A !! p = Some n -> p - sizeof_tag <= x < p + n ->
    is_Some (ram (source s) !! x) /\
    (exists f, PmmFrames.pmm_frame_managed (frames (source s)) f /\
       ~ PmmFrames.pmm_frame_available (frames (source s)) f /\ mmu (source s) x = Some (f + x mod 4096)) /\
    forall q m y, A !! q = Some m -> q - sizeof_tag <= y < q + m ->
      (p <> q -> p + n <= q - sizeof_tag \/ q + m <= p - sizeof_tag) /\
      (x <> y -> mmu (source s) x <> mmu (source s) y).
Proof.
  intros HL Hb Hpm Hv HU. pose proof (Pmm.pmm_init_ok upper mem Hb) as Hwp.
  unfold wp in Hwp. rewrite Hpm in Hwp. destruct Hwp as (Hinv & _).
  pose proof (boot_recorded pm HL Hinv) as Hrec. unfold wp in Hrec. rewrite Hv in Hrec.
  pose proof (heap_user_tracked _ _ _ Hrec HU) as HT. split; [|split].
  - intros size Hlo Hhi. pose proof (tracked_malloc _ _ _ HT Hlo Hhi) as Hm. unfold wpp in Hm.
    by destruct (malloc size s).
  - intros p n Hp Hno. pose proof (tracked_free _ _ _ _ HT Hp Hno) as Hw.
    destruct (proj1 (wp_ok _ _ _) Hw) as ([] & s' & Hrun & _). exists s'. split; [done|]. by eapply user_free.
  - destruct HT as (t & -> & HA). intros p n x Hp Hx.
    destruct (tracked_mapped _ _ _ _ _ HA Hp Hx) as (_ & _ & Hf).
    destruct (allocated_block _ _ _ _ HA Hp) as (_ & _ & _ & _ & Hread).
    split; [exact (Hread x Hx)|]. split; [exact Hf|]. intros q m y Hq Hy. split.
    + intros Hne. by eapply allocated_disjoint.
    + intros Hne. exact (tracked_apart t A p n q m x y HA Hp Hq Hx Hy Hne).
Qed.
End Boot.

(** ** Witness: a block of 100 bytes after boot *)

Section Examples.
#[local] Existing Instances PmmFrames.pmm_allocator PmmFrames.pmm_allocator_laws.
#[local] Existing Instance example_layout.

Lemma ex_first_block : exists s, malloc 100 (la_boot ex_vm0) = Ok (0xC0800020, s) /\ no_release s.
Proof.
  assert (match malloc 100 (la_boot ex_vm0) with
          | Ok (p, s) => (p =? 0xC0800020) && forallb (fun n => negb (n =? MAXCOMPLETE)) (l_completePages s)
          | _ => false end = true) as Hv by (vm_compute; reflexivity).
  destruct (malloc 100 (la_boot ex_vm0)) as [[p s]| | |]; [|discriminate..].
  apply andb_true_iff in Hv as [->%Z.eqb_eq Hc]. exists s. split; [done|].
  unfold no_release. rewrite Forall_forall. intros n Hn. rewrite forallb_forall in Hc.
  by apply list_elem_of_In, Hc, negb_true_iff, Z.eqb_neq in Hn.
Qed.

Lemma ex_vm0_run : vm_init (vm_boot Pmm.ex_pmm) = Ok (tt, ex_vm0).
Proof.
  pose proof (vm_init_inv Pmm.ex_pmm ex_layout_ok Pmm.ex_pmm_inv) as Hw.
  destruct (proj1 (wp_ok _ _ _) Hw) as ([] & v & Hrun & _). unfold ex_vm0. rewrite Hrun. reflexivity.
Qed.

Lemma ex_pmm_run : Pmm.pmm_init 0xD21000 (Pmm.pmm_boot Pmm.ex_words) = Ok (tt, Pmm.ex_pmm).
Proof.
  pose proof (Pmm.pmm_init_ok 0xD21000 Pmm.ex_words Pmm.ex_boot_ok) as Hw.
  destruct (proj1 (wp_ok _ _ _) Hw) as ([] & p & Hrun & _). rewrite Pmm.ex_pmm_eq, Hrun. reflexivity.
Qed.

Lemma kernel_heap_isolated_witness :
  exists s, malloc 100 (la_boot ex_vm0) = Ok (0xC0800020, s) /\
    mmu (source s) 0xC0800020 <> mmu (source s) 0xC0800083 /\
    exists s', free 0xC0800020 s = Ok (tt, s').
Proof.
  destruct ex_first_block as (s & Hs & Hno). exists s. split; [exact Hs|].
  assert (heap_user ex_vm0 s {[0xC0800020 := 100]}) as HU.
  { apply (user_malloc ex_vm0 (la_boot ex_vm0) ∅ 100 0xC0800020 s); [constructor|lia|reflexivity|exact Hs]. }
  destruct (kernel_heap_isolated 0xD21000 Pmm.ex_words Pmm.ex_pmm ex_vm0 s _ ex_layout_ok Pmm.ex_boot_ok ex_pmm_run
              ex_vm0_run HU) as (_ & Hfree & Hall). split.
  2: { destruct (Hfree 0xC0800020 100) as (s' & Hs' & _); [apply lookup_singleton_eq|exact Hno|]. by exists s'. }
  destruct (Hall 0xC0800020 100 0xC0800020) as (_ & _ & Hapart); [apply lookup_singleton_eq|unfold sizeof_tag; lia|].
  apply (Hapart 0xC0800020 100 0xC0800083); [apply lookup_singleton_eq|unfold sizeof_tag; lia|lia].
Defined.
End Examples.
