(* ===== verification/Port.v ===== *)
(** * kernel/io/port.c: port input and output

    The devices are a parameter: a type of states, and what an access to a port does
    to them. *)

From S2P Require Import Prelude.

Class Machine (HW : Type) : Type := {
  port_write : Z -> Z -> Z -> HW -> HW;       (* width, port, value *)
  port_read : Z -> Z -> HW -> Z * HW          (* width, port *)
}.

Section Port.
Context {HW : Type} `{Machine HW}.

Definition outb (port value : Z) : M HW unit := modify (port_write 8 (u16 port) (u8 value)).
Definition outw (port value : Z) : M HW unit := modify (port_write 16 (u16 port) (u16 value)).
Definition outl (port value : Z) : M HW unit := modify (port_write 32 (u16 port) (u32 value)).

Definition inb (port : Z) : M HW Z := fun h =>
  let '(v, h') := port_read 8 (u16 port) h in Ok (u8 v, h').
Definition inw (port : Z) : M HW Z := fun h =>
  let '(v, h') := port_read 16 (u16 port) h in Ok (u16 v, h').
Definition inl (port : Z) : M HW Z := fun h =>
  let '(v, h') := port_read 32 (u16 port) h in Ok (u32 v, h').

(** [while (cond) body]: the devices decide how long a polling loop runs. *)
Fixpoint while {S} (fuel : nat) (cond : M S bool) (body : M S unit) : M S unit :=
  match fuel with
  | O => nofuel
  | Datatypes.S fuel' => b ← cond; if b : bool then _ ← body; while fuel' cond body else mret tt
  end.
End Port.

(** ** Frames

    What accesses to some ports cannot change: the predicates that are stable under
    them. *)

Section Frames.
Context {HW : Type} `{Machine HW}.
Implicit Types (P : Z -> Prop) (V : HW -> Prop) (h : HW).

Definition stable_at P V : Prop :=
  forall h w p v, P p -> V h -> V (port_write w p v h) /\ V (port_read w p h).2.

(** From [h] to [h'] only ports in [P] were accessed. *)
Definition framed P h h' : Prop := forall V, stable_at P V -> V h -> V h'.

#[global] Instance framed_preorder P : PreOrder (framed P).
Proof. split; [by intros h V|]. intros h1 h2 h3 F1 F2 V HV Hh. by apply F2, F1. Qed.

Lemma framed_mono P P' h h' : (forall p, P p -> P' p) -> framed P h h' -> framed P' h h'.
Proof. intros HP F V HV. apply F. intros x w p v Hp. by apply HV, HP. Qed.

(** The operation accesses only ports in [P]. *)
Definition only_at {A} P (m : M HW A) : Prop := forall h a h', m h = Ok (a, h') -> framed P h h'.

Lemma only_at_ret {A} P (a : A) : only_at P (mret a).
Proof. intros h b h' [= _ <-]. done. Qed.

Lemma only_at_bind {A B} P (m : M HW A) (k : A -> M HW B) :
  only_at P m -> (forall a, only_at P (k a)) -> only_at P (m ≫= k).
Proof.
  intros Hm Hk h b h'. unfold mbind, M_bind. destruct (m h) as [[a h1]| | |] eqn:E; [|done..].
  intros E'. etrans; [by eapply Hm|by eapply Hk].
Qed.

Lemma only_at_outb P port v : P (u16 port) -> only_at P (outb port v).
Proof. intros Hp h a h' [= _ <-] V HV Hh. by apply HV. Qed.

Lemma only_at_outl P port v : P (u16 port) -> only_at P (outl port v).
Proof. intros Hp h a h' [= _ <-] V HV Hh. by apply HV. Qed.

Lemma port_read_framed P w p h : P p -> framed P h (port_read w p h).2.
Proof. intros Hp V HV Hh. by apply (HV h w p 0). Qed.

Lemma only_at_inb P port : P (u16 port) -> only_at P (inb port).
Proof.
  intros Hp h a h'. unfold inb. pose proof (port_read_framed P 8 (u16 port) h Hp) as F.
  destruct (port_read 8 (u16 port) h). by intros [= _ <-].
Qed.

Lemma only_at_inl P port : P (u16 port) -> only_at P (inl port).
Proof.
  intros Hp h a h'. unfold inl. pose proof (port_read_framed P 32 (u16 port) h Hp) as F.
  destruct (port_read 32 (u16 port) h). by intros [= _ <-].
Qed.

Lemma only_at_while P fuel cond body :
  only_at P cond -> only_at P body -> only_at P (while fuel cond body).
Proof.
  intros Hc Hb. induction fuel as [|fuel IH]; cbn [while]; [done|].
  apply only_at_bind; [done|]. intros []; [by apply only_at_bind|apply only_at_ret].
Qed.

Lemma wp_only {A} P (m : M HW A) h (Q : A -> HW -> Prop) :
  wp m h Q -> only_at P m -> wp m h (fun a h' => Q a h' /\ framed P h h').
Proof. unfold wp. intros Hw Hm. specialize (Hm h). destruct (m h) as [[a h']| | |]; [|done..].
  split; [done|]. by apply (Hm a). Qed.

Lemma inb_u8 port h : wp (inb port) h (fun v _ => is_u8 v).
Proof. unfold inb, wp. destruct (port_read 8 (u16 port) h). apply wrap_range. lia. Qed.

(** Accesses of up to four bytes at [p] do not reach the ports from [lo] to [hi - 1]. *)
Definition clear_of (lo hi p : Z) : Prop := 0 <= p /\ (p + 4 <= lo \/ hi <= p).
End Frames.

#[export] Hint Resolve only_at_ret only_at_bind only_at_outb only_at_outl only_at_inb only_at_inl only_at_while : maos.

(** ** Examples run on a machine of plain registers, with a log of the writes. *)

Record register_machine : Type := Regs { regs : Z -> Z; log : list (Z * Z) }.

#[export] Instance register_is_machine : Machine register_machine := {
  port_write := fun _ port v h =>
    Regs (fun p => if decide (p = port) then v else regs h p) (log h ++ [(port, v)]);
  port_read := fun _ port h => (regs h port, h)
}.
