(* ===== verification/Tty.v ===== *)
(** * kernel/io/tty.c: the text terminal

    A screen of 25 rows of 80 cells, the cursor and the colour. *)

From S2P Require Import Prelude.

(** ** Data *)

Definition TTY_WIDTH : Z := 80.
Definition TTY_HEIGHT : Z := 25.

Inductive tty_color_t : Type :=
| TTY_COLOR_BLACK | TTY_COLOR_BLUE | TTY_COLOR_GREEN | TTY_COLOR_CYAN | TTY_COLOR_RED
| TTY_COLOR_MAGENTA | TTY_COLOR_BROWN | TTY_COLOR_LIGHT_GREY | TTY_COLOR_DARK_GREY
| TTY_COLOR_LIGHT_BLUE | TTY_COLOR_LIGHT_GREEN | TTY_COLOR_LIGHT_CYAN | TTY_COLOR_LIGHT_RED
| TTY_COLOR_LIGHT_MAGENTA | TTY_COLOR_LIGHT_BROWN | TTY_COLOR_WHITE.

#[export] Instance tty_color_eq_dec : EqDecision tty_color_t.
Proof. solve_decision. Defined.

Definition color_code (c : tty_color_t) : Z :=
  match c with
  | TTY_COLOR_BLACK => 0 | TTY_COLOR_BLUE => 1 | TTY_COLOR_GREEN => 2 | TTY_COLOR_CYAN => 3
  | TTY_COLOR_RED => 4 | TTY_COLOR_MAGENTA => 5 | TTY_COLOR_BROWN => 6 | TTY_COLOR_LIGHT_GREY => 7
  | TTY_COLOR_DARK_GREY => 8 | TTY_COLOR_LIGHT_BLUE => 9 | TTY_COLOR_LIGHT_GREEN => 10
  | TTY_COLOR_LIGHT_CYAN => 11 | TTY_COLOR_LIGHT_RED => 12 | TTY_COLOR_LIGHT_MAGENTA => 13
  | TTY_COLOR_LIGHT_BROWN => 14 | TTY_COLOR_WHITE => 15
  end.

(** The file's variables, and the cells behind [tty_buf]. *)
Record tty : Type := Tty {
  tty_row : Z;
  tty_column : Z;
  tty_color : Z;
  tty_buf : list Z
}.

(** ** Operations *)

Definition tty_makecolor (fg bg : tty_color_t) : Z :=
  u8 (Z.lor (color_code fg) (Z.shiftl (color_code bg) 4)).

Definition tty_entry (c color : Z) : Z := u16 (Z.lor c (Z.shiftl color 8)).

Definition set_row (r : Z) (t : tty) : tty := Tty r (tty_column t) (tty_color t) (tty_buf t).
Definition set_column (c : Z) (t : tty) : tty := Tty (tty_row t) c (tty_color t) (tty_buf t).

Definition tty_setcolor (color : Z) : M tty unit :=
  modify (fun t => Tty (tty_row t) (tty_column t) color (tty_buf t)).

(** A cell outside the screen is another part of the memory: not defined here. *)
Definition tty_putcharat (c color x y : Z) : M tty unit := fun t =>
  let index := u32 (y * TTY_WIDTH + x) in
  if index <? TTY_WIDTH * TTY_HEIGHT then
    Ok (tt, Tty (tty_row t) (tty_column t) (tty_color t) (<[Z.to_nat index := tty_entry c color]> (tty_buf t)))
  else Undef.

Definition newline : M tty unit :=
  _ ← modify (fun t => set_row (u32 (tty_row t + 1)) t);
  row ← gets tty_row;
  _ ← (if row =? TTY_HEIGHT then modify (set_row 0) else mret tt);
  for_loop (Z.to_nat TTY_WIDTH) 0 (fun i => row ← gets tty_row; tty_putcharat 32 0 i row).

(** [memset] of all the cells. *)
Definition tty_clear : M tty unit :=
  modify (fun t => Tty (tty_row t) (tty_column t) (tty_color t)
                       (replicate (Z.to_nat (TTY_WIDTH * TTY_HEIGHT)) 0)).

Definition tty_init : M tty unit :=
  _ ← modify (fun t => Tty (tty_row t) (tty_column t) (tty_makecolor TTY_COLOR_WHITE TTY_COLOR_BLACK) (tty_buf t));
  tty_clear.

Definition tty_putchar (c : Z) : M tty unit :=
  let uc := u8 c in
  if uc =? 10 then _ ← newline; modify (set_column 0)
  else if uc =? 13 then modify (set_column 0)
  else
    t ← gets id;
    _ ← tty_putcharat uc (tty_color t) (tty_column t) (tty_row t);
    _ ← modify (fun t => set_column (u32 (tty_column t + 1)) t);
    col ← gets tty_column;
    if col =? TTY_WIDTH then _ ← modify (set_column 0); newline else mret tt.

(** A buffer and a string are the bytes in them. *)
Fixpoint tty_writebuf (buf : list Z) : M tty unit :=
  match buf with [] => mret tt | c :: buf' => _ ← tty_putchar c; tty_writebuf buf' end.

Fixpoint tty_writestr (str : list Z) : M tty unit :=
  match str with
  | [] => mret tt
  | x :: str' => if u8 x =? 0 then mret tt else _ ← tty_putchar x; tty_writestr str'
  end.

(** The variables before [tty_init]: zero, over an unknown screen. *)
Definition tty_boot (cells : list Z) : tty := Tty 0 0 0 cells.

(** ** Specification *)

Record tty_wf (t : tty) : Prop := {
  tw_row : 0 <= tty_row t < TTY_HEIGHT;
  tw_column : 0 <= tty_column t < TTY_WIDTH;
  tw_buf : length (tty_buf t) = 2000%nat
}.

(** The cell in row [y] and column [x]. *)
Definition cell (t : tty) (y x : Z) : option Z := tty_buf t !! Z.to_nat (y * TTY_WIDTH + x).

(** The row below, the first below the last. *)
Definition next_row (y : Z) : Z := if y + 1 =? TTY_HEIGHT then 0 else y + 1.

Definition blank : Z := 32.

Definition on_screen (y x : Z) : Prop := 0 <= y < TTY_HEIGHT /\ 0 <= x < TTY_WIDTH.

Lemma putcharat_ok t c color x y :
  tty_wf t -> on_screen y x ->
  wp (tty_putcharat c color x y) t (fun _ t' => tty_wf t' /\
    tty_row t' = tty_row t /\ tty_column t' = tty_column t /\ tty_color t' = tty_color t /\
    forall y0 x0, on_screen y0 x0 ->
      cell t' y0 x0 = if decide (y0 = y /\ x0 = x) then Some (tty_entry c color) else cell t y0 x0).
Proof.
  unfold on_screen, TTY_HEIGHT, TTY_WIDTH. intros [W1 W2 W3] [Hy Hx].
  unfold tty_putcharat, wp, TTY_WIDTH, TTY_HEIGHT.
  rewrite wrap_small by (unfold in_width; lia). destruct (Z.ltb_spec (y * 80 + x) (80 * 25)); [|lia].
  split; [split; cbn; [done|done|by rewrite length_insert]|]. cbn. do 3 (split; [done|]).
  intros y0 x0 [Hy0 Hx0]. unfold cell, TTY_WIDTH. cbn. case_decide as E.
  - destruct E as [-> ->]. apply list_lookup_insert_eq. lia.
  - apply list_lookup_insert_ne. lia.
Qed.

Lemma newline_ok t :
  tty_wf t -> wp newline t (fun _ t' => tty_wf t' /\ tty_row t' = next_row (tty_row t) /\
    tty_column t' = tty_column t /\ tty_color t' = tty_color t /\
    forall y x, on_screen y x ->
      cell t' y x = if decide (y = next_row (tty_row t)) then Some blank else cell t y x).
Proof.
  intros Hwf. pose proof Hwf as [W1 W2 W3]. unfold newline. do 4 wp_step. cbn [tty_row set_row].
  unfold TTY_HEIGHT in W1. rewrite (wrap_small 32) by (unfold in_width; lia).
  wp_step. eapply (wp_mono _ _ (fun _ t1 => tty_wf t1 /\ tty_row t1 = next_row (tty_row t) /\
    tty_column t1 = tty_column t /\ tty_color t1 = tty_color t /\ tty_buf t1 = tty_buf t)).
  { unfold next_row. destruct (Z.eqb_spec (tty_row t + 1) TTY_HEIGHT); wp_step; cbn;
      (split; [split; cbn; done || (unfold TTY_HEIGHT in *; lia)|done]). }
  intros [] t1 (Hwf1 & Hr & Hc & Hcol & Hbuf).
  eapply wp_mono.
  { apply (wp_for _ _ (fun i t' => tty_wf t' /\ tty_row t' = tty_row t1 /\
      tty_column t' = tty_column t1 /\ tty_color t' = tty_color t1 /\
      forall y x, on_screen y x -> cell t' y x =
        if decide (y = tty_row t1 /\ x < i) then Some blank else cell t1 y x)).
    - repeat (split; [done|]). intros y x [_ Hx]. by rewrite decide_False by lia.
    - intros i t' Hi (V1 & V2 & V3 & V4 & V5). wp_step. wp_step. rewrite V2.
      assert (on_screen (tty_row t1) i) as Hon.
      { split; [apply Hwf1|]. unfold TTY_WIDTH in *. lia. }
      eapply wp_mono; [apply putcharat_ok; [done|exact Hon]|].
      intros [] t2 (U1 & U2 & U3 & U4 & U5). split; [done|]. split; [congruence|].
      split; [congruence|]. split; [congruence|]. intros y x Hyx. rewrite U5, V5 by done.
      repeat case_decide; try done; lia. }
  intros [] t' (V1 & V2 & V3 & V4 & V5). split; [done|]. split; [congruence|].
  split; [congruence|]. split; [congruence|]. intros y x Hyx. rewrite V5, <- Hr by done.
  unfold cell. rewrite Hbuf. destruct Hyx as [_ Hx]. unfold TTY_WIDTH in *.
  repeat case_decide; try done; lia.
Qed.

(** The cursor after a character that is not a control character. *)
Definition advance (row col : Z) : Z * Z :=
  if col + 1 =? TTY_WIDTH then (next_row row, 0) else (row, col + 1).

Definition printable (c : Z) : Prop := u8 c <> 10 /\ u8 c <> 13.

Lemma printable_ok t c :
  tty_wf t -> printable c ->
  wp (tty_putchar c) t (fun _ t' => tty_wf t' /\ tty_color t' = tty_color t /\
    (tty_row t', tty_column t') = advance (tty_row t) (tty_column t) /\
    forall y x, on_screen y x -> cell t' y x =
      if decide (tty_column t + 1 = TTY_WIDTH /\ y = next_row (tty_row t)) then Some blank
      else if decide (y = tty_row t /\ x = tty_column t) then Some (tty_entry (u8 c) (tty_color t))
      else cell t y x).
Proof.
  intros Hwf [H1 H2]. pose proof Hwf as [W1 W2 W3]. unfold tty_putchar.
  destruct (Z.eqb_spec (u8 c) 10); [done|]. destruct (Z.eqb_spec (u8 c) 13); [done|].
  do 3 wp_step. cbn [id]. eapply wp_mono; [apply putcharat_ok; [done|by split]|].
  intros [] t1 (V1 & V2 & V3 & V4 & V5). do 4 wp_step. cbn [tty_column set_column].
  unfold TTY_WIDTH in W2. rewrite wrap_small by (unfold in_width; lia). rewrite V3. unfold advance.
  destruct (Z.eqb_spec (tty_column t + 1) TTY_WIDTH) as [E|E].
  - do 2 wp_step. cbn.
    eapply wp_mono; [apply newline_ok; destruct V1; split; cbn; unfold TTY_WIDTH; done || lia|].
    intros [] t2 (U1 & U2 & U3 & U4 & U5). cbn in U2, U3, U4. split; [done|]. split; [congruence|].
    split; [by rewrite U2, U3, V2|]. intros y x Hyx. rewrite U5 by done. cbn. rewrite V2.
    unfold cell at 1. cbn. fold (cell t1 y x). rewrite V5 by done.
    repeat case_decide; try done; lia.
  - wp_step. cbn. split; [destruct V1; split; cbn; try done; unfold TTY_WIDTH in *; lia|]. split; [done|].
    split; [by rewrite V2|]. intros y x Hyx. rewrite decide_False by lia. by apply V5.
Qed.

Lemma tty_putchar_ok t c :
  tty_wf t -> wp (tty_putchar c) t (fun _ t' => tty_wf t' /\ tty_color t' = tty_color t).
Proof.
  intros Hwf. destruct (decide (u8 c = 10)) as [E|E]; [|destruct (decide (u8 c = 13)) as [E'|E']].
  - unfold tty_putchar. rewrite E. cbv zeta. rewrite Z.eqb_refl. wp_step. eapply wp_mono; [by apply newline_ok|].
    intros [] t1 ([V1 V2 V3] & _ & _ & V4 & _). wp_step. split; [split; cbn; done|done].
  - unfold tty_putchar. rewrite E'. cbv zeta. rewrite Z.eqb_refl. change (13 =? 10) with false. cbv iota. wp_step. destruct Hwf. split; [split; cbn; done|done].
  - eapply wp_mono; [by apply printable_ok|]. intros [] t' (? & ? & _). done.
Qed.

(** ** Theorems *)

(** C38: From the state [tty_init] leaves, whatever bytes are written, every access is to
    a cell of the screen and the cursor stays on it: no write of a text has undefined
    behaviour. *)
Theorem tty_write_stays_on_screen cells buf :
  length cells = 2000%nat ->
  wp (_ ← tty_init; tty_writebuf buf) (tty_boot cells) (fun _ t' =>
    tty_wf t' /\ tty_color t' = tty_makecolor TTY_COLOR_WHITE TTY_COLOR_BLACK).
Proof.
  intros Hlen. wp_step. unfold tty_init, tty_clear. do 3 wp_step. cbn [tty_row tty_column tty_color tty_boot].
  assert (forall t, tty_wf t -> wp (tty_writebuf buf) t (fun _ t' => tty_wf t' /\ tty_color t' = tty_color t)) as Hbuf.
  { induction buf as [|c buf IH]; intros t Hwf; cbn [tty_writebuf]; [by wp_step|]. wp_step.
    eapply wp_mono; [by apply tty_putchar_ok|]. intros [] t1 [Hwf1 Hc]. eapply wp_mono; [by apply IH|].
    intros [] t2 [? ?]. split; [done|congruence]. }
  eapply wp_mono; [apply Hbuf; split; cbn; done|]. by intros [] t' [? ?].
Qed.

(** A character that is not a line feed or a carriage return is stored with the colour
    in the cell at the cursor, which moves one cell to the right.  In the last column it
    moves to the start of the next row, of the first row behind the last, which is
    cleared.  No other cell changes. *)
Theorem tty_putchar_correct t c :
  tty_wf t -> u8 c <> 10 -> u8 c <> 13 ->
  exists t', tty_putchar c t = Ok (tt, t') /\ tty_wf t' /\
    (tty_row t', tty_column t') = advance (tty_row t) (tty_column t) /\
    forall y x, on_screen y x -> cell t' y x =
      if decide (tty_column t + 1 = TTY_WIDTH /\ y = next_row (tty_row t)) then Some blank
      else if decide (y = tty_row t /\ x = tty_column t) then Some (tty_entry (u8 c) (tty_color t))
      else cell t y x.
Proof.
  intros Hwf H1 H2. pose proof (printable_ok t c Hwf (conj H1 H2)) as Hw.
  apply wp_ok in Hw as ([] & t' & Hrun & V1 & _ & V2 & V3). by exists t'.
Qed.

(** The byte and the attribute can be read back from a cell, and the two colours from
    an attribute. *)
Theorem tty_entry_roundtrip c fg bg :
  is_u8 c ->
  let e := tty_entry c (tty_makecolor fg bg) in
  is_u16 e /\ u8 e = c /\ Z.shiftr e 8 = tty_makecolor fg bg /\
  Z.land (Z.shiftr e 8) 15 = color_code fg /\ Z.shiftr e 12 = color_code bg.
Proof.
  intros Hc. unfold tty_entry. rewrite lor_shiftl_add by (done || lia).
  assert (tty_makecolor fg bg = color_code fg + 16 * color_code bg /\
    0 <= color_code fg < 16 /\ 0 <= color_code bg < 16) as (-> & Hf & Hb).
  { split; [by destruct fg, bg|]. split; [by destruct fg|by destruct bg]. }
  unfold in_width in Hc. rewrite !(wrap_small 16) by (unfold in_width; lia).
  rewrite !Z.shiftr_div_pow2 by lia. change 15 with (Z.ones 4). rewrite land_ones_mod by lia.
  unfold wrap, in_width. change (2 ^ 4) with 16. change (2 ^ 8) with 256 in *. change (2 ^ 12) with 4096.
  change (2 ^ 16) with 65536. Z.div_mod_to_equations. lia.
Qed.

(** ** Witnesses *)

Definition ex_tty : tty := Tty 24 79 15 (replicate 2000 0).

Lemma ex_tty_wf : tty_wf ex_tty.
Proof. split; done. Qed.

Lemma tty_write_stays_on_screen_witness :
  wp (_ ← tty_init; tty_writebuf [72; 105; 10]) (tty_boot (replicate 2000 0)) (fun _ t' => tty_wf t').
Proof.
  eapply wp_mono; [apply (tty_write_stays_on_screen (replicate 2000 0) [72; 105; 10]); reflexivity|].
  by intros [] t' [? _].
Defined.

(** The last cell of the screen: the cursor goes to the first row, which is cleared. *)
Lemma tty_putchar_correct_witness :
  exists t', tty_putchar 65 ex_tty = Ok (tt, t') /\ (tty_row t', tty_column t') = (0, 0) /\
    cell t' 24 79 = Some 0x0F41 /\ cell t' 0 7 = Some blank.
Proof.
  destruct (tty_putchar_correct ex_tty 65 ex_tty_wf) as (t' & Hrun & _ & Hcur & Hcell); [done|done|].
  exists t'. split; [exact Hrun|]. split; [exact Hcur|]. clear Hrun Hcur. split.
  - rewrite Hcell by done. rewrite decide_False by (intros [_ E]; discriminate E).
    by rewrite decide_True.
  - rewrite Hcell by done. by rewrite decide_True.
Defined.

Lemma tty_entry_roundtrip_witness : u8 (tty_entry 65 (tty_makecolor TTY_COLOR_RED TTY_COLOR_BLUE)) = 65.
Proof. apply (tty_entry_roundtrip 65 TTY_COLOR_RED TTY_COLOR_BLUE). done. Defined.
