(* ===== verification/Float.v ===== *)
(** * Floating-point numbers

    IEEE 754 numbers as the Standard Library specifies them.  The kernel is compiled for
    the x87: an expression is evaluated in the registers, and an assignment, a cast or
    passing an argument rounds to the type. *)

From Stdlib Require Export SpecFloat.
From S2P Require Import Prelude.

Abbreviation float := spec_float.

(** The coprocessor.  The kernel never initialises it, so the boot loader has chosen the
    precision; how far one [fprem] reduces depends on the implementation; its sine and
    cosine are approximations. *)
Class X87 : Type := {
  precision : Z;
  reduction : float -> float -> Z;
  sine : float -> float;
  cosine : float -> float
}.

(** The exact number [(-1)^s * m * 2^e], rounded to a format. *)
Definition rounded (prec emax : Z) (x : float) : float :=
  match x with S754_finite s m e => binary_round prec emax s m e | _ => x end.
Definition to_float : float -> float := rounded 24 128.

(** Arithmetic in the registers. *)
Section Registers.
Context `{X87}.
Definition fadd : float -> float -> float := SFadd precision 16384.
Definition fsub : float -> float -> float := SFsub precision 16384.
Definition fmul : float -> float -> float := SFmul precision 16384.
Definition fdiv : float -> float -> float := SFdiv precision 16384.
End Registers.
Definition flt : float -> float -> bool := SFltb.
Definition float_of_Z (n : Z) : float := binary_normalize 64 16384 n 0 false.

(** A decimal constant [n / 10^k] of type [float]. *)
Definition decimal (n k : positive) : float :=
  SFdiv 24 128 (S754_finite false n 0) (S754_finite false (10 ^ k) 0).

(** The integer part; none of an infinity and of a NaN. *)
Definition truncate (x : float) : option Z :=
  match x with
  | S754_zero _ => Some 0
  | S754_finite s m e =>
      let n := if 0 <=? e then Z.pos m * 2 ^ e else Z.pos m / 2 ^ (- e) in
      Some (if s then - n else n)
  | _ => None
  end.

(** The conversion to an unsigned type of [w] bits is undefined when the integer part does
    not fit. *)
Definition to_unsigned (w : Z) (x : float) : option Z :=
  n ← truncate x; if (0 <=? n) && (n <? 2 ^ w) then Some n else None.

(** ** Bounds *)

(** [m * 2^e <= n * 2^f]. *)
Definition scaled_le (m e n f : Z) : Prop :=
  forall k, 0 <= k + e -> 0 <= k + f -> m * 2 ^ (k + e) <= n * 2 ^ (k + f).

(** The magnitude of a number is at most [n * 2^f]. *)
Definition at_most (n f : Z) (x : float) : Prop :=
  match x with
  | S754_zero _ => True
  | S754_finite _ m e => scaled_le (Z.pos m) e n f
  | _ => False
  end.

Definition nonneg (x : float) : Prop :=
  match x with S754_zero _ => True | S754_finite s _ _ => s = false | _ => False end.

(** One exponent decides. *)
Lemma scaled_le_at k m e n f :
  0 <= k + e -> 0 <= k + f -> scaled_le m e n f <-> m * 2 ^ (k + e) <= n * 2 ^ (k + f).
Proof.
  intros He Hf. split; [intros H; by apply H|]. intros H j Hje Hjf.
  destruct (Z.le_gt_cases k j) as [Hle|Hgt].
  - replace (j + e) with (k + e + (j - k)) by lia. replace (j + f) with (k + f + (j - k)) by lia.
    rewrite (Z.pow_add_r 2 (k + e)), (Z.pow_add_r 2 (k + f)), !Z.mul_assoc by lia. apply Z.mul_le_mono_nonneg_r; [|done].
    apply Z.pow_nonneg. lia.
  - replace (k + e) with (j + e + (k - j)) in H by lia. replace (k + f) with (j + f + (k - j)) in H by lia.
    rewrite (Z.pow_add_r 2 (j + e)), (Z.pow_add_r 2 (j + f)), !Z.mul_assoc in H by lia.
    apply Z.mul_le_mono_pos_r in H; [done|]. apply Z.pow_pos_nonneg; lia.
Qed.

Lemma scaled_le_trans m e n f p g : scaled_le m e n f -> scaled_le n f p g -> scaled_le m e p g.
Proof.
  intros H1 H2. set (k := Z.abs e + Z.abs f + Z.abs g).
  apply (scaled_le_at k); [lia..|]. etransitivity; [apply H1; lia|apply H2; lia].
Qed.

Lemma digits2_pos_log2 m : Z.pos (digits2_pos m) = Z.log2 (Z.pos m) + 1.
Proof.
  induction m as [m IH|m IH|]; cbn [digits2_pos]; [| |done].
  - rewrite Pos2Z.inj_succ, IH. change (Z.pos m~1) with (2 * Z.pos m + 1). rewrite Z.log2_succ_double by lia. lia.
  - rewrite Pos2Z.inj_succ, IH. change (Z.pos m~0) with (2 * Z.pos m). rewrite Z.log2_double by lia. lia.
Qed.

Lemma Zdigits2_log2 m : 0 < m -> Zdigits2 m = Z.log2 m + 1.
Proof. destruct m as [|m|m]; [lia| |lia]. intros _. apply digits2_pos_log2. Qed.

(** ** Rounding *)

Section Round.
Context (prec emax : Z).
Hypothesis (Hprec : 1 < prec).

(** Shifting right. *)
Lemma shr_1_m mrs : 0 <= shr_m mrs -> shr_m (shr_1 mrs) = shr_m mrs / 2.
Proof.
  destruct mrs as [[|p|p] r s]; simpl; [done| |lia]. intros _.
  destruct p as [p|p|]; simpl; [| |done].
  - change (Z.pos p~1) with (2 * Z.pos p + 1). Z.div_mod_to_equations. lia.
  - change (Z.pos p~0) with (2 * Z.pos p). Z.div_mod_to_equations. lia.
Qed.

Lemma shr_1_bits m r s : 0 <= m ->
  (shr_r (shr_1 {| shr_m := m; shr_r := r; shr_s := s |}) || shr_s (shr_1 {| shr_m := m; shr_r := r; shr_s := s |}))
  = Z.odd m || (r || s).
Proof. destruct m as [|p|p]; simpl; [by destruct r, s| |lia]. intros _. destruct p; by destruct r, s. Qed.

(** [n] bits: the quotient, and whether something was lost, now or before. *)
Definition shifted (before : bool) (n : nat) (m : Z) (mrs : shr_record) : Prop :=
  shr_m mrs = m / 2 ^ Z.of_nat n /\
  (shr_r mrs || shr_s mrs = true -> m mod 2 ^ Z.of_nat n <> 0 \/ before = true).

Lemma shifted_1 i n m mrs : 0 <= m -> shifted i n m mrs -> shifted i (S n) m (shr_1 mrs).
Proof.
  intros Hm [H1 H2]. assert (0 < 2 ^ Z.of_nat n) as Hp by (apply Z.pow_pos_nonneg; lia).
  assert (2 ^ Z.of_nat (S n) = 2 ^ Z.of_nat n * 2) as Hpow
    by (rewrite Nat2Z.inj_succ, Z.pow_succ_r by lia; lia).
  assert (0 <= shr_m mrs) as Hs by (rewrite H1; apply Z.div_pos; lia). split.
  - rewrite shr_1_m, H1, Hpow, Z.div_div by lia. done.
  - destruct mrs as [q r s]. cbn [shr_m shr_r shr_s] in H1, H2, Hs. rewrite shr_1_bits by done. intros [Hodd|Hlost]%orb_true_iff.
    + left. rewrite Hpow. intros Hz. apply Z.mod_divide in Hz as [c Hc]; [|lia].
      rewrite H1, Hc, Z.mul_assoc, (Z.mul_comm _ 2), Z.mul_assoc, Z.div_mul in Hodd by lia.
      by rewrite Z.odd_mul, andb_false_r in Hodd || rewrite Z.odd_mul in Hodd.
    + destruct (H2 Hlost) as [H3|]; [left|by right]. rewrite Hpow. intros Hz. apply H3. apply Z.mod_divide in Hz as [c Hc]; [|lia].
      rewrite Hc, Z.mul_assoc, (Z.mul_comm _ 2), Z.mul_assoc. apply Z.mod_mul. lia.
Qed.

Lemma shifted_iter i p : forall n m mrs, 0 <= m -> shifted i n m mrs ->
  shifted i (n + Pos.to_nat p) m (SpecFloat.iter_pos shr_1 p mrs).
Proof.
  induction p as [p IH|p IH|]; intros n m mrs Hm Hs; cbn [SpecFloat.iter_pos].
  - replace (n + Pos.to_nat p~1)%nat with (S n + Pos.to_nat p + Pos.to_nat p)%nat by lia.
    by apply IH, IH, shifted_1.
  - replace (n + Pos.to_nat p~0)%nat with (n + Pos.to_nat p + Pos.to_nat p)%nat by lia. by apply IH, IH.
  - replace (n + Pos.to_nat 1)%nat with (S n) by lia. by apply shifted_1.
Qed.

(** Whether the location says that something was lost. *)
Definition inexact (l : location) : bool := match l with loc_Exact => false | loc_Inexact _ => true end.

Lemma shifted_0 m l : shifted (inexact l) 0 m (shr_record_of_loc m l).
Proof. destruct l as [|[]]; (split; [by rewrite Z.div_1_r|]); simpl; auto; done. Qed.

Lemma shr_fexp_shifted m e l :
  0 <= m -> exists mrs n, shr_fexp prec emax m e l = (mrs, e + Z.of_nat n) /\ shifted (inexact l) n m mrs /\
    e + Z.of_nat n = Z.max e (fexp prec emax (Zdigits2 m + e)).
Proof.
  intros Hm. unfold shr_fexp, shr.
  destruct (fexp prec emax (Zdigits2 m + e) - e) as [|p|p] eqn:Hk.
  - exists (shr_record_of_loc m l), 0%nat. rewrite Z.add_0_r. split; [done|]. split; [apply shifted_0|lia].
  - eexists _, (Pos.to_nat p). rewrite positive_nat_Z.
    split; [reflexivity|]. split; [by apply (shifted_iter _ p 0 m), shifted_0|lia].
  - exists (shr_record_of_loc m l), 0%nat. rewrite Z.add_0_r. split; [done|]. split; [apply shifted_0|lia].
Qed.

(** Rounding to the nearest integer moves up only when something was lost. *)
Lemma nearest_cases mrs :
  let q := round_nearest_even (shr_m mrs) (loc_of_shr_record mrs) in
  q = shr_m mrs \/ q = shr_m mrs + 1 /\ shr_r mrs || shr_s mrs = true.
Proof.
  destruct mrs as [m [] []]; simpl; auto. destruct (Z.even m); auto.
Qed.

Lemma scaled_exponent m e n f :
  0 < m -> 0 < n < 2 ^ prec -> scaled_le m e n f -> Z.log2 m + e < prec + f.
Proof.
  intros Hm Hn Hle. apply Z.nle_gt. intros Hge. pose proof (Z.log2_spec m Hm) as [Hl _].
  pose proof (Z.log2_nonneg m) as Hl0.
  set (k := Z.abs e + Z.abs f). specialize (Hle k ltac:(lia) ltac:(lia)).
  assert (2 ^ (Z.log2 m + (k + e)) <= m * 2 ^ (k + e)) as H1.
  { rewrite (Z.pow_add_r 2 (Z.log2 m)) by lia. apply Z.mul_le_mono_nonneg_r; [apply Z.pow_nonneg|]; lia. }
  assert (n * 2 ^ (k + f) < 2 ^ (prec + (k + f))) as H2.
  { rewrite (Z.pow_add_r 2 prec) by lia. apply Z.mul_lt_mono_pos_r; [apply Z.pow_pos_nonneg|]; lia. }
  assert (2 ^ (prec + (k + f)) <= 2 ^ (Z.log2 m + (k + e))) by (apply Z.pow_le_mono_r; lia). lia.
Qed.

(** One shift to the target exponent keeps a bound that can be represented. *)
Lemma shifted_bound i m e n f k mrs q :
  0 <= m -> 0 < n -> scaled_le m e n f -> (i = true -> scaled_le (m + 1) e n f) ->
  shifted i k m mrs -> k = 0%nat \/ e + Z.of_nat k <= f ->
  (q = shr_m mrs \/ q = shr_m mrs + 1 /\ shr_r mrs || shr_s mrs = true) ->
  scaled_le q (e + Z.of_nat k) n f.
Proof.
  intros Hm Hn Hle Hle1 [H1 H2] Hk Hq. assert (0 < 2 ^ Z.of_nat k) as Hp by (apply Z.pow_pos_nonneg; lia).
  assert (m / 2 ^ Z.of_nat k * 2 ^ Z.of_nat k + m mod 2 ^ Z.of_nat k = m) as Hdm
    by (pose proof (Z.div_mod m (2 ^ Z.of_nat k)); lia).
  pose proof (Z.mod_pos_bound m (2 ^ Z.of_nat k) Hp) as Hr. rewrite <- H1 in Hdm.
  destruct Hq as [->|[-> Hlost]].
  - apply (scaled_le_trans _ _ m e); [|done]. apply (scaled_le_at (- e)); [lia..|].
    rewrite Z.add_opp_diag_l. replace (- e + (e + Z.of_nat k)) with (Z.of_nat k) by lia. lia.
  - specialize (H2 Hlost). destruct Hk as [->|Hk].
    { destruct H2 as [H2|Hi]; [by rewrite Z.mod_1_r in H2|]. rewrite H1, Z.div_1_r, Z.add_0_r. by apply Hle1. }
    apply (scaled_le_at (- (e + Z.of_nat k))); [lia..|]. rewrite Z.add_opp_diag_l, Z.mul_1_r.
    assert (shr_m mrs * 2 ^ Z.of_nat k + 1 <= n * 2 ^ (- e + f)) as Hb.
    { destruct H2 as [H2|Hi].
      - specialize (Hle (- e) ltac:(lia) ltac:(lia)). rewrite Z.add_opp_diag_l, Z.mul_1_r in Hle. lia.
      - specialize (Hle1 Hi (- e) ltac:(lia) ltac:(lia)). rewrite Z.add_opp_diag_l, Z.mul_1_r in Hle1. lia. }
    replace (- e + f) with (- (e + Z.of_nat k) + f + Z.of_nat k) in Hb by lia.
    rewrite Z.pow_add_r, Z.mul_assoc in Hb by lia. set (N := n * 2 ^ (- (e + Z.of_nat k) + f)) in *.
    apply Z.le_succ_l, (Z.mul_lt_mono_pos_r (2 ^ Z.of_nat k)); [done|]. lia.
Qed.

(** The result of rounding has the sign of the number, or is a zero with that sign. *)
Definition of_sign (s : bool) (x : float) : Prop :=
  match x with S754_zero s' | S754_finite s' _ _ => s' = s | _ => False end.

Definition of_mantissa (s : bool) (q e : Z) : float :=
  match q with Z.pos p => S754_finite s p e | _ => S754_zero s end.

(** After the first shift no second one is needed, unless the carry reached a power of two. *)
Lemma second_shift q e1 :
  0 <= q <= 2 ^ prec -> emin prec emax <= e1 -> exists q2 j mrs,
    shr_fexp prec emax q e1 loc_Exact = (mrs, e1 + Z.of_nat j) /\ shr_m mrs = q2 /\ q2 * 2 ^ Z.of_nat j = q /\ q2 < 2 ^ prec.
Proof.
  intros Hq He1. destruct (shr_fexp_shifted q e1 loc_Exact ltac:(lia)) as (mrs & j & Hrun & [Hs _] & Hj).
  exists (shr_m mrs), j, mrs. split; [done|]. split; [done|]. rewrite Hs.
  destruct (Z.eq_dec q 0) as [->|Hne]; [rewrite Z.div_0_l by (apply Z.pow_nonzero; lia); split; [done|apply Z.pow_pos_nonneg; lia]|].
  rewrite Zdigits2_log2 in Hj by lia. unfold fexp in Hj.
  destruct (Z.eq_dec q (2 ^ prec)) as [->|Hlt].
  - rewrite Z.log2_pow2 in Hj by lia. assert (j = 1%nat) as -> by lia.
    change (2 ^ Z.of_nat 1) with 2. replace prec with (prec - 1 + 1) by lia.
    rewrite Z.pow_add_r, Z.div_mul by lia. pose proof (Z.pow_pos_nonneg 2 (prec - 1)). lia.
  - assert (Z.log2 q < prec) by (apply Z.log2_lt_pow2; lia). assert (j = 0%nat) as -> by lia.
    rewrite Z.div_1_r, Z.mul_1_r. split; [done|lia].
Qed.

(** What rounding does: the new mantissa [q] stands for [m] up to one unit of its last
    place, and exactly when nothing was shifted out. *)
Lemma round_aux_core s m e l n f :
  0 <= m -> 0 < n < 2 ^ prec -> emin prec emax <= f -> f + 2 * prec <= emax -> scaled_le m e n f ->
  (inexact l = true -> scaled_le (m + 1) e n f) ->
  exists q j i, binary_round_aux prec emax s m e l = of_mantissa s q (e + Z.of_nat j) /\ 0 <= q < 2 ^ prec /\
    emin prec emax <= e + Z.of_nat j /\ scaled_le q (e + Z.of_nat j) n f /\
    (inexact l = false -> i = 0%nat /\ q * 2 ^ Z.of_nat j = m \/
     e + Z.of_nat i <= f /\ Z.abs (q * 2 ^ Z.of_nat j - m) <= 2 ^ Z.of_nat i).
Proof.
  intros Hm Hn Hemin Hf Hle Hle1. unfold binary_round_aux.
  destruct (shr_fexp_shifted m e l Hm) as (mrs & i & -> & Hs & Hi).
  pose proof (nearest_cases mrs) as Hq. set (q := round_nearest_even _ _) in *. cbv zeta in Hq.
  assert ((i = 0%nat \/ e + Z.of_nat i <= f) /\ emin prec emax <= e + Z.of_nat i /\ m < 2 ^ (Z.of_nat i + prec)) as (Hif & He1 & Hm2).
  { destruct (Z.eq_dec m 0) as [->|Hne].
    - change (Zdigits2 0) with 0 in Hi. unfold fexp in Hi. split; [lia|]. split; [lia|]. apply Z.pow_pos_nonneg; lia.
    - assert (0 < m) as Hm0 by lia. pose proof (scaled_exponent m e n f Hm0 Hn Hle) as Hexp.
      rewrite Zdigits2_log2 in Hi by done. unfold fexp in Hi.
      split; [lia|]. split; [lia|]. apply Z.log2_lt_pow2; lia. }
  assert (scaled_le q (e + Z.of_nat i) n f) as Hle' by (eapply shifted_bound; [|apply Hn|..]; eauto; lia).
  assert (0 < 2 ^ Z.of_nat i) as Hp by (apply Z.pow_pos_nonneg; lia).
  pose proof (Z.div_mod m (2 ^ Z.of_nat i) ltac:(lia)) as Hdm. pose proof (Z.mod_pos_bound m _ Hp) as Hmod.
  pose proof (Z.div_pos m (2 ^ Z.of_nat i) ltac:(lia) Hp) as Hd0. destruct Hs as [Hs1 Hs2].
  assert (m / 2 ^ Z.of_nat i < 2 ^ prec) as Hfit.
  { apply Z.div_lt_upper_bound; [done|]. by rewrite <- Z.pow_add_r by lia. }
  assert (0 <= q <= 2 ^ prec /\ Z.abs (q * 2 ^ Z.of_nat i - m) <= 2 ^ Z.of_nat i) as [Hq2 Herr].
  { destruct Hq as [->|[-> _]]; rewrite Hs1; lia. }
  assert (inexact l = false -> i = 0%nat -> q = m) as Hq0.
  { intros Hl ->. rewrite Z.div_1_r in Hs1. destruct Hq as [->|[_ Hlost]]; [done|].
    destruct (Hs2 Hlost) as [Hz|?]; [by rewrite Z.mod_1_r in Hz|congruence]. }
  destruct (second_shift q (e + Z.of_nat i) Hq2 ltac:(lia)) as (q2 & j & mrs2 & -> & -> & Hj & Hfit2).
  exists q2, (i + j)%nat, i. rewrite Nat2Z.inj_add, Z.add_assoc.
  assert (q2 * 2 ^ (Z.of_nat i + Z.of_nat j) = q * 2 ^ Z.of_nat i) as Hv by (rewrite <- Hj, Z.pow_add_r by lia; ring).
  assert (0 < 2 ^ Z.of_nat j) as Hpj by (apply Z.pow_pos_nonneg; lia).
  assert (scaled_le q2 (e + Z.of_nat i + Z.of_nat j) n f) as Hle2.
  { apply (scaled_le_trans _ _ q (e + Z.of_nat i)); [|done]. apply (scaled_le_at (- (e + Z.of_nat i))); [lia..|].
    rewrite Z.add_opp_diag_l. replace (- (e + Z.of_nat i) + (e + Z.of_nat i + Z.of_nat j)) with (Z.of_nat j) by lia. lia. }
  split; [|split; [nia|split; [lia|split; [done|]]]].
  - destruct q2 as [|p|p]; [done| |nia].
    pose proof (scaled_exponent (Z.pos p) _ n f ltac:(lia) Hn Hle2). pose proof (Z.log2_nonneg (Z.pos p)).
    cbn [of_mantissa]. destruct (Z.leb_spec (e + Z.of_nat i + Z.of_nat j) (emax - prec)); [done|lia].
  - intros Hl. rewrite Hv. destruct Hif as [->|Hif]; [left; split; [done|]; rewrite Z.mul_1_r; by apply Hq0|by right].
Qed.

Lemma round_aux_at_most s m e l n f :
  0 <= m -> 0 < n < 2 ^ prec -> emin prec emax <= f -> f + 2 * prec <= emax -> scaled_le m e n f ->
  (inexact l = true -> scaled_le (m + 1) e n f) ->
  at_most n f (binary_round_aux prec emax s m e l) /\ of_sign s (binary_round_aux prec emax s m e l).
Proof.
  intros Hm Hn H1 H2 Hle Hle1.
  destruct (round_aux_core s m e l n f Hm Hn H1 H2 Hle Hle1) as (q & j & i & -> & Hq & _ & Hb & _).
  destruct q as [|p|p]; [by split|by split|lia].
Qed.

Lemma iter_xO m d : Z.pos (Pos.iter xO m d) = Z.pos m * 2 ^ Z.pos d.
Proof.
  induction d as [|d IH] using Pos.peano_ind; [simpl; lia|].
  rewrite Pos.iter_succ, Pos2Z.inj_succ, Z.pow_succ_r by lia.
  change (Z.pos (Pos.iter xO m d)~0) with (2 * Z.pos (Pos.iter xO m d)). rewrite IH. lia.
Qed.

(** Shifting left keeps the value. *)
Lemma shl_align_value m e e' : exists m' n,
  shl_align m e e' = (m', e - Z.of_nat n) /\ Z.pos m' = Z.pos m * 2 ^ Z.of_nat n /\
  e - Z.of_nat n = Z.min e e'.
Proof.
  unfold shl_align. destruct (e' - e) as [|d|d] eqn:Hd.
  - exists m, 0%nat. rewrite Z.sub_0_r. split; [done|]. split; lia.
  - exists m, 0%nat. rewrite Z.sub_0_r. split; [done|]. split; lia.
  - exists (Pos.iter xO m d), (Pos.to_nat d). rewrite iter_xO, positive_nat_Z. split; [f_equal; lia|]. split; lia.
Qed.

Lemma scaled_le_shift m e n f j : 0 <= j -> scaled_le m e n f -> scaled_le (m * 2 ^ j) (e - j) n f.
Proof.
  intros Hj H. set (k := Z.abs e + j + Z.abs f). apply (scaled_le_at k); [lia..|].
  rewrite <- Z.mul_assoc, <- Z.pow_add_r by lia. replace (j + (k + (e - j))) with (k + e) by lia. apply H; lia.
Qed.

Lemma round_at_most s m e n f :
  0 < n < 2 ^ prec -> emin prec emax <= f -> f + 2 * prec <= emax -> scaled_le (Z.pos m) e n f ->
  at_most n f (binary_round prec emax s m e) /\ of_sign s (binary_round prec emax s m e).
Proof.
  intros Hn H1 H2 Hle. unfold binary_round.
  destruct (shl_align_value m e (fexp prec emax (Z.pos (digits2_pos m) + e))) as (m' & j & -> & Hm' & _).
  apply round_aux_at_most; [lia|done..| |done]. rewrite Hm'. apply scaled_le_shift; [lia|done].
Qed.

Lemma normalize_at_most d e z n f :
  0 < n < 2 ^ prec -> emin prec emax <= f -> f + 2 * prec <= emax -> scaled_le (Z.abs d) e n f ->
  at_most n f (binary_normalize prec emax d e z) /\ (0 <= d -> nonneg (binary_normalize prec emax d e z)).
Proof.
  intros Hn H1 H2 Hle. destruct d as [|m|m]; cbn [binary_normalize]; [by split| |].
  - destruct (round_at_most false m e n f Hn H1 H2 Hle) as [Ha Hs]. split; [done|]. intros _.
    by destruct (binary_round prec emax false m e).
  - split; [by apply round_at_most|lia].
Qed.

Lemma log2_scale m j : 0 < m -> 0 <= j -> Z.log2 (m * 2 ^ j) = Z.log2 m + j.
Proof. intros. rewrite Z.log2_mul_pow2 by done. lia. Qed.

(** Numbers of the format are not changed by rounding. *)
Lemma round_exact s m e c j :
  Z.pos m = c * 2 ^ j -> 0 <= j -> 0 < c < 2 ^ prec -> emin prec emax <= e + j -> e + j + prec <= emax ->
  exists m' e', binary_round prec emax s m e = S754_finite s m' e' /\ Z.pos m' < 2 ^ prec /\
    emin prec emax <= e' <= e + j /\
    forall k, k <= e -> k <= e' -> Z.pos m' * 2 ^ (e' - k) = Z.pos m * 2 ^ (e - k).
Proof.
  intros Hm Hj Hc Hlo Hhi. unfold binary_round.
  destruct (shl_align_value m e (fexp prec emax (Z.pos (digits2_pos m) + e))) as (m1 & i & -> & Hm1 & Hi).
  rewrite digits2_pos_log2 in Hi. unfold binary_round_aux.
  destruct (shr_fexp_shifted (Z.pos m1) (e - Z.of_nat i) loc_Exact ltac:(lia)) as (mrs & n & -> & [Hs1 Hs2] & Hn).
  assert (Z.log2 (Z.pos m1) = Z.log2 (Z.pos m) + Z.of_nat i) as Hlog by (rewrite Hm1; apply log2_scale; lia).
  rewrite Zdigits2_log2, Hlog in Hn by lia.
  replace (Z.log2 (Z.pos m) + Z.of_nat i + 1 + (e - Z.of_nat i)) with (Z.log2 (Z.pos m) + 1 + e) in Hn by lia.
  assert (Z.log2 (Z.pos m) = Z.log2 c + j) as Hlogc by (rewrite Hm; apply log2_scale; lia).
  assert (Z.log2 c < prec) as Hc2 by (apply Z.log2_lt_pow2; lia).
  set (e1 := e - Z.of_nat i + Z.of_nat n) in *.
  assert (e1 = fexp prec emax (Z.log2 (Z.pos m) + 1 + e)) as He1 by (unfold fexp in *; lia).
  assert (e1 <= e + j) as Hle by (unfold fexp in He1; lia).
  (* nothing is lost *)
  assert (Z.pos m1 = c * 2 ^ (e + j - e1) * 2 ^ Z.of_nat n) as Hdiv.
  { rewrite Hm1, Hm, <- !Z.mul_assoc, <- !Z.pow_add_r by lia. do 2 f_equal. lia. }
  assert (0 < 2 ^ Z.of_nat n) as Hpn by (apply Z.pow_pos_nonneg; lia).
  assert (shr_m mrs = c * 2 ^ (e + j - e1)) as Hq by (rewrite Hs1, Hdiv; apply Z.div_mul; lia).
  assert (shr_r mrs || shr_s mrs = false) as Hlost.
  { apply not_true_is_false. intros Ht. destruct (Hs2 Ht) as [Hs3|]; [|done]. apply Hs3. rewrite Hdiv. apply Z.mod_mul. lia. }
  destruct (nearest_cases mrs) as [->|[_ ?]]; [|congruence].
  assert (0 < shr_m mrs) as Hpos by (rewrite Hq; apply Z.mul_pos_pos; [lia|apply Z.pow_pos_nonneg; lia]).
  destruct (shr_fexp_shifted (shr_m mrs) e1 loc_Exact ltac:(lia)) as (mrs2 & n2 & -> & [Hs3 _] & Hn2).
  assert (Z.log2 (shr_m mrs) + 1 + e1 = Z.log2 (Z.pos m) + 1 + e) as Heq
    by (rewrite Hq, log2_scale, Hlogc by lia; lia).
  rewrite Zdigits2_log2, Heq, <- He1 in Hn2 by done. assert (n2 = 0%nat) as -> by lia.
  rewrite Z.div_1_r in Hs3. rewrite Z.add_0_r, Hs3.
  destruct (shr_m mrs) as [|p|p] eqn:Ep; [lia| |lia].
  assert (e1 <= emax - prec) as Hmax by lia. apply Z.leb_le in Hmax. rewrite Hmax.
  exists p, e1. split; [done|]. split; [|split; [unfold fexp in He1; lia|]].
  { apply Z.log2_lt_cancel. rewrite Z.log2_pow2 by lia. unfold fexp in He1. lia. }
  intros k Hk1 Hk2.
  rewrite Hq, Hm, <- !Z.mul_assoc, <- !Z.pow_add_r by lia. do 2 f_equal. lia.
Qed.
End Round.

(** ** Values *)

Definition is_finite (x : float) : Prop :=
  match x with S754_zero _ | S754_finite _ _ _ => True | _ => False end.

(** A finite number in units of [2^k], for [k] below its exponent. *)
Definition low (k : Z) (x : float) : Prop := match x with S754_finite _ _ e => k <= e | _ => True end.
Definition units (k : Z) (x : float) : Z :=
  match x with S754_finite s m e => cond_Zopp s (Z.pos m * 2 ^ (e - k)) | _ => 0 end.

Lemma units_at_most k x n f :
  is_finite x -> low k x -> k <= f -> 0 <= n -> at_most n f x <-> Z.abs (units k x) <= n * 2 ^ (f - k).
Proof.
  intros Hx Hk Hf Hn. assert (0 <= 2 ^ (f - k)) by (apply Z.pow_nonneg; lia).
  destruct x as [s| | |s m e]; [|done|done|]; simpl in *; [split; [lia|done]|].
  rewrite (scaled_le_at (- k)) by lia. replace (- k + e) with (e - k) by lia. replace (- k + f) with (f - k) by lia.
  assert (0 < 2 ^ (e - k)) by (apply Z.pow_pos_nonneg; lia).
  assert (Z.abs (cond_Zopp s (Z.pos m * 2 ^ (e - k))) = Z.pos m * 2 ^ (e - k)) as -> by (destruct s; cbn [cond_Zopp]; lia).
  done.
Qed.

Lemma units_nonneg k x : is_finite x -> low k x -> nonneg x <-> 0 <= units k x.
Proof.
  intros Hx Hk. destruct x as [s| | |s m e]; [by split|done|done|]. simpl in *.
  assert (0 < Z.pos m * 2 ^ (e - k)) by (apply Z.mul_pos_pos; [|apply Z.pow_pos_nonneg]; lia).
  destruct s; cbn [cond_Zopp]; split; (done || lia).
Qed.

Lemma nonneg_finite x : nonneg x -> is_finite x.
Proof. by destruct x. Qed.

Lemma at_most_finite n f x : at_most n f x -> is_finite x.
Proof. by destruct x. Qed.

(** Some unit is small enough for both. *)
Lemma low_both x y f : exists k, low k x /\ low k y /\ k <= f.
Proof.
  exists (Z.min f (Z.min (match x with S754_finite _ _ e => e | _ => 0 end) (match y with S754_finite _ _ e => e | _ => 0 end))).
  split; [|split]; [destruct x; simpl; lia|destruct y; simpl; lia|lia].
Qed.

Section Arithmetic.
Context (prec emax : Z).
Hypothesis (Hprec : 1 < prec).

Lemma align_units s m e k ez :
  k <= ez -> ez <= e ->
  cond_Zopp s (Z.pos (fst (shl_align m e ez))) * 2 ^ (ez - k) = units k (S754_finite s m e).
Proof.
  intros Hk He. destruct (shl_align_value m e ez) as (m' & n & -> & Hm & Hn). simpl. rewrite Hm.
  assert (2 ^ Z.of_nat n * 2 ^ (ez - k) = 2 ^ (e - k)) as E by (rewrite <- Z.pow_add_r by lia; f_equal; lia).
  destruct s; cbn [cond_Zopp]; rewrite <- E; ring.
Qed.

Lemma add_at_most x y k n f :
  is_finite x -> is_finite y -> low k x -> low k y -> k <= f ->
  0 < n < 2 ^ prec -> emin prec emax <= f -> f + 2 * prec <= emax ->
  Z.abs (units k x + units k y) <= n * 2 ^ (f - k) ->
  at_most n f (SFadd prec emax x y) /\ (0 <= units k x + units k y -> nonneg (SFadd prec emax x y)).
Proof.
  intros Hx Hy Lx Ly Hk Hn H1 H2 Hle.
  destruct x as [sx| | |sx mx ex]; [|done|done|]; (destruct y as [sy| | |sy my ey]; [|done|done|]).
  - by destruct sx, sy.
  - rewrite Z.add_0_l in *. split; [by apply (units_at_most k); try done; lia|by apply (units_nonneg k)].
  - rewrite Z.add_0_r in *. split; [by apply (units_at_most k); try done; lia|by apply (units_nonneg k)].
  - simpl in Lx, Ly. cbn [SFadd]. set (ez := Z.min ex ey).
    pose proof (align_units sx mx ex k ez ltac:(lia) ltac:(lia)) as Ex.
    pose proof (align_units sy my ey k ez ltac:(lia) ltac:(lia)) as Ey.
    set (d := cond_Zopp sx _ + cond_Zopp sy _) in *.
    assert (d * 2 ^ (ez - k) = units k (S754_finite sx mx ex) + units k (S754_finite sy my ey)) as Hd
      by (unfold d; rewrite Z.mul_add_distr_r; congruence).
    assert (0 < 2 ^ (ez - k)) as Hp by (apply Z.pow_pos_nonneg; lia). rewrite <- Hd in *.
    destruct (normalize_at_most prec emax Hprec d ez false n f Hn H1 H2) as [Ha Hs].
    { apply (scaled_le_at (- k)); [lia..|]. replace (- k + ez) with (ez - k) by lia.
      replace (- k + f) with (f - k) by lia. rewrite Z.abs_mul in Hle. lia. }
    split; [done|]. intros Hpos. apply Hs. nia.
Qed.

Lemma sub_add x y : is_finite x -> is_finite y -> SFsub prec emax x y = SFadd prec emax x (SFopp y).
Proof.
  destruct x as [sx| | |sx mx ex]; [|done|done|]; (destruct y as [sy| | |sy my ey]; [|done|done|]); intros _ _.
  - by destruct sx, sy.
  - done.
  - done.
  - cbn [SFsub SFadd SFopp]. f_equal. destruct sy; cbn [cond_Zopp negb]; lia.
Qed.

Lemma units_opp k x : units k (SFopp x) = - units k x.
Proof. destruct x as [s| | |s m e]; try done. simpl. destruct s; cbn [cond_Zopp negb]; lia. Qed.

Lemma sub_at_most x y k n f :
  is_finite x -> is_finite y -> low k x -> low k y -> k <= f ->
  0 < n < 2 ^ prec -> emin prec emax <= f -> f + 2 * prec <= emax ->
  Z.abs (units k x - units k y) <= n * 2 ^ (f - k) ->
  at_most n f (SFsub prec emax x y) /\ (0 <= units k x - units k y -> nonneg (SFsub prec emax x y)).
Proof.
  intros Hx Hy Lx Ly Hk Hn H1 H2. rewrite sub_add by done.
  replace (units k x - units k y) with (units k x + units k (SFopp y)) by (rewrite units_opp; lia).
  intros Hle. apply add_at_most; try done; by destruct y.
Qed.

Lemma scaled_le_mul m e n f m' e' n' f' :
  0 <= m -> 0 <= m' -> scaled_le m e n f -> scaled_le m' e' n' f' -> scaled_le (m * m') (e + e') (n * n') (f + f').
Proof.
  intros Hm Hm' H1 H2. set (k := Z.abs e + Z.abs f + Z.abs e' + Z.abs f').
  specialize (H1 k ltac:(lia) ltac:(lia)). specialize (H2 k ltac:(lia) ltac:(lia)).
  apply (scaled_le_at (k + k)); [lia..|].
  replace (k + k + (e + e')) with ((k + e) + (k + e')) by lia. replace (k + k + (f + f')) with ((k + f) + (k + f')) by lia.
  rewrite !(Z.pow_add_r 2 (k + _) (k + _)) by lia.
  assert (0 <= 2 ^ (k + e)) by (apply Z.pow_nonneg; lia). assert (0 <= 2 ^ (k + e')) by (apply Z.pow_nonneg; lia).
  transitivity ((m * 2 ^ (k + e)) * (m' * 2 ^ (k + e'))); [lia|].
  transitivity ((n * 2 ^ (k + f)) * (n' * 2 ^ (k + f'))); [|lia]. apply Z.mul_le_mono_nonneg; lia.
Qed.

Lemma mul_at_most x y n f n' f' :
  at_most n f x -> at_most n' f' y -> 0 < n * n' < 2 ^ prec -> emin prec emax <= f + f' -> f + f' + 2 * prec <= emax ->
  at_most (n * n') (f + f') (SFmul prec emax x y) /\ (nonneg x -> nonneg y -> nonneg (SFmul prec emax x y)).
Proof.
  intros Hx Hy Hn H1 H2.
  destruct x as [sx| | |sx mx ex]; [|done|done|]; (destruct y as [sy| | |sy my ey]; [|done|done|]); try done.
  cbn [SFmul]. destruct (round_aux_at_most prec emax Hprec (xorb sx sy) (Z.pos (mx * my)) (ex + ey) loc_Exact (n * n') (f + f'))
    as [Ha Hs]; try done.
  { rewrite Pos2Z.inj_mul. by apply scaled_le_mul. }
  split; [done|]. intros -> ->. by destruct (binary_round_aux _ _ _ _ _ _).
Qed.

Lemma new_location_inexact m r : inexact (new_location m r) = true -> r <> 0.
Proof. unfold new_location, new_location_even, new_location_odd. intros H ->. by destruct (Z.even m). Qed.

(** A quotient, when [x <= n * 2^f * y]. *)
Lemma div_at_most sx mx ex sy my ey n f :
  0 < n < 2 ^ prec -> emin prec emax <= f -> f + 2 * prec <= emax ->
  scaled_le (Z.pos mx) ex (n * Z.pos my) (f + ey) ->
  let z := SFdiv prec emax (S754_finite sx mx ex) (S754_finite sy my ey) in
  at_most n f z /\ of_sign (xorb sx sy) z.
Proof.
  intros Hn H1 H2 Hle. cbn [SFdiv]. unfold SFdiv_core_binary.
  set (e := Z.min (fexp prec emax _) (ex - ey)).
  set (m' := match ex - ey - e with Z0 => _ | Z.pos _ => _ | Z.neg _ => 0 end).
  assert (0 <= ex - ey - e) as Hs by (unfold e; lia).
  assert (m' = Z.pos mx * 2 ^ (ex - ey - e)) as Hm'.
  { unfold m'. destruct (ex - ey - e) as [|p|p] eqn:E; [lia| |lia]. by rewrite Z.shiftl_mul_pow2 by lia. }
  assert (e <= f) as Hef.
  { assert (n * Z.pos my < 2 ^ (prec + Z.pos (digits2_pos my))) as Hnm.
    { rewrite Z.pow_add_r, digits2_pos_log2 by lia. pose proof (Z.log2_spec (Z.pos my) ltac:(lia)) as [_ Hlt].
      unfold Z.succ in Hlt. nia. }
    pose proof (scaled_exponent (prec + Z.pos (digits2_pos my)) ltac:(lia) (Z.pos mx) ex (n * Z.pos my) (f + ey)
      ltac:(lia) ltac:(lia) Hle) as Hexp.
    unfold e, fexp. cbn [Zdigits2]. rewrite (digits2_pos_log2 mx). lia. }
  assert (m' <= n * 2 ^ (f - e) * Z.pos my) as Hbound.
  { specialize (Hle (- (ey + e)) ltac:(lia) ltac:(lia)). rewrite Hm'.
    replace (- (ey + e) + ex) with (ex - ey - e) in Hle by lia. replace (- (ey + e) + (f + ey)) with (f - e) in Hle by lia. lia. }
  assert (0 <= m') as Hm0 by (rewrite Hm'; apply Z.mul_nonneg_nonneg; [lia|apply Z.pow_nonneg; lia]).
  pose proof (Z_div_mod m' (Z.pos my) ltac:(lia)) as Hqr. destruct (Z.div_eucl m' (Z.pos my)) as [q r].
  destruct Hqr as [Hq Hr]. assert (0 <= q) as Hq0 by nia.
  apply round_aux_at_most; try done.
  - apply (scaled_le_at (- e)); [lia..|]. rewrite Z.add_opp_diag_l, Z.mul_1_r. replace (- e + f) with (f - e) by lia. nia.
  - intros Hi%new_location_inexact. apply (scaled_le_at (- e)); [lia..|].
    rewrite Z.add_opp_diag_l, Z.mul_1_r. replace (- e + f) with (f - e) by lia. nia.
Qed.

(** A square root. *)
Lemma sqrt_at_most x n f :
  0 < n < 2 ^ prec -> emin prec emax <= f -> f + 2 * prec <= emax -> nonneg x -> at_most (n * n) (f + f) x ->
  at_most n f (SFsqrt prec emax x) /\ nonneg (SFsqrt prec emax x).
Proof.
  intros Hn H1 H2 Hx Hle. destruct x as [s| | |s mx ex]; [by split|done|done|]. cbn [nonneg at_most] in Hx, Hle. subst s.
  cbn [SFsqrt]. unfold SFsqrt_core_binary. cbn [Zdigits2]. rewrite digits2_pos_log2.
  set (e := Z.min _ _). set (m' := match ex - 2 * e with Z0 => _ | Z.pos _ => _ | Z.neg _ => 0 end).
  assert (e <= Z.div2 ex /\ e <= f) as [He Hef].
  { split; [unfold e; lia|].
    pose proof (scaled_exponent (2 * prec) ltac:(lia) (Z.pos mx) ex (n * n) (f + f) ltac:(lia)) as Hexp.
    replace (2 ^ (2 * prec)) with (2 ^ prec * 2 ^ prec) in Hexp by (rewrite <- Z.pow_add_r by lia; f_equal; lia).
    specialize (Hexp ltac:(nia) Hle). unfold e, fexp. rewrite !Z.div2_div. Z.div_mod_to_equations. lia. }
  assert (0 <= ex - 2 * e) as Hs by (rewrite Z.div2_div in He; Z.div_mod_to_equations; lia).
  assert (m' = Z.pos mx * 2 ^ (ex - 2 * e)) as Hm'.
  { unfold m'. destruct (ex - 2 * e) as [|p|p] eqn:E; [lia| |lia]. by rewrite Z.shiftl_mul_pow2 by lia. }
  assert (m' <= n * 2 ^ (f - e) * (n * 2 ^ (f - e))) as Hbound.
  { specialize (Hle (- (2 * e)) ltac:(lia) ltac:(lia)). rewrite Hm'. replace (ex - 2 * e) with (- (2 * e) + ex) by lia.
    etransitivity; [exact Hle|]. replace (- (2 * e) + (f + f)) with (f - e + (f - e)) by lia. rewrite Z.pow_add_r by lia. lia. }
  assert (0 <= m') as Hm0 by (rewrite Hm'; apply Z.mul_nonneg_nonneg; [lia|apply Z.pow_nonneg; lia]).
  pose proof (Z.sqrtrem_spec m' Hm0) as Hqr. destruct (Z.sqrtrem m') as [q r]. destruct Hqr as [Hq Hr].
  assert (0 < n * 2 ^ (f - e)) as HN by (apply Z.mul_pos_pos; [lia|apply Z.pow_pos_nonneg; lia]).
  set (l := if r =? 0 then _ else _).
  destruct (round_aux_at_most prec emax Hprec false q e l n f ltac:(lia) Hn H1 H2) as [Ha Hsign].
  - apply (scaled_le_at (- e)); [lia..|]. rewrite Z.add_opp_diag_l, Z.mul_1_r. replace (- e + f) with (f - e) by lia. nia.
  - intros Hi. apply (scaled_le_at (- e)); [lia..|]. rewrite Z.add_opp_diag_l, Z.mul_1_r.
    replace (- e + f) with (f - e) by lia. unfold l in Hi. destruct (Z.eqb_spec r 0); [done|]. nia.
  - split; [exact Ha|]. by destruct (binary_round_aux _ _ _ _ _ _).
Qed.

Lemma rounded_at_most x n f :
  at_most n f x -> 0 < n < 2 ^ prec -> emin prec emax <= f -> f + 2 * prec <= emax ->
  at_most n f (rounded prec emax x) /\ (nonneg x -> nonneg (rounded prec emax x)).
Proof.
  intros Hx Hn H1 H2. destruct x as [s| | |s m e]; [by split|done|done|]. cbn [rounded].
  destruct (round_at_most prec emax Hprec s m e n f Hn H1 H2 Hx) as [Ha Hs]. split; [done|].
  intros ->. by destruct (binary_round _ _ _ _ _).
Qed.
End Arithmetic.

(** ** Errors *)

Section Errors.
Context (prec emax : Z).
Hypothesis (Hprec : 1 < prec).

Lemma units_scale k j x : low j x -> k <= j -> units k x = units j x * 2 ^ (j - k).
Proof.
  destruct x as [s| | |s m e]; simpl; [lia..|]. intros Hj Hk.
  replace (e - k) with (e - j + (j - k)) by lia. rewrite Z.pow_add_r by lia. destruct s; cbn [cond_Zopp]; ring.
Qed.

Lemma low_le k j x : low j x -> k <= j -> low k x.
Proof. destruct x; simpl; lia. Qed.

Lemma round_aux_error s m e n f k :
  0 < m -> 0 < n < 2 ^ prec -> emin prec emax <= f -> f + 2 * prec <= emax -> scaled_le m e n f ->
  k <= e -> k <= emin prec emax ->
  let x := binary_round_aux prec emax s m e loc_Exact in
  is_finite x /\ low k x /\ Z.abs (units k x - cond_Zopp s (m * 2 ^ (e - k))) <= 2 ^ (f - k).
Proof.
  intros Hm Hn H1 H2 Hle Hke Hkm x. unfold x.
  destruct (round_aux_core prec emax Hprec s m e loc_Exact n f ltac:(lia) Hn H1 H2 Hle ltac:(done)) as (q & j & i & -> & Hq & Hj & _ & Herr).
  specialize (Herr eq_refl).
  assert (0 < 2 ^ (e - k)) as Hp by (apply Z.pow_pos_nonneg; lia).
  assert (units k (of_mantissa s q (e + Z.of_nat j)) = cond_Zopp s (q * 2 ^ Z.of_nat j * 2 ^ (e - k))) as ->.
  { assert (2 ^ (e + Z.of_nat j - k) = 2 ^ Z.of_nat j * 2 ^ (e - k)) as E
      by (rewrite <- Z.pow_add_r by lia; f_equal; lia).
    destruct q as [|p|p]; cbn [of_mantissa units]; [by destruct s| |lia]. rewrite E. destruct s; cbn [cond_Zopp]; ring. }
  split; [by destruct q|]. split; [destruct q; cbn [of_mantissa low]; lia|].
  assert (Z.abs (q * 2 ^ Z.of_nat j - m) * 2 ^ (e - k) <= 2 ^ (f - k)) as Hb.
  { destruct Herr as [[_ ->]|[Hi He]]; [rewrite Z.sub_diag; apply Z.pow_nonneg; lia|].
    transitivity (2 ^ Z.of_nat i * 2 ^ (e - k)); [by apply Z.mul_le_mono_nonneg_r; lia|].
    rewrite <- Z.pow_add_r by lia. apply Z.pow_le_mono_r; lia. }
  destruct s; cbn [cond_Zopp]; lia.
Qed.

Lemma round_error s m e n f k :
  0 < n < 2 ^ prec -> emin prec emax <= f -> f + 2 * prec <= emax -> scaled_le (Z.pos m) e n f ->
  k <= e -> k <= emin prec emax ->
  let x := binary_round prec emax s m e in
  is_finite x /\ low k x /\ Z.abs (units k x - units k (S754_finite s m e)) <= 2 ^ (f - k).
Proof.
  intros Hn H1 H2 Hle Hke Hkm. unfold binary_round.
  destruct (shl_align_value m e (fexp prec emax (Z.pos (digits2_pos m) + e))) as (m' & j & -> & Hm' & Hj).
  unfold fexp in Hj.
  assert (units k (S754_finite s m e) = cond_Zopp s (Z.pos m' * 2 ^ (e - Z.of_nat j - k))) as ->.
  { cbn [units]. f_equal. rewrite Hm', <- Z.mul_assoc, <- Z.pow_add_r by lia. do 2 f_equal. lia. }
  apply (round_aux_error s (Z.pos m') (e - Z.of_nat j) n f k); [lia|done..| |lia|lia].
  rewrite Hm'. apply scaled_le_shift; [lia|done].
Qed.

Lemma rounded_error x n f k :
  at_most n f x -> 0 < n < 2 ^ prec -> emin prec emax <= f -> f + 2 * prec <= emax ->
  low k x -> k <= emin prec emax ->
  low k (rounded prec emax x) /\ Z.abs (units k (rounded prec emax x) - units k x) <= 2 ^ (f - k).
Proof.
  intros Hx Hn H1 H2 Hk Hkm. destruct x as [s| | |s m e]; [|done|done|].
  - split; [done|]. apply Z.pow_nonneg. lia.
  - cbn [rounded]. by apply (round_error s m e n f k Hn H1 H2 Hx Hk Hkm).
Qed.

(** A rounded number fits the format. *)
Lemma rounded_format x n f :
  at_most n f x -> 0 < n < 2 ^ prec -> emin prec emax <= f -> f + 2 * prec <= emax ->
  match rounded prec emax x with S754_finite _ m e => Z.pos m < 2 ^ prec /\ emin prec emax <= e | _ => True end.
Proof.
  intros Hx Hn H1 H2. destruct x as [s| | |s m e]; [done|done|done|]. cbn [rounded]. unfold binary_round.
  destruct (shl_align_value m e (fexp prec emax (Z.pos (digits2_pos m) + e))) as (m' & j & -> & Hm' & Hj).
  destruct (round_aux_core prec emax Hprec s (Z.pos m') (e - Z.of_nat j) loc_Exact n f) as (q & i & i' & -> & Hq & Hlow & _);
    [lia|done..| |done|destruct q; cbn [of_mantissa]; first [done|split; [apply Hq|done]]].
  rewrite Hm'. apply scaled_le_shift; [lia|done].
Qed.

Lemma add_error x y k n f :
  is_finite x -> is_finite y -> low k x -> low k y -> k <= emin prec emax ->
  0 < n < 2 ^ prec -> emin prec emax <= f -> f + 2 * prec <= emax ->
  Z.abs (units k x + units k y) <= n * 2 ^ (f - k) ->
  low k (SFadd prec emax x y) /\
  Z.abs (units k (SFadd prec emax x y) - (units k x + units k y)) <= 2 ^ (f - k).
Proof.
  intros Hx Hy Lx Ly Hk Hn H1 H2 Hle. assert (0 <= 2 ^ (f - k)) as Hp by (apply Z.pow_nonneg; lia).
  destruct x as [sx| | |sx mx ex]; [|done|done|]; (destruct y as [sy| | |sy my ey]; [|done|done|]).
  - destruct sx, sy; simpl; split; done || lia.
  - cbn [SFadd]. split; [done|]. simpl. lia.
  - cbn [SFadd]. split; [done|]. simpl. lia.
  - simpl in Lx, Ly. cbn [SFadd]. set (ez := Z.min ex ey).
    pose proof (align_units sx mx ex k ez ltac:(lia) ltac:(lia)) as Ex.
    pose proof (align_units sy my ey k ez ltac:(lia) ltac:(lia)) as Ey.
    set (d := cond_Zopp sx _ + cond_Zopp sy _) in *.
    assert (d * 2 ^ (ez - k) = units k (S754_finite sx mx ex) + units k (S754_finite sy my ey)) as Hd
      by (unfold d; rewrite Z.mul_add_distr_r; congruence).
    rewrite <- Hd in *.
    assert (scaled_le (Z.abs d) ez n f) as Hs.
    { apply (scaled_le_at (- k)); [lia..|]. replace (- k + ez) with (ez - k) by lia.
      replace (- k + f) with (f - k) by lia. rewrite Z.abs_mul in Hle.
      rewrite (Z.abs_eq (2 ^ (ez - k))) in Hle; [done|apply Z.pow_nonneg; lia]. }
    destruct d as [|p|p]; cbn [binary_normalize].
    + split; [done|]. simpl. lia.
    + by apply (round_error false p ez n f k Hn H1 H2 Hs ltac:(lia) Hk).
    + destruct (round_error true p ez n f k Hn H1 H2 Hs ltac:(lia) Hk) as (_ & ? & He). split; [done|].
      by replace (Z.neg p * 2 ^ (ez - k)) with (units k (S754_finite true p ez)) by (cbn [units cond_Zopp]; lia).
Qed.

Lemma sub_error x y k n f :
  is_finite x -> is_finite y -> low k x -> low k y -> k <= emin prec emax ->
  0 < n < 2 ^ prec -> emin prec emax <= f -> f + 2 * prec <= emax ->
  Z.abs (units k x - units k y) <= n * 2 ^ (f - k) ->
  low k (SFsub prec emax x y) /\
  Z.abs (units k (SFsub prec emax x y) - (units k x - units k y)) <= 2 ^ (f - k).
Proof.
  intros Hx Hy Lx Ly Hk Hn H1 H2. rewrite sub_add by done.
  replace (units k x - units k y) with (units k x + units k (SFopp y)) by (rewrite units_opp; lia).
  intros Hle. apply add_error with n; try done; by destruct y.
Qed.

(** The product by the number [my * 2^ey]. *)
Lemma mul_error x my ey k n f :
  is_finite x -> low (k - ey) x -> k <= emin prec emax ->
  0 < n < 2 ^ prec -> emin prec emax <= f -> f + 2 * prec <= emax ->
  Z.abs (units (k - ey) x) * Z.pos my <= n * 2 ^ (f - k) ->
  low k (SFmul prec emax x (S754_finite false my ey)) /\
  Z.abs (units k (SFmul prec emax x (S754_finite false my ey)) - units (k - ey) x * Z.pos my) <= 2 ^ (f - k).
Proof.
  intros Hx Lx Hk Hn H1 H2 Hle. destruct x as [s| | |s m e]; [|done|done|].
  - simpl. split; [done|]. apply Z.pow_nonneg. lia.
  - simpl in Lx. cbn [SFmul units] in *.
    assert (0 < 2 ^ (e - (k - ey))) by (apply Z.pow_pos_nonneg; lia).
    destruct (round_aux_error (xorb s false) (Z.pos (m * my)) (e + ey) n f k) as (_ & Hl & He); try done; [|lia|].
    { apply (scaled_le_at (- k)); [lia..|]. replace (- k + (e + ey)) with (e - (k - ey)) by lia.
      replace (- k + f) with (f - k) by lia. rewrite Pos2Z.inj_mul. destruct s; cbn [cond_Zopp] in Hle; lia. }
    split; [done|]. replace (e + ey - k) with (e - (k - ey)) in He by lia.
    rewrite Pos2Z.inj_mul in He |- *. destruct s; cbn [cond_Zopp xorb] in *; lia.
Qed.
End Errors.

(** The integer part of a number between 0 and [n]. *)
Lemma truncate_at_most x n : at_most n 0 x -> nonneg x -> 0 <= n -> exists t, truncate x = Some t /\ 0 <= t <= n.
Proof.
  destruct x as [s| | |s m e]; [by exists 0|done|done|]. simpl. intros Hle -> Hn. eexists. split; [reflexivity|].
  destruct (Z.leb_spec 0 e) as [He|He].
  - specialize (Hle 0 ltac:(lia) ltac:(lia)). rewrite Z.add_0_l, Z.mul_1_r in Hle.
    split; [|done]. apply Z.mul_nonneg_nonneg; [lia|apply Z.pow_nonneg; lia].
  - specialize (Hle (- e) ltac:(lia) ltac:(lia)). rewrite Z.add_opp_diag_l, Z.mul_1_r, Z.add_0_r in Hle.
    assert (0 < 2 ^ (- e)) as Hp by (apply Z.pow_pos_nonneg; lia). split; [by apply Z.div_pos|].
    rewrite <- (Z.div_mul n (2 ^ (- e))) by lia. by apply Z.div_le_mono.
Qed.

Lemma at_most_weaken n f n' f' x : at_most n f x -> scaled_le n f n' f' -> at_most n' f' x.
Proof. destruct x as [s| | |s m e]; [done..|]. simpl. intros H1 H2. by eapply scaled_le_trans. Qed.

Lemma units_abs k x : units k (SFabs x) = Z.abs (units k x).
Proof.
  destruct x as [s| | |s m e]; [done..|]. cbn [SFabs units]. pose proof (Z.pow_nonneg 2 (e - k) ltac:(lia)).
  destruct s; cbn [cond_Zopp]; lia.
Qed.

(** The integer part is the number rounded down. *)
Lemma truncate_units k x t :
  nonneg x -> low k x -> k <= 0 -> truncate x = Some t ->
  t * 2 ^ (- k) <= units k x < (t + 1) * 2 ^ (- k).
Proof.
  intros Hs Hk Hk0 Ht. assert (0 < 2 ^ (- k)) as Hp by (apply Z.pow_pos_nonneg; lia).
  destruct x as [s| | |s m e]; [injection Ht as <-; simpl; lia|done|done|]. simpl in Hs, Hk. subst s.
  simpl in Ht. injection Ht as <-. cbn [units cond_Zopp]. destruct (Z.leb_spec 0 e) as [He|He].
  - rewrite <- Z.mul_assoc. replace (e - k) with (e + - k) by lia. rewrite Z.pow_add_r by lia. lia.
  - assert (0 < 2 ^ (- e)) by (apply Z.pow_pos_nonneg; lia).
    assert (2 ^ (- k) = 2 ^ (- e) * 2 ^ (e - k)) as -> by (rewrite <- Z.pow_add_r by lia; f_equal; lia).
    assert (0 < 2 ^ (e - k)) by (apply Z.pow_pos_nonneg; lia).
    pose proof (Z.div_mod (Z.pos m) (2 ^ (- e)) ltac:(lia)). pose proof (Z.mod_pos_bound (Z.pos m) (2 ^ (- e)) ltac:(lia)).
    nia.
Qed.
