(* ===== verification/Math.v ===== *)
(** * libmath/math.cpp, math.asm, math.hpp

    The mathematics library, on the coprocessor of Float.v. *)

From S2P Require Import Prelude Float.

(** ** Bit casts

    A [float] in memory: a sign, eight bits of exponent, 23 of the mantissa. *)

Definition floatAsInt (num : float) : Z :=
  match num with
  | S754_zero s => if s then 0x80000000 else 0
  | S754_infinity s => (if s then 0x80000000 else 0) + 0x7F800000
  | S754_nan => 0x7FC00000
  | S754_finite s m e =>
      (if s then 0x80000000 else 0) +
      (if Z.pos m <? 2 ^ 23 then Z.pos m else (e + 150) * 2 ^ 23 + (Z.pos m - 2 ^ 23))
  end.

Definition intAsFloat (num : Z) : float :=
  let s := Z.testbit num 31 in
  let exponent := (num / 2 ^ 23) mod 2 ^ 8 in
  let mantissa := num mod 2 ^ 23 in
  if exponent =? 0 then
    match mantissa with Z.pos m => S754_finite s m (-149) | _ => S754_zero s end
  else if exponent =? 255 then
    if mantissa =? 0 then S754_infinity s else S754_nan
  else S754_finite s (Z.to_pos (mantissa + 2 ^ 23)) (exponent - 150).

(** math.hpp. *)
Definition M_2_PI : float := decimal 6283185307179586 15.
Definition M_PI_2 : float := decimal 1570796326794897 15.

Definition SIGN_MASK : Z := 0x80000000.

Section Math.
Context `{X87}.

(** math.asm: the argument is a [float], the result is left in a register. *)
Definition fsin (x : float) : float := sine x.
Definition fcos (x : float) : float := cosine x.
Definition fsqrt (x : float) : float := SFsqrt precision 16384 x.
Definition fabs (x : float) : float := SFabs x.

(** The quotient of two constants or variables is evaluated in the registers. *)
Definition float_const (n : Z) : float := to_float (float_of_Z n).

Definition atan2 (y x : float) : float :=
  let b := decimal 596227 6 in
  let ux_s := Z.land SIGN_MASK (floatAsInt x) in
  let uy_s := Z.land SIGN_MASK (floatAsInt y) in
  let q := float_const (Z.lor (Z.shiftr (Z.land (u32 (Z.lnot ux_s)) uy_s) 29) (Z.shiftr ux_s 30)) in
  let bxy_a := to_float (fabs (to_float (fmul (fmul b x) y))) in
  let num := to_float (fadd bxy_a (fmul y y)) in
  let atan_1q := to_float (fdiv num (fadd (fadd (fmul x x) bxy_a) num)) in
  let uatan_2q := Z.lor (Z.lxor ux_s uy_s) (floatAsInt atan_1q) in
  to_float (fmul (fadd q (intAsFloat uatan_2q)) M_PI_2).

(** ** [fmod] *)

(** The remainder of the division that truncates, which a register can hold. *)
Definition remainder (x y : float) : float :=
  match x, y with
  | S754_finite sx mx ex, S754_finite _ my ey =>
      let e := Z.min ex ey in
      binary_normalize 64 16384
        (cond_Zopp sx ((Z.pos mx * 2 ^ (ex - e)) mod (Z.pos my * 2 ^ (ey - e)))) e sx
  | S754_zero _, S754_finite _ _ _ => x
  | S754_zero _, S754_infinity _ | S754_finite _ _ _, S754_infinity _ => x
  | _, _ => S754_nan
  end.

(** The difference of the exponents. *)
Definition exponent_gap (x y : float) : Z :=
  match x, y with
  | S754_finite _ mx ex, S754_finite _ my ey =>
      (Z.pos (digits2_pos mx) + ex) - (Z.pos (digits2_pos my) + ey)
  | _, _ => 0
  end.

(** [fprem] and the bit C2 of the status word: it reduces completely when the exponents
    differ by less than 64; otherwise it subtracts a multiple of a larger number. *)
Definition fprem (x y : float) : float * bool :=
  let d := exponent_gap x y in
  if d <? 64 then (remainder x y, false)
  else match y with
       | S754_finite sy my ey => (remainder x (S754_finite sy my (ey + (d - reduction x y))), true)
       | _ => (remainder x y, false)
       end.

(** The loop; [x] is a [float] variable. *)
Fixpoint fmod_loop (fuel : nat) (x y : float) : option float :=
  match fuel with
  | O => None
  | S fuel' =>
      let '(r, c2) := fprem x y in
      let x := to_float r in
      if c2 : bool then fmod_loop fuel' x y else Some x
  end.

(** A round reduces the gap of at most 276 by 32 or more. *)
Definition fmod (x y : float) : option float := fmod_loop 16 x y.
End Math.

(** ** Properties of [fmod] *)

(** The documented behaviour of the coprocessor. *)
Class X87Laws `{X87} : Prop := {
  precision_ok : precision = 24 \/ precision = 53 \/ precision = 64;
  reduction_ok : forall x y, 32 <= reduction x y <= 63;
  sine_ok : forall x, at_most 1 62 x -> at_most 1 0 (sine x);
  cosine_ok : forall x, at_most 1 62 x -> at_most 1 0 (cosine x)
}.

(** A number of type [float]. *)
Definition single (x : float) : Prop :=
  match x with S754_finite _ m e => Z.pos m < 2 ^ 24 /\ -149 <= e <= 104 | _ => True end.

Lemma single_low x : single x -> low (-149) x.
Proof. destruct x; simpl; lia. Qed.

(** The value of a finite [float], in units of the smallest one. *)
Abbreviation value := (units (-149)).

Lemma emin_single : emin 24 128 = -149. Proof. done. Qed.
Lemma emin_register : emin 64 16384 = -16445. Proof. done. Qed.

(** A number of 24 bits passes through the registers unchanged. *)
Lemma to_float_normalize s c e z :
  0 < c < 2 ^ 24 -> -149 <= e <= 104 ->
  let r := to_float (binary_normalize 64 16384 (cond_Zopp s c) e z) in
  is_finite r /\ single r /\ value r = cond_Zopp s (c * 2 ^ (e + 149)).
Proof.
  intros Hc He. assert (binary_normalize 64 16384 (cond_Zopp s c) e z = binary_round 64 16384 s (Z.to_pos c) e) as ->
    by (destruct c, s; simpl in *; lia || done).
  pose proof emin_register. pose proof emin_single.
  destruct (round_exact 64 16384 ltac:(lia) s (Z.to_pos c) e c 0) as (m1 & e1 & -> & Hm1 & He1 & Hv1); try lia.
  cbn [to_float rounded]. unfold to_float, rounded.
  specialize (Hv1 e1 ltac:(lia) ltac:(lia)). rewrite Z.sub_diag, Z.mul_1_r, Z2Pos.id in Hv1 by lia.
  destruct (round_exact 24 128 ltac:(lia) s m1 e1 c (e - e1)) as (m2 & e2 & -> & Hm2 & He2 & Hv2); try lia.
  split; [done|]. split; [simpl; lia|]. cbn [units]. f_equal.
  assert (Z.pos m2 * 2 ^ (e2 - Z.min e1 (-149)) = c * 2 ^ (e - Z.min e1 (-149))) as E.
  { rewrite (Hv2 (Z.min e1 (-149))), Hv1, <- Z.mul_assoc, <- Z.pow_add_r by lia. do 2 f_equal. lia. }
  set (j := -149 - Z.min e1 (-149)).
  replace (e2 - Z.min e1 (-149)) with (e2 - -149 + j) in E by lia.
  replace (e - Z.min e1 (-149)) with (e + 149 + j) in E by lia.
  rewrite !(Z.pow_add_r 2 _ j), !Z.mul_assoc in E by lia. apply Z.mul_reg_r in E; [done|].
  apply Z.pow_nonzero; lia.
Qed.

Lemma rem_signs sx sy a b : 0 <= a -> 0 < b -> Z.rem (cond_Zopp sx a) (cond_Zopp sy b) = cond_Zopp sx (a mod b).
Proof.
  intros Ha Hb. destruct sx, sy; cbn [cond_Zopp];
    rewrite ?Z.rem_opp_r, ?Z.rem_opp_l by lia; by rewrite Z.rem_mod_nonneg by lia.
Qed.

Lemma remainder_ok sx mx ex sy my ey :
  let x := S754_finite sx mx ex in let y := S754_finite sy my ey in
  Z.pos mx < 2 ^ 24 -> Z.pos my < 2 ^ 24 -> -149 <= ex <= 104 -> -149 <= ey -> 
  let r := to_float (remainder x y) in
  is_finite r /\ single r /\ value r = Z.rem (value x) (value y).
Proof.
  intros x y Hmx Hmy Hex Hey. cbn [remainder x y]. set (e := Z.min ex ey).
  set (a := Z.pos mx * 2 ^ (ex - e)). set (b := Z.pos my * 2 ^ (ey - e)).
  assert (0 < 2 ^ (ex - e)) by (apply Z.pow_pos_nonneg; lia). assert (0 < 2 ^ (ey - e)) by (apply Z.pow_pos_nonneg; lia).
  assert (0 < a) as Ha by (unfold a; lia). assert (0 < b) as Hb by (unfold b; lia).
  assert (0 < 2 ^ (e + 149)) as Hp by (apply Z.pow_pos_nonneg; lia).
  assert (Z.rem (value x) (value y) = cond_Zopp sx (a mod b * 2 ^ (e + 149))) as ->.
  { assert (value x = cond_Zopp sx (a * 2 ^ (e + 149))) as ->.
    { unfold x, a. cbn [units]. rewrite <- Z.mul_assoc, <- Z.pow_add_r by lia. do 3 f_equal. lia. }
    assert (value y = cond_Zopp sy (b * 2 ^ (e + 149))) as ->.
    { unfold y, b. cbn [units]. rewrite <- Z.mul_assoc, <- Z.pow_add_r by lia. do 3 f_equal. lia. }
    rewrite rem_signs by lia. by rewrite Z.mul_mod_distr_r by lia. }
  pose proof (Z.mod_pos_bound a b Hb) as Hr.
  destruct (Z.eq_dec (a mod b) 0) as [->|Hne].
  - assert (cond_Zopp sx 0 = 0) as -> by (by destruct sx). split; [done|]. split; [done|]. by destruct sx.
  - assert (a mod b < 2 ^ 24) as Hr24.
    { destruct (Z.le_gt_cases ex ey).
      - assert (a = Z.pos mx) as Ea by (unfold a, e; rewrite Z.min_l, Z.sub_diag by lia; lia).
        pose proof (Z.mod_le a b ltac:(lia) ltac:(lia)). lia.
      - assert (b = Z.pos my) as Eb by (unfold b, e; rewrite Z.min_r, Z.sub_diag by lia; lia). lia. }
    apply to_float_normalize; lia.
Qed.

(** The gap is a difference of logarithms of the values. *)
Lemma log2_value s m e : -149 <= e ->
  Z.log2 (Z.abs (value (S754_finite s m e))) + 1 = Z.pos (digits2_pos m) + e + 149.
Proof.
  intros He. cbn [units]. assert (0 < 2 ^ (e - -149)) by (apply Z.pow_pos_nonneg; lia).
  assert (Z.abs (cond_Zopp s (Z.pos m * 2 ^ (e - -149))) = Z.pos m * 2 ^ (e - -149)) as -> by (destruct s; cbn [cond_Zopp]; lia).
  rewrite log2_scale, digits2_pos_log2 by lia. lia.
Qed.

Lemma mod_mod_mul a b c : 0 < b -> 0 < c -> (a mod (b * c)) mod b = a mod b.
Proof.
  intros Hb Hc. rewrite Z.rem_mul_r by lia. rewrite (Z.mul_comm b ((a / b) mod c)).
  rewrite Z.mod_add by lia. apply Z.mod_mod. lia.
Qed.

Lemma rem_rem_mul a b c : b <> 0 -> 0 < c -> Z.rem (Z.rem a (b * c)) b = Z.rem a b.
Proof.
  intros Hb Hc. assert (exists s A, a = cond_Zopp s A /\ 0 <= A) as (sa & A & -> & HA).
  { destruct (Z.le_gt_cases 0 a); [by exists false, a|exists true, (- a); cbn [cond_Zopp]; lia]. }
  assert (exists s B, b = cond_Zopp s B /\ 0 < B) as (sb & B & -> & HB).
  { destruct (Z.le_gt_cases 0 b); [exists false, b|exists true, (- b)]; cbn [cond_Zopp]; lia. }
  assert (cond_Zopp sb B * c = cond_Zopp sb (B * c)) as -> by (destruct sb; cbn [cond_Zopp]; lia).
  pose proof (Z.mod_pos_bound A (B * c) ltac:(nia)).
  rewrite !rem_signs by (lia || nia). by rewrite mod_mod_mul.
Qed.

Section Fmod.
Context `{X87Laws}.

Lemma fmod_loop_ok fuel : forall x y,
  single x -> is_finite x -> single y -> is_finite y -> value y <> 0 ->
  exponent_gap x y < 32 * Z.of_nat fuel + 32 -> (0 < fuel)%nat ->
  exists r, fmod_loop fuel x y = Some r /\ is_finite r /\ single r /\ value r = Z.rem (value x) (value y).
Proof.
  induction fuel as [|fuel IH]; intros x y Hx Fx Hy Fy Hne Hgap Hpos; [lia|]. cbn [fmod_loop]. unfold fprem.
  destruct y as [sy| | |sy my ey]; [done|done|done|]. pose proof Hy as [Hmy Hey].
  destruct x as [sx| | |sx mx ex]; [|done|done|].
  { eexists. split; [reflexivity|]. repeat split. }
  destruct Hx as [Hmx Hex]. set (x := S754_finite sx mx ex) in *. set (y := S754_finite sy my ey) in *.
  destruct (Z.ltb_spec (exponent_gap x y) 64) as [Hlt|Hge].
  - eexists. split; [reflexivity|]. exact (remainder_ok sx mx ex sy my ey Hmx Hmy Hex (proj1 Hey)).
  - pose proof (reduction_ok x y) as Hred. set (k := exponent_gap x y - reduction x y) in *.
    cbn [y]. destruct (remainder_ok sx mx ex sy my (ey + k) Hmx Hmy Hex ltac:(lia)) as (F & S & V).
    set (r := to_float (remainder (S754_finite sx mx ex) (S754_finite sy my (ey + k)))) in *.
    assert (value (S754_finite sy my (ey + k)) = value y * 2 ^ k) as Ek.
    { cbn [units y]. replace (ey + k - -149) with (ey - -149 + k) by lia. rewrite Z.pow_add_r by lia.
      destruct sy; cbn [cond_Zopp]; lia. }
    assert (0 < 2 ^ k) as Hk by (apply Z.pow_pos_nonneg; lia).
    destruct (IH r y S F Hy Fy Hne) as (r' & Hrun & F' & S' & V'); [|lia|].
    + destruct r as [sr| | |sr mr er] eqn:Er; [simpl; lia|done|done|]. cbn [exponent_gap y].
      assert (-149 <= er) as Her by (destruct S; lia).
      pose proof (log2_value sr mr er Her) as L1. pose proof (log2_value sy my ey ltac:(lia)) as L2.
      assert (Z.abs (value (S754_finite sr mr er)) <= Z.abs (value y) * 2 ^ k) as Hle.
      { rewrite V, Ek. pose proof (Z.rem_bound_abs (value (S754_finite sx mx ex)) (value y * 2 ^ k) ltac:(nia)).
        rewrite Z.abs_mul in H1. lia. }
      apply Z.log2_le_mono in Hle. rewrite log2_scale in Hle by lia. fold y in L2. unfold k in Hle. lia.
    + exists r'. split; [exact Hrun|]. split; [done|]. split; [done|].
      rewrite V', V, Ek. by apply rem_rem_mul.
Qed.

(** A gap of two [float]s is at most 276. *)
Lemma gap_bound x y : single x -> single y -> exponent_gap x y <= 276.
Proof.
  destruct x as [| | |sx mx ex], y as [| | |sy my ey]; simpl; try lia. intros [Hmx Hex] [Hmy Hey].
  pose proof (digits2_pos_log2 mx). pose proof (digits2_pos_log2 my). pose proof (Z.log2_nonneg (Z.pos my)).
  assert (Z.log2 (Z.pos mx) < 24) by (apply Z.log2_lt_pow2; lia). lia.
Qed.

Lemma fmod_ok x y :
  single x -> is_finite x -> single y -> is_finite y -> value y <> 0 ->
  exists r, fmod x y = Some r /\ is_finite r /\ single r /\ value r = Z.rem (value x) (value y).
Proof.
  intros Hx Fx Hy Fy Hne. apply fmod_loop_ok; try done; [|lia]. pose proof (gap_bound x y Hx Hy). lia.
Qed.
End Fmod.

(** ** Properties of the bit casts *)

Lemma single_of_valid s m e : valid_binary 24 128 (S754_finite s m e) = true ->
  -149 <= e <= 104 /\ Z.pos m < 2 ^ 24 /\ (Z.pos m < 2 ^ 23 -> e = -149).
Proof.
  simpl. unfold bounded, canonical_mantissa. intros [Hc%Z.eqb_eq He%Z.leb_le]%andb_true_iff.
  rewrite digits2_pos_log2 in Hc. unfold fexp in Hc. rewrite emin_single in Hc.
  pose proof (Z.log2_nonneg (Z.pos m)). split; [lia|]. split; [apply Z.log2_lt_pow2; lia|].
  intros Hm. apply Z.log2_lt_pow2 in Hm; lia.
Qed.

Lemma cast_fields (s : bool) v : 0 <= v < 2 ^ 31 ->
  let b := (if s then 0x80000000 else 0) + v in
  Z.testbit b 31 = s /\ (b / 2 ^ 23) mod 2 ^ 8 = v / 2 ^ 23 /\ b mod 2 ^ 23 = v mod 2 ^ 23 /\ is_u32 b.
Proof.
  intros Hv b. assert (b / 2 ^ 31 = if s then 1 else 0) as Hb by (unfold b; destruct s; Z.div_mod_to_equations; lia).
  split; [|split; [|split; [|unfold b, in_width; destruct s; lia]]].
  - rewrite Z.testbit_eqb, Hb by lia. by destruct s.
  - unfold b. destruct s; Z.div_mod_to_equations; lia.
  - unfold b. destruct s; Z.div_mod_to_equations; lia.
Qed.

(** ** Theorems *)

(** C24: [fmod] returns: however far the coprocessor reduces in one [fprem], the loop ends, and
    the result is the exact remainder of the division that truncates, with the sign of
    the dividend. *)
Theorem fmod_exact `{X87Laws} x y :
  single x -> is_finite x -> single y -> is_finite y -> value y <> 0 ->
  exists r, fmod x y = Some r /\ is_finite r /\ single r /\ value r = Z.rem (value x) (value y).
Proof. apply fmod_ok. Qed.

(** Casting a [float] to an integer and back gives the number; the sign is the highest
    bit. *)
Theorem float_cast_roundtrip x :
  valid_binary 24 128 x = true -> x <> S754_nan ->
  intAsFloat (floatAsInt x) = x /\ is_u32 (floatAsInt x) /\
  Z.testbit (floatAsInt x) 31 = match x with S754_zero s | S754_infinity s | S754_finite s _ _ => s | S754_nan => false end.
Proof.
  intros Hv Hn. destruct x as [s|s| |s m e]; [by destruct s|by destruct s|done|].
  destruct (single_of_valid _ _ _ Hv) as (He & Hm & Hsub). cbn [floatAsInt].
  set (v := if Z.pos m <? 2 ^ 23 then Z.pos m else _).
  assert (0 <= v < 2 ^ 31 /\ (v / 2 ^ 23 = 0 /\ v mod 2 ^ 23 = Z.pos m /\ e = -149 \/
    v / 2 ^ 23 = e + 150 /\ v mod 2 ^ 23 + 2 ^ 23 = Z.pos m)) as [Hr Hd].
  { unfold v. destruct (Z.ltb_spec (Z.pos m) (2 ^ 23)) as [Hlt|Hge].
    - specialize (Hsub Hlt). split; [lia|left]. split; [apply Z.div_small; lia|]. split; [apply Z.mod_small; lia|done].
    - split; [lia|right]. rewrite (Z.add_comm ((e + 150) * 2 ^ 23)), Z.div_add, Z.mod_add by lia.
      rewrite Z.div_small, Z.mod_small by lia. lia. }
  destruct (cast_fields s v Hr) as (B1 & B2 & B3 & B4). unfold intAsFloat. rewrite B1, B2, B3.
  split; [|by split]. destruct Hd as [(-> & -> & ->)|[-> Hm']]; [done|].
  rewrite (proj2 (Z.eqb_neq (e + 150) 0)), (proj2 (Z.eqb_neq (e + 150) 255)) by lia.
  rewrite Hm'. simpl. f_equal. lia.
Qed.

(** [fsqrt] is defined for every number that is not negative, does not lead beyond the root
    of a square that bounds its argument, and gives no number for negative ones. *)
Lemma fsqrt_ok `{X87Laws} x n f :
  0 < n < 2 ^ precision -> -16000 <= f <= 16000 -> at_most (n * n) (f + f) x ->
  (nonneg x -> at_most n f (fsqrt x) /\ nonneg (fsqrt x)) /\ (~ nonneg x -> fsqrt x = S754_nan).
Proof.
  intros Hn Hf Hx. split.
  - intros Hp. apply sqrt_at_most; try done; unfold emin; destruct precision_ok as [->|[->| ->]]; lia.
  - intros Hp. by destruct x as [s| | |[] m e].
Qed.


(** ** Witnesses *)

(** A coprocessor that reduces by 32 and takes every sine and cosine for zero. *)
Definition ex_x87 : X87 :=
  {| precision := 64; reduction := fun _ _ => 32; sine := fun _ => S754_zero false; cosine := fun _ => S754_zero false |}.

#[export] Instance ex_x87_laws : @X87Laws ex_x87.
Proof. split; [by right; right|intros; simpl; lia|done..]. Qed.

Lemma fmod_exact_witness :
  exists r, @fmod ex_x87 (float_const (10 ^ 30)) (float_const 7) = Some r /\ value r = 2 ^ 149.
Proof.
  destruct (@fmod_exact ex_x87 ex_x87_laws (float_const (10 ^ 30)) (float_const 7)) as (r & Hr & _ & _ & Hv);
    [vm_compute; repeat split; discriminate|exact I|vm_compute; repeat split; discriminate|exact I|vm_compute; discriminate|].
  exists r. split; [exact Hr|]. rewrite Hv. vm_compute. reflexivity.
Defined.

Lemma float_cast_roundtrip_witness :
  floatAsInt (float_const (-2)) = 0xC0000000 /\ intAsFloat 0xC0000000 = float_const (-2).
Proof.
  destruct (float_cast_roundtrip (float_const (-2)) eq_refl) as [H _]; [discriminate|].
  split; [vm_compute; reflexivity|exact H].
Defined.

