(* ===== verification/Colors.v ===== *)
(** * kernel/gfx/colors.cpp

    Colours from a hue, on the coprocessor of Float.v. *)

From S2P Require Import Prelude Float Math.

Section Colors.
Context `{X87}.

(** [(r << 16) | (g << 8) | b]. *)
Definition rgb (r g b : Z) : Z := Z.lor (Z.lor (Z.shiftl r 16) (Z.shiftl g 8)) b.

(** [(u8) (x * 255.0f)]. *)
Definition channel (x : float) : option Z := to_unsigned 8 (fmul x (float_const 255)).

Definition hsv2rgbfast (h : float) : option Z :=
  rest ← fmod h (float_const 2);
  let x := to_float (fsub (float_const 1) (fabs (to_float (fsub rest (float_const 1))))) in
  sector ← to_unsigned 32 h;
  match sector mod 6 with
  | 0 => g ← channel x; Some (rgb 255 g 0)
  | 1 => r ← channel x; Some (rgb r 255 0)
  | 2 => b ← channel x; Some (rgb 0 255 b)
  | 3 => g ← channel x; Some (rgb 0 g 255)
  | 4 => r ← channel x; Some (rgb r 0 255)
  | _ => b ← channel x; Some (rgb 255 0 b)
  end.

Definition hsv2rgb (h s v : float) : option Z :=
  let zero := S754_zero false in
  let c := to_float (fmul v s) in
  rest ← fmod (to_float (fdiv h (float_const 60))) (float_const 2);
  let x := to_float (fmul c (fsub (float_const 1) (fabs (to_float (fsub rest (float_const 1)))))) in
  let m := to_float (fsub v c) in
  let '(r_, g_, b_) :=
    if flt h (float_const 60) then (c, x, zero)
    else if flt h (float_const 120) then (x, c, zero)
    else if flt h (float_const 180) then (zero, c, x)
    else if flt h (float_const 240) then (zero, x, c)
    else if flt h (float_const 300) then (x, zero, c)
    else (c, zero, x) in
  r ← channel (fadd r_ m);
  g ← channel (fadd g_ m);
  b ← channel (fadd b_ m);
  Some (rgb r g b).
End Colors.

(** ** The colour of a hue *)

(** The channels lie next to each other. *)
Lemma rgb_ok r g b : is_u8 r -> is_u8 g -> is_u8 b -> rgb r g b = r * 65536 + g * 256 + b.
Proof.
  intros Hr Hg Hb. unfold in_width in *. unfold rgb.
  rewrite (Z.lor_comm (Z.shiftl r 16)), (lor_shiftl_add _ r 16), Z.lor_comm;
    [|rewrite Z.shiftl_mul_pow2 by lia; unfold in_width; lia|lia].
  rewrite Z.shiftl_mul_pow2 by lia.
  replace (g * 2 ^ 8 + r * 2 ^ 16) with ((g + r * 2 ^ 8) * 2 ^ 8) by lia.
  rewrite <- (Z.shiftl_mul_pow2 _ 8), lor_shiftl_add by (unfold in_width; lia). lia.
Qed.

(** The ideal ramp of a hue, in units of 2^-149: 255 (1 - |h mod 2 - 1|). *)
Definition one : Z := 2 ^ 149.
Definition ideal_ramp (h : Z) : Z := 255 * (one - Z.abs (h mod (2 * one) - one)).

(** The channels of a sector. *)
Definition sector_color (sector ramp : Z) : Z * Z * Z :=
  match sector with
  | 0 => (255, ramp, 0) | 1 => (ramp, 255, 0) | 2 => (0, 255, ramp)
  | 3 => (0, ramp, 255) | 4 => (ramp, 0, 255) | _ => (255, 0, ramp)
  end.

Section Ramp.
Context `{X87Laws}.

Lemma emin_range : 1 < precision /\ 24 <= precision <= 64 /\ -16445 <= emin precision 16384 <= -16405.
Proof. unfold emin. destruct precision_ok as [->|[->| ->]]; lia. Qed.

Lemma const_1 : float_const 1 = S754_finite false 8388608 (-23). Proof. done. Qed.
Lemma const_2 : float_const 2 = S754_finite false 8388608 (-22). Proof. done. Qed.
Lemma const_255 : float_const 255 = S754_finite false 16711680 (-16). Proof. done. Qed.

Lemma units_1 k : k <= -23 -> units k (float_const 1) = 2 ^ (- k).
Proof.
  intros Hk. rewrite const_1. cbn [units cond_Zopp]. change 8388608 with (2 ^ 23). rewrite <- Z.pow_add_r by lia. f_equal. lia.
Qed.

(** The rounding of 1 in a register, and of the conversion to [float], in units of [2^k]. *)
Lemma register_ulp k : k <= -64 ->
  2 ^ (precision - 1) * 2 ^ (1 - precision - k) = 2 ^ (- k) /\ 0 < 2 ^ (precision - 1) < 2 ^ precision /\
  2 ^ (1 - precision - k) <= 2 ^ (-23 - k).
Proof.
  intros Hk. destruct emin_range as (_ & Hp & _). rewrite <- Z.pow_add_r by lia.
  split; [f_equal; lia|]. split; [split; [apply Z.pow_pos_nonneg|apply Z.pow_lt_mono_r]; lia|apply Z.pow_le_mono_r; lia].
Qed.

Lemma scaled_one n f : 0 <= n -> scaled_le (2 ^ n) f 1 (n + f).
Proof.
  intros Hn k H1 H2. rewrite <- Z.pow_add_r by lia. replace (n + (k + f)) with (k + (n + f)) by lia. lia.
Qed.
Lemma scaled_one' n f : 0 <= n -> scaled_le 1 (n + f) (2 ^ n) f.
Proof.
  intros Hn k H1 H2. rewrite <- Z.pow_add_r by lia. replace (n + (k + f)) with (k + (n + f)) by lia. lia.
Qed.

(** A difference of at most 1 in a register, and stored in a [float]. *)
Lemma sub_in_unit x y k :
  is_finite x -> is_finite y -> low k x -> low k y -> k <= -16445 ->
  Z.abs (units k x - units k y) <= 2 ^ (- k) ->
  let d := to_float (fsub x y) in
  at_most 1 0 d /\ low (-149) d /\ (0 <= units k x - units k y -> nonneg d) /\
  Z.abs (units k d - (units k x - units k y)) <= 2 * 2 ^ (-23 - k).
Proof.
  intros Fx Fy Lx Ly Hk Hle d. destruct emin_range as (Hp1 & Hp & Hem).
  destruct (register_ulp k ltac:(lia)) as (Hu & Hn & Hulp). rewrite <- Hu in Hle.
  destruct (sub_at_most precision 16384 Hp1 x y k (2 ^ (precision - 1)) (1 - precision)) as [Ha Hs]; try done; [lia..|].
  destruct (sub_error precision 16384 Hp1 x y k (2 ^ (precision - 1)) (1 - precision)) as [Hl He]; try done; [lia..|].
  fold (fsub x y) in Ha, Hs, Hl, He. pose proof emin_single as Em.
  assert (at_most (2 ^ 23) (-23) (fsub x y)) as Ha'.
  { eapply at_most_weaken; [exact Ha|]. eapply scaled_le_trans; [apply scaled_one; lia|].
    replace (precision - 1 + (1 - precision)) with (23 + -23) by lia. apply scaled_one'. lia. }
  destruct (rounded_at_most 24 128 ltac:(lia) (fsub x y) (2 ^ 23) (-23) Ha' ltac:(lia) ltac:(lia) ltac:(lia)) as [Hb Hsb].
  destruct (rounded_error 24 128 ltac:(lia) (fsub x y) (2 ^ 23) (-23) k Ha' ltac:(lia) ltac:(lia) ltac:(lia) Hl ltac:(lia)) as [_ Hbe].
  pose proof (rounded_format 24 128 ltac:(lia) (fsub x y) (2 ^ 23) (-23) Ha' ltac:(lia) ltac:(lia) ltac:(lia)) as Hfmt.
  assert (low (-149) (rounded 24 128 (fsub x y))) as Hlow by (destruct (rounded 24 128 (fsub x y)); [done..|apply Hfmt]).
  clear Hfmt. fold (to_float (fsub x y)) in *. fold d in Hb, Hsb, Hbe, Hlow.
  split; [eapply at_most_weaken; [exact Hb|apply (scaled_one 23 (-23)); lia]|]. split; [done|].
  split; [auto|lia].
Qed.

Lemma precision_pow : 2 ^ 24 <= 2 ^ precision.
Proof. destruct emin_range as (_ & Hp & _). apply Z.pow_le_mono_r; lia. Qed.

(** A [float] between 0 and 1 gives a channel: 255 times the number, rounded down. *)
Lemma channel_ok x k :
  at_most 1 0 x -> nonneg x -> low (-149) x -> k <= -16445 -> exists t, channel x = Some t /\ 0 <= t <= 255 /\
    t * 2 ^ (- k) - 2 ^ (-16 - k) <= 255 * units k x < (t + 1) * 2 ^ (- k) + 2 ^ (-16 - k).
Proof.
  intros Hx Hs Hl Hk. destruct emin_range as (Hp1 & Hp & Hem). pose proof precision_pow as Hpow.
  pose proof (at_most_finite _ _ _ Hx) as Fx.
  destruct (mul_at_most precision 16384 Hp1 x (float_const 255) 1 0 255 0 Hx) as [Ha Hn]; [|lia..|].
  { rewrite const_255. apply (scaled_le_at 16); [lia..|]. done. }
  specialize (Hn Hs ltac:(by rewrite const_255)). fold (fmul x (float_const 255)) in Ha, Hn.
  destruct (truncate_at_most (fmul x (float_const 255)) 255 Ha Hn ltac:(lia)) as (t & Ht & Hrange).
  exists t. unfold channel, to_unsigned. rewrite Ht. cbn [mbind option_bind].
  destruct (Z.leb_spec 0 t); [|lia]. destruct (Z.ltb_spec t (2 ^ 8)); [|lia]. split; [done|]. split; [done|].
  assert (low (k - -16) x) as Hlk by (eapply low_le; [exact Hl|lia]).
  assert (units k x = units (k - -16) x * 2 ^ 16) as Ek.
  { rewrite (units_scale k (k - -16) x Hlk) by lia. do 2 f_equal. lia. }
  assert (2 ^ (precision - 8) * 2 ^ (8 - precision - k) = 2 ^ (- k)) as E8 by (rewrite <- Z.pow_add_r by lia; f_equal; lia).
  assert (2 ^ precision = 2 ^ (precision - 8) * 256) as E9.
  { change 256 with (2 ^ 8). rewrite <- Z.pow_add_r by lia. f_equal. lia. }
  assert (0 < 2 ^ (precision - 8)) by (apply Z.pow_pos_nonneg; lia).
  assert (Z.abs (units k x) <= 2 ^ (- k)) as Hub.
  { apply (units_at_most k x 1 0) in Hx; [|done|eapply low_le; [exact Hl|lia]|lia..].
    rewrite Z.mul_1_l, Z.sub_0_l in Hx. done. }
  destruct (mul_error precision 16384 Hp1 x 16711680 (-16) k (255 * 2 ^ (precision - 8)) (8 - precision)) as [Hlc He];
    try done; [lia..| |].
  { rewrite <- Z.mul_assoc, E8. lia. }
  rewrite <- const_255 in Hlc, He. fold (fmul x (float_const 255)) in Hlc, He.
  assert (2 ^ (8 - precision - k) <= 2 ^ (-16 - k)) as Hulp by (apply Z.pow_le_mono_r; lia).
  pose proof (truncate_units k _ t Hn Hlc ltac:(lia) Ht) as Htr.
  assert (units (k - -16) x * 16711680 = 255 * units k x) as E by lia. rewrite E in He. lia.
Qed.

Lemma value_2 : value (float_const 2) = 2 * one. Proof. done. Qed.

(** The distance of the remainder from 1. *)
Lemma hue_distance h :
  single h -> nonneg h -> exists rest, fmod h (float_const 2) = Some rest /\ value rest = value h mod (2 * one) /\
    let d := fabs (to_float (fsub rest (float_const 1))) in
    is_finite d /\ low (-149) d /\ forall k, k <= -16445 -> 0 <= units k d <= 2 ^ (- k) /\
      Z.abs (units k d - Z.abs (value rest - one) * 2 ^ (-149 - k)) <= 2 * 2 ^ (-23 - k).
Proof.
  intros Hh Hs. destruct (fmod_loop_ok 16 h (float_const 2)) as (rest & Hrun & Fr & Sr & Vr); try done;
    [by apply nonneg_finite|pose proof (gap_bound h (float_const 2) Hh ltac:(done)); lia|lia|].
  assert (0 <= value h) as Hv.
  { destruct h as [| | |s m e]; try done. simpl in Hs. subst s. cbn [units cond_Zopp].
    apply Z.mul_nonneg_nonneg; [lia|apply Z.pow_nonneg; lia]. }
  assert (0 < one) as Hone by done.
  rewrite value_2, Z.rem_mod_nonneg in Vr by lia. pose proof (Z.mod_pos_bound (value h) (2 * one) ltac:(lia)) as Hr.
  exists rest. split; [done|]. split; [done|]. cbv zeta.
  assert (low (-149) rest) as Lr by (destruct rest; simpl in *; lia).
  assert (forall k, k <= -16445 ->
    let d := to_float (fsub rest (float_const 1)) in
    at_most 1 0 d /\ low (-149) d /\ Z.abs (units k d - (value rest - one) * 2 ^ (-149 - k)) <= 2 * 2 ^ (-23 - k)) as Hall.
  { intros k Hk. assert (2 ^ (- k) = one * 2 ^ (-149 - k)) as Eu by (unfold one; rewrite <- Z.pow_add_r by lia; f_equal; lia).
    assert (0 < 2 ^ (-149 - k)) as Hsc by (apply Z.pow_pos_nonneg; lia).
    assert (units k rest = value rest * 2 ^ (-149 - k)) as Ur by (apply units_scale; [done|lia]).
    pose proof (units_1 k ltac:(lia)) as U1.
    destruct (sub_in_unit rest (float_const 1) k Fr ltac:(done)) as (A1 & A2 & _ & A3);
      [by eapply low_le; [exact Lr|lia]|rewrite const_1; simpl; lia|done|rewrite U1, Eu, Ur, Vr; nia|].
    split; [done|]. split; [done|]. by rewrite U1, Eu, Ur, <- Z.mul_sub_distr_r in A3. }
  set (d := to_float (fsub rest (float_const 1))) in *. destruct (Hall (-16445) ltac:(lia)) as (A1 & A2 & _).
  assert (is_finite (fabs d) /\ low (-149) (fabs d) /\ at_most 1 0 (fabs d)) as (Fa & La & Aa) by (by destruct d).
  split; [done|]. split; [done|]. intros k Hk. destruct (Hall k Hk) as (_ & _ & A3).
  assert (0 < 2 ^ (-149 - k)) as Hsc by (apply Z.pow_pos_nonneg; lia).
  apply (units_at_most k (fabs d) 1 0) in Aa; [|done|by eapply low_le; [exact La|lia]|lia..].
  rewrite Z.mul_1_l, Z.sub_0_l in Aa. unfold fabs in *. rewrite units_abs in *. split; [lia|].
  rewrite <- (Z.abs_eq (2 ^ (-149 - k))), <- Z.abs_mul by lia. lia.
Qed.

(** Two differences and a product: the ramp. *)
Lemma ramp_ok h :
  single h -> nonneg h -> exists rest t, fmod h (float_const 2) = Some rest /\
    channel (to_float (fsub (float_const 1) (fabs (to_float (fsub rest (float_const 1)))))) = Some t /\ 0 <= t <= 255 /\
    4096 * (t * one) <= 4096 * ideal_ramp (value h) + one /\ 4096 * ideal_ramp (value h) - one < 4096 * ((t + 1) * one).
Proof.
  intros Hh Hs. destruct (hue_distance h Hh Hs) as (rest & Hrun & Vr & Fa & La & Hd).
  set (d := fabs (to_float (fsub rest (float_const 1)))) in *.
  set (k := -16445). assert (k <= -16445) as Hk by (unfold k; lia). clearbody k.
  assert (0 < one) as Hone by done.
  assert (2 ^ (- k) = one * 2 ^ (-149 - k)) as Eu by (unfold one; rewrite <- Z.pow_add_r by lia; f_equal; lia).
  assert (0 < 2 ^ (-149 - k)) as Hsc by (apply Z.pow_pos_nonneg; lia). set (sc := 2 ^ (-149 - k)) in *.
  destruct (Hd k Hk) as [Hda A3]. pose proof (units_1 k ltac:(lia)) as U1.
  destruct (sub_in_unit (float_const 1) d k ltac:(done) Fa) as (B1 & B2 & B3 & B4);
    [rewrite const_1; simpl; lia|by eapply low_le; [exact La|lia]|done|rewrite U1; lia|].
  specialize (B3 ltac:(rewrite U1; lia)). set (x := to_float (fsub (float_const 1) d)) in *.
  destruct (channel_ok x k B1 B3 B2 Hk) as (t & Ht & Hrange & Hb1).
  exists rest, t. split; [done|]. split; [done|]. split; [done|].
  assert (one * sc = 2 ^ 23 * 2 ^ (-23 - k)) as E23 by (rewrite <- Eu, <- Z.pow_add_r by lia; f_equal; lia).
  assert (2 ^ (-16 - k) = 128 * 2 ^ (-23 - k)) as E16 by (change 128 with (2 ^ 7); rewrite <- Z.pow_add_r by lia; f_equal; lia).
  unfold ideal_ramp. rewrite <- Vr. set (ulp := 2 ^ (-23 - k)) in *. set (z := Z.abs (value rest - one)) in *.
  rewrite U1, Eu in B4. rewrite Eu in Hb1. change (2 ^ 23) with 8388608 in E23.
  assert (Z.abs (255 * units k x - 255 * (one - z) * sc) <= 1020 * ulp) as Herr by lia.
  split; [apply (Z.mul_le_mono_pos_r _ _ sc)|apply (Z.mul_lt_mono_pos_r sc)]; try done; lia.
Qed.
End Ramp.

(** ** Colours from saturation and value *)

Lemma single_to_float x n f : at_most n f x -> 0 < n < 2 ^ 24 -> -149 <= f <= 80 -> single (to_float x).
Proof.
  intros Hx Hn Hf. pose proof emin_single as Em.
  pose proof (rounded_format 24 128 ltac:(lia) x n f Hx ltac:(lia) ltac:(lia) ltac:(lia)) as Hfmt.
  destruct (rounded_at_most 24 128 ltac:(lia) x n f Hx ltac:(lia) ltac:(lia) ltac:(lia)) as [Ha _].
  fold (to_float x) in Hfmt, Ha. destruct (to_float x) as [| | |s m e]; try done. destruct Hfmt as [Hm He].
  pose proof (scaled_exponent 24 ltac:(lia) (Z.pos m) e n f ltac:(lia) ltac:(lia) Ha).
  pose proof (Z.log2_nonneg (Z.pos m)). simpl. lia.
Qed.

(** A [float] between 0 and 1. *)
Record in_unit (x : float) : Prop := {
  iu_most : at_most 1 0 x;
  iu_nonneg : nonneg x;
  iu_single : single x
}.

Lemma in_unit_low x k : in_unit x -> k <= -149 -> low k x.
Proof. intros [_ _ Hs] Hk. destruct x; simpl in *; lia. Qed.

Lemma in_unit_units x k : in_unit x -> k <= -149 -> 0 <= units k x <= 2 ^ (- k).
Proof.
  intros Hx Hk. pose proof (in_unit_low x k Hx Hk) as Hl. destruct Hx as [Ha Hn Hs].
  pose proof (nonneg_finite x Hn) as Hf. split; [by apply units_nonneg|].
  apply (units_at_most k x 1 0) in Ha; [|done|done|lia..]. rewrite Z.mul_1_l, Z.sub_0_l in Ha. lia.
Qed.

Section Saturation.
Context `{X87Laws}.

(** A product with a number of at most 1 is not larger. *)
Lemma scaled_by_unit c y :
  in_unit c -> at_most 1 0 y -> nonneg y ->
  in_unit (to_float (fmul c y)) /\ forall k, k <= -149 -> units k (to_float (fmul c y)) <= units k c.
Proof.
  intros Hc Hy Hny. destruct emin_range as (Hp1 & Hp & Hem). pose proof precision_pow. pose proof emin_single as Em.
  destruct c as [sc| | |sc mc ec]; [|by destruct Hc..|].
  - destruct y as [sy| | |sy my ey]; [|done|done|]; (split; [by split|done]).
  - pose proof Hc as [Ha Hn [Hs1 Hs2]]. simpl in Hn. subst sc. set (c := S754_finite false mc ec) in *.
    assert (ec <= 0) as Hec.
    { pose proof (scaled_exponent 24 ltac:(lia) (Z.pos mc) ec (2 ^ 0) 0 ltac:(lia) ltac:(lia) Ha) as Hexp.
      pose proof (Z.log2_nonneg (Z.pos mc)). specialize (Ha 0). destruct (Z.le_gt_cases ec 0); [done|].
      specialize (Ha ltac:(lia) ltac:(lia)). rewrite Z.add_0_l in Ha.
      assert (2 ^ 1 <= 2 ^ ec) by (apply Z.pow_le_mono_r; lia). nia. }
    destruct (mul_at_most precision 16384 Hp1 c y (Z.pos mc) ec 1 0) as [Hm Hmn]; try done; [|lia..|].
    { intros k _ _. lia. }
    rewrite Z.mul_1_r, Z.add_0_r in Hm. fold (fmul c y) in Hm, Hmn. specialize (Hmn eq_refl Hny).
    destruct (rounded_at_most 24 128 ltac:(lia) (fmul c y) (Z.pos mc) ec Hm ltac:(lia) ltac:(lia) ltac:(lia)) as [Hr Hrn].
    fold (to_float (fmul c y)) in Hr, Hrn. specialize (Hrn Hmn).
    pose proof (single_to_float (fmul c y) (Z.pos mc) ec Hm ltac:(lia) ltac:(lia)) as Hsg.
    assert (in_unit (to_float (fmul c y))) as Hu by (split; [by eapply at_most_weaken|done|done]).
    split; [done|]. intros k Hk. pose proof (in_unit_low _ k Hu Hk) as Hl.
    apply (units_at_most k _ (Z.pos mc) ec) in Hr; [|by eapply at_most_finite|done|lia..].
    cbn [units c cond_Zopp]. lia.
Qed.

(** A sum of at most 1, up to the rounding errors, gives a channel. *)
Lemma channel_sum x m k :
  is_finite x -> is_finite m -> low k x -> low k m -> k <= -16445 ->
  0 <= units k x + units k m <= 2 ^ (- k) + 2 ^ (-15 - k) ->
  exists t, channel (fadd x m) = Some t /\ is_u8 t.
Proof.
  intros Fx Fm Lx Lm Hk Hsum. destruct emin_range as (Hp1 & Hp & Hem). pose proof precision_pow as Hpow.
  destruct (add_at_most precision 16384 Hp1 x m k 32769 (-15)) as [Ha Hn]; try done; [lia..| |].
  { assert (2 ^ (- k) = 32768 * 2 ^ (-15 - k)) as E by (change 32768 with (2 ^ 15); rewrite <- Z.pow_add_r by lia; f_equal; lia). lia. }
  fold (fadd x m) in Ha, Hn. specialize (Hn ltac:(lia)).
  destruct (mul_at_most precision 16384 Hp1 (fadd x m) (float_const 255) 32769 (-15) 255 0 Ha) as [Hb Hbn]; [|lia..|].
  { rewrite const_255. apply (scaled_le_at 16); [lia..|]. done. }
  specialize (Hbn Hn ltac:(by rewrite const_255)). fold (fmul (fadd x m) (float_const 255)) in Hb, Hbn.
  unfold channel, to_unsigned. set (y := fmul _ _) in *.
  destruct y as [s| | |s my ey] eqn:Ey; [by exists 0|done|done|]. simpl in Hbn. subst s.
  set (t := if 0 <=? ey then Z.pos my * 2 ^ ey else Z.pos my / 2 ^ (- ey)).
  assert (0 <= t < 256) as Ht.
  { unfold t. destruct (Z.leb_spec 0 ey) as [He|He].
    - specialize (Hb 15 ltac:(lia) ltac:(lia)). rewrite (Z.pow_add_r 2 15) in Hb by lia. change (15 + (-15 + 0)) with 0 in Hb.
      change (2 ^ 15) with 32768 in Hb. assert (0 < 2 ^ ey) by (apply Z.pow_pos_nonneg; lia). lia.
    - assert (0 < 2 ^ (- ey)) as Hpe by (apply Z.pow_pos_nonneg; lia).
      split; [apply Z.div_pos; lia|]. apply Z.div_lt_upper_bound; [done|].
      specialize (Hb (15 - ey) ltac:(lia) ltac:(lia)). replace (15 - ey + ey) with 15 in Hb by lia.
      replace (15 - ey + (-15 + 0)) with (- ey) in Hb by lia. change (2 ^ 15) with 32768 in Hb. lia. }
  cbn [truncate mbind option_bind]. fold t.
  destruct (Z.leb_spec 0 t); [|lia]. destruct (Z.ltb_spec t (2 ^ 8)); [|lia]. by exists t.
Qed.

Lemma const_60 : float_const 60 = S754_finite false 15728640 (-18). Proof. done. Qed.

(** The hue in sixths of the circle. *)
Lemma sixth_ok h :
  at_most 360 0 h -> nonneg h -> let q := to_float (fdiv h (float_const 60)) in single q /\ nonneg q.
Proof.
  intros Hh Hs q. destruct emin_range as (Hp1 & Hp & Hem). pose proof precision_pow. pose proof emin_single as Em.
  assert (at_most 6 0 (fdiv h (float_const 60)) /\ nonneg (fdiv h (float_const 60))) as [Ha Hn].
  { destruct h as [s| | |s m e]; [done|done|done|]. simpl in Hs. subst s. unfold fdiv. rewrite const_60.
    destruct (div_at_most precision 16384 Hp1 false m e false 15728640 (-18) 6 0) as [Ha Hs]; [lia..| |].
    - eapply scaled_le_trans; [exact Hh|]. apply (scaled_le_at 18); [lia..|]. done.
    - split; [done|]. by destruct (SFdiv _ _ _ _). }
  split; [by apply (single_to_float _ 6 0); [|lia..]|].
  apply (rounded_at_most 24 128 ltac:(lia) _ 6 0 Ha ltac:(lia) ltac:(lia) ltac:(lia)); done.
Qed.

(** The distance of a register's difference from 1. *)
Lemma unit_minus d k :
  is_finite d -> low k d -> k <= -16445 -> 0 <= units k d <= 2 ^ (- k) ->
  at_most 1 0 (fsub (float_const 1) d) /\ nonneg (fsub (float_const 1) d).
Proof.
  intros Fd Ld Hk Hd. destruct emin_range as (Hp1 & Hp & Hem). pose proof precision_pow. pose proof (units_1 k ltac:(lia)) as U1.
  assert (low k (float_const 1)) as L1 by (rewrite const_1; simpl; lia).
  destruct (sub_at_most precision 16384 Hp1 (float_const 1) d k 1 0) as [Ha Hn];
    [done|done|done|done|lia|lia|lia|lia|rewrite U1; replace (0 - k) with (- k) by lia; lia|].
  - split; [exact Ha|]. apply Hn. rewrite U1. lia.
Qed.

Lemma hsv2rgb_ok h s v :
  single h -> nonneg h -> at_most 360 0 h -> in_unit s -> in_unit v ->
  exists r g b, hsv2rgb h s v = Some (rgb r g b) /\ is_u8 r /\ is_u8 g /\ is_u8 b.
Proof.
  intros Hh Hs Hmax Ha Hv. set (k := -16445). assert (k <= -16445) as Hk by (unfold k; lia). clearbody k.
  destruct (scaled_by_unit v s Hv (iu_most _ Ha) (iu_nonneg _ Ha)) as [Hc Hcv]. set (c := to_float (fmul v s)) in *.
  destruct (sixth_ok h Hmax Hs) as [Hq1 Hq2]. set (q := to_float (fdiv h (float_const 60))) in *.
  destruct (hue_distance q Hq1 Hq2) as (rest & Hrun & _ & Fd & Ld & Hd).
  set (d := fabs (to_float (fsub rest (float_const 1)))) in *.
  destruct (unit_minus d k Fd ltac:(by eapply low_le; [exact Ld|lia]) Hk (proj1 (Hd k Hk))) as [Hy1 Hy2].
  destruct (scaled_by_unit c _ Hc Hy1 Hy2) as [Hx Hxc]. set (x := to_float (fmul c (fsub (float_const 1) d))) in *.
  assert (forall z, in_unit z -> is_finite z /\ low k z) as Hfin.
  { intros z Hz. split; [apply nonneg_finite, Hz|apply in_unit_low; [done|lia]]. }
  destruct (Hfin v Hv) as [Fv Lv]. destruct (Hfin c Hc) as [Fc Lc].
  pose proof (in_unit_units v k Hv ltac:(lia)) as Uv. pose proof (in_unit_units c k Hc ltac:(lia)) as Uc.
  pose proof (in_unit_units x k Hx ltac:(lia)) as Ux. pose proof (Hcv k ltac:(lia)) as Ucv. pose proof (Hxc k ltac:(lia)) as Uxc.
  destruct (sub_in_unit v c k Fv Fc Lv Lc Hk) as (M1 & M2 & M3 & M4); [lia|]. specialize (M3 ltac:(lia)).
  set (m := to_float (fsub v c)) in *. pose proof (nonneg_finite m M3) as Fm.
  assert (low k m) as Lm by (eapply low_le; [exact M2|lia]).
  pose proof (proj1 (units_nonneg k m Fm Lm) M3) as Um.
  assert (2 ^ (-15 - k) = 256 * 2 ^ (-23 - k)) as E15 by (change 256 with (2 ^ 8); rewrite <- Z.pow_add_r by lia; f_equal; lia).
  assert (0 < 2 ^ (-23 - k)) as Hulp by (apply Z.pow_pos_nonneg; lia).
  assert (forall z, is_finite z -> low k z -> 0 <= units k z <= units k c ->
    exists t, channel (fadd z m) = Some t /\ is_u8 t) as Hch.
  { intros z Fz Lz Uz. by apply (channel_sum z m k); try done; lia. }
  assert (exists t, channel (fadd c m) = Some t /\ is_u8 t) as (tc & Hc1 & Hc2) by (apply Hch; done || lia).
  assert (exists t, channel (fadd x m) = Some t /\ is_u8 t) as (tx & Hx1 & Hx2) by (destruct (Hfin x Hx); apply Hch; done || lia).
  assert (exists t, channel (fadd (S754_zero false) m) = Some t /\ is_u8 t) as (tz & Hz1 & Hz2) by (apply Hch; done || (simpl; lia)).
  unfold hsv2rgb. fold c q. rewrite Hrun. cbn [mbind option_bind]. fold d x m.
  repeat (destruct (flt h _)); rewrite ?Hc1, ?Hx1, ?Hz1; cbn [mbind option_bind]; by eexists _, _, _.
Qed.
End Saturation.

(** Rounding errors and sectors together. *)
Lemma hsv2rgbfast_ok `{X87Laws} h n :
  single h -> nonneg h -> truncate h = Some n -> n < 2 ^ 32 ->
  exists t, 0 <= t <= 255 /\
    hsv2rgbfast h = Some (let '(r, g, b) := sector_color (n mod 6) t in r * 65536 + g * 256 + b) /\
    4096 * (t * one) <= 4096 * ideal_ramp (value h) + one /\
    4096 * ideal_ramp (value h) - one < 4096 * ((t + 1) * one).
Proof.
  intros Hh Hs Hn Hmax. destruct (ramp_ok h Hh Hs) as (rest & t & Hrun & Ht & Hr & He1 & He2).
  exists t. split; [done|]. split; [|by split]. unfold hsv2rgbfast, to_unsigned. rewrite Hrun.
  cbn [mbind option_bind]. set (c := channel _) in *. rewrite Hn. cbn [mbind option_bind].
  assert (0 <= n) as Hn0.
  { destruct h as [| | |s m e]; try done; [by injection Hn as <-|]. simpl in Hs, Hn. subst s. injection Hn as <-.
    destruct (0 <=? e) eqn:E; [apply Z.mul_nonneg_nonneg; [lia|apply Z.pow_nonneg; lia]|].
    apply Z.div_pos; [lia|apply Z.pow_pos_nonneg; lia]. }
  destruct (Z.leb_spec 0 n); [|lia]. destruct (Z.ltb_spec n (2 ^ 32)); [|lia]. cbn [andb mbind option_bind].
  rewrite Ht. cbn [mbind option_bind].
  assert (is_u8 t) as Hu by (unfold in_width; lia).
  pose proof (Z.mod_pos_bound n 6 ltac:(lia)) as H6. set (i := n mod 6) in *.
  assert (i = 0 \/ i = 1 \/ i = 2 \/ i = 3 \/ i = 4 \/ i = 5) as Hi by lia. clearbody i.
  destruct Hi as [->|[->|[->|[->|[->| ->]]]]]; cbn [sector_color]; (rewrite rgb_ok by done); done.
Qed.

(** ** Theorems *)

(** C25: [hsv2rgbfast] is defined for every hue from 0 on (also beyond the interval [0; 6) its
    comment allows, where the caller uses it): one channel is full, one is empty, and
    the third is within 1/4096 of the integer part of the ideal ramp; the sector decides
    which is which. *)
Theorem hsv2rgbfast_correct `{X87Laws} h n :
  single h -> nonneg h -> truncate h = Some n -> n < 2 ^ 32 ->
  exists t, 0 <= t <= 255 /\
    hsv2rgbfast h = Some (let '(r, g, b) := sector_color (n mod 6) t in r * 65536 + g * 256 + b) /\
    4096 * (t * one) <= 4096 * ideal_ramp (value h) + one /\
    4096 * ideal_ramp (value h) - one < 4096 * ((t + 1) * one).
Proof. apply hsv2rgbfast_ok. Qed.

(** [hsv2rgb] is defined for a hue of at most 360 and a saturation and a value of at most 1,
    the bounds included: no channel overflows through the rounding errors. *)
Theorem hsv2rgb_defined `{X87Laws} h s v :
  single h -> nonneg h -> at_most 360 0 h -> in_unit s -> in_unit v ->
  exists r g b, hsv2rgb h s v = Some (r * 65536 + g * 256 + b) /\ is_u8 r /\ is_u8 g /\ is_u8 b.
Proof.
  intros Hh Hs Hmax Ha Hv. destruct (hsv2rgb_ok h s v Hh Hs Hmax Ha Hv) as (r & g & b & -> & Hr & Hg & Hb).
  exists r, g, b. by rewrite rgb_ok.
Qed.

(** ** Witnesses *)

Lemma hsv2rgbfast_correct_witness :
  exists t, 127 <= t <= 128 /\ @hsv2rgbfast ex_x87 (decimal 15 1) = Some (t * 65536 + 255 * 256 + 0).
Proof.
  destruct (@hsv2rgbfast_correct ex_x87 ex_x87_laws (decimal 15 1) 1) as (t & Ht & Hrun & H1 & H2);
    [vm_compute; repeat split; discriminate|done|vm_compute; reflexivity|lia|].
  exists t. split; [|exact Hrun].
  assert (ideal_ramp (value (decimal 15 1)) = 255 * 2 ^ 148) as E by (vm_compute; reflexivity).
  rewrite E in H1, H2. unfold one in H1, H2. change (2 ^ 149) with (2 * 2 ^ 148) in H1, H2. lia.
Defined.

Lemma hsv2rgb_defined_witness :
  exists r g b, @hsv2rgb ex_x87 (float_const 360) (float_const 1) (float_const 1) = Some (r * 65536 + g * 256 + b) /\
    is_u8 r /\ is_u8 g /\ is_u8 b.
Proof.
  assert (in_unit (float_const 1)) as H1.
  { split; [|done|vm_compute; repeat split; discriminate]. rewrite const_1. apply (scaled_le_at 23); [lia..|]. done. }
  apply (@hsv2rgb_defined ex_x87 ex_x87_laws); [vm_compute; repeat split; discriminate|done| |exact H1|exact H1].
  change (float_const 360) with (S754_finite false 11796480 (-15)). apply (scaled_le_at 15); [lia..|]. done.
Defined.
