(* ===== verification/Animation.v ===== *)
(** * kernel/kernel/kernel.cpp: the pictures of the graphical mode

    The picture at a time, drawn into a buffer: the colour of a pixel, the two loops over
    the rows and the pixels of a row, and the advance of the time. *)

From S2P Require Import Prelude Cstring Float Math Colors.

(** ** Definitions *)

(** An expression whose evaluation is defined. *)
Definition defined {S A} (x : option A) : M S A := match x with Some a => mret a | None => undef end.

(** [n++] of an [int]. *)
Definition increment {S} (n : Z) : M S Z := if n =? 2 ^ 31 - 1 then undef else mret (n + 1).

Section Animation.
Context `{X87}.

Definition factor : float := to_float (fdiv (float_const 6) M_2_PI).
Definition scale_at (time : float) : float := to_float (fdiv (fsin time) (float_const 50)).

(** [time += 0.1f]. *)
Definition advance (time : float) : float := to_float (fadd time (decimal 1 1)).

Definition row_hue (time scale : float) (y : Z) : option float :=
  fmod (to_float (fadd (fmul factor (fsin (to_float (fmul scale (float_const y))))) time)) (float_const 6).

Definition pixel_color (hue : float) (x : Z) : option Z :=
  hsv2rgbfast (to_float (fadd hue (fmul (float_const x) (decimal 1 2)))).

(** The loop over a row, [n] pixels before its end; the result is [buf]. *)
Fixpoint draw_row (n : nat) (x : Z) (hue : float) (buf : Z) : M (gmap Z Z) Z :=
  match n with
  | O => mret buf
  | S n' =>
      col ← defined (pixel_color hue x);
      _ ← store32 buf col;
      x ← increment x;
      draw_row n' x hue (buf + 4)
  end.

(** The loop over the rows, [n] rows before the end. *)
Fixpoint draw_rows (n : nat) (y width : Z) (scale time : float) (buf : Z) : M (gmap Z Z) Z :=
  match n with
  | O => mret buf
  | S n' =>
      hue ← defined (row_hue time scale y);
      buf ← draw_row (Z.to_nat width) 0 hue buf;
      y ← increment y;
      draw_rows n' y width scale time buf
  end.

(** A round of the animation up to [gfx_apply]. *)
Definition draw (back_buffer width height : Z) (time : float) : M (gmap Z Z) Z :=
  draw_rows (Z.to_nat height) 0 width (scale_at time) time back_buffer.

(** The colour of the pixel in column [x] of row [y]. *)
Definition picture (time : float) (x y : Z) : option Z :=
  hue ← row_hue time (scale_at time) y; pixel_color hue x.

(** The bytes of the picture in memory. *)
Definition picture_byte (time : float) (width j : Z) : option Z :=
  col ← picture time ((j / 4) mod width) (j / 4 / width); Some (u8 (col / 2 ^ (8 * (j mod 4)))).
End Animation.

(** ** The drawing *)

Section Draw.
Context `{X87}.
Context (time : float) (buffer width : Z) (m0 : gmap Z Z).
Hypothesis (Hwidth : 0 < width < 2 ^ 31).

(** The pixels before pixel [i] are drawn. *)
Definition drawn (i : Z) (m : gmap Z Z) : Prop :=
  written m0 m buffer (4 * i) (picture_byte time width).

Lemma store_pixel_ok i col m :
  0 <= i -> drawn i m -> picture time (i mod width) (i / width) = Some col ->
  wp (store32 (buffer + 4 * i) col) m (fun _ m' => drawn (i + 1) m').
Proof.
  intros Hi Hd Hc. unfold store32.
  assert (forall j, 0 <= j < 4 -> picture_byte time width (4 * i + j) = Some (u8 (col / 2 ^ (8 * j)))) as Hb.
  { intros j Hj. unfold picture_byte. rewrite (Z.mul_comm 4 i), (Z.add_comm (i * 4)), Z.div_add, Z.mod_add by lia.
    rewrite (Z.div_small j 4), (Z.mod_small j 4) by lia. rewrite Z.add_0_l, Hc. done. }
  pose proof (Hb 0 ltac:(lia)) as B0. rewrite Z.mul_0_r, Z.div_1_r, Z.add_0_r in B0.
  pose proof (Hb 1 ltac:(lia)) as B1. pose proof (Hb 2 ltac:(lia)) as B2. pose proof (Hb 3 ltac:(lia)) as B3.
  do 3 (wp_step; apply store8_ok). apply store8_ok. unfold drawn.
  replace (4 * (i + 1)) with (4 * i + 3 + 1) by lia.
  replace (buffer + 4 * i + 1) with (buffer + (4 * i + 1)) by lia.
  replace (buffer + 4 * i + 2) with (buffer + (4 * i + 2)) by lia.
  replace (buffer + 4 * i + 3) with (buffer + (4 * i + 3)) by lia.
  apply written_snoc; [|lia|exact B3]. replace (4 * i + 3) with (4 * i + 2 + 1) by lia.
  apply written_snoc; [|lia|exact B2]. replace (4 * i + 2) with (4 * i + 1 + 1) by lia.
  apply written_snoc; [|lia|exact B1]. apply written_snoc; [done|lia|exact B0].
Qed.

Lemma draw_row_ok n y hue : forall x m,
  0 <= y -> 0 <= x -> x + Z.of_nat n = width -> row_hue time (scale_at time) y = Some hue ->
  (forall x, 0 <= x < width -> is_Some (pixel_color hue x)) -> drawn (y * width + x) m ->
  wp (draw_row n x hue (buffer + 4 * (y * width + x))) m
    (fun buf m' => buf = buffer + 4 * ((y + 1) * width) /\ drawn ((y + 1) * width) m').
Proof.
  induction n as [|n IH]; intros x m Hy Hx Hn Hhue Hpix Hd; cbn [draw_row].
  - replace (y * width + x) with ((y + 1) * width) in * by lia.
    wp_step. split; [reflexivity|exact Hd].
  - destruct (Hpix x ltac:(lia)) as [col Hcol]. wp_step. rewrite Hcol. cbn [defined]. wp_step. wp_step.
    eapply wp_mono; [apply (store_pixel_ok _ col); [lia|exact Hd|]|].
    { unfold picture. rewrite (Z.add_comm (y * width) x), Z.mod_add, Z.mod_small, Z.div_add, Z.div_small by lia.
      rewrite Z.add_0_l, Hhue. exact Hcol. }
    intros [] m1 Hd1. cbv beta in Hd1. wp_step. unfold increment. destruct (Z.eqb_spec x (2 ^ 31 - 1)); [lia|]. wp_step.
    replace (y * width + x + 1) with (y * width + (x + 1)) in Hd1 by lia.
    replace (buffer + 4 * (y * width + x) + 4) with (buffer + 4 * (y * width + (x + 1))) by lia.
    apply IH; [exact Hy|lia|lia|exact Hhue|exact Hpix|exact Hd1].
Qed.

Lemma draw_rows_ok n : forall y m,
  0 <= y -> y + Z.of_nat n < 2 ^ 31 ->
  (forall x y', 0 <= x < width -> y <= y' < y + Z.of_nat n -> is_Some (picture time x y')) -> drawn (y * width) m ->
  wp (draw_rows n y width (scale_at time) time (buffer + 4 * (y * width))) m
    (fun _ m' => drawn ((y + Z.of_nat n) * width) m').
Proof.
  induction n as [|n IH]; intros y m Hy Hn Hpic Hd; cbn [draw_rows].
  - wp_step. by rewrite Z.add_0_r.
  - destruct (row_hue time (scale_at time) y) as [hue|] eqn:Hhue.
    2: { destruct (Hpic 0 y) as [col Hcol]; [lia..|]. unfold picture in Hcol. by rewrite Hhue in Hcol. }
    wp_step. cbn [defined]. wp_step. wp_step.
    assert (drawn (y * width + 0) m) as Hd' by (by rewrite Z.add_0_r).
    pose proof (draw_row_ok (Z.to_nat width) y hue 0 m Hy ltac:(lia) ltac:(lia) Hhue) as Hrow.
    rewrite Z.add_0_r in Hrow. eapply wp_mono; [apply Hrow; [|done]|].
    { intros x Hx. destruct (Hpic x y Hx) as [col Hcol]; [lia|]. unfold picture in Hcol. rewrite Hhue in Hcol. by exists col. }
    intros buf m1 [-> Hd1]. wp_step. unfold increment. destruct (Z.eqb_spec y (2 ^ 31 - 1)); [lia|]. wp_step.
    eapply wp_mono; [apply IH; [lia|lia| |done]|].
    + intros x y' Hx Hy'. apply Hpic; lia.
    + intros ? m' Hd2. cbv beta in Hd2. by replace (y + Z.of_nat (S n)) with (y + 1 + Z.of_nat n) by lia.
Qed.
End Draw.

(** [draw] writes the bytes of the picture, four for every pixel, and nothing else. *)
Lemma draw_ok `{X87} time buffer width height m :
  0 < width < 2 ^ 31 -> 0 <= height < 2 ^ 31 ->
  (forall x y, 0 <= x < width -> 0 <= y < height -> is_Some (picture time x y)) ->
  wp (draw buffer width height time) m
    (fun _ m' => written m m' buffer (4 * (width * height)) (picture_byte time width)).
Proof.
  intros Hw Hh Hpic. unfold draw.
  pose proof (draw_rows_ok time buffer width m Hw (Z.to_nat height) 0 m) as Hd.
  rewrite Z.mul_0_l, Z.mul_0_r, Z.add_0_r, Z.add_0_l, Z2Nat.id in Hd by lia.
  eapply wp_mono; [apply Hd; [lia|lia|exact Hpic|apply written_nil]|].
  intros ? m' Hm. cbv beta in Hm. unfold drawn in Hm. by rewrite (Z.mul_comm height) in Hm.
Qed.

(** ** The colours are defined *)

Lemma to_float_ok x n f :
  at_most n f x -> 0 < n < 2 ^ 24 -> -149 <= f <= 80 ->
  at_most n f (to_float x) /\ (nonneg x -> nonneg (to_float x)) /\ single (to_float x).
Proof.
  intros Hx Hn Hf. pose proof emin_single as Em.
  destruct (rounded_at_most 24 128 ltac:(lia) x n f Hx ltac:(lia) ltac:(lia) ltac:(lia)) as [H1 H2].
  split; [exact H1|]. split; [exact H2|]. by eapply single_to_float.
Qed.

(** The numbers below [2^22] are exact. *)
Lemma float_const_ok n : 0 <= n <= 2 ^ 22 -> at_most (2 ^ 22) 0 (float_const n) /\ nonneg (float_const n).
Proof.
  intros Hn. pose proof emin_register as Em.
  destruct (normalize_at_most 64 16384 ltac:(lia) n 0 false (2 ^ 22) 0) as [H1 H2]; [lia..| |].
  { apply (scaled_le_at 0); [lia..|]. rewrite Z.abs_eq; lia. }
  destruct (to_float_ok _ _ _ H1) as (H3 & H4 & _); [lia..|]. split; [exact H3|]. apply H4, H2. lia.
Qed.

(** The times of the animation: at least 1, and at most 2^21. *)
Record time_ok (time : float) : Prop := {
  to_single : single time;
  to_most : at_most (2 ^ 21) 0 time;
  to_least : one <= value time
}.

Lemma time_ok_low time k : time_ok time -> k <= -149 ->
  is_finite time /\ low k time /\ one * 2 ^ (-149 - k) <= units k time <= 2 ^ 21 * 2 ^ (- k).
Proof.
  intros [Hs Hm Hl] Hk. pose proof (at_most_finite _ _ _ Hm) as Hf.
  pose proof (single_low time Hs) as L.
  assert (low k time) as Lk by (eapply low_le; [exact L|lia]). split; [done|]. split; [done|].
  apply (units_at_most k) in Hm; [|done|done|lia..]. rewrite Z.sub_0_l in Hm.
  rewrite (units_scale k (-149)) in * by done. split; [|lia].
  apply Z.mul_le_mono_nonneg_r; [apply Z.pow_nonneg; lia|done].
Qed.

Section Defined.
Context `{X87Laws}.

Lemma factor_ok : at_most 1 0 factor.
Proof.
  assert (factor = S754_finite false 16021061 (-24)) as ->.
  { unfold factor, fdiv. destruct precision_ok as [E|[E|E]]; rewrite E; vm_compute; reflexivity. }
  apply (scaled_le_at 24); [lia..|]. done.
Qed.

Lemma scale_ok time : at_most 1 62 time -> at_most 1 0 (scale_at time).
Proof.
  intros Ht%sine_ok. destruct emin_range as (Hp1 & Hp & Hem). pose proof precision_pow.
  assert (at_most 1 0 (fdiv (fsin time) (float_const 50))) as Ha; [|by apply (to_float_ok _ 1 0 Ha)].
  unfold fsin, fdiv. change (float_const 50) with (S754_finite false 13107200 (-18)).
  destruct (sine time) as [s| | |s m e]; [done|done|done|].
  apply (div_at_most precision 16384 Hp1 s m e false 13107200 (-18) 1 0); [lia..|].
  eapply scaled_le_trans; [exact Ht|]. apply (scaled_le_at 18); [lia..|]. done.
Qed.

(** The factor times a sine, plus the time. *)
Lemma phase_ok s time :
  at_most 1 0 s -> time_ok time -> let h := to_float (fadd (fmul factor s) time) in single h /\ nonneg h.
Proof.
  intros Hs Ht h. destruct emin_range as (Hp1 & Hp & Hem). pose proof precision_pow.
  destruct (mul_at_most precision 16384 Hp1 factor s 1 0 1 0 factor_ok Hs) as [Ha _]; [lia..|].
  fold (fmul factor s) in Ha. rewrite Z.mul_1_l, Z.add_0_l in Ha. set (a := fmul factor s) in *.
  destruct (low_both a a (-149)) as (k & La & _ & Hk). destruct (time_ok_low time k Ht Hk) as (Ft & Lt & Ut).
  pose proof (at_most_finite _ _ _ Ha) as Fa. pose proof (proj1 (units_at_most k a 1 0 Fa La ltac:(lia) ltac:(lia)) Ha) as Ua.
  assert (one * 2 ^ (-149 - k) = 2 ^ (- k)) as E1 by (unfold one; rewrite <- Z.pow_add_r by lia; f_equal; lia).
  rewrite E1 in Ut. rewrite Z.sub_0_l, Z.mul_1_l in Ua. set (u := 2 ^ (- k)) in *.
  destruct (add_at_most precision 16384 Hp1 a time k (2 ^ 22) 0 Fa Ft La Lt) as [Hb Hn]; [lia|lia|lia|lia| |].
  { rewrite Z.sub_0_l. fold u. lia. }
  fold (fadd a time) in Hb, Hn. destruct (to_float_ok _ _ _ Hb) as (_ & Hn' & Hsg); [lia..|].
  split; [exact Hsg|]. apply Hn', Hn. lia.
Qed.

Lemma row_hue_ok time y :
  time_ok time -> 0 <= y <= 2 ^ 22 -> exists hue, row_hue time (scale_at time) y = Some hue /\ nonneg hue /\ at_most 6 0 hue.
Proof.
  intros Ht Hy. destruct emin_range as (Hp1 & Hp & Hem). pose proof precision_pow.
  assert (at_most 1 62 time) as Ht62.
  { eapply at_most_weaken; [apply Ht|]. apply (scaled_le_at 0); [lia..|]. done. }
  pose proof (scale_ok time Ht62) as Hs. destruct (float_const_ok y Hy) as [Hy1 _].
  destruct (mul_at_most precision 16384 Hp1 (scale_at time) (float_const y) 1 0 (2 ^ 22) 0 Hs Hy1) as [Ha _]; [lia..|].
  fold (fmul (scale_at time) (float_const y)) in Ha. destruct (to_float_ok _ _ _ Ha) as (Hb & _ & _); [lia..|].
  assert (at_most 1 0 (fsin (to_float (fmul (scale_at time) (float_const y))))) as Hsin.
  { apply sine_ok. eapply at_most_weaken; [exact Hb|]. apply (scaled_le_at 0); [lia..|]. done. }
  destruct (phase_ok _ time Hsin Ht) as [Hh1 Hh2]. unfold row_hue. set (h := to_float (fadd _ time)) in *.
  destruct (fmod_ok h (float_const 6) Hh1 (nonneg_finite _ Hh2)) as (r & Hrun & Fr & Sr & Vr);
    [vm_compute; repeat split; discriminate|exact I|vm_compute; discriminate|].
  exists r. split; [exact Hrun|].
  pose proof (single_low h Hh1) as Lh. pose proof (single_low r Sr) as Lr.
  pose proof (proj1 (units_nonneg (-149) h (nonneg_finite _ Hh2) Lh) Hh2) as Uh.
  change (value (float_const 6)) with (6 * one) in Vr. assert (0 < one) by done. rewrite Z.rem_mod_nonneg in Vr by lia.
  pose proof (Z.mod_pos_bound (value h) (6 * one) ltac:(lia)) as Hr. rewrite <- Vr in Hr.
  split; [apply (units_nonneg (-149)); [done|done|lia]|].
  apply (units_at_most (-149)); [done|done|lia|lia|]. change (2 ^ (0 - -149)) with one. lia.
Qed.

Lemma pixel_color_ok hue x :
  nonneg hue -> at_most 6 0 hue -> 0 <= x <= 2 ^ 22 -> exists col, pixel_color hue x = Some col /\ 0 <= col < 2 ^ 24.
Proof.
  intros Hn Hm Hx. destruct emin_range as (Hp1 & Hp & Hem). pose proof precision_pow.
  destruct (float_const_ok x Hx) as [Hx1 Hx2].
  destruct (mul_at_most precision 16384 Hp1 (float_const x) (decimal 1 2) (2 ^ 22) 0 1 0 Hx1) as [Ha Hna]; [|lia..|].
  { change (decimal 1 2) with (S754_finite false 10737418 (-30)). apply (scaled_le_at 30); [lia..|]. done. }
  fold (fmul (float_const x) (decimal 1 2)) in Ha, Hna. specialize (Hna Hx2 eq_refl). set (a := fmul _ _) in *.
  rewrite Z.mul_1_r, Z.add_0_l in Ha. destruct (low_both hue a (-149)) as (k & Lh & La & Hk).
  pose proof (nonneg_finite _ Hn) as Fh. pose proof (nonneg_finite _ Hna) as Fa.
  apply (units_at_most k) in Hm; [|done|done|lia..]. apply (units_at_most k) in Ha; [|done|done|lia..].
  pose proof (proj1 (units_nonneg k hue Fh Lh) Hn) as Uh. pose proof (proj1 (units_nonneg k a Fa La) Hna) as Ua.
  destruct (add_at_most precision 16384 Hp1 hue a k (2 ^ 23) 0 Fh Fa Lh La) as [Hb Hnb]; [lia|lia|lia|lia|lia|].
  fold (fadd hue a) in Hb, Hnb. specialize (Hnb ltac:(lia)).
  destruct (to_float_ok _ _ _ Hb) as (Hc & Hnc & Hs); [lia..|]. specialize (Hnc Hnb).
  destruct (truncate_at_most _ _ Hc Hnc) as (n & Ht & Hn2); [lia|].
  destruct (hsv2rgbfast_ok _ n Hs Hnc Ht) as (t & Ht2 & Hrun & _); [lia|].
  unfold pixel_color. fold a. eexists. split; [exact Hrun|]. unfold sector_color.
  repeat case_match; simplify_eq; lia.
Qed.

(** Every pixel of a picture has a colour. *)
Lemma picture_ok time x y :
  time_ok time -> 0 <= x <= 2 ^ 22 -> 0 <= y <= 2 ^ 22 -> exists col, picture time x y = Some col /\ 0 <= col < 2 ^ 24.
Proof.
  intros Ht Hx Hy. destruct (row_hue_ok time y Ht Hy) as (hue & Hh & Hn & Hm). unfold picture. rewrite Hh.
  by apply pixel_color_ok.
Qed.

(** ** The time *)

Lemma tenth_val : decimal 1 1 = S754_finite false 13421773 (-27). Proof. done. Qed.

(** The sum is at least 1: two roundings lose less than is added. *)
Lemma advance_least time f :
  time_ok time -> -6 <= f <= -1 -> value time + one <= 2 ^ 23 * 2 ^ (f + 149) ->
  2 * 2 ^ (f + 149) <= value time + 13421773 * 2 ^ 122 - one -> one <= value (advance time).
Proof.
  intros Ht Hf Hmax Hmin. destruct emin_range as (Hp1 & Hp & Hem). pose proof precision_pow. pose proof emin_single as Em.
  assert (exists k, k = -16445) as [k Hk] by (by eexists). apply Z.eq_le_incl in Hk.
  destruct (time_ok_low time k Ht ltac:(lia)) as (Ft & Lt & _).
  unfold advance. rewrite tenth_val. set (tenth := S754_finite false 13421773 (-27)).
  assert (0 < 2 ^ (-149 - k)) as Hsc by (apply Z.pow_pos_nonneg; lia).
  assert (units k time = value time * 2 ^ (-149 - k)) as Ut by (apply units_scale; [apply single_low, Ht|lia]).
  assert (units k tenth = 13421773 * 2 ^ 122 * 2 ^ (-149 - k)) as Ud.
  { cbn [units cond_Zopp tenth]. rewrite <- Z.mul_assoc, <- Z.pow_add_r by lia. do 2 f_equal. lia. }
  assert (2 ^ (f - k) = 2 ^ (f + 149) * 2 ^ (-149 - k)) as Ef by (rewrite <- Z.pow_add_r by lia; f_equal; lia).
  assert (low k tenth) as Ld by (simpl; lia).
  assert (one = 134217728 * 2 ^ 122) as Eo by reflexivity. pose proof (to_least _ Ht) as Hl.
  set (sc := 2 ^ (-149 - k)) in *. set (ulp := 2 ^ (f + 149)) in *. set (t122 := 2 ^ 122) in *.
  assert (0 < t122) as Ht122 by reflexivity. clearbody ulp t122.
  assert (Z.abs (units k time + units k tenth) <= 2 ^ 23 * 2 ^ (f - k)) as Hsum.
  { rewrite Ut, Ud, Ef, Z.mul_assoc, <- Z.mul_add_distr_r, Z.abs_mul, (Z.abs_eq sc) by lia.
    apply Z.mul_le_mono_nonneg_r; lia. }
  destruct (add_at_most precision 16384 Hp1 time tenth k (2 ^ 23) f Ft I Lt Ld) as [Ha _]; [lia|lia|lia|lia|exact Hsum|].
  destruct (add_error precision 16384 Hp1 time tenth k (2 ^ 23) f Ft I Lt Ld) as [La He]; [lia|lia|lia|lia|exact Hsum|].
  fold (fadd time tenth) in Ha, La, He.
  destruct (rounded_error 24 128 ltac:(lia) _ (2 ^ 23) f k Ha) as [Lr Hr]; [lia|lia|lia|exact La|lia|].
  fold (to_float (fadd time tenth)) in Lr, Hr. destruct (to_float_ok _ _ _ Ha) as (_ & _ & Hs); [lia..|].
  set (r := to_float (fadd time tenth)) in *. rewrite (units_scale k (-149) r (single_low _ Hs)) in Hr by lia.
  rewrite Ut, Ud in He. rewrite Ef in He, Hr. 
  apply (Z.mul_le_mono_nonneg_r _ _ sc) in Hmin; [|lia].
  rewrite Z.mul_sub_distr_r, Z.mul_add_distr_r in Hmin. apply (Z.mul_le_mono_pos_r _ _ sc Hsc). lia.
Qed.

(** At the end of the range the time no longer advances. *)
Lemma advance_late time m e :
  time = S754_finite false m e -> Z.pos m < 2 ^ 24 -> -3 <= e -> (2 ^ 21 - 1) * 8 < Z.pos m * 2 ^ (e + 3) <= 2 ^ 24 ->
  at_most (2 ^ 21) 0 (advance time).
Proof.
  intros -> Hm He Hj. unfold advance, fadd. rewrite tenth_val. cbn [SFadd].
  assert (Z.min e (-27) = -27) as -> by lia.
  assert (cond_Zopp false (Z.pos (fst (shl_align m e (-27)))) = Z.pos m * 2 ^ (e + 3) * 2 ^ 24) as ->.
  { pose proof (align_units false m e (-27) (-27) ltac:(lia) ltac:(lia)) as E. rewrite Z.sub_diag, Z.mul_1_r in E.
    rewrite E. cbn [units cond_Zopp]. rewrite <- Z.mul_assoc, <- Z.pow_add_r by lia. do 2 f_equal. lia. }
  change (cond_Zopp false (Z.pos (fst (shl_align 13421773 (-27) (-27))))) with 13421773.
  set (j := Z.pos m * 2 ^ (e + 3)) in *.
  assert (j = 16777209 \/ j = 16777210 \/ j = 16777211 \/ j = 16777212 \/ j = 16777213 \/ j = 16777214 \/
    j = 16777215 \/ j = 16777216) as Hj' by lia. clearbody j.
  destruct precision_ok as [E|[E|E]]; rewrite E; clear - Hj';
    decompose [or] Hj'; subst j;
    (match goal with |- at_most _ _ ?x => let y := eval vm_compute in x in change (at_most (2 ^ 21) 0 y) end);
    (apply (scaled_le_at 10); [lia|lia|]); vm_compute; discriminate.
Qed.

Lemma advance_ok time : time_ok time -> time_ok (advance time).
Proof.
  intros Ht. pose proof (to_single _ Ht) as Hs. pose proof (single_low _ Hs) as Ls. pose proof (to_least _ Ht) as Hl.
  pose proof (at_most_finite _ _ _ (to_most _ Ht)) as Ft.
  pose proof (proj1 (units_at_most (-149) time (2 ^ 21) 0 Ft Ls ltac:(lia) ltac:(lia)) (to_most _ Ht)) as Hm.
  change (2 ^ (0 - -149)) with one in Hm.
  assert (one = 134217728 * 2 ^ 122) as Eo by reflexivity. assert (0 < 2 ^ 122) as Hpos by reflexivity.
  assert (one <= value (advance time)) as Hleast.
  { destruct (Z.le_gt_cases (value time) (131072 * one)).
    - apply (advance_least time (-5)); [done|lia| |].
      + change (2 ^ 23 * 2 ^ (-5 + 149)) with (262144 * one). lia.
      + change (2 * 2 ^ (-5 + 149)) with (8388608 * 2 ^ 122). lia.
    - apply (advance_least time (-1)); [done|lia| |].
      + change (2 ^ 23 * 2 ^ (-1 + 149)) with (4194304 * one). lia.
      + change (2 * 2 ^ (-1 + 149)) with one. lia. }
  assert (at_most (2 ^ 21) 0 (advance time)) as Hmost.
  { destruct (Z.le_gt_cases (value time) ((2 ^ 21 - 1) * one)) as [Hlow|Hhigh].
    - destruct emin_range as (Hp1 & Hp & Hem). pose proof precision_pow.
      destruct (add_at_most precision 16384 Hp1 time (decimal 1 1) (-149) (2 ^ 21) 0 Ft I Ls) as [Ha _];
        [rewrite tenth_val; simpl; lia|lia|lia|lia|lia| |].
      + change (value (decimal 1 1)) with (13421773 * 2 ^ 122). change (2 ^ (0 - -149)) with one. lia.
      + fold (fadd time (decimal 1 1)) in Ha. apply (to_float_ok _ _ _ Ha); lia.
    - destruct time as [s| | |s m e]; [done|done|done|]. simpl in Hs. destruct Hs as [Hm24 He].
      assert (s = false) as ->.
      { destruct s; [|done]. cbn [units cond_Zopp] in Hl. assert (0 < 2 ^ (e - -149)) by (apply Z.pow_pos_nonneg; lia).
        assert (0 < one) by done. lia. }
      cbn [units cond_Zopp] in Hm, Hhigh.
      assert (-3 <= e) as He3.
      { destruct (Z.le_gt_cases (-3) e); [done|].
        assert (2 ^ (e - -149) <= 2 ^ 145) by (apply Z.pow_le_mono_r; lia). change one with (16 * 2 ^ 145) in Hhigh. nia. }
      assert (2 ^ (e - -149) = 2 ^ (e + 3) * 2 ^ 146) as E by (rewrite <- Z.pow_add_r by lia; f_equal; lia).
      rewrite E in Hm, Hhigh. change one with (8 * 2 ^ 146) in Hm, Hhigh. assert (0 < 2 ^ 146) as Hp146 by done.
      eapply advance_late; [reflexivity|exact Hm24|exact He3|]. nia. }
  split; [|exact Hmost|exact Hleast].
  destruct emin_range as (Hp1 & Hp & Hem). pose proof precision_pow.
  destruct (add_at_most precision 16384 Hp1 time (decimal 1 1) (-149) (2 ^ 22) 0 Ft I Ls) as [Ha _];
    [rewrite tenth_val; simpl; lia|lia|lia|lia|lia| |apply (to_float_ok _ _ _ Ha); lia].
  change (value (decimal 1 1)) with (13421773 * 2 ^ 122). change (2 ^ (0 - -149)) with one. lia.
Qed.
End Defined.

Lemma time_10_ok : time_ok (float_const 10).
Proof.
  change (float_const 10) with (S754_finite false 10485760 (-20)). split; [vm_compute; repeat split; discriminate| |].
  - apply (scaled_le_at 20); [lia..|]. done.
  - vm_compute. discriminate.
Qed.


(** The time stops after about 22 days: at 2^21 a tenth is less than half of the distance to the next [float]. *)
Lemma time_stops (prec : Z) reduce sin cos : prec = 24 \/ prec = 53 \/ prec = 64 ->
  @advance {| precision := prec; reduction := reduce; sine := sin; cosine := cos |} (float_const (2 ^ 21)) = float_const (2 ^ 21).
Proof. intros [->|[->| ->]]; vm_compute; reflexivity. Qed.
