(* ===== verification/Printf.v ===== *)
(** * libc/stdio/printf.c: definitions

    Formatted output over any sink of characters.  A C string is the list of its bytes
    before the terminator. *)

From Stdlib Require Import SpecFloat.
From S2P Require Import Prelude.

(** ** Data *)

(** [putchar] as its callers see it: a character is consumed, and an [int] returned. *)
Class CharSink (S : Type) : Type := { putchar : Z -> M S Z }.

(** [double]: IEEE 754 binary64, with the arithmetic of the Standard Library's
    specification of floating-point numbers. *)
Abbreviation double := spec_float.
Definition double_mul : double -> double -> double := SFmul 53 1024.
Definition double_ltb : double -> double -> bool := SFltb.
Definition double_of_int (n : Z) : double := binary_normalize 53 1024 n 0 false.

(** The conversion to a 32-bit integer: rounded towards zero, undefined for a value that
    does not fit. *)
Definition int_of_double (x : double) : option Z :=
  match x with
  | S754_zero _ => Some 0
  | S754_finite s m e =>
      let n := if 0 <=? e then Z.pos m * 2 ^ e else Z.pos m / 2 ^ (- e) in
      let n := if s then - n else n in
      if (- 2 ^ 31 <=? n) && (n <? 2 ^ 31) then Some n else None
  | _ => None
  end.

(** The characters of a string literal. *)
Definition chars (s : string) : list Z :=
  (fun a => Z.of_N (Ascii.N_of_ascii a)) <$> String.list_ascii_of_string s.

(** A variadic argument: a 32-bit integer (its value as an [int32_t]), a string, or a
    [double]. *)
Inductive va_item : Type := VInt (n : Z) | VStr (s : list Z) | VDouble (num : double).

(** [hexchars]. *)
Definition hexchar (d : Z) : Z := if d <? 10 then 48 + d else 55 + d.

Definition is_digit (c : Z) : bool := (48 <=? c) && (c <=? 57).

Section Printf.
Context {S : Type} `{CharSink S}.

(** ** Helpers *)

(** [printf_try(expr)], followed by the rest of the function. *)
Definition printf_try (expr rest : M S Z) : M S Z :=
  error ← expr; if error <? 0 then mret error else rest.

Fixpoint print_from (buf : list Z) (len : Z) : M S Z :=
  match buf with [] => mret len | c :: buf' => printf_try (putchar c) (print_from buf' len) end.
Definition print (buf : list Z) : M S Z := print_from buf (Z.of_nat (length buf)).

(** The loop that fills [buffer]: the digits from the right, and whether the loop was
    left by [break]. *)
Fixpoint fill_buffer (rounds : nat) (unum base : Z) : list Z * bool :=
  match rounds with
  | O => ([], false)
  | Datatypes.S r =>
      let d := hexchar (unum mod base) in
      if unum <? base then ([d], true)
      else let '(ds, b) := fill_buffer r (unum / base) base in (d :: ds, b)
  end.

(** The padding loop: [n] times, or until [putchar] fails. *)
Fixpoint pad_loop (n : nat) (pad_char : Z) (rest : M S Z) : M S Z :=
  match n with
  | O => rest
  | Datatypes.S n' => printf_try (putchar pad_char) (pad_loop n' pad_char rest)
  end.

(** The last loop; the results of [putchar] are dropped. *)
Fixpoint put_all (chars : list Z) : M S unit :=
  match chars with [] => mret tt | c :: cs => _ ← putchar c; put_all cs end.

(** The rest of [print_int] once the sign is out.  Without a [break], [i] is 15 and the
    last loop reads [buffer[15]].  No value is returned; the callers drop it. *)
Definition print_digits (unum base width pad_char : Z) : M S Z :=
  let '(buffer, broke) := fill_buffer 15 unum base in
  let i := if broke : bool then Z.of_nat (length buffer) - 1 else 15 in
  pad_loop (Z.to_nat (width - 1 - i)) pad_char
    (if broke then _ ← put_all (reverse buffer); mret 0 else undef).

Definition print_int (num base : Z) (sig : bool) (width pad_char : Z) : M S Z :=
  if sig && (num <? 0) then
    printf_try (putchar 45)
      (if num =? - 2 ^ 31 then undef else print_digits (- num) base (width - 1) pad_char)
  else print_digits (u32 num) base width pad_char.

(** The loop for the decimals: [rounds] digits of the shifted number. *)
Fixpoint print_decimals (rounds : nat) (num_shifted : double) : M S unit :=
  match rounds with
  | O => mret tt
  | Datatypes.S r =>
      let num_shifted := double_mul num_shifted (double_of_int 10) in
      match int_of_double num_shifted with
      | Some num_int => _ ← putchar (hexchar (Z.rem num_int 10)); print_decimals r num_shifted
      | None => undef
      end
  end.

(** The rest of [print_double] once the sign is out; no value is returned. *)
Definition print_magnitude (num : double) (width precision pad_char : Z) : M S Z :=
  match int_of_double num with
  | Some num_int =>
      _ ← print_int num_int 10 false (width - precision - 1) pad_char;
      _ ← putchar 46;
      _ ← print_decimals (Z.to_nat precision) num;
      mret 0
  | None => undef
  end.

Definition print_double (num : double) (width precision pad_char : Z) : M S Z :=
  let precision := if 10 <? precision then 10 else precision in
  if double_ltb num (S754_zero false) then
    printf_try (putchar 45) (print_magnitude (SFopp num) (width - 1) precision pad_char)
  else print_magnitude num width precision pad_char.

(** [parse_uint]: the value and the rest of the string; the [int] may overflow. *)
Fixpoint parse_uint (str : list Z) (n : Z) : option (Z * list Z) :=
  match str with
  | x :: str' =>
      if is_digit x then
        let n' := n * 10 + (x - 48) in if n' <? 2 ^ 31 then parse_uint str' n' else None
      else Some (n, str)
  | [] => Some (n, [])
  end.

(** The characters before the next [%]. *)
Fixpoint until_percent (str : list Z) : list Z :=
  match str with c :: str' => if c =? 37 then [] else c :: until_percent str' | [] => [] end.

(** A character of the format; 0 behind the last one. *)
Definition peek (format : list Z) : Z := match format with c :: _ => c | [] => 0 end.

(** An optional character of a conversion. *)
Definition accept (c : Z) (format : list Z) : bool * list Z :=
  match format with x :: f => if x =? c then (true, f) else (false, format) | [] => (false, []) end.

(** The parts of a conversion before its specifier. *)
Record conversion : Type := Conv {
  cv_sig : bool; cv_large : bool; cv_pad : Z; cv_width : Z; cv_precision : Z
}.

Definition parse_conversion (format : list Z) : option (conversion * list Z) :=
  let '(zero, format) := accept 48 format in
  '(width, format) ← parse_uint format 0;
  let '(dot, format) := accept 46 format in
  '(precision, format) ← (if dot : bool then parse_uint format 0 else Some (6, format));
  let '(unsigned, format) := accept 117 format in
  let '(large, format) := accept 108 format in
  Some (Conv (negb unsigned) large (if zero : bool then 48 else 32) width precision, format).

(** [va_arg]. *)
Definition va_int {A} (args : list va_item) (k : Z -> list va_item -> M S A) : M S A :=
  match args with VInt n :: args' => k n args' | _ => undef end.

Definition unknown_message : list Z := chars "printf: unknown format specifier %c".

(** The loop of [vprintf]; every round, and every nested call of [printf], takes fuel. *)
Fixpoint vprintf_loop (fuel : nat) (format : list Z) (args : list va_item) (written : Z) : M S Z :=
  match fuel with
  | O => nofuel
  | Datatypes.S fuel' =>
      match format with
      | [] => mret written
      | c :: rest =>
          if negb (c =? 37) || (peek rest =? 37) then
            let format := if c =? 37 then rest else format in
            let text := match format with x :: f => x :: until_percent f | [] => [] end in
            printf_try (print text)
              (vprintf_loop fuel' (drop (length text) format) args (written + Z.of_nat (length text)))
          else
            match parse_conversion rest with
            | None => undef
            | Some (cv, format) =>
                let specifier := peek format in
                let format := drop 1 format in
                if specifier =? 115 then (* s *)
                  match args with
                  | VStr str :: args' =>
                      pad_loop (Z.to_nat (cv_width cv - Z.of_nat (length str))) (cv_pad cv)
                        (printf_try (print str)
                          (vprintf_loop fuel' format args' (written + Z.of_nat (length str))))
                  | _ => undef
                  end
                else if specifier =? 100 then (* d *)
                  va_int args (fun num args =>
                    _ ← print_int num 10 (cv_sig cv) (cv_width cv) (cv_pad cv);
                    vprintf_loop fuel' format args written)
                else if specifier =? 120 then (* x *)
                  va_int args (fun num args =>
                    if cv_large cv then
                      va_int args (fun high args =>
                        _ ← print_int high 16 false (cv_width cv - 8) (cv_pad cv);
                        _ ← print_int num 16 false (cv_width cv) (cv_pad cv);
                        vprintf_loop fuel' format args written)
                    else
                      _ ← print_int num 16 false (cv_width cv) (cv_pad cv);
                      vprintf_loop fuel' format args written)
                else if specifier =? 98 then (* b *)
                  va_int args (fun num args =>
                    _ ← print_int num 2 false (cv_width cv) (cv_pad cv);
                    vprintf_loop fuel' format args written)
                else if specifier =? 102 then (* f *)
                  match args with
                  | VDouble num :: args' =>
                      _ ← print_double num (cv_width cv) (cv_precision cv) (cv_pad cv);
                      vprintf_loop fuel' format args' written
                  | _ => undef
                  end
                else
                  _ ← vprintf_loop fuel' unknown_message [] 0;
                  vprintf_loop fuel' format args written
            end
      end
  end.

Definition vprintf (fuel : nat) (format : list Z) (args : list va_item) : M S Z :=
  vprintf_loop fuel format args 0.

(** A format has no more conversions and texts than characters. *)
Definition printf (format : list Z) (args : list va_item) : M S Z :=
  vprintf (Datatypes.S (length format)) format args.

(** puts.c. *)
Fixpoint puts (str : list Z) : M S unit :=
  match str with [] => mret tt | c :: str' => if u8 c =? 0 then mret tt else _ ← putchar c; puts str' end.
End Printf.
