(* ===== verification/PrintfSpec.v ===== *)
(** * libc/stdio/printf.c: specification

    Numerals, the text of a conversion, and the proof that the code prints them over
    any sink that satisfies the laws below. *)

From S2P Require Import Prelude Printf.

(** ** Numerals *)

(** The number a list of digits denotes, the most significant first. *)
Definition digits_value (base : Z) (ds : list Z) : Z := fold_left (fun acc d => acc * base + d) ds 0.

(** The digits of a number, without leading zeros. *)
Fixpoint numeral_from (fuel : nat) (base u : Z) (acc : list Z) : list Z :=
  match fuel with
  | O => acc
  | S fuel' => if u <? base then u :: acc else numeral_from fuel' base (u / base) (u mod base :: acc)
  end.
Definition numeral (base u : Z) : list Z := numeral_from 32 base u [].

Lemma numeral_step fuel base u acc :
  numeral_from (S fuel) base u acc =
    if u <? base then u :: acc else numeral_from fuel base (u / base) (u mod base :: acc).
Proof. done. Qed.

(** More fuel than needed makes no difference. *)
Lemma numeral_fuel base : 2 <= base -> forall f1 f2 u acc,
  0 <= u -> u < base ^ Z.of_nat f1 -> u < base ^ Z.of_nat f2 -> f1 <> O -> f2 <> O ->
  numeral_from f1 base u acc = numeral_from f2 base u acc.
Proof.
  intros Hb. induction f1 as [|f1 IH]; intros f2 u acc Hu H1 H2 Hn1 Hn2; [done|].
  destruct f2 as [|f2]; [done|]. rewrite !numeral_step. destruct (Z.ltb_spec u base) as [|Hge]; [done|].
  rewrite !Nat2Z.inj_succ, !Z.pow_succ_r in * by lia.
  assert (f1 <> O /\ f2 <> O) as [Hf1 Hf2].
  { split; intros ->; change (Z.of_nat 0) with 0 in *; rewrite Z.pow_0_r in *; lia. }
  apply IH; [apply Z.div_pos; lia| | |done|done]; apply Z.div_lt_upper_bound; lia.
Qed.

Lemma fold_value base acc ds : fold_left (fun a d => a * base + d) ds acc =
  acc * base ^ Z.of_nat (length ds) + digits_value base ds.
Proof.
  unfold digits_value. revert acc. induction ds as [|d ds IH]; intros acc; simpl length; cbn [fold_left].
  - rewrite Z.pow_0_r. lia.
  - rewrite IH, (IH (0 * base + d)), Nat2Z.inj_succ, Z.pow_succ_r by lia. lia.
Qed.

Lemma value_cons base d ds : digits_value base (d :: ds) = d * base ^ Z.of_nat (length ds) + digits_value base ds.
Proof. unfold digits_value at 1. cbn [fold_left]. rewrite fold_value. lia. Qed.

Lemma numeral_from_ok base : 2 <= base -> forall fuel u acc,
  0 <= u < base ^ Z.of_nat fuel -> fuel <> O ->
  exists ds, numeral_from fuel base u acc = ds ++ acc /\ Forall (fun d => 0 <= d < base) ds /\
    digits_value base ds = u /\ ds <> [] /\ (head ds = Some 0 -> ds = [0]) /\ (length ds <= fuel)%nat.
Proof.
  intros Hb. induction fuel as [|fuel IH]; intros u acc Hu Hn; [done|]. rewrite numeral_step.
  destruct (Z.ltb_spec u base) as [Hlt|Hge].
  - exists [u]. split; [done|]. split; [constructor; [lia|constructor]|]. split; [done|].
    split; [done|]. split; [|simpl; lia]. by intros [= ->].
  - rewrite Nat2Z.inj_succ, Z.pow_succ_r in Hu by lia.
    assert (fuel <> O) as Hf by (intros ->; change (Z.of_nat 0) with 0 in *; rewrite Z.pow_0_r in *; lia).
    destruct (IH (u / base) (u mod base :: acc)) as (ds & -> & Hd & Hv & Hne & Hz & Hlen); [|done|].
    { split; [apply Z.div_pos; lia|apply Z.div_lt_upper_bound; lia]. }
    exists (ds ++ [u mod base]). split; [by rewrite <- app_assoc|]. split.
    { apply Forall_app_2; [done|]. constructor; [apply Z.mod_pos_bound; lia|constructor]. }
    split.
    { unfold digits_value in *. rewrite fold_left_app, Hv. cbn [fold_left].
      pose proof (Z.div_mod u base). lia. }
    split; [by destruct ds|]. split; [|rewrite length_app; simpl; lia].
    intros Hh. exfalso. destruct ds as [|d ds]; [done|]. cbn in Hh. injection Hh as ->.
    rewrite (Hz eq_refl) in Hv. change (digits_value base [0]) with 0 in Hv.
    pose proof (Z.div_str_pos u base ltac:(lia)). lia.
Qed.

(** The code's buffer, from the right, is the numeral. *)
Lemma fill_buffer_ok base : 2 <= base -> forall k u acc,
  0 <= u < base ^ Z.of_nat k -> k <> O ->
  exists ds, fill_buffer k u base = (hexchar <$> ds, true) /\ numeral_from k base u acc = reverse ds ++ acc /\
    ds <> [].
Proof.
  intros Hb. induction k as [|k IH]; intros u acc Hu Hn; [done|]. rewrite numeral_step. cbn [fill_buffer].
  destruct (Z.ltb_spec u base) as [Hlt|Hge].
  - exists [u]. rewrite Z.mod_small by lia. done.
  - rewrite Nat2Z.inj_succ, Z.pow_succ_r in Hu by lia.
    assert (k <> O) as Hf by (intros ->; change (Z.of_nat 0) with 0 in *; rewrite Z.pow_0_r in *; lia).
    destruct (IH (u / base) (u mod base :: acc)) as (ds & -> & -> & _); [|done|].
    { split; [apply Z.div_pos; lia|apply Z.div_lt_upper_bound; lia]. }
    exists (u mod base :: ds). split; [done|]. split; [|done].
    by rewrite reverse_cons, <- app_assoc.
Qed.

Lemma fill_buffer_15 base u :
  2 <= base <= 16 -> 0 <= u < base ^ 15 -> is_u32 u ->
  exists ds, fill_buffer 15 u base = (hexchar <$> ds, true) /\ numeral base u = reverse ds /\ ds <> [].
Proof.
  intros Hb Hu Hu32. destruct (fill_buffer_ok base ltac:(lia) 15 u [] Hu ltac:(lia)) as (ds & E1 & E2 & E3).
  exists ds. split; [done|]. split; [|done]. rewrite app_nil_r in E2. rewrite <- E2. unfold numeral.
  apply numeral_fuel; try lia. unfold in_width in Hu32.
  pose proof (Z.pow_le_mono_l 2 base 32 ltac:(lia)). change (Z.of_nat 32) with 32. lia.
Qed.

(** Too many digits for the buffer. *)
Lemma fill_buffer_long base : 2 <= base -> forall k u,
  base ^ Z.of_nat k <= u -> exists ds, fill_buffer k u base = (ds, false).
Proof.
  intros Hb. induction k as [|k IH]; intros u Hu; cbn [fill_buffer]; [by exists []|].
  rewrite Nat2Z.inj_succ, Z.pow_succ_r in Hu by lia.
  assert (0 < base ^ Z.of_nat k) by (apply Z.pow_pos_nonneg; lia).
  destruct (Z.ltb_spec u base); [nia|]. destruct (IH (u / base)) as [ds ->]; [|by eexists].
  apply Z.div_le_lower_bound; lia.
Qed.

(** ** Texts *)

(** The text of an integer conversion. *)
Definition int_text (num base : Z) (sig : bool) (width pad : Z) : list Z :=
  let neg := sig && (num <? 0) in
  let ds := hexchar <$> numeral base (if neg then - num else u32 num) in
  (if neg then [45] else []) ++
  replicate (Z.to_nat ((if neg then width - 1 else width) - Z.of_nat (length ds))) pad ++ ds.

(** What the code prints without leaving [buffer]. *)
Definition int_fits (num base : Z) (sig : bool) : Prop :=
  - 2 ^ 31 <= num < 2 ^ 31 /\ (sig = true -> - 2 ^ 31 < num) /\
  (if sig && (num <? 0) then - num else u32 num) < base ^ 15.

(** ** Sinks *)

(** A sink takes every character and reports no error.  [emit c] is what leaves it for
    the character [c]. *)
Class CharSinkLaws (S : Type) `{CharSink S} : Type := {
  sink_inv : S -> Prop;
  sink_out : S -> list Z;
  emit : Z -> list Z;
  putchar_ok : forall s c, sink_inv s ->
    wp (putchar c) s (fun r s' => 0 <= r /\ sink_inv s' /\ sink_out s' = sink_out s ++ emit (u8 c))
}.

Section Sink.
Context {S : Type} `{CharSinkLaws S}.
Implicit Types (s : S) (text : list Z).

Definition emitted text : list Z := text ≫= (fun c => emit (u8 c)).

(** [text] went out between [s] and [s']. *)
Definition outputs s s' text : Prop := sink_inv s' /\ sink_out s' = sink_out s ++ emitted text.

Lemma emitted_app t1 t2 : emitted (t1 ++ t2) = emitted t1 ++ emitted t2.
Proof. apply bind_app. Qed.

Lemma outputs_nil s : sink_inv s -> outputs s s [].
Proof. intros. split; [done|]. by rewrite app_nil_r. Qed.

Lemma outputs_trans s s1 s2 t1 t2 : outputs s s1 t1 -> outputs s1 s2 t2 -> outputs s s2 (t1 ++ t2).
Proof. intros [_ E1] [I2 E2]. split; [done|]. by rewrite E2, E1, emitted_app, app_assoc. Qed.

Lemma putchar_out s c : sink_inv s -> wp (putchar c) s (fun r s' => 0 <= r /\ outputs s s' [c]).
Proof.
  intros Hi. eapply wp_mono; [by apply putchar_ok|]. intros r s' (? & ? & Ho). split; [done|].
  split; [done|]. by rewrite Ho, <- (app_nil_r (emit _)).
Qed.

(** A [printf_try] whose expression prints [text]. *)
Lemma printf_try_ok expr rest s text (Q : Z -> S -> Prop) :
  wp expr s (fun r s' => 0 <= r /\ outputs s s' text) ->
  (forall s', outputs s s' text -> wp rest s' Q) -> wp (printf_try expr rest) s Q.
Proof.
  intros He Hr. unfold printf_try. apply wp_bind. eapply wp_mono; [exact He|]. intros r s' [Hr0 Ho].
  destruct (Z.ltb_spec r 0); [lia|]. by apply Hr.
Qed.

Lemma print_from_ok buf : forall s len, sink_inv s -> 0 <= len ->
  wp (print_from buf len) s (fun r s' => r = len /\ outputs s s' buf).
Proof.
  induction buf as [|c buf IH]; intros s len Hi Hl; cbn [print_from].
  - apply wp_ret. split; [done|by apply outputs_nil].
  - apply (printf_try_ok _ _ _ [c]); [by apply putchar_out|]. intros s1 H1.
    eapply wp_mono; [apply IH; [apply H1|done]|]. intros r s2 [-> H2]. split; [done|].
    exact (outputs_trans _ _ _ [c] buf H1 H2).
Qed.

Lemma print_ok buf s : sink_inv s -> wp (print buf) s (fun r s' => 0 <= r /\ outputs s s' buf).
Proof.
  intros Hi. unfold print. eapply wp_mono; [apply print_from_ok; [done|lia]|].
  intros r s' [-> Ho]. split; [lia|done].
Qed.

Lemma pad_loop_ok n : forall pad rest s (Q : Z -> S -> Prop), sink_inv s ->
  (forall s', outputs s s' (replicate n pad) -> wp rest s' Q) -> wp (pad_loop n pad rest) s Q.
Proof.
  induction n as [|n IH]; intros pad rest s Q Hi Hr; cbn [pad_loop].
  - apply Hr. by apply outputs_nil.
  - apply (printf_try_ok _ _ _ [pad]); [by apply putchar_out|]. intros s1 H1.
    apply IH; [apply H1|]. intros s2 H2. apply Hr. exact (outputs_trans _ _ _ [pad] _ H1 H2).
Qed.

Lemma put_all_ok chars : forall s, sink_inv s -> wp (put_all chars) s (fun _ s' => outputs s s' chars).
Proof.
  induction chars as [|c cs IH]; intros s Hi; cbn [put_all].
  - apply wp_ret. by apply outputs_nil.
  - apply wp_bind. eapply wp_mono; [by apply putchar_out|]. intros r s1 [_ H1].
    eapply wp_mono; [apply IH, H1|]. intros [] s2 H2. exact (outputs_trans _ _ _ [c] _ H1 H2).
Qed.

Lemma print_digits_ok u base width pad s :
  2 <= base <= 16 -> 0 <= u < base ^ 15 -> is_u32 u -> sink_inv s ->
  wp (print_digits u base width pad) s (fun r s' => 0 <= r /\ outputs s s'
    (replicate (Z.to_nat (width - Z.of_nat (length (numeral base u)))) pad ++ (hexchar <$> numeral base u))).
Proof.
  intros Hb Hu Hu32 Hi. destruct (fill_buffer_15 base u Hb Hu Hu32) as (ds & E1 & E2 & E3).
  unfold print_digits. rewrite E1, E2. rewrite length_fmap, length_reverse.
  replace (width - 1 - (Z.of_nat (length ds) - 1)) with (width - Z.of_nat (length ds)) by lia.
  apply pad_loop_ok; [done|]. intros s1 H1. apply wp_bind. eapply wp_mono; [apply put_all_ok, H1|].
  intros [] s2 H2. apply wp_ret. split; [lia|]. rewrite fmap_reverse. by eapply outputs_trans.
Qed.

Lemma print_int_ok num base sig width pad s :
  2 <= base <= 16 -> int_fits num base sig -> sink_inv s ->
  wp (print_int num base sig width pad) s (fun r s' => 0 <= r /\ outputs s s' (int_text num base sig width pad)).
Proof.
  intros Hb (Hr & Hmin & Hfit) Hi. unfold print_int, int_text. rewrite !length_fmap.
  destruct (sig && (num <? 0)) eqn:E.
  - apply andb_true_iff in E as [-> Hneg%Z.ltb_lt]. specialize (Hmin eq_refl).
    apply (printf_try_ok _ _ _ [45]); [by apply putchar_out|]. intros s1 H1.
    destruct (Z.eqb_spec num (- 2 ^ 31)); [lia|].
    eapply wp_mono; [apply print_digits_ok; [done|lia|unfold in_width; lia|apply H1]|].
    intros r s2 [Hr2 H2]. split; [done|]. by eapply outputs_trans.
  - apply print_digits_ok; [done| |by apply wrap_range|done]. split; [apply wrap_range; lia|done].
Qed.

Lemma pad_loop_undef n : forall pad s, sink_inv s -> pad_loop n pad undef s = Undef.
Proof.
  induction n as [|n IH]; intros pad s Hi; cbn [pad_loop]; [done|].
  pose proof (putchar_out s pad Hi) as Hp. apply wp_ok in Hp as (r & s' & Hrun & Hr & [Hi' _]).
  unfold printf_try, mbind, M_bind. rewrite Hrun. destruct (Z.ltb_spec r 0); [lia|]. by apply IH.
Qed.

Lemma puts_ok str : forall s, Forall (fun c => u8 c <> 0) str -> sink_inv s ->
  wp (puts str) s (fun _ s' => outputs s s' str).
Proof.
  induction str as [|c str IH]; intros s Hs Hi; cbn [puts]; [by apply wp_ret, outputs_nil|].
  apply Forall_cons in Hs as [Hc Hs]. apply Z.eqb_neq in Hc as ->.
  apply wp_bind. eapply wp_mono; [by apply putchar_out|]. intros r s1 [_ H1].
  eapply wp_mono; [apply IH; [done|apply H1]|]. intros [] s2 H2. exact (outputs_trans _ _ _ [c] _ H1 H2).
Qed.

End Sink.

(** ** Formats *)

(** The base of an integer conversion: [%d], [%x] or [%b]. *)
Inductive radix : Type := Decimal | Hexadecimal | Binary.
Definition radix_base (r : radix) : Z := match r with Decimal => 10 | Hexadecimal => 16 | Binary => 2 end.
Definition radix_char (r : radix) : Z := match r with Decimal => 100 | Hexadecimal => 120 | Binary => 98 end.

(** A piece of a format: a text without [%], or a conversion with its argument. *)
Inductive piece : Type :=
| Text (t : list Z)
| Int (zero : bool) (width : list Z) (unsigned : bool) (r : radix) (n : Z)
| Long (zero : bool) (width : list Z) (lo hi : Z)
| Str (zero : bool) (width : list Z) (t : list Z).

(** The value of the digits of a width. *)
Definition width_value (w : list Z) : Z := fold_left (fun acc c => acc * 10 + (c - 48)) w 0.

(** A width: decimal digits that do not start with 0. *)
Definition width_ok (w : list Z) : Prop :=
  Forall (fun c => is_digit c = true) w /\ head w <> Some 48 /\ width_value w < 2 ^ 31.

Definition flag (b : bool) (c : Z) : list Z := if b then [c] else [].
Definition pad_of (zero : bool) : Z := if zero then 48 else 32.

Definition piece_format (p : piece) : list Z :=
  match p with
  | Text t => t
  | Int zero w unsigned r _ => 37 :: flag zero 48 ++ w ++ flag unsigned 117 ++ [radix_char r]
  | Long zero w _ _ => 37 :: flag zero 48 ++ w ++ [108; 120]
  | Str zero w _ => 37 :: flag zero 48 ++ w ++ [115]
  end.

Definition piece_args (p : piece) : list va_item :=
  match p with Text _ => [] | Int _ _ _ _ n => [VInt n] | Long _ _ lo hi => [VInt lo; VInt hi] | Str _ _ t => [VStr t] end.

(** Only [%d] without [u] is signed. *)
Definition signed_conv (unsigned : bool) (r : radix) : bool :=
  match r with Decimal => negb unsigned | _ => false end.

Definition piece_text (p : piece) : list Z :=
  match p with
  | Text t => t
  | Int zero w unsigned r n => int_text n (radix_base r) (signed_conv unsigned r) (width_value w) (pad_of zero)
  | Long zero w lo hi =>
      int_text hi 16 false (width_value w - 8) (pad_of zero) ++ int_text lo 16 false (width_value w) (pad_of zero)
  | Str zero w t => replicate (Z.to_nat (width_value w - Z.of_nat (length t))) (pad_of zero) ++ t
  end.

(** What the result of [printf] counts: texts and strings without their padding. *)
Definition piece_count (p : piece) : Z :=
  match p with Text t | Str _ _ t => Z.of_nat (length t) | _ => 0 end.

Definition piece_ok (p : piece) : Prop :=
  match p with
  | Text t => t <> [] /\ Forall (fun c => c <> 37) t
  | Int _ w unsigned r n => width_ok w /\ int_fits n (radix_base r) (signed_conv unsigned r)
  | Long _ w lo hi => width_ok w /\ - 2 ^ 31 <= lo < 2 ^ 31 /\ - 2 ^ 31 <= hi < 2 ^ 31
  | Str _ w _ => width_ok w
  end.

Definition is_text (p : piece) : bool := match p with Text _ => true | _ => false end.

(** Texts are separated by conversions. *)
Fixpoint pieces_ok (ps : list piece) : Prop :=
  match ps with
  | [] => True
  | p :: ps' => piece_ok p /\ (match ps' with q :: _ => is_text p && is_text q = false | [] => True end) /\
                pieces_ok ps'
  end.

(** Formats written down in full: everything but the ranges of the arguments is decided
    by evaluation. *)
Ltac decide_now := apply (bool_decide_unpack _); vm_compute; exact I.
Ltac solve_pieces :=
  cbn [pieces_ok piece_ok is_text andb]; unfold width_ok;
  repeat match goal with
  | |- _ /\ _ => split
  | |- True => exact I
  | |- _ <> [] => discriminate
  | |- _ = false => reflexivity
  | |- int_fits _ _ _ => assumption
  | |- Forall _ _ => decide_now
  | |- head _ <> _ => discriminate
  | |- width_value _ < _ => reflexivity
  end.

Definition format_of (ps : list piece) : list Z := ps ≫= piece_format.
Definition args_of (ps : list piece) : list va_item := ps ≫= piece_args.
Definition text_of (ps : list piece) : list Z := ps ≫= piece_text.
Definition count_of (ps : list piece) : Z := fold_right (fun p n => piece_count p + n) 0 ps.

(** *** Parsing *)

Lemma parse_uint_ok w : forall n rest,
  Forall (fun c => is_digit c = true) w -> 0 <= n ->
  fold_left (fun acc c => acc * 10 + (c - 48)) w n < 2 ^ 31 -> is_digit (peek rest) = false ->
  parse_uint (w ++ rest) n = Some (fold_left (fun acc c => acc * 10 + (c - 48)) w n, rest).
Proof.
  induction w as [|c w IH]; intros n rest Hw Hn Hlt Hrest; cbn [app fold_left parse_uint].
  - destruct rest as [|c rest]; [done|]. cbn in Hrest |- *. by rewrite Hrest.
  - apply Forall_cons in Hw as [Hc Hw]. rewrite Hc. cbn [fold_left] in Hlt.
    assert (0 <= c - 48) as Hc0.
    { unfold is_digit in Hc. apply andb_true_iff in Hc as [Hc _]. apply Z.leb_le in Hc. lia. }
    assert (forall w m, Forall (fun c => is_digit c = true) w -> 0 <= m ->
      m <= fold_left (fun acc c => acc * 10 + (c - 48)) w m) as Hmono.
    { clear. induction w as [|c w IH]; intros m Hw Hm; cbn [fold_left]; [lia|].
      apply Forall_cons in Hw as [Hc Hw]. unfold is_digit in Hc.
      apply andb_true_iff in Hc as [Hc _]. apply Z.leb_le in Hc.
      specialize (IH (m * 10 + (c - 48)) Hw ltac:(lia)). lia. }
    specialize (Hmono w (n * 10 + (c - 48)) Hw ltac:(lia)).
    destruct (Z.ltb_spec (n * 10 + (c - 48)) (2 ^ 31)); [|lia]. apply IH; [done|lia|done|done].
Qed.

Lemma accept_flag b c rest : b = true \/ peek rest <> c -> accept c (flag b c ++ rest) = (b, rest).
Proof.
  intros Hb. destruct b; cbn.
  - by rewrite Z.eqb_refl.
  - destruct Hb as [?|Hb]; [done|]. destruct rest as [|x rest]; [done|]. cbn in *.
    by apply Z.eqb_neq in Hb as ->.
Qed.

(** A conversion is parsed up to its specifier. *)
Lemma parse_conversion_ok zero w unsigned large c rest :
  width_ok w -> c ∈ [100; 120; 98; 115] ->
  parse_conversion (flag zero 48 ++ w ++ flag unsigned 117 ++ flag large 108 ++ c :: rest) =
    Some (Conv (negb unsigned) large (pad_of zero) (width_value w) 6, c :: rest).
Proof.
  intros (Hw & Hz & Hlt) Hc.
  assert (is_digit c = false /\ c <> 46 /\ c <> 117 /\ c <> 108 /\ c <> 48) as (C1 & C2 & C3 & C4 & C5).
  { set_unfold in Hc. destruct Hc as [->|[->|[->|[->|[]]]]]; done. }
  unfold parse_conversion. rewrite accept_flag.
  2: { destruct w as [|x w]; [|right; cbn in *; congruence]. right. cbn. destruct unsigned, large; cbn; done || congruence. }
  set (tail := flag large 108 ++ c :: rest).
  assert (is_digit (peek (flag unsigned 117 ++ tail)) = false /\
    peek (flag unsigned 117 ++ tail) <> 46) as [D1 D2] by (by destruct unsigned, large).
  change (Some ?x ≫= ?f) with (f x).
  rewrite parse_uint_ok by done. cbn [mbind option_bind].
  assert (accept 46 (flag unsigned 117 ++ tail) = (false, flag unsigned 117 ++ tail)) as ->.
  { apply (accept_flag false 46). by right. }
  cbn [mbind option_bind]. rewrite accept_flag by (destruct unsigned, large; [by left..|by right|by right]).
  subst tail. rewrite accept_flag by (destruct large; [by left|by right]). done.
Qed.

Lemma until_percent_text t rest :
  Forall (fun c => c <> 37) t -> rest = [] \/ peek rest = 37 -> until_percent (t ++ rest) = t.
Proof.
  intros Ht Hr. induction Ht as [|c t Hc Ht IH]; cbn.
  - destruct Hr as [->|Hr]; [done|]. destruct rest as [|x rest]; [done|]. cbn in Hr. by subst x.
  - apply Z.eqb_neq in Hc as ->. by f_equal.
Qed.

(** *** [vprintf] *)

Section Vprintf.
Context {S : Type} `{CharSinkLaws S}.
Implicit Types (s : S).

Lemma vprintf_text fuel t rest args written s Q :
  t <> [] -> Forall (fun c => c <> 37) t -> rest = [] \/ peek rest = 37 -> sink_inv s ->
  (forall s', outputs s s' t ->
     wp (vprintf_loop fuel rest args (written + Z.of_nat (length t))) s' Q) ->
  wp (vprintf_loop (Datatypes.S fuel) (t ++ rest) args written) s Q.
Proof.
  intros Hne Ht Hr Hi Hk. destruct t as [|c t]; [done|]. apply Forall_cons in Ht as [Hc Ht].
  cbn [vprintf_loop app]. apply Z.eqb_neq in Hc. rewrite Hc. cbn [negb orb].
  rewrite until_percent_text by done.
  apply (printf_try_ok _ _ _ (c :: t)); [by apply print_ok|]. intros s' Ho.
  change (c :: t ++ rest) with ((c :: t) ++ rest). rewrite drop_app_length. by apply Hk.
Qed.

(** A conversion does not start with [%]. *)
Lemma conversion_head zero w unsigned large c rest :
  width_ok w -> c ∈ [100; 120; 98; 115] ->
  (peek (flag zero 48 ++ w ++ flag unsigned 117 ++ flag large 108 ++ c :: rest) =? 37) = false.
Proof.
  intros (Hw & _) Hc. apply Z.eqb_neq. destruct zero; [done|]. destruct w as [|x w].
  - destruct unsigned, large; try done. cbn. set_unfold in Hc. destruct Hc as [->|[->|[->|[->|[]]]]]; done.
  - cbn. apply Forall_inv in Hw. by intros ->.
Qed.

Lemma vprintf_int fuel zero w unsigned r n rest args written s Q :
  width_ok w -> int_fits n (radix_base r) (signed_conv unsigned r) -> sink_inv s ->
  (forall s', outputs s s' (piece_text (Int zero w unsigned r n)) ->
     wp (vprintf_loop fuel rest args written) s' Q) ->
  wp (vprintf_loop (Datatypes.S fuel) (piece_format (Int zero w unsigned r n) ++ rest)
        (VInt n :: args) written) s Q.
Proof.
  intros Hw Hn Hi Hk.
  assert (radix_char r ∈ [100; 120; 98; 115]) as Hc by (destruct r; set_solver).
  assert (forall sig, sig = signed_conv unsigned r -> wp (_ ← print_int n (radix_base r) sig (width_value w) (pad_of zero);
     vprintf_loop fuel rest args written) s Q) as Hrun.
  { intros sig ->. apply wp_bind. eapply wp_mono; [apply print_int_ok; [by destruct r|done|done]|].
    intros x s' [_ Ho]. by apply Hk. }
  cbn [piece_format]. rewrite <- app_comm_cons, <- !app_assoc. cbn [app vprintf_loop].
  pose proof (conversion_head zero w unsigned false (radix_char r) rest Hw Hc) as Hhead.
  pose proof (parse_conversion_ok zero w unsigned false (radix_char r) rest Hw Hc) as Hparse.
  cbn [flag app] in Hhead, Hparse. rewrite Z.eqb_refl. cbn [negb orb]. rewrite Hhead, Hparse.
  cbn [peek drop cv_sig cv_width cv_pad cv_large]. destruct r; cbn [radix_char]; by apply Hrun.
Qed.

Lemma int_fits_hex n : - 2 ^ 31 <= n < 2 ^ 31 -> int_fits n 16 false.
Proof.
  intros Hn. split; [done|]. split; [done|]. cbn [andb]. pose proof (wrap_range 32 n ltac:(lia)) as Hw.
  unfold in_width in Hw. lia.
Qed.

Lemma int_fits_dec n sig : - 2 ^ 31 < n < 2 ^ 31 -> int_fits n 10 sig.
Proof.
  intros Hn. split; [lia|]. split; [lia|]. pose proof (wrap_range 32 n ltac:(lia)) as Hw.
  unfold in_width in Hw. destruct (sig && (n <? 0)); lia.
Qed.

Lemma vprintf_long fuel zero w lo hi rest args written s Q :
  width_ok w -> - 2 ^ 31 <= lo < 2 ^ 31 -> - 2 ^ 31 <= hi < 2 ^ 31 -> sink_inv s ->
  (forall s', outputs s s' (piece_text (Long zero w lo hi)) ->
     wp (vprintf_loop fuel rest args written) s' Q) ->
  wp (vprintf_loop (Datatypes.S fuel) (piece_format (Long zero w lo hi) ++ rest)
        (VInt lo :: VInt hi :: args) written) s Q.
Proof.
  assert (120 ∈ [100; 120; 98; 115]) as Hc by set_solver. intros Hw Hlo Hhi Hi Hk.
  pose proof (conversion_head zero w false true 120 rest Hw Hc) as Hhead.
  pose proof (parse_conversion_ok zero w false true 120 rest Hw Hc) as Hparse. cbn [flag app] in Hhead, Hparse.
  cbn [piece_format]. rewrite <- app_comm_cons, <- !app_assoc. cbn [app vprintf_loop].
  rewrite Z.eqb_refl. cbn [negb orb]. rewrite Hhead, Hparse.
  cbn [peek drop cv_sig cv_width cv_pad cv_large va_int]. change (120 =? 115) with false.
  change (120 =? 100) with false. change (120 =? 120) with true. cbv iota. cbn [va_int].
  apply wp_bind. eapply wp_mono; [apply print_int_ok; [lia|by apply int_fits_hex|done]|]. intros r1 s1 [_ H1].
  apply wp_bind. eapply wp_mono; [apply print_int_ok; [lia|by apply int_fits_hex|apply H1]|]. intros r2 s2 [_ H2].
  apply Hk. by eapply outputs_trans.
Qed.

Lemma vprintf_str fuel zero w t rest args written s Q :
  width_ok w -> sink_inv s ->
  (forall s', outputs s s' (piece_text (Str zero w t)) ->
     wp (vprintf_loop fuel rest args (written + Z.of_nat (length t))) s' Q) ->
  wp (vprintf_loop (Datatypes.S fuel) (piece_format (Str zero w t) ++ rest)
        (VStr t :: args) written) s Q.
Proof.
  intros Hw Hi Hk. assert (115 ∈ [100; 120; 98; 115]) as Hc by set_solver.
  pose proof (conversion_head zero w false false 115 rest Hw Hc) as Hhead.
  pose proof (parse_conversion_ok zero w false false 115 rest Hw Hc) as Hparse. cbn [flag app] in Hhead, Hparse.
  cbn [piece_format]. rewrite <- app_comm_cons, <- !app_assoc. cbn [app vprintf_loop].
  rewrite Z.eqb_refl. cbn [negb orb]. rewrite Hhead, Hparse.
  cbn [peek drop cv_sig cv_width cv_pad cv_large]. change (115 =? 115) with true. cbv iota.
  apply pad_loop_ok; [done|]. intros s1 H1.
  apply (printf_try_ok _ _ _ t); [apply print_ok, H1|]. intros s2 H2. apply Hk. by eapply outputs_trans.
Qed.

Lemma vprintf_loop_ok ps : forall fuel written s,
  pieces_ok ps -> sink_inv s -> (length ps < fuel)%nat ->
  wp (vprintf_loop fuel (format_of ps) (args_of ps) written) s (fun r s' =>
    r = written + count_of ps /\ outputs s s' (text_of ps)).
Proof.
  induction ps as [|p ps IH]; intros fuel written s Hps Hi Hf; (destruct fuel as [|fuel]; [simpl in Hf; lia|]).
  - apply wp_ret. split; [simpl; lia|by apply outputs_nil].
  - destruct Hps as (Hp & Hsep & Hps). cbn [length] in Hf.
    unfold format_of, args_of, text_of. cbn [mbind list_bind count_of fold_right].
    fold (format_of ps) (args_of ps) (text_of ps) (count_of ps).
    assert (forall s' w t, outputs s s' t -> w = written + piece_count p -> t = piece_text p ->
      wp (vprintf_loop fuel (format_of ps) (args_of ps) w) s' (fun r s'' =>
        r = written + (piece_count p + count_of ps) /\ outputs s s'' (piece_text p ++ text_of ps))) as Hnext.
    { intros s' w t Ho -> ->. eapply wp_mono; [apply IH; [done|apply Ho|lia]|].
      intros r s'' [-> Ho']. split; [lia|by eapply outputs_trans]. }
    destruct p as [t|zero w unsigned r n|zero w lo hi|zero w t]; cbn [piece_ok] in Hp.
    + apply vprintf_text; [apply Hp|apply Hp| |done|].
      * destruct ps as [|[t'| | |] ps]; [by left|done|by right..].
      * intros s' Ho. by eapply Hnext.
    + apply vprintf_int; [apply Hp|apply Hp|done|]. intros s' Ho. eapply Hnext; [done|cbn; lia|done].
    + apply vprintf_long; [apply Hp..|done|]. intros s' Ho. eapply Hnext; [done|cbn; lia|done].
    + apply vprintf_str; [done|done|]. intros s' Ho. by eapply Hnext.
Qed.

Lemma format_length ps : pieces_ok ps -> (length ps <= length (format_of ps))%nat.
Proof.
  induction ps as [|p ps IH]; intros Hps; [done|]. destruct Hps as (Hp & _ & Hps). unfold format_of.
  cbn [mbind list_bind length]. rewrite length_app. specialize (IH Hps). unfold format_of in IH.
  enough (1 <= length (piece_format p))%nat by lia.
  destruct p as [t| | |]; simpl; [|lia..]. destruct Hp as [Hne _]. destruct t; [done|simpl; lia].
Qed.

Lemma printf_ok ps s :
  pieces_ok ps -> sink_inv s ->
  wp (printf (format_of ps) (args_of ps)) s (fun r s' =>
    r = count_of ps /\ outputs s s' (text_of ps)).
Proof.
  intros Hps Hi. unfold printf, vprintf. pose proof (format_length ps Hps).
  eapply wp_mono; [apply vprintf_loop_ok; [done|done|lia]|]. intros r s' [-> Ho]. split; [lia|done].
Qed.

(** A character that is no part of a conversion. *)
Definition unknown_specifier (c : Z) : Prop :=
  c <> 37 /\ is_digit c = false /\ c ∉ [46; 117; 108; 115; 100; 120; 98; 102].

Lemma vprintf_unknown fuel c rest args written s :
  unknown_specifier c -> vprintf_loop fuel unknown_message [] 0 s = NoFuel ->
  vprintf_loop (Datatypes.S fuel) (37 :: c :: rest) args written s = NoFuel.
Proof.
  intros (H37 & Hd & Hc) Hloop. rewrite !not_elem_of_cons in Hc.
  destruct Hc as (C1 & C2 & C3 & C4 & C5 & C6 & C7 & C8 & _).
  cbn [vprintf_loop]. rewrite Z.eqb_refl. cbn [negb orb peek]. apply Z.eqb_neq in H37. rewrite H37.
  assert (c <> 48) as C9 by by intros ->.
  assert (parse_conversion (c :: rest) = Some (Conv true false 32 0 6, c :: rest)) as ->.
  { unfold parse_conversion. cbn [accept parse_uint]. apply Z.eqb_neq in C9. rewrite C9.
    cbn [accept parse_uint mbind option_bind]. rewrite Hd. cbn [accept mbind option_bind].
    apply Z.eqb_neq in C1, C2, C3. rewrite C1. cbn [accept mbind option_bind].
    rewrite C2. cbn [accept]. by rewrite C3. }
  cbn [peek drop]. apply Z.eqb_neq in C4, C5, C6, C7, C8. rewrite C4, C5, C6, C7, C8.
  unfold mbind, M_bind. by rewrite Hloop.
Qed.

(** The message asks for the conversion [%c]. *)
Lemma unknown_loops fuel : forall s, sink_inv s ->
  vprintf_loop fuel unknown_message [] 0 s = NoFuel.
Proof.
  induction fuel as [fuel IH] using lt_wf_ind. intros s Hi. destruct fuel as [|fuel]; [done|].
  set (head := take 33 unknown_message).
  assert (wp (print head) s (fun r s' => 0 <= r /\ outputs s s' head)) as Hp by by apply print_ok.
  apply wp_ok in Hp as (r & s1 & Hrun & Hr & [Hi1 _]).
  change (vprintf_loop (Datatypes.S fuel) unknown_message [] 0 s) with
    (printf_try (print head) (vprintf_loop fuel [37; 99] [] 33) s).
  unfold printf_try, mbind, M_bind. rewrite Hrun. destruct (Z.ltb_spec r 0); [lia|].
  destruct fuel as [|fuel]; [done|]. apply vprintf_unknown; [|apply IH; [lia|done]].
  split; [done|]. split; [done|]. rewrite !not_elem_of_cons. repeat (split; [done|]). apply not_elem_of_nil.
Qed.
End Vprintf.
