(* ===== verification/PrintfProps.v ===== *)
(** * libc/stdio/printf.c: properties *)

From S2P Require Import Prelude Printf PrintfSpec.

Section Properties.
Context {S : Type} `{CharSinkLaws S}.
Implicit Types (s : S).

(** C35: [print_int] prints the sign of a negative number, then the padding, then the number
    in its base without leading zeros: reading the digits gives the number back. *)
Theorem print_int_roundtrip num base sig width pad s :
  2 <= base <= 16 -> int_fits num base sig -> sink_inv s ->
  exists r s' sign ds, print_int num base sig width pad s = Ok (r, s') /\
    outputs s s' (sign ++ replicate (Z.to_nat (width - Z.of_nat (length sign) - Z.of_nat (length ds))) pad
                       ++ (hexchar <$> ds)) /\
    Forall (fun d => 0 <= d < base) ds /\ ds <> [] /\ (head ds = Some 0 -> ds = [0]) /\
    (sign = [] /\ digits_value base ds = (if sig then num else u32 num) \/
     sign = [45] /\ sig = true /\ num = - digits_value base ds).
Proof.
  intros Hb Hfit Hi. pose proof (print_int_ok num base sig width pad s Hb Hfit Hi) as Hw.
  apply wp_ok in Hw as (r & s' & Hrun & _ & Ho). destruct Hfit as (Hr & Hmin & Hfit).
  unfold int_text in Ho. set (u := if sig && (num <? 0) then - num else u32 num) in *.
  assert (0 <= u) as Hu.
  { subst u. destruct (sig && (num <? 0)) eqn:E; [|apply wrap_range; lia].
    apply andb_true_iff in E as [_ Hneg%Z.ltb_lt]. lia. }
  assert (u < base ^ Z.of_nat 32) as Hu32.
  { pose proof (Z.pow_le_mono_r base 15 (Z.of_nat 32)). lia. }
  destruct (numeral_from_ok base ltac:(lia) 32 u [] (conj Hu Hu32) ltac:(lia)) as (ds & E & Hd & Hv & Hne & Hz & _).
  fold (numeral base u) in E. rewrite app_nil_r in E. rewrite E, length_fmap in Ho.
  exists r, s', (if sig && (num <? 0) then [45] else []), ds. split; [done|]. split.
  { destruct (sig && (num <? 0)); [exact Ho|]. cbn [length Z.of_nat]. by rewrite Z.sub_0_r. }
  do 3 (split; [done|]). rewrite Hv. subst u. destruct (sig && (num <? 0)) eqn:En.
  - apply andb_true_iff in En as [-> Hneg]. right. split; [done|]. split; [done|lia].
  - left. split; [done|]. destruct sig; [|done]. cbn in En. apply Z.ltb_ge in En.
    apply wrap_small. unfold in_width. lia.
Qed.

(** C20: [printf] prints a format made of texts and the conversions [%d], [%x], [%b], [%lx]
    and [%s], with the flag 0, a width and the modifier [u], as those pieces say, in order.
    It returns the number of characters of the texts and strings alone. *)
Theorem printf_renders ps s :
  pieces_ok ps -> sink_inv s ->
  exists s', printf (format_of ps) (args_of ps) s = Ok (count_of ps, s') /\
    outputs s s' (text_of ps).
Proof.
  intros Hps Hi. pose proof (printf_ok ps s Hps Hi) as Hw.
  apply wp_ok in Hw as (r & s' & Hrun & -> & Ho). by exists s'.
Qed.

(** C39: A number of more than 15 digits overruns the buffer of [print_int]: [%b] has
    undefined behaviour from 32768 on. *)
Theorem print_int_overruns num base sig width pad s :
  2 <= base <= 16 -> 0 <= num -> base ^ 15 <= u32 num -> sink_inv s ->
  print_int num base sig width pad s = Undef.
Proof.
  intros Hb Hn Hbig Hi. unfold print_int.
  assert ((num <? 0) = false) as -> by (apply Z.ltb_ge; lia). rewrite andb_false_r.
  unfold print_digits. destruct (fill_buffer_long base ltac:(lia) 15 (u32 num)) as [ds ->]; [exact Hbig|].
  by apply pad_loop_undef.
Qed.

(** [printf] never returns from an unknown specifier: the message it prints has the
    unknown specifier [%c] itself, and calls [printf] again, without end. *)
Theorem printf_unknown_never_returns fuel c rest args s :
  unknown_specifier c -> sink_inv s ->
  vprintf fuel (37 :: c :: rest) args s = NoFuel.
Proof.
  intros Hc Hi. destruct fuel as [|fuel]; [done|]. apply vprintf_unknown; [done|]. by apply unknown_loops.
Qed.

(** [%lx] prints the high and the low half of a number one after the other, the low
    half without its leading zeros: 0x1_00000011 and 0x11_00000001 give the same text. *)
Theorem printf_long_hex_ambiguous lo hi s :
  - 2 ^ 31 <= lo < 2 ^ 31 -> - 2 ^ 31 <= hi < 2 ^ 31 -> sink_inv s ->
  (exists s', printf [37; 108; 120] [VInt lo; VInt hi] s = Ok (0, s') /\
     outputs s s' (int_text hi 16 false (-8) 32 ++ int_text lo 16 false 0 32)) /\
  int_text 1 16 false 0 32 ++ int_text 0x11 16 false 0 32 = int_text 0x11 16 false 0 32 ++ int_text 1 16 false 0 32.
Proof.
  intros Hlo Hhi Hi. split; [|reflexivity].
  assert (pieces_ok [Long false [] lo hi]) as Hps.
  { split; [|done]. split; [|done]. split; [constructor|]. split; done. }
  pose proof (printf_ok _ s Hps Hi) as Hrun. apply wp_ok in Hrun as (r & s' & Hrun & -> & Ho).
  exists s'. split; [exact Hrun|]. unfold text_of in Ho. cbn [mbind list_bind piece_text] in Ho.
  rewrite app_nil_r in Ho. exact Ho.
Qed.
End Properties.

(** ** Witnesses: characters appended to a list *)

Section Examples.

#[local] Instance list_sink : CharSink (list Z) := { putchar := fun c s => Ok (0, s ++ [u8 c]) }.

#[local, refine] Instance list_sink_laws : CharSinkLaws (list Z) := {
  sink_inv := fun _ => True;
  sink_out := fun s => s;
  emit := fun c => [c]
}.
Proof. intros s c _. split; [lia|done]. Defined.


(** [-42] in a field of six. *)
Lemma print_int_roundtrip_witness : exists r s', print_int (-42) 10 true 6 32 [] = Ok (r, s').
Proof.
  destruct (print_int_roundtrip (-42) 10 true 6 32 ([] : list Z)) as (r & s' & _ & _ & Hrun & _);
    [lia|split; [lia|]; split; [lia|done]|done|]. by exists r, s'.
Defined.

(** ["IRQ%d: %08x"]. *)
Definition ex_pieces : list piece :=
  [Text [73; 82; 81]; Int false [] false Decimal (-7); Text [58; 32]; Int true [56] false Hexadecimal 0xBEEF].

Lemma printf_renders_witness :
  exists s', printf [73; 82; 81; 37; 100; 58; 32; 37; 48; 56; 120] [VInt (-7); VInt 0xBEEF] [] = Ok (5, s') /\
    outputs [] s' [73; 82; 81; 45; 55; 58; 32; 48; 48; 48; 48; 66; 69; 69; 70].
Proof.
  apply (printf_renders ex_pieces []); [|done].
  unfold ex_pieces. cbn [pieces_ok piece_ok is_text andb].
  assert (Forall (fun c : Z => c <> 37) [73; 82; 81] /\ Forall (fun c : Z => c <> 37) [58; 32]) as [F1 F2].
  { split; repeat constructor; done. }
  assert (width_ok [] /\ width_ok [56]) as [W1 W2].
  { split; (split; [repeat constructor|split; done]). }
  repeat split; try done; intros; first [lia | apply W2 | apply W1].
Defined.

Lemma print_int_overruns_witness : print_int 32768 2 false 12 48 ([] : list Z) = Undef.
Proof. apply (print_int_overruns 32768 2 false 12 48); [lia|lia|vm_compute; discriminate|done]. Defined.

Lemma printf_unknown_never_returns_witness : vprintf 1000 [37; 99] [] [] = NoFuel.
Proof.
  apply (printf_unknown_never_returns 1000 99 [] [] []); [|done].
  split; [done|]. split; [done|]. rewrite !not_elem_of_cons. repeat (split; [done|]). apply not_elem_of_nil.
Defined.

Lemma printf_long_hex_ambiguous_witness :
  exists s', printf [37; 108; 120] [VInt 0x11; VInt 1] [] = Ok (0, s') /\
    outputs [] s' [49; 49; 49].
Proof. apply (printf_long_hex_ambiguous 0x11 1 []); [lia|lia|done]. Defined.
End Examples.
