(* ===== verification/Tables.v ===== *)
(** * kernel/kernel/tables.c: descriptor tables and the interrupt controller *)

From S2P Require Import Prelude Port.

(** ** Data *)

Record dt_descriptor_t : Type := Descriptor { dt_limit : Z; dt_base : Z }.

Record gdt_entry_t : Type := GdtEntry {
  limit_low : Z; base_low : Z; base_mid : Z; access : Z; flags_and_limit : Z; base_high : Z
}.

Record idt_entry_t : Type := IdtEntry {
  idt_base_low : Z; sel : Z; always0 : Z; idt_flags : Z; idt_base_high : Z
}.

(** The file's variables, and the registers [gdt_flush] and [idt_flush] load: the
    descriptors in use and the interrupt flag. *)
Record tables : Type := Tables {
  gdt : list gdt_entry_t;
  gdt_descriptor : dt_descriptor_t;
  idt : list idt_entry_t;
  idt_descriptor : dt_descriptor_t;
  gdtr : option dt_descriptor_t;
  idtr : option dt_descriptor_t;
  interrupt_flag : bool
}.

(** The addresses of the tables and of the entry points [isr0], ..., [isr47]. *)
Class Addresses : Type := { addr_gdt : Z; addr_idt : Z; isr : Z -> Z }.

Definition null_gdt_entry : gdt_entry_t := GdtEntry 0 0 0 0 0 0.
Definition null_idt_entry : idt_entry_t := IdtEntry 0 0 0 0 0.

Definition tables_boot : tables :=
  Tables (replicate 5 null_gdt_entry) (Descriptor 0 0) (replicate 256 null_idt_entry) (Descriptor 0 0)
         None None false.

(** ** Operations *)

Definition gdt_entry_of (base limit acc flags : Z) : gdt_entry_t := {|
  base_low := Z.land base 0xFFFF;
  base_mid := Z.land (Z.shiftr base 16) 0xFF;
  base_high := Z.land (Z.shiftr base 24) 0xFF;
  limit_low := Z.land limit 0xFFFF;
  flags_and_limit := Z.lor (Z.land (Z.shiftr limit 16) 0x0F) (Z.land flags 0xF0);
  access := acc
|}.

Definition gdt_set_entry (num base limit acc flags : Z) : M tables unit := fun t =>
  if (0 <=? num) && (num <? Z.of_nat (length (gdt t))) then
    Ok (tt, Tables (<[Z.to_nat num := gdt_entry_of base limit acc flags]> (gdt t)) (gdt_descriptor t)
              (idt t) (idt_descriptor t) (gdtr t) (idtr t) (interrupt_flag t))
  else Undef.

Definition idt_entry_of (func s f : Z) : idt_entry_t := {|
  idt_base_low := Z.land func 0xFFFF;
  idt_base_high := Z.land (Z.shiftr func 16) 0xFFFF;
  sel := s;
  always0 := 0;
  idt_flags := f
|}.

Definition idt_set_entry (num func s f : Z) : M tables unit := fun t =>
  if (0 <=? num) && (num <? Z.of_nat (length (idt t))) then
    Ok (tt, Tables (gdt t) (gdt_descriptor t) (<[Z.to_nat num := idt_entry_of func s f]> (idt t))
              (idt_descriptor t) (gdtr t) (idtr t) (interrupt_flag t))
  else Undef.

Definition set_gdt_descriptor (d : dt_descriptor_t) (t : tables) : tables :=
  Tables (gdt t) d (idt t) (idt_descriptor t) (gdtr t) (idtr t) (interrupt_flag t).
Definition set_idt (l : list idt_entry_t) (d : dt_descriptor_t) (t : tables) : tables :=
  Tables (gdt t) (gdt_descriptor t) l d (gdtr t) (idtr t) (interrupt_flag t).

(** tables.asm: [lgdt] (and the reload of the segments), [lidt] and [sti]. *)
Definition gdt_flush : M tables unit :=
  modify (fun t => Tables (gdt t) (gdt_descriptor t) (idt t) (idt_descriptor t)
                          (Some (gdt_descriptor t)) (idtr t) (interrupt_flag t)).
Definition idt_flush : M tables unit :=
  modify (fun t => Tables (gdt t) (gdt_descriptor t) (idt t) (idt_descriptor t)
                          (gdtr t) (Some (idt_descriptor t)) true).

Section Tables.
Context `{Addresses}.

Definition gdt_init : M tables unit :=
  _ ← modify (set_gdt_descriptor (Descriptor (5 * 8 - 1) addr_gdt));
  _ ← gdt_set_entry 0 0 0 0 0;
  _ ← gdt_set_entry 1 0 0xFFFFFFFF 0x9A 0xCF;
  _ ← gdt_set_entry 2 0 0xFFFFFFFF 0x92 0xCF;
  _ ← gdt_set_entry 3 0 0xFFFFFFFF 0xFA 0xCF;
  _ ← gdt_set_entry 4 0 0xFFFFFFFF 0xF2 0xCF;
  gdt_flush.

Context {HW : Type} `{Machine HW}.

Definition in_tables {A} (m : M tables A) : M (tables * HW) A := zoom fst (fun t s => (t, s.2)) m.
Definition in_ports {A} (m : M HW A) : M (tables * HW) A := zoom snd (fun h s => (s.1, h)) m.

(** The initialisation of the two interrupt controllers. *)
Definition pic_init : M HW unit :=
  _ ← outb 0x20 0x11;
  _ ← outb 0xA0 0x11;
  _ ← outb 0x21 0x20;
  _ ← outb 0xA1 0x28;
  _ ← outb 0x21 0x04;
  _ ← outb 0xA1 0x02;
  _ ← outb 0x21 0x01;
  _ ← outb 0xA1 0x01;
  _ ← outb 0x21 0xFF;
  outb 0xA1 0xFF.

(** The 48 calls of [idt_set_entry], a line each in the source. *)
Definition idt_init : M (tables * HW) unit :=
  _ ← in_tables (modify (set_idt (replicate 256 null_idt_entry) (Descriptor (256 * 8 - 1) addr_idt)));
  _ ← in_ports pic_init;
  _ ← in_tables (for_loop 48 0 (fun i => idt_set_entry i (isr i) 0x08 0x8E));
  in_tables idt_flush.

Definition irq_clear_mask (line : Z) : M HW unit :=
  let port := if line <? 8 then 0x21 else 0xA1 in
  let line := if line <? 8 then line else line - 8 in
  v ← inb port;
  let value := u8 (Z.land v (Z.lnot (Z.shiftl 1 line))) in
  outb port value.

Definition descriptor_tables_init : M (tables * HW) unit :=
  _ ← in_tables gdt_init;
  idt_init.
End Tables.

(** ** Specification *)

(** How the processor reads an entry. *)
Definition gdt_base (e : gdt_entry_t) : Z := base_low e + base_mid e * 2 ^ 16 + base_high e * 2 ^ 24.
Definition gdt_limit (e : gdt_entry_t) : Z := limit_low e + (flags_and_limit e mod 16) * 2 ^ 16.
Definition gdt_flags (e : gdt_entry_t) : Z := flags_and_limit e / 16.
Definition idt_offset (e : idt_entry_t) : Z := idt_base_low e + idt_base_high e * 2 ^ 16.

(** The bytes an entry takes in memory, in the order of the packed structure. *)
Definition gdt_bytes (e : gdt_entry_t) : Prop :=
  is_u16 (limit_low e) /\ is_u16 (base_low e) /\ is_u8 (base_mid e) /\ is_u8 (access e) /\
  is_u8 (flags_and_limit e) /\ is_u8 (base_high e).

Lemma gdt_entry_ok base limit acc flags :
  is_u32 base -> is_u32 limit -> is_u8 acc -> is_u8 flags ->
  let e := gdt_entry_of base limit acc flags in
  gdt_bytes e /\ gdt_base e = base /\ gdt_limit e = limit mod 2 ^ 20 /\ access e = acc /\
  gdt_flags e = flags / 16.
Proof.
  intros Hb Hl Ha Hf. unfold gdt_bytes, gdt_base, gdt_limit, gdt_flags, gdt_entry_of.
  cbn [base_low base_mid base_high limit_low flags_and_limit access].
  change 0xFFFF with (Z.ones 16). change 0xFF with (Z.ones 8). change 0x0F with (Z.ones 4).
  assert (Z.land flags 0xF0 = Z.shiftl (flags / 16) 4) as ->.
  { change 0xF0 with (Z.shiftl (Z.ones 4) 4). apply Z.bits_inj'. intros i Hi.
    rewrite Z.land_spec. change (flags / 16) with (flags / 2 ^ 4). rewrite <- Z.shiftr_div_pow2 by lia.
    destruct (Z.lt_ge_cases i 4).
    - rewrite !Z.shiftl_spec_low by done. apply andb_false_r.
    - rewrite !Z.shiftl_spec by done. rewrite Z.shiftr_spec by lia.
      replace (i - 4 + 4) with i by lia. destruct (Z.lt_ge_cases i 8).
      + rewrite Z.ones_spec_low by lia. apply andb_true_r.
      + by rewrite (in_width_bit_high 8 flags). }
  rewrite !land_ones_mod by lia.
  rewrite lor_shiftl_add by (lia || (apply Z.mod_pos_bound; lia)).
  rewrite !Z.shiftr_div_pow2 by lia. unfold in_width in *.
  change (2 ^ 4) with 16. change (2 ^ 8) with 256 in *. change (2 ^ 16) with 65536. change (2 ^ 20) with 1048576.
  change (2 ^ 24) with 16777216. change (2 ^ 32) with 4294967296 in *.
  repeat split; try lia; Z.div_mod_to_equations; lia.
Qed.

Lemma idt_entry_ok func s f : is_u32 func -> idt_offset (idt_entry_of func s f) = func.
Proof.
  intros Hf. unfold idt_offset, idt_entry_of. cbn [idt_base_low idt_base_high].
  change 0xFFFF with (Z.ones 16). rewrite !land_ones_mod, Z.shiftr_div_pow2 by lia.
  unfold in_width in Hf. change (2 ^ 16) with 65536. change (2 ^ 32) with 4294967296 in Hf.
  Z.div_mod_to_equations. lia.
Qed.

(** The bytes sent to the controllers, in order. *)
Definition pic_sequence : list (Z * Z) :=
  [(0x20, 0x11); (0xA0, 0x11); (0x21, 0x20); (0xA1, 0x28); (0x21, 0x04); (0xA1, 0x02);
   (0x21, 0x01); (0xA1, 0x01); (0x21, 0xFF); (0xA1, 0xFF)].

(** The mask registers of the controllers, once they are initialised: a write to a data
    port sets the mask, a read returns it. *)
Definition pic_port (irq : Z) : Z := if irq <? 8 then 0x21 else 0xA1.

Class PicLaws (HW : Type) `{Machine HW} : Type := {
  pic_mask : HW -> Z -> Z;
  pic_read : forall h port, port = 0x21 \/ port = 0xA1 ->
    wp (inb port) h (fun v h' => v = pic_mask h port /\ forall p, pic_mask h' p = pic_mask h p);
  pic_write : forall h port v, port = 0x21 \/ port = 0xA1 ->
    wp (outb port v) h (fun _ h' => forall p, pic_mask h' p = if decide (p = port) then u8 v else pic_mask h p);
  (* other devices do not reach the controllers *)
  pic_elsewhere : forall m, stable_at (fun p => clear_of 0x20 0x22 p /\ clear_of 0xA0 0xA2 p)
    (fun h => forall p, p = 0x21 \/ p = 0xA1 -> pic_mask h p = m p)
}.

Definition irq_enabled `{PicLaws HW} (h : HW) (irq : Z) : bool :=
  negb (Z.testbit (pic_mask h (pic_port irq)) (irq mod 8)).

(** The ports of the interrupt controllers. *)
Definition pic_ports (p : Z) : Prop := p ∈ [0x20; 0x21; 0xA0; 0xA1].

Lemma irq_clear_mask_ports `{Machine HW} line : only_at pic_ports (irq_clear_mask line).
Proof.
  unfold irq_clear_mask.
  assert (forall l, pic_ports (u16 (if l <? 8 then 0x21 else 0xA1))) as Hp.
  { intros l. unfold pic_ports. destruct (l <? 8); cbn; set_solver. }
  apply only_at_bind; [by apply only_at_inb|]. intros v. by apply only_at_outb.
Qed.

Lemma clear_bit_test v k i :
  0 <= k < 8 -> 0 <= i < 8 ->
  Z.testbit (u8 (Z.land v (Z.lnot (Z.shiftl 1 k)))) i = Z.testbit v i && negb (i =? k).
Proof.
  intros Hk Hi. rewrite wrap_bit, bool_decide_eq_true_2 by lia. cbn [andb].
  rewrite Z.land_spec, Z.lnot_spec, shiftl_1, Z.pow2_bits_eqb by lia. by rewrite (Z.eqb_sym k i).
Qed.

Section Properties.
Context `{Addresses} {HW : Type} `{Machine HW}.

Lemma pic_init_run h : pic_init h = Ok (tt, fold_left (fun h w => port_write 8 w.1 w.2 h) pic_sequence h).
Proof. reflexivity. Qed.

Lemma idt_loop_ok n : forall i t,
  0 <= i -> i + Z.of_nat n <= Z.of_nat (length (idt t)) ->
  wp (for_loop n i (fun i => idt_set_entry i (isr i) 0x08 0x8E)) t (fun _ t' =>
    length (idt t') = length (idt t) /\
    t' = set_idt (idt t') (idt_descriptor t) t /\
    forall j, 0 <= j -> idt t' !! Z.to_nat j =
      if decide (i <= j < i + Z.of_nat n) then Some (idt_entry_of (isr j) 0x08 0x8E) else idt t !! Z.to_nat j).
Proof.
  induction n as [|n IH]; intros i t Hi Hn; cbn [for_loop].
  - wp_step. split; [done|]. split; [by destruct t|]. intros j Hj. by rewrite decide_False by lia.
  - wp_step. unfold idt_set_entry at 1, wp at 1.
    destruct (Z.leb_spec 0 i); [|lia]. destruct (Z.ltb_spec i (Z.of_nat (length (idt t)))); [|lia]. cbn [andb].
    eapply wp_mono; [apply IH; cbn [idt]; [lia|rewrite length_insert; lia]|].
    intros [] t' (E1 & E2 & E3). cbn [idt idt_descriptor] in *. rewrite length_insert in E1.
    split; [done|]. split; [rewrite E2; done|]. intros j Hj. rewrite E3 by done.
    destruct (decide (j = i)) as [->|Hne].
    + rewrite decide_False, decide_True by lia. apply list_lookup_insert_eq. lia.
    + rewrite list_lookup_insert_ne by lia. repeat case_decide; try done; lia.
Qed.

(** A descriptor written by [gdt_set_entry] fits its bytes, and the processor reads the
    base, the limit, the access byte and the flags it was written with. *)
Theorem gdt_entry_roundtrip t num base limit acc flags :
  0 <= num < Z.of_nat (length (gdt t)) -> is_u32 base -> 0 <= limit < 2 ^ 20 -> is_u8 acc -> is_u8 flags ->
  exists t' e, gdt_set_entry num base limit acc flags t = Ok (tt, t') /\ gdt t' !! Z.to_nat num = Some e /\
    gdt_bytes e /\ gdt_base e = base /\ gdt_limit e = limit /\ access e = acc /\ gdt_flags e = flags / 16.
Proof.
  intros Hn Hb Hl Ha Hf. unfold gdt_set_entry.
  destruct (Z.leb_spec 0 num); [|lia]. destruct (Z.ltb_spec num (Z.of_nat (length (gdt t)))); [|lia]. cbn [andb].
  eexists _, _. split; [reflexivity|]. cbn [gdt]. split; [apply list_lookup_insert_eq; lia|].
  destruct (gdt_entry_ok base limit acc flags) as (E1 & E2 & E3 & E4 & E5); try done.
  { unfold in_width. lia. }
  do 2 (split; [done|]). split; [|done]. rewrite E3. apply Z.mod_small. lia.
Qed.

(** The null entry, and flat segments with the access bytes [gdt_init] writes. *)
Definition boot_segments : list gdt_entry_t :=
  null_gdt_entry :: map (fun a => gdt_entry_of 0 0xFFFFFFFF a 0xCF) [0x9A; 0x92; 0xFA; 0xF2].

Lemma descriptor_tables_init_ok h :
  wp descriptor_tables_init (tables_boot, h) (fun _ s => s.2 = fold_left (fun h w => port_write 8 w.1 w.2 h) pic_sequence h /\
    gdtr s.1 = Some (Descriptor 39 addr_gdt) /\ idtr s.1 = Some (Descriptor 2047 addr_idt) /\
    interrupt_flag s.1 = true /\ gdt s.1 = boot_segments /\
    forall i, 0 <= i < 256 -> idt s.1 !! Z.to_nat i =
      if decide (i < 48) then Some (idt_entry_of (isr i) 0x08 0x8E) else Some null_idt_entry).
Proof.
  unfold descriptor_tables_init, idt_init, in_tables, in_ports. wp_step. wp_step. cbn [fst snd].
  unfold wp at 1. change (gdt_init tables_boot) with (Ok (tt, Tables
    boot_segments
    (Descriptor 39 addr_gdt) (replicate 256 null_idt_entry) (Descriptor 0 0) (Some (Descriptor 39 addr_gdt)) None false)).
  cbv iota beta. do 5 wp_step. cbn [fst snd]. unfold wp at 1. rewrite pic_init_run.
  cbv iota beta. wp_step. wp_step. cbn [fst snd].
  eapply wp_mono; [apply idt_loop_ok; [lia|done]|]. intros [] t' (_ & E1 & E2). wp_step. unfold idt_flush. wp_step.
  cbn [fst snd gdtr idtr interrupt_flag gdt idt] in *. rewrite E1. cbn [fst snd gdtr idtr interrupt_flag gdt idt set_idt idt_descriptor].
  do 5 (split; [done|]). intros i Hi. rewrite E2 by lia. change (0 + Z.of_nat 48) with 48.
  repeat case_decide; try done; try lia. cbn [set_idt idt]. by rewrite lookup_replicate_2 by lia.
Qed.

(** C37: [descriptor_tables_init] loads a segment table of a null entry and four segments of
    4 GB from address 0, kernel and user code and data, and an interrupt table whose
    first 48 gates lead to the entry points and whose others are absent; it moves the
    interrupt requests to the vectors from 32 on, masks them all, and enables
    interrupts. *)
Theorem descriptor_tables_init_correct h :
  (forall i, is_u32 (isr i)) ->
  exists t, descriptor_tables_init (tables_boot, h) =
      Ok (tt, (t, fold_left (fun h w => port_write 8 w.1 w.2 h) pic_sequence h)) /\
    gdtr t = Some (Descriptor 39 addr_gdt) /\ idtr t = Some (Descriptor 2047 addr_idt) /\
    interrupt_flag t = true /\
    (forall i a, (i, a) ∈ [(1, 0x9A); (2, 0x92); (3, 0xFA); (4, 0xF2)] -> exists e, gdt t !! Z.to_nat i = Some e /\
       gdt_base e = 0 /\ gdt_limit e = 0xFFFFF /\ access e = a /\ gdt_flags e = 0xC) /\
    forall i, 0 <= i < 256 -> exists e, idt t !! Z.to_nat i = Some e /\
      if decide (i < 48) then idt_offset e = isr i /\ sel e = 0x08 /\ idt_flags e = 0x8E
      else e = null_idt_entry.
Proof.
  intros Hisr.
  pose proof (descriptor_tables_init_ok h) as Hw.
  destruct (proj1 (wp_ok _ _ _) Hw) as ([] & [t h'] & Hrun & E1 & E2 & E3 & E4 & E5 & E6). cbn [fst snd] in E1, E2, E3, E4, E5, E6. subst h'.
  exists t. split; [exact Hrun|]. clear Hrun Hw. do 3 (split; [done|]). split.
  - intros i a Hia. rewrite E5. exists (gdt_entry_of 0 0xFFFFFFFF a 0xCF).
    assert (is_u8 a /\ boot_segments
      !! Z.to_nat i = Some (gdt_entry_of 0 0xFFFFFFFF a 0xCF)) as [Ha ->].
    { set_unfold in Hia. destruct Hia as [E|[E|[E|[E|[]]]]]; injection E as -> ->; done. }
    split; [done|]. by destruct (gdt_entry_ok 0 0xFFFFFFFF a 0xCF) as (_ & F2 & F3 & F4 & F5).
  - intros i Hi. rewrite E6 by done. case_decide; eexists; (split; [done|]); [|done].
    split; [by apply idt_entry_ok|done].
Qed.
End Properties.

Section Pic.
Context {HW : Type} `{PicLaws HW}.

(** The accesses that do not reach the controllers. *)
Definition pic_away (p : Z) : Prop := clear_of 0x20 0x22 p /\ clear_of 0xA0 0xA2 p.

Lemma pic_framed h h' irq : framed pic_away h h' -> irq_enabled h' irq = irq_enabled h irq.
Proof.
  intros F. unfold irq_enabled.
  rewrite (F (fun x => forall p, p = 0x21 \/ p = 0xA1 -> pic_mask x p = pic_mask h p)); [done|apply pic_elsewhere|done|].
  unfold pic_port. destruct (irq <? 8); auto.
Qed.

(** After the initialisation every request is masked. *)
Lemma pic_sequence_masks h irq :
  irq_enabled (fold_left (fun h w => port_write 8 w.1 w.2 h) pic_sequence h) irq = false.
Proof.
  unfold pic_sequence. cbn [fold_left fst snd]. set (h8 := port_write 8 0xA1 0x01 _).
  pose proof (pic_write h8 0x21 0xFF (or_introl eq_refl)) as W1.
  pose proof (pic_write (port_write 8 0x21 0xFF h8) 0xA1 0xFF (or_intror eq_refl)) as W2.
  unfold wp in W1, W2. cbn in W1, W2. change (u8 255) with 255 in W1, W2.
  unfold irq_enabled, pic_port. rewrite W2.
  pose proof (Z.mod_pos_bound irq 8 ltac:(lia)) as Hb.
  assert (Z.testbit 0xFF (irq mod 8) = true) as Hbit.
  { change 0xFF with (Z.ones 8). rewrite Z.ones_spec_low by lia. done. }
  change (port_write 8 (u16 33) 255 h8) with (port_write 8 33 255 h8) in W1.
  destruct (irq <? 8); [|rewrite decide_True by done; by rewrite Hbit].
  rewrite decide_False by done. rewrite W1, decide_True by done. by rewrite Hbit.
Qed.

Lemma pic_sequence_framed h : framed pic_ports h (fold_left (fun h w => port_write 8 w.1 w.2 h) pic_sequence h).
Proof.
  intros V HV Hh. assert (forall h p v, pic_ports p -> V h -> V (port_write 8 p v h)) as Hw by (intros; by apply HV).
  unfold pic_sequence. cbn [fold_left fst snd]. by repeat (apply Hw; [unfold pic_ports; set_solver|]).
Qed.

Lemma irq_clear_mask_ok h line :
  0 <= line < 16 ->
  wp (irq_clear_mask line) h (fun _ h' =>
    forall irq, 0 <= irq < 16 -> irq_enabled h' irq = bool_decide (irq = line) || irq_enabled h irq).
Proof.
  intros Hl.
  unfold irq_clear_mask. fold (pic_port line).
  assert (pic_port line = 0x21 \/ pic_port line = 0xA1) as Hp.
  { unfold pic_port. destruct (line <? 8); auto. }
  assert ((if line <? 8 then line else line - 8) = line mod 8) as ->.
  { destruct (Z.ltb_spec line 8); Z.div_mod_to_equations; lia. }
  wp_step. eapply wp_mono; [by apply pic_read|]. intros v h1 [-> Hm].
  eapply wp_mono; [by apply pic_write|]. intros [] h2 Hw irq Hirq.
  unfold irq_enabled. rewrite Hw, Hm. pose proof (Z.mod_pos_bound line 8 ltac:(lia)).
  pose proof (Z.mod_pos_bound irq 8 ltac:(lia)).
  assert (pic_port irq = pic_port line <-> (irq <? 8) = (line <? 8)) as Hport.
  { unfold pic_port. destruct (irq <? 8), (line <? 8); done. }
  case_decide as Hd.
  - rewrite wrap_wrap, clear_bit_test, Hd by lia. rewrite negb_andb, negb_involutive, orb_comm. f_equal.
    apply Hport in Hd. destruct (Z.eqb_spec (irq mod 8) (line mod 8)) as [E|E], (bool_decide_reflect (irq = line)); try done;
      exfalso; destruct (Z.ltb_spec irq 8), (Z.ltb_spec line 8); try done; Z.div_mod_to_equations; lia.
  - rewrite bool_decide_eq_false_2; [done|]. by intros ->.
Qed.
(** [irq_clear_mask] enables exactly the interrupt request it is given. *)
Theorem irq_clear_mask_correct h line :
  0 <= line < 16 ->
  exists h', irq_clear_mask line h = Ok (tt, h') /\
    forall irq, 0 <= irq < 16 -> irq_enabled h' irq = bool_decide (irq = line) || irq_enabled h irq.
Proof.
  intros Hl. pose proof (irq_clear_mask_ok h line Hl) as Hw. apply wp_ok in Hw as ([] & h' & Hrun & Hp).
  by exists h'.
Qed.
End Pic.

(** ** Witnesses *)

Section Examples.
#[local] Instance ex_addresses : Addresses :=
  { addr_gdt := 0xC0105000; addr_idt := 0xC0106000; isr := fun i => 0xC0101000 + 16 * (i mod 48) }.

Definition ex_machine : register_machine := Regs (fun _ => 0xFF) [].

#[local, refine] Instance register_pic : PicLaws register_machine := { pic_mask := fun h p => u8 (regs h p) }.
Proof.
  - intros h port [-> | ->]; (split; [done|done]).
  - intros h port v Hp. unfold wp. cbn. intros p.
    assert (u16 port = port) as -> by (destruct Hp as [-> | ->]; done).
    case_decide; [by rewrite wrap_wrap|done].
  - intros m h w p v Hp Hm. split; [|exact Hm]. intros q Hq. cbn. rewrite <- Hm by done.
    destruct Hp as [Hp1 Hp2]. unfold clear_of in *. case_decide; [lia|done].
Defined.

Lemma gdt_entry_roundtrip_witness :
  exists t' e, gdt_set_entry 1 0x12345678 0xABCDE 0x9A 0xCF tables_boot = Ok (tt, t') /\
    gdt t' !! 1%nat = Some e /\ gdt_base e = 0x12345678 /\ gdt_limit e = 0xABCDE.
Proof.
  destruct (gdt_entry_roundtrip tables_boot 1 0x12345678 0xABCDE 0x9A 0xCF) as (t' & e & Hrun & He & _ & Hb & Hl & _);
    [done|done|lia|done|done|]. by exists t', e.
Defined.

Lemma descriptor_tables_init_correct_witness :
  exists t h', descriptor_tables_init (tables_boot, ex_machine) = Ok (tt, (t, h')) /\ interrupt_flag t = true.
Proof.
  destruct (descriptor_tables_init_correct ex_machine) as (t & Hrun & _ & _ & Hi & _).
  - intros i. unfold in_width. cbn. pose proof (Z.mod_pos_bound i 48 ltac:(lia)). lia.
  - eexists t, _. split; [exact Hrun|exact Hi].
Defined.

Lemma irq_clear_mask_correct_witness :
  exists h', irq_clear_mask 4 ex_machine = Ok (tt, h') /\ irq_enabled h' 4 = true /\ irq_enabled h' 1 = false.
Proof.
  destruct (irq_clear_mask_correct ex_machine 4) as (h' & Hrun & Hm); [lia|].
  exists h'. split; [exact Hrun|]. split; [by rewrite Hm by lia|by rewrite Hm by lia].
Defined.
End Examples.
