(* ===== verification/Devices.v ===== *)
(** * The devices and the state of their drivers

    The state the device drivers share: the machine behind the ports, the screen, and
    the variables of serial.c, isr.c and timer.c. *)

From S2P Require Import Prelude Port Tty.

(** The functions that are registered as interrupt handlers. *)
Inductive isr_t : Type := timer_handler_fn | keyboard_handler_fn | serial_handler_fn.

#[export] Instance isr_eq_dec : EqDecision isr_t.
Proof. solve_decision. Defined.

(** [interrupt_t] of isr.h. *)
Definition IRQ0 : Z := 32.
Definition IRQ1 : Z := 33.
Definition IRQ4 : Z := 36.

Record devices {HW : Type} : Type := Devices {
  ports : HW;
  screen : tty;
  serial_active_port : Z;
  interrupt_handlers : list (option isr_t);
  ns_since_boot : Z
}.
Arguments devices : clear implicits.
Arguments Devices {HW}.

Section Devices.
Context {HW : Type}.
Implicit Types d : devices HW.

Definition with_ports (h : HW) d : devices HW :=
  Devices h (screen d) (serial_active_port d) (interrupt_handlers d) (ns_since_boot d).
Definition with_screen (t : tty) d : devices HW :=
  Devices (ports d) t (serial_active_port d) (interrupt_handlers d) (ns_since_boot d).
Definition with_port (p : Z) d : devices HW :=
  Devices (ports d) (screen d) p (interrupt_handlers d) (ns_since_boot d).
Definition with_handlers (l : list (option isr_t)) d : devices HW :=
  Devices (ports d) (screen d) (serial_active_port d) l (ns_since_boot d).
Definition with_ns (n : Z) d : devices HW :=
  Devices (ports d) (screen d) (serial_active_port d) (interrupt_handlers d) n.

Definition on_ports {A} (m : M HW A) : M (devices HW) A := zoom ports with_ports m.
Definition on_screen_of {A} (m : M tty A) : M (devices HW) A := zoom screen with_screen m.

(** isr.c: an entry of the table of handlers. *)
Definition irq_register_handler (int_no : Z) (handler : isr_t) : M (devices HW) unit := fun d =>
  if (0 <=? int_no) && (int_no <? Z.of_nat (length (interrupt_handlers d))) then
    Ok (tt, with_handlers (<[Z.to_nat int_no := Some handler]> (interrupt_handlers d)) d)
  else Undef.

(** All variables zero. *)
Definition devices_boot (h : HW) (cells : list Z) : devices HW :=
  Devices h (tty_boot cells) 0 (replicate 256 None) 0.

Lemma irq_register_ok v f d :
  0 <= v < 256 -> length (interrupt_handlers d) = 256%nat ->
  wp (irq_register_handler v f) d (fun _ d' =>
    d' = with_handlers (<[Z.to_nat v := Some f]> (interrupt_handlers d)) d).
Proof.
  intros Hv Hlen. unfold irq_register_handler, wp. rewrite Hlen.
  destruct (Z.leb_spec 0 v); [|lia]. by destruct (Z.ltb_spec v (Z.of_nat 256)); [|lia].
Qed.
End Devices.
