(* ===== verification/Serial.v ===== *)
(** * kernel/io/serial.c and libc/stdio/putchar.c: the console

    The serial port, and [putchar], which writes to the screen and the serial port. *)

From S2P Require Import Prelude Port Tables Tty Devices Printf PrintfSpec.

Definition COM1 : Z := 0x3F8.
Definition COM2 : Z := 0x2F8.
Definition COM3 : Z := 0x3E8.
Definition COM4 : Z := 0x2E8.

(** The rounds a polling loop is followed for. *)
Class Patience : Type := patience : nat.

Section Serial.
Context {HW : Type} `{Machine HW} `{Patience}.

Definition serial_rx_data_ready : M HW Z := v ← inb (COM1 + 5); mret (Z.land v 0x01).
Definition serial_tx_empty : M HW Z := v ← inb (COM1 + 5); mret (Z.land v 0x20).

(** [serial_putchar] without the carriage return in front of a line feed: the recursive
    call is for a carriage return, which recurses no further. *)
Definition serial_send (a : Z) : M (devices HW) unit :=
  _ ← on_ports (while patience (v ← serial_tx_empty; mret (v =? 0)) (mret tt));
  port ← gets serial_active_port;
  on_ports (outb port a).

Definition serial_putchar (a : Z) : M (devices HW) unit :=
  _ ← (if u8 a =? 10 then serial_send 13 else mret tt);
  serial_send a.

Definition serial_handler (int_no : Z) : M (devices HW) unit :=
  port ← gets serial_active_port;
  c ← on_ports (inb port);
  serial_putchar c.

(** [E_OK] is the only result. *)
Definition serial_init (port : Z) : M (devices HW) unit :=
  _ ← irq_register_handler IRQ4 serial_handler_fn;
  _ ← modify (with_port 0);
  _ ← on_ports (outb (port + 1) 0x00);
  _ ← on_ports (outb (port + 3) 0x80);
  _ ← on_ports (outb (port + 0) 0x03);
  _ ← on_ports (outb (port + 1) 0x00);
  _ ← on_ports (outb (port + 3) 0x03);
  _ ← on_ports (outb (port + 2) 0xC7);
  _ ← on_ports (outb (port + 4) 0x0B);
  _ ← modify (with_port port);
  _ ← on_ports (outb (port + 4) 0x0F);
  _ ← on_ports (outb (port + 1) 0x01);
  _ ← on_ports (irq_clear_mask 4);
  on_ports (while patience (v ← serial_rx_data_ready; mret (negb (v =? 0))) (_ ← inb port; mret tt)).
End Serial.

(** [putchar] has no return statement: what its callers test is whatever is left in the
    register of the result. *)
Class PutcharResult (HW : Type) : Type := { putchar_result : devices HW -> Z }.

#[export] Instance console {HW} `{Machine HW} `{Patience} `{PutcharResult HW} : CharSink (devices HW) := {
  putchar := fun c =>
    _ ← on_screen_of (tty_putchar (u8 c));
    _ ← serial_putchar (u8 c);
    gets putchar_result
}.

(** ** Specification *)

(** The ports of the device at COM1, and the accesses that do not reach them. *)
Definition uart_ports (p : Z) : Prop := COM1 <= p < COM1 + 8.
Definition uart_away (p : Z) : Prop := clear_of COM1 (COM1 + 8) p.

(** The writes with which [serial_init] sets the device up. *)
Definition uart_setup : list (Z * Z) :=
  [(COM1 + 1, 0x00); (COM1 + 3, 0x80); (COM1 + 0, 0x03); (COM1 + 1, 0x00); (COM1 + 3, 0x03);
   (COM1 + 2, 0xC7); (COM1 + 4, 0x0B); (COM1 + 4, 0x0F); (COM1 + 1, 0x01)].

(** A serial device at COM1, ready for use after the writes above.  Bit 5 of the status
    register tells that it can take a byte, which is again so after at most
    [uart_bound] polls; bit 0 that one of the at most [uart_bound] bytes received can be
    read. *)
Class UartLaws (HW : Type) `{Machine HW} : Type := {
  uart_attached : HW -> Prop;
  uart_inv : HW -> Prop;
  uart_busy : HW -> nat;
  uart_pending : HW -> nat;
  uart_sent : HW -> list Z;
  uart_bound : nat;
  uart_start : forall h, uart_attached h ->
    let h' := fold_left (fun h w => port_write 8 w.1 w.2 h) uart_setup h in
    uart_inv h' /\ uart_sent h' = uart_sent h;
  uart_busy_le : forall h, uart_inv h -> (uart_busy h <= uart_bound)%nat;
  uart_pending_le : forall h, uart_inv h -> (uart_pending h <= uart_bound)%nat;
  uart_status : forall h, uart_inv h -> wp (inb (COM1 + 5)) h (fun v h' =>
    uart_inv h' /\ uart_sent h' = uart_sent h /\ uart_busy h' = pred (uart_busy h) /\
    uart_pending h' = uart_pending h /\
    (Z.testbit v 5 = true <-> uart_busy h = O) /\ (Z.testbit v 0 = true <-> uart_pending h <> O));
  uart_read : forall h, uart_inv h -> wp (inb COM1) h (fun v h' =>
    uart_inv h' /\ uart_sent h' = uart_sent h /\ uart_pending h' = pred (uart_pending h));
  uart_write : forall h v, uart_inv h -> uart_busy h = O -> wp (outb COM1 v) h (fun _ h' =>
    uart_inv h' /\ uart_sent h' = uart_sent h ++ [u8 v]);
  (* other devices do not reach it *)
  uart_elsewhere : forall l,
    stable_at uart_away (fun h => uart_attached h /\ uart_sent h = l) /\
    stable_at uart_away (fun h => uart_inv h /\ uart_sent h = l)
}.

Lemma tx_empty_bit v : (Z.land v 0x20 =? 0) = negb (Z.testbit v 5).
Proof. by apply (land_bit v 5). Qed.

Section Console.
Context {HW : Type} `{UartLaws HW} `{Patience}.
Implicit Types (d : devices HW).

(** The port is COM1 and the loops are followed long enough. *)
Record console_ok d : Prop := {
  co_uart : uart_inv (ports d);
  co_port : serial_active_port d = COM1;
  co_tty : tty_wf (screen d)
}.

(** Nothing has changed but the serial device and the cells and the cursor of the screen. *)
Record same_drivers d d' : Prop := {
  sd_ports : framed uart_ports (ports d) (ports d');
  sd_handlers : interrupt_handlers d' = interrupt_handlers d;
  sd_ns : ns_since_boot d' = ns_since_boot d;
  sd_color : tty_color (screen d') = tty_color (screen d)
}.

#[global] Instance same_drivers_preorder : PreOrder same_drivers.
Proof. split; [intros d; by split|]. intros d1 d2 d3 [] []. split; [by etrans|congruence..]. Qed.

Lemma wait_ok fuel : forall h, uart_inv h -> (uart_busy h < fuel)%nat ->
  wp (while fuel (v ← serial_tx_empty; mret (v =? 0)) (mret tt)) h (fun _ h' =>
    uart_inv h' /\ uart_busy h' = O /\ uart_sent h' = uart_sent h).
Proof.
  induction fuel as [|fuel IH]; intros h Hi Hf; [lia|]. cbn [while]. unfold serial_tx_empty.
  do 3 wp_step. eapply wp_mono; [by apply uart_status|]. intros v h1 (Hi1 & Hs1 & Hb1 & _ & Hv & _).
  do 2 wp_step. rewrite tx_empty_bit. destruct (Z.testbit v 5) eqn:E; cbn [negb].
  - wp_step. split; [done|]. split; [|done]. rewrite Hb1, (proj1 Hv eq_refl). done.
  - do 2 wp_step. eapply wp_mono; [apply IH; [done|]|].
    + destruct (uart_busy h); [discriminate (proj2 Hv eq_refl)|simpl in Hb1; lia].
    + intros [] h2 (? & ? & Hs2). split; [done|]. split; [done|congruence].
Qed.

Lemma uart_framed h h' :
  framed uart_away h h' -> uart_inv h -> uart_inv h' /\ uart_sent h' = uart_sent h.
Proof. intros F Hi. by apply (F _ (proj2 (uart_elsewhere (uart_sent h)))). Qed.

Lemma serial_send_ok d a :
  (uart_bound < patience)%nat -> console_ok d ->
  wp (serial_send a) d (fun _ d' => console_ok d' /\ same_drivers d d' /\ screen d' = screen d /\
    uart_sent (ports d') = uart_sent (ports d) ++ [u8 a]).
Proof.
  intros Hp [Hu Hport Ht]. unfold serial_send. wp_step. unfold on_ports. wp_step.
  assert (uart_ports (u16 (COM1 + 5)) /\ uart_ports (u16 COM1)) as [P5 P0] by done.
  eapply wp_mono.
  { apply wp_only; [apply wait_ok; [done|]|].
    - pose proof (uart_busy_le _ Hu). lia.
    - apply only_at_while; [|apply only_at_ret]. apply only_at_bind; [|intros; apply only_at_ret].
      apply only_at_bind; [by apply only_at_inb|intros; apply only_at_ret]. }
  intros [] h1 ((Hi & Hb & Hs) & F1). do 3 wp_step. cbn [serial_active_port with_ports ports]. rewrite Hport.
  eapply wp_mono; [by apply wp_only; [apply uart_write|apply only_at_outb]|].
  intros [] h2 [[Hi2 Hs2] F2]. cbn. split; [by split|]. split; [split; [by etrans|done..]|]. split; [done|congruence].
Qed.

(** The interrupt controllers are not at the ports of the device. *)
Lemma irq_clear_mask_uart h line (Q : unit -> HW -> Prop) :
  wp (irq_clear_mask line) h Q -> uart_inv h ->
  wp (irq_clear_mask line) h (fun a h' => Q a h' /\ uart_inv h' /\ uart_sent h' = uart_sent h).
Proof.
  intros Hw Hi. eapply wp_mono; [apply wp_only; [exact Hw|apply irq_clear_mask_ports]|].
  intros a h' [Ha F]. split; [done|]. apply uart_framed; [|done]. eapply framed_mono; [|exact F].
  unfold pic_ports, uart_away, clear_of, COM1. intros p Hp. set_unfold in Hp. lia.
Qed.

Lemma rx_bit v : (Z.land v 0x01 =? 0) = negb (Z.testbit v 0).
Proof. by apply (land_bit v 0). Qed.

(** The loop that drops what has been received. *)
Lemma drain_ok fuel : forall h, uart_inv h -> (uart_pending h < fuel)%nat ->
  wp (while fuel (v ← serial_rx_data_ready; mret (negb (v =? 0))) (_ ← inb COM1; mret tt)) h (fun _ h' =>
    uart_inv h' /\ uart_sent h' = uart_sent h).
Proof.
  induction fuel as [|fuel IH]; intros h Hi Hf; [lia|]. cbn [while]. unfold serial_rx_data_ready.
  do 3 wp_step. eapply wp_mono; [by apply uart_status|]. intros v h1 (Hi1 & Hs1 & _ & Hp1 & _ & Hv).
  do 2 wp_step. rewrite rx_bit, negb_involutive. destruct (Z.testbit v 0) eqn:E.
  - do 2 wp_step. eapply wp_mono; [by apply uart_read|]. intros c h2 (Hi2 & Hs2 & Hp2). wp_step.
    eapply wp_mono; [apply IH; [done|]|].
    + assert (uart_pending h <> O) by by apply Hv. lia.
    + intros [] h3 [Hi3 Hs3]. split; [done|congruence].
  - by wp_step.
Qed.

(** [serial_init] turns the attached device into one in use. *)
Lemma serial_init_ok d (Q : HW -> unit -> HW -> Prop) :
  (uart_bound < patience)%nat -> uart_attached (ports d) -> tty_wf (screen d) ->
  length (interrupt_handlers d) = 256%nat ->
  (forall h, wp (irq_clear_mask 4) h (Q h)) ->
  wp (serial_init COM1) d (fun _ d' => console_ok d' /\ screen d' = screen d /\
    interrupt_handlers d' = <[36%nat := Some serial_handler_fn]> (interrupt_handlers d) /\
    ns_since_boot d' = ns_since_boot d /\ uart_sent (ports d') = uart_sent (ports d) /\
    exists h1 h2, framed uart_ports (ports d) h1 /\ framed pic_ports h1 h2 /\ Q h1 tt h2 /\
      framed uart_ports h2 (ports d')).
Proof.
  intros Hp Ha Ht Hlen HQ. unfold serial_init. wp_step. eapply wp_mono; [by apply irq_register_ok|].
  intros [] d1 ->. change (Z.to_nat IRQ4) with 36%nat. unfold on_ports. repeat (unfold outb; wp_step).
  cbn [ports with_ports with_port with_handlers].
  set (h1 := port_write 8 _ _ (port_write 8 _ _ _)).
  destruct (uart_start _ Ha) as [Hi1 Hs1]. change (uart_inv h1) in Hi1. change (uart_sent h1 = uart_sent (ports d)) in Hs1.
  assert (framed uart_ports (ports d) h1) as F1.
  { intros V HV Hh. assert (forall h p v, uart_ports p -> V h -> V (port_write 8 p v h)) as Hw by (intros; by apply HV).
    unfold h1. by repeat (apply Hw; [done|]). }
  clearbody h1.
  pose proof (irq_clear_mask_uart h1 4 _ (HQ h1) Hi1) as Hw.
  eapply wp_mono; [apply wp_only; [exact Hw|apply irq_clear_mask_ports]|].
  intros [] h2 [(Hq & Hi2 & Hs2) F2]. repeat wp_step. cbn [ports with_ports with_port with_handlers].
  assert (uart_ports (u16 (COM1 + 5)) /\ uart_ports (u16 COM1)) as [P5 P0] by done.
  eapply wp_mono.
  { apply (wp_only uart_ports); [apply drain_ok; [done|]|].
    - pose proof (uart_pending_le _ Hi2). lia.
    - unfold serial_rx_data_ready. apply only_at_while; apply only_at_bind; intros; try apply only_at_ret; [|by apply only_at_inb].
      apply only_at_bind; [by apply only_at_inb|intros; apply only_at_ret]. }
  intros [] h3 [[Hi3 Hs3] F3]. cbn. split; [by split|]. do 3 (split; [done|]). split; [congruence|].
  exists h1, h2. done.
Qed.

(** What the serial line carries for a character. *)
Definition serial_emit (c : Z) : list Z := if c =? 10 then [13; 10] else [c].

Lemma serial_putchar_ok d a :
  (uart_bound < patience)%nat -> console_ok d ->
  wp (serial_putchar a) d (fun _ d' => console_ok d' /\ same_drivers d d' /\ screen d' = screen d /\
    uart_sent (ports d') = uart_sent (ports d) ++ serial_emit (u8 a)).
Proof.
  intros Hp Hd. unfold serial_putchar, serial_emit. destruct (Z.eqb_spec (u8 a) 10) as [E|E].
  - wp_step. eapply wp_mono; [by apply serial_send_ok|]. intros [] d1 (Hd1 & F1 & Ht1 & Hs1).
    eapply wp_mono; [by apply serial_send_ok|]. intros [] d2 (Hd2 & F2 & Ht2 & Hs2). split; [done|].
    split; [by etrans|]. split; [congruence|]. rewrite Hs2, Hs1, E, <- app_assoc. done.
  - wp_step. wp_step. by apply serial_send_ok.
Qed.

(** The console is a sink of characters, when what is left in the register is not
    negative. *)
Context `{PutcharResult HW}.
Hypothesis (Hpatience : (uart_bound < patience)%nat).
Hypothesis (Hresult : forall d, 0 <= putchar_result d).

#[refine] Instance console_laws (d0 : devices HW) : CharSinkLaws (devices HW) := {
  sink_inv := fun d => console_ok d /\ same_drivers d0 d;
  sink_out := fun d => uart_sent (ports d);
  emit := serial_emit
}.
Proof.
  intros d c [Hd Hd0]. cbn [putchar console]. wp_step. unfold on_screen_of. wp_step.
  eapply wp_mono; [apply tty_putchar_ok, Hd|]. intros [] t [Ht Hc].
  wp_step. eapply wp_mono; [apply serial_putchar_ok; [done|]|].
  - destruct Hd as [? ? ?]. by split.
  - intros [] d' (Hd' & F & _ & Hs). wp_step. split; [apply Hresult|]. split; [split; [done|]|].
    { etrans; [exact Hd0|]. etrans; [|exact F]. by split. }
    rewrite Hs. cbn. by rewrite wrap_wrap.
Defined.

(** The handler echoes what comes in. *)
Lemma serial_handler_ok d v :
  console_ok d -> wp (serial_handler v) d (fun _ d' => console_ok d' /\ same_drivers d d').
Proof.
  intros Hd. unfold serial_handler. wp_step. wp_step. wp_step. unfold on_ports. wp_step.
  rewrite (co_port _ Hd). eapply wp_mono; [by apply (wp_only uart_ports); [apply uart_read, Hd|apply only_at_inb]|].
  intros c h [(Hi & _) F1].
  assert (console_ok (with_ports h d)) as Hd1 by (destruct Hd; by split).
  eapply wp_mono; [by apply serial_putchar_ok|]. intros [] d' (Hd' & F & _). split; [done|].
  etrans; [|exact F]. by split.
Qed.

(** ** Theorems *)

(** [serial_putchar] waits until the device takes a byte, however long it is busy, and
    sends the character, a line feed after a carriage return. *)
Theorem serial_putchar_correct d a :
  console_ok d ->
  exists d', serial_putchar a d = Ok (tt, d') /\ console_ok d' /\ same_drivers d d' /\
    screen d' = screen d /\ uart_sent (ports d') = uart_sent (ports d) ++ (if u8 a =? 10 then [13; 10] else [u8 a]).
Proof.
  intros Hd. destruct (proj1 (wp_ok _ _ _) (serial_putchar_ok d a Hpatience Hd)) as ([] & d' & Hrun & Hpost).
  by exists d'.
Qed.

Lemma console_printf_ok d ps :
  pieces_ok ps -> console_ok d ->
  wp (printf (format_of ps) (args_of ps)) d (fun r d' => r = count_of ps /\ console_ok d' /\ same_drivers d d' /\
    uart_sent (ports d') = uart_sent (ports d) ++ (text_of ps ≫= (fun c => serial_emit (u8 c)))).
Proof.
  intros Hps Hd. eapply wp_mono; [apply (@printf_ok _ _ (console_laws d) ps d Hps); by split|].
  intros r d' [-> [[Hi F] Ho]]. done.
Qed.

End Console.

(** ** Witnesses: a device that is always ready *)

Section Examples.
#[local] Instance ex_patience : Patience := 1%nat.
#[local] Instance ex_result : PutcharResult register_machine := { putchar_result := fun _ => 0 }.

(** What a log of writes sends: the data port takes the divisor while bit 7 of the line
    control register is set. *)
Definition replay_step (s : bool * list Z) (w : Z * Z) : bool * list Z :=
  if w.1 =? COM1 + 3 then (Z.testbit w.2 7, s.2)
  else if w.1 =? COM1 then (s.1, if s.1 then s.2 else s.2 ++ [w.2])
  else s.
Definition replay (l : list (Z * Z)) : bool * list Z := fold_left replay_step l (false, []).

Lemma replay_snoc l w : replay (l ++ [w]) = replay_step (replay l) w.
Proof. unfold replay. by rewrite fold_left_app. Qed.

#[local, refine] Instance ready_uart : UartLaws register_machine := {
  uart_attached := fun h => u8 (regs h 0x3FD) = 0x20;
  uart_inv := fun h => u8 (regs h 0x3FD) = 0x20 /\ (replay (log h)).1 = false;
  uart_busy := fun _ => O;
  uart_pending := fun _ => O;
  uart_sent := fun h => (replay (log h)).2;
  uart_bound := O
}.
Proof.
  - intros h Hi. cbn. split; [split; [exact Hi|]|]; rewrite !fold_left_app; fold (replay (log h)); by destruct (replay (log h)).
  - intros h _. lia.
  - intros h _. lia.
  - intros h [Hi Hd]. unfold wp, inb. cbn. change (u16 (COM1 + 5)) with 0x3FD. rewrite Hi. by repeat split.
  - done.
  - intros h v [Hi Hd] _. unfold wp. cbn [outb modify]. cbn [log port_write register_is_machine regs].
    rewrite replay_snoc. unfold replay_step. cbn. by rewrite Hd.
  - assert (forall h p v, uart_away p -> regs (port_write 8 p v h) 0x3FD = regs h 0x3FD /\
      replay_step (replay (log h)) (p, v) = replay (log h)) as Haway.
    { unfold uart_away, clear_of, COM1. intros h p v Hp. cbn. split; [by rewrite decide_False by lia|].
      unfold replay_step, COM1. cbn [fst snd]. by rewrite !(proj2 (Z.eqb_neq p _)) by lia. }
    assert (forall h w p v, uart_away p -> u8 (regs (port_write w p v h) 0x3FD) = u8 (regs h 0x3FD) /\
      replay (log (port_write w p v h)) = replay (log h)) as Hlog.
    { intros h w p v Hp. destruct (Haway h p v Hp) as [E1 E2]. split; [by rewrite <- E1|].
      etrans; [apply replay_snoc|exact E2]. }
    intros l. split; intros h w p v Hp [Hi Hs]; (split; [|by split]); destruct (Hlog h w p v Hp) as [E1 E2];
      by rewrite E1, E2.
Defined.

Definition ex_devices : devices register_machine :=
  Devices (Regs (fun _ => 0x20) []) (Tty 0 0 15 (replicate 2000 0)) COM1 (replicate 256 None) 0.

Lemma ex_patient : (uart_bound (HW := register_machine) < patience)%nat.
Proof. unfold patience, ex_patience. cbn. lia. Qed.

Lemma ex_nonnegative (d : devices register_machine) : 0 <= putchar_result d.
Proof. done. Qed.

Lemma ex_console : console_ok ex_devices.
Proof. split; [done|done|]. split; done. Qed.

Lemma serial_putchar_correct_witness :
  exists d', serial_putchar 10 ex_devices = Ok (tt, d') /\ uart_sent (ports d') = [13; 10].
Proof.
  destruct (serial_putchar_correct ex_patient ex_devices 10 ex_console)
    as (d' & Hrun & _ & _ & _ & Hs). exists d'. split; [exact Hrun|exact Hs].
Defined.

End Examples.
