(* ===== verification/Panic.v ===== *)
(** * kernel/kernel/common.c: the end of the kernel

    What [kernel_panic] shows on the console before it halts the processor. *)

From S2P Require Import Prelude Port Tty Devices Printf PrintfSpec Serial.

Section Panic.
Context {HW : Type} `{Machine HW} `{Patience} `{PutcharResult HW}.

(** The text of [print_line]: 79 dashes between line feeds. *)
Definition line_text : list Z :=
  10 :: chars "--------------------------------------------------------------------"
     ++ chars "-----------" ++ [10].

Definition print_line : M (devices HW) unit := puts line_text.

(** [kernel_panic] up to its last loop.  The results of [printf] are dropped. *)
Definition panic_report (filename : list Z) (line : Z) (format : list Z) (args : list va_item)
    : M (devices HW) unit :=
  _ ← on_screen_of (tty_setcolor 12);
  _ ← print_line;
  _ ← printf (chars "KERNEL PANIC at %s:%d" ++ [10]) [VStr filename; VInt line];
  _ ← vprintf (S (length format)) format args;
  _ ← print_line;
  print_line.

(** [kernel_panic] halts the processor for ever once the report is out. *)
Definition kernel_panic {A} (filename : list Z) (line : Z) (format : list Z) (args : list va_item)
    : M (devices HW) A :=
  _ ← panic_report filename line format args;
  panic (String.string_of_list_ascii ((fun c => Ascii.ascii_of_N (Z.to_N c)) <$> format)).
End Panic.

(** ** Theorem *)

Section Properties.
Context {HW : Type} `{UartLaws HW} `{Patience} `{PutcharResult HW}.
Hypothesis (Hpatience : (uart_bound < patience)%nat).
Hypothesis (Hresult : forall d, 0 <= putchar_result d).
Implicit Types (d : devices HW).

Definition headline (filename : list Z) (line : Z) : list piece :=
  [Text (chars "KERNEL PANIC at "); Str false [] filename; Text [58]; Int false [] false Decimal line; Text [10]].

Lemma headline_ok filename line : 0 <= line < 2 ^ 31 -> pieces_ok (headline filename line).
Proof.
  intros Hl. assert (int_fits line 10 true) as Hf by (apply int_fits_dec; lia).
  unfold headline. solve_pieces.
Qed.

Lemma panic_report_ok filename line ps d :
  0 <= line < 2 ^ 31 -> pieces_ok ps -> console_ok d ->
  wp (panic_report filename line (format_of ps) (args_of ps)) d (fun _ d' => console_ok d' /\
    tty_color (screen d') = 12 /\ uart_sent (ports d') = uart_sent (ports d) ++
      ((line_text ++ text_of (headline filename line) ++ text_of ps ++ line_text ++ line_text)
         ≫= (fun c => serial_emit (u8 c)))).
Proof.
  intros Hl Hps Hd.
  unfold panic_report, on_screen_of. wp_step. wp_step. unfold tty_setcolor. wp_step.
  set (d0 := with_screen _ _). assert (console_ok d0) as Hd0 by (destruct Hd as [? ? []]; split; [done..|by split]).
  pose (L := console_laws Hpatience Hresult d0).
  assert (Forall (fun c => u8 c <> 0) line_text) as Hline.
  { decide_now. }
  wp_step. eapply wp_mono; [apply (@puts_ok _ _ L); [exact Hline|by split]|]. intros [] d1 O1.
  wp_step. eapply wp_mono.
  { apply (@printf_ok _ _ L (headline filename line)); [by apply headline_ok|apply O1]. }
  intros r2 d2 [_ O2].
  wp_step. eapply wp_mono; [apply (@printf_ok _ _ L ps); [done|apply O2]|]. intros r3 d3 [_ O3].
  wp_step. eapply wp_mono; [apply (@puts_ok _ _ L); [exact Hline|apply O3]|]. intros [] d4 O4.
  eapply wp_mono; [apply (@puts_ok _ _ L); [exact Hline|apply O4]|]. intros [] d5 O5.
  pose proof (outputs_trans _ _ _ _ _ O1 (outputs_trans _ _ _ _ _ O2 (outputs_trans _ _ _ _ _ O3
    (outputs_trans _ _ _ _ _ O4 O5)))) as [[Hc F] Ho].
  split; [done|]. split; [by rewrite (sd_color _ _ F)|exact Ho].
Qed.

Lemma kernel_panic_panics {A} filename line ps d :
  0 <= line < 2 ^ 31 -> pieces_ok ps -> console_ok d ->
  exists why, kernel_panic (A := A) filename line (format_of ps) (args_of ps) d = Panic why.
Proof. intros. eapply bind_panics; [by apply panic_report_ok|]. intros. by eexists. Qed.

(** A panic is reported on the console, whatever the kernel was doing: in the colour 12,
    between lines, the file and the line of the source and the message, formatted from
    its arguments.  After the report the kernel does not go on. *)
Theorem panic_reports filename line ps d :
  0 <= line < 2 ^ 31 -> pieces_ok ps -> console_ok d ->
  (exists d', panic_report filename line (format_of ps) (args_of ps) d = Ok (tt, d') /\ console_ok d' /\
    tty_color (screen d') = 12 /\
    uart_sent (ports d') = uart_sent (ports d) ++
      ((line_text ++ text_of (headline filename line) ++ text_of ps ++ line_text ++ line_text)
         ≫= (fun c => serial_emit (u8 c)))) /\
  exists why, kernel_panic (A := unit) filename line (format_of ps) (args_of ps) d = Panic why.
Proof.
  intros Hl Hps Hd. split; [|by apply kernel_panic_panics].
  destruct (proj1 (wp_ok _ _ _) (panic_report_ok filename line ps d Hl Hps Hd)) as ([] & d' & Hrun & Hpost).
  by exists d'.
Qed.
End Properties.

(** ** Witness *)

#[local] Existing Instances ex_patience ex_result ready_uart.

Lemma panic_reports_witness :
  exists d', panic_report (HW := register_machine) (chars "pmm.c") 131 (chars "Cannot free stolen pages") [] ex_devices
      = Ok (tt, d') /\ tty_color (screen d') = 12.
Proof.
  destruct (panic_reports ex_patient ex_nonnegative (chars "pmm.c") 131 [Text (chars "Cannot free stolen pages")]
    ex_devices) as [(d' & Hrun & _ & Hc & _) _]; [lia| |exact ex_console|].
  - split; [|done]. split; [done|]. repeat constructor; done.
  - exists d'. split; [exact Hrun|exact Hc].
Defined.
