(* ===== verification/Timer.v ===== *)
(** * kernel/kernel/timer.c: the clock

    The programmable interval timer and its handler; [sleep] is in the file Sleep, since
    it waits for interrupts. *)

From S2P Require Import Prelude Port Tables Tty Devices Printf PrintfSpec Serial.

Definition reload_value : Z := 0xFFFF.
Definition ns_per_tick : Z := u64 (reload_value * 1000000000 / 1193182).

Section Timer.
Context {HW : Type} `{Machine HW} `{Patience} `{PutcharResult HW}.

Definition timer_handler (int_no : Z) : M (devices HW) unit :=
  modify (fun d => with_ns (u64 (ns_since_boot d + ns_per_tick)) d).

Definition timer_compare (a b : Z) : Z := if b <? a then 1 else 0.

(** The arguments of [%08lx]: the two halves of a 64-bit number. *)
Definition timer_init : M (devices HW) unit :=
  let _ := timer_compare 1 1 in
  _ ← irq_register_handler IRQ0 timer_handler_fn;
  _ ← printf (chars "[PIT] Reload value: %04x Delta %08lx" ++ [10])
        [VInt reload_value; VInt (s32 ns_per_tick); VInt (s32 (Z.shiftr ns_per_tick 32))];
  _ ← on_ports (outb 0x43 52);
  _ ← on_ports (outb 0x40 (Z.land reload_value 0xFF));
  _ ← on_ports (outb 0x40 (Z.shiftr reload_value 8));
  on_ports (irq_clear_mask 0).
End Timer.

(** ** Specification *)

(** The writes that program channel 0 of the timer as a rate generator with the reload
    value 65535, low byte first. *)
Definition pit_programmed {HW} `{Machine HW} (h : HW) : HW :=
  port_write 8 0x40 0xFF (port_write 8 0x40 0xFF (port_write 8 0x43 0x34 h)).

Definition pit_ports (p : Z) : Prop := 0x40 <= p <= 0x43.

Lemma pit_framed {HW} `{Machine HW} (h : HW) : framed pit_ports h (pit_programmed h).
Proof.
  intros V HV Hh. unfold pit_programmed.
  assert (forall h p v, pit_ports p -> V h -> V (port_write 8 p v h)) as Hw by (intros; by apply HV).
  by do 3 (apply Hw; [unfold pit_ports; lia|]).
Qed.

Section Properties.
Context {HW : Type} `{Machine HW} `{!UartLaws HW} `{!PicLaws HW} `{Patience} `{PutcharResult HW}.
Hypothesis (Hpatience : (uart_bound < patience)%nat).
Hypothesis (Hresult : forall d, 0 <= putchar_result d).
Implicit Types (d : devices HW).

Definition timer_message : list piece :=
  [Text (chars "[PIT] Reload value: "); Int true [52] false Hexadecimal reload_value; Text (chars " Delta ");
   Long true [56] (s32 ns_per_tick) (s32 (Z.shiftr ns_per_tick 32)); Text [10]].

Lemma timer_message_ok : pieces_ok timer_message.
Proof.
  assert (int_fits reload_value (radix_base Hexadecimal) (signed_conv false Hexadecimal)) as Hf
    by (apply int_fits_hex; done).
  unfold timer_message. solve_pieces; done.
Qed.

(** The interrupt is enabled from the state [pit_programmed h], where only the serial
    device has been used since the start. *)
Lemma timer_init_ok d :
  console_ok d -> length (interrupt_handlers d) = 256%nat ->
  wp timer_init d (fun _ d' => console_ok d' /\
    interrupt_handlers d' = <[32%nat := Some timer_handler_fn]> (interrupt_handlers d) /\
    ns_since_boot d' = ns_since_boot d /\
    uart_sent (ports d') = uart_sent (ports d) ++ (text_of timer_message ≫= (fun c => serial_emit (u8 c))) /\
    exists h, framed uart_ports (ports d) h /\ irq_clear_mask 0 (pit_programmed h) = Ok (tt, ports d') /\
      forall irq, 0 <= irq < 16 -> irq_enabled (ports d') irq = bool_decide (irq = 0) || irq_enabled h irq).
Proof.
  intros Hd Hlen. unfold timer_init. wp_step. eapply wp_mono; [by apply irq_register_ok|].
  intros [] d1 Hd1e. change (Z.to_nat IRQ0) with 32%nat in Hd1e.
  assert (console_ok d1) as Hd1 by (subst d1; destruct Hd; by split).
  wp_step. eapply wp_mono; [apply (console_printf_ok Hpatience Hresult d1 timer_message timer_message_ok Hd1)|].
  intros r d2 (_ & Hd2 & F & Hs). unfold on_ports. repeat (unfold outb; wp_step). cbn [ports with_ports].
  change (port_write 8 _ _ (port_write 8 _ _ (port_write 8 _ _ (ports d2)))) with (pit_programmed (ports d2)).
  pose proof (pit_framed (ports d2)) as FP. set (h := pit_programmed (ports d2)) in *.
  destruct (uart_framed (ports d2) h) as [Hi Ho]; [|apply Hd2|].
  { eapply framed_mono; [|exact FP]. unfold pit_ports, uart_away, clear_of, COM1. lia. }
  pose proof (irq_clear_mask_uart h 0 _ (irq_clear_mask_ok h 0 ltac:(lia)) Hi) as Hmask.
  apply wp_ok in Hmask as ([] & h' & Hrun & Hen & Hi' & Hs'). unfold wp. rewrite Hrun.
  destruct Hd2 as [_ Hport Htty]. destruct F as [F0 F1 F2 F3]. subst d1. split; [by split|]. split; [exact F1|].
  split; [exact F2|]. split; [cbn; by rewrite Hs', Ho, Hs|]. exists (ports d2). split; [exact F0|].
  split; [exact Hrun|]. intros irq Hirq. cbn. rewrite Hen by done. f_equal. apply pic_framed.
  eapply framed_mono; [|exact FP]. unfold pit_ports, pic_away, clear_of. lia.
Qed.

(** [timer_init] makes [timer_handler] the handler of the clock's interrupt, programs
    the timer for the period the clock counts in, and enables the interrupt. *)
Theorem timer_init_correct d :
  console_ok d -> length (interrupt_handlers d) = 256%nat ->
  exists d' h, timer_init d = Ok (tt, d') /\ console_ok d' /\
    interrupt_handlers d' = <[32%nat := Some timer_handler_fn]> (interrupt_handlers d) /\
    ns_since_boot d' = ns_since_boot d /\
    irq_clear_mask 0 (pit_programmed h) = Ok (tt, ports d') /\ irq_enabled (ports d') 0 = true /\
    uart_sent (ports d') = uart_sent (ports d) ++ (text_of timer_message ≫= (fun c => serial_emit (u8 c))).
Proof.
  intros Hd Hlen. destruct (proj1 (wp_ok _ _ _) (timer_init_ok d Hd Hlen))
    as ([] & d' & Hrun & H1' & H2' & H3' & H4' & h & _ & Hm & He).
  exists d', h. do 5 (split; [done|]). split; [by rewrite He by lia|done].
Qed.
End Properties.

(** ** Witness *)

#[local] Existing Instances ex_patience ex_result ready_uart register_pic.

Lemma timer_init_correct_witness :
  exists d', timer_init (HW := register_machine) ex_devices = Ok (tt, d') /\
    interrupt_handlers d' !! 32%nat = Some (Some timer_handler_fn) /\ irq_enabled (ports d') 0 = true.
Proof.
  destruct (timer_init_correct ex_patient ex_nonnegative ex_devices ex_console) as (d' & h & Hrun & _ & Hh & _ & _ & He & _);
    [reflexivity|]. exists d'. split; [exact Hrun|]. split; [|exact He]. rewrite Hh. reflexivity.
Defined.
