(* ===== verification/Keyboard.v ===== *)
(** * kernel/io/keyboard.c: the keyboard controller *)

From S2P Require Import Prelude Port Tables Tty Devices Printf PrintfSpec Serial Panic.

Definition port_status : Z := 0x64.
Definition port_command : Z := 0x64.
Definition port_data : Z := 0x60.

(** The path of the source file, as the compiler sees it. *)
Class SourcePath : Type := source_path : string -> list Z.

(** ** Operations *)

Section Keyboard.
Context {HW : Type} `{Machine HW} `{Patience}.

Definition flush_input_buffer : M HW unit :=
  while patience (v ← inb port_status; mret (negb (Z.land v 2 =? 0))) (mret tt).

Definition flush_output_buffer : M HW unit :=
  while patience (v ← inb port_status; mret (negb (Z.land v 1 =? 0))) (_ ← inb port_data; mret tt).

Definition send_command (cmd : Z) : M HW unit := _ ← outb port_command cmd; flush_input_buffer.
Definition send_data (data : Z) : M HW unit := _ ← outb port_data data; flush_input_buffer.

Definition expect_data : M HW Z :=
  _ ← while patience (v ← inb port_status; mret (Z.land v 1 =? 0)) (mret tt);
  inb port_data.

Context `{PutcharResult HW} `{SourcePath}.

(** [ASSERT(tmp == value, "...%x...", tmp)]: the message starts with the text of the
    condition. *)
Definition assert_data (line : Z) (condition message : string) (tmp value : Z) : M (devices HW) unit :=
  if tmp =? value then mret tt
  else kernel_panic (source_path "keyboard.c") line
         (chars "Assertion Error: (" ++ chars condition ++ chars ") == false" ++ [10] ++ chars message) [VInt tmp].

Definition keyboard_init : M (devices HW) unit :=
  _ ← irq_register_handler IRQ1 keyboard_handler_fn;
  _ ← on_ports (irq_clear_mask 1);
  _ ← on_ports (send_command 0xAD);
  _ ← on_ports (send_command 0xA7);
  _ ← on_ports flush_output_buffer;
  _ ← on_ports (send_command 0x20);
  conf ← on_ports expect_data;
  let conf := Z.land conf 188 in
  _ ← on_ports (send_command 0x60);
  _ ← on_ports (send_data conf);
  _ ← on_ports (send_command 0xAA);
  tmp ← on_ports expect_data;
  _ ← assert_data 68 "tmp == 0x55" "Keyboard Self Test fail (0x%x)" tmp 0x55;
  _ ← on_ports (send_command 0xAB);
  tmp ← on_ports expect_data;
  _ ← assert_data 72 "tmp == 0x00" "Keyboard first port fail (0x%x)" tmp 0x00;
  _ ← on_ports (send_command 0xAE);
  _ ← on_ports (send_command 0x20);
  conf ← on_ports expect_data;
  let conf := Z.lor conf 1 in
  _ ← on_ports (send_command 0x60);
  on_ports (send_data conf).

Definition keyboard_handler (int_no : Z) : M (devices HW) unit :=
  data ← on_ports (inb port_data);
  _ ← printf (chars "0x%x" ++ [10]) [VInt data];
  mret tt.
End Keyboard.
