(* ===== verification/KeyboardProps.v ===== *)
(** * kernel/io/keyboard.c: correctness of the initialisation

    The keyboard controller as its documentation describes it, and what
    [keyboard_init] makes of it. *)

From S2P Require Import Prelude Port Tables Tty Devices Printf PrintfSpec Serial Panic Keyboard.

(** ** The controller *)

(** The configuration byte (bits 4 and 5 disable the two PS/2 ports), the bytes that wait
    in the output buffer, and whether the next byte of data is the configuration. *)
Record kbc : Type := Kbc { kb_config : Z; kb_out : list Z; kb_wants : bool }.

(** The commands; [self_test] and [port_test] are the results of the tests. *)
Definition kbc_command (self_test port_test cmd : Z) (k : kbc) : kbc :=
  if cmd =? 0xAD then Kbc (Z.lor (kb_config k) 0x10) (kb_out k) (kb_wants k)
  else if cmd =? 0xA7 then Kbc (Z.lor (kb_config k) 0x20) (kb_out k) (kb_wants k)
  else if cmd =? 0xAE then Kbc (Z.land (kb_config k) 0xEF) (kb_out k) (kb_wants k)
  else if cmd =? 0x20 then Kbc (kb_config k) (kb_out k ++ [kb_config k]) (kb_wants k)
  else if cmd =? 0x60 then Kbc (kb_config k) (kb_out k) true
  else if cmd =? 0xAA then Kbc (kb_config k) (kb_out k ++ [self_test]) (kb_wants k)
  else if cmd =? 0xAB then Kbc (kb_config k) (kb_out k ++ [port_test]) (kb_wants k)
  else k.

Definition kbc_data (v : Z) (k : kbc) : kbc := if kb_wants k then Kbc v (kb_out k) false else k.

Definition keyboard_port (p : Z) : Prop := p = 0x60 \/ p = 0x64.

(** Bit 1 of the status register is set while the controller is busy with what it was
    sent, bit 0 once the byte in the output buffer can be read.  Both delays are counted
    in polls, and bounded. *)
Class KbcLaws (HW : Type) `{Machine HW} : Type := {
  kbc_inv : HW -> Prop;
  kbc_of : HW -> kbc;
  kbc_busy : HW -> nat;
  kbc_lag : HW -> nat;
  kbc_bound : nat;
  kbc_self_test : Z;
  kbc_port_test : Z;
  kbc_status : forall h, kbc_inv h -> wp (inb port_status) h (fun v h' =>
    kbc_inv h' /\ kbc_of h' = kbc_of h /\ kbc_busy h' = pred (kbc_busy h) /\ kbc_lag h' = pred (kbc_lag h) /\
    (Z.testbit v 1 = true <-> kbc_busy h <> O) /\
    (Z.testbit v 0 = true <-> kbc_lag h = O /\ kb_out (kbc_of h) <> []));
  kbc_read : forall h c b out w, kbc_inv h -> kbc_lag h = O -> kbc_of h = Kbc c (b :: out) w ->
    wp (inb port_data) h (fun v h' =>
      v = b /\ kbc_inv h' /\ kbc_of h' = Kbc c out w /\ kbc_busy h' = kbc_busy h /\ kbc_lag h' = O);
  kbc_write_command : forall h cmd, kbc_inv h -> kbc_busy h = O -> wp (outb port_command cmd) h (fun _ h' =>
    kbc_inv h' /\ kbc_of h' = kbc_command kbc_self_test kbc_port_test (u8 cmd) (kbc_of h) /\
    (kbc_busy h' <= kbc_bound)%nat /\ (kbc_lag h' <= kbc_bound)%nat /\
    (kb_out (kbc_of h') = kb_out (kbc_of h) -> kbc_lag h' = kbc_lag h));
  kbc_write_data : forall h v, kbc_inv h -> kbc_busy h = O -> wp (outb port_data v) h (fun _ h' =>
    kbc_inv h' /\ kbc_of h' = kbc_data (u8 v) (kbc_of h) /\
    (kbc_busy h' <= kbc_bound)%nat /\ (kbc_lag h' <= kbc_bound)%nat);
  (* other devices do not reach the two ports *)
  kbc_elsewhere : forall k, stable_at (fun p => clear_of 0x60 0x65 p)
    (fun h => kbc_inv h /\ kbc_of h = k /\ kbc_busy h = O /\ kbc_lag h = O)
}.

Section Controller.
Context {HW : Type} `{KbcLaws HW} `{Patience}.
Hypothesis (Hbound : (kbc_bound < patience)%nat).
Implicit Types (h : HW) (k : kbc).

(** The controller is in the state [k] and can be sent something. *)
Record idle h k : Prop := {
  id_inv : kbc_inv h;
  id_state : kbc_of h = k;
  id_busy : kbc_busy h = O;
  id_lag : (kbc_lag h <= kbc_bound)%nat
}.

Abbreviation command := (kbc_command kbc_self_test kbc_port_test).

Lemma bit0_clear v : (Z.land v 1 =? 0) = negb (Z.testbit v 0).
Proof. by apply (land_bit v 0). Qed.
Lemma bit1_clear v : (Z.land v 2 =? 0) = negb (Z.testbit v 1).
Proof. by apply (land_bit v 1). Qed.

Lemma flush_input_ok fuel : forall h, kbc_inv h -> (kbc_busy h < fuel)%nat ->
  wp (while fuel (v ← inb port_status; mret (negb (Z.land v 2 =? 0))) (mret tt)) h (fun _ h' =>
    kbc_inv h' /\ kbc_of h' = kbc_of h /\ kbc_busy h' = O /\ (kbc_lag h' <= kbc_lag h)%nat).
Proof.
  induction fuel as [|fuel IH]; intros h Hi Hf; [lia|]. cbn [while]. do 2 wp_step.
  eapply wp_mono; [by apply kbc_status|]. intros v h1 (Hi1 & Ho1 & Hb1 & Hl1 & Hv & _). wp_step.
  rewrite bit1_clear, negb_involutive. destruct (Z.testbit v 1) eqn:E.
  - do 2 wp_step. assert (kbc_busy h <> O) by by apply Hv. eapply wp_mono; [apply IH; [done|lia]|].
    intros [] h2 (Hi2 & Ho2 & Hb2 & Hl2). split; [done|]. split; [congruence|]. split; [done|lia].
  - wp_step. split; [done|]. split; [done|]. split; [|lia]. rewrite Hb1.
    destruct (kbc_busy h); [done|]. by assert (false = true) by by apply Hv.
Qed.

Lemma send_command_ok h cmd k :
  idle h k -> wp (send_command cmd) h (fun _ h' => idle h' (command (u8 cmd) k) /\
    (kb_out (command (u8 cmd) k) = kb_out k -> (kbc_lag h' <= kbc_lag h)%nat)).
Proof.
  intros [Hi Hk Hb Hl]. unfold send_command. wp_step. eapply wp_mono; [by apply kbc_write_command|].
  intros [] h1 (Hi1 & Ho1 & Hb1 & Hl1 & Hsame). eapply wp_mono; [apply flush_input_ok; [done|lia]|].
  intros [] h2 (Hi2 & Ho2 & Hb2 & Hl2). rewrite Hk in *. split; [split; [done|congruence|done|lia]|].
  intros Hout. rewrite <- Hsame; [done|]. by rewrite Ho1.
Qed.

Lemma send_data_ok h v k :
  idle h k -> wp (send_data v) h (fun _ h' => idle h' (kbc_data (u8 v) k)).
Proof.
  intros [Hi Hk Hb Hl]. unfold send_data. wp_step. eapply wp_mono; [by apply kbc_write_data|].
  intros [] h1 (Hi1 & Ho1 & Hb1 & Hl1). eapply wp_mono; [apply flush_input_ok; [done|lia]|].
  intros [] h2 (Hi2 & Ho2 & Hb2 & Hl2). rewrite Hk in *. split; [done|congruence|done|lia].
Qed.

(** The bytes that were waiting are read and dropped. *)
Lemma flush_output_ok c w fuel : forall out h, idle h (Kbc c out w) -> kbc_lag h = O -> (length out < fuel)%nat ->
  wp (while fuel (v ← inb port_status; mret (negb (Z.land v 1 =? 0))) (_ ← inb port_data; mret tt)) h
    (fun _ h' => idle h' (Kbc c [] w)).
Proof.
  induction fuel as [|fuel IH]; intros out h [Hi Hk Hb Hl] Hl0 Hf; [lia|]. cbn [while]. do 2 wp_step.
  eapply wp_mono; [by apply kbc_status|]. intros v h1 (Hi1 & Ho1 & Hb1 & Hl1 & _ & Hv). wp_step.
  rewrite bit0_clear, negb_involutive. rewrite Hk in *. cbn [kb_out] in Hv.
  destruct out as [|b out].
  - destruct (Z.testbit v 0); [by destruct (proj1 Hv eq_refl)|]. wp_step. split; [done..|by rewrite Hb1, Hb|lia].
  - rewrite (proj2 Hv) by done. do 2 wp_step. eapply wp_mono; [apply kbc_read; [done|by rewrite Hl1, Hl0|done]|].
    intros b' h2 (-> & Hi2 & Ho2 & Hb2 & Hl2). wp_step. cbn [length] in Hf.
    apply (IH out); [split; [done|done|by rewrite Hb2, Hb1, Hb|lia]|done|lia].
Qed.

(** The answer to a command. *)
Lemma expect_data_ok h c b w :
  idle h (Kbc c [b] w) -> wp expect_data h (fun v h' => v = b /\ is_u8 b /\ idle h' (Kbc c [] w)).
Proof.
  intros Hidle. unfold expect_data. wp_step.
  enough (forall fuel h, idle h (Kbc c [b] w) -> (kbc_lag h < fuel)%nat ->
    wp (while fuel (v ← inb port_status; mret (Z.land v 1 =? 0)) (mret tt)) h (fun _ h' =>
      idle h' (Kbc c [b] w) /\ kbc_lag h' = O)) as Hwait.
  { eapply wp_mono; [apply Hwait; [done|]|].
    - pose proof (id_lag _ _ Hidle). lia.
    - intros [] h1 [[Hi1 Hk1 Hb1 _] Hl1].
      eapply wp_mono; [apply wp_and; [by apply kbc_read|apply inb_u8]|].
      intros v h2 [(-> & Hi2 & Hk2 & Hb2 & Hl2) Hv]. split; [done|]. split; [done|]. split; [done|done|congruence|lia]. }
  clear h Hidle. induction fuel as [|fuel IH]; intros h [Hi Hk Hb Hl] Hf; [lia|]. cbn [while]. do 2 wp_step.
  eapply wp_mono; [by apply kbc_status|]. intros v h1 (Hi1 & Ho1 & Hb1 & Hl1 & _ & Hv). wp_step.
  rewrite bit0_clear. rewrite Hk in *. cbn [kb_out] in Hv.
  assert (idle h1 (Kbc c [b] w)) as Hidle1 by (split; [done|done|by rewrite Hb1, Hb|lia]).
  destruct (Z.testbit v 0) eqn:E; cbn [negb].
  - wp_step. split; [done|]. rewrite Hl1. by destruct (proj1 Hv eq_refl) as [-> _].
  - do 2 wp_step. apply IH; [done|]. destruct (kbc_lag h); [|lia].
    by assert (false = true) by by apply Hv.
Qed.
End Controller.

(** ** The initialisation *)

Section Setup.
Context {HW : Type} `{Machine HW} `{!UartLaws HW} `{!PicLaws HW} `{!KbcLaws HW} `{Patience} `{PutcharResult HW} `{SourcePath}.
Hypothesis (Hpatience : (uart_bound < patience)%nat).
Hypothesis (Hbound : (kbc_bound < patience)%nat).
Hypothesis (Hresult : forall d : devices HW, 0 <= putchar_result d).
Implicit Types (d : devices HW).

Abbreviation command := (kbc_command kbc_self_test kbc_port_test).

(** Since [d0] only the controller has been used, and it is idle in the state [k]. *)
Record reached d0 d (k : kbc) : Prop := {
  re_devices : d = with_ports (ports d) d0;
  re_frame : framed keyboard_port (ports d0) (ports d);
  re_idle : idle (ports d) k
}.

Lemma only_status : only_at keyboard_port (inb port_status).
Proof. apply only_at_inb. by right. Qed.
Lemma only_data : only_at keyboard_port (inb port_data).
Proof. apply only_at_inb. by left. Qed.

Ltac only_ports :=
  repeat first [apply only_status | apply only_data | apply only_at_ret
               | apply only_at_while | apply only_at_bind; [|intros]
               | apply only_at_outb; (by left) || by right].

Lemma only_send_command cmd : only_at keyboard_port (send_command cmd).
Proof. unfold send_command, flush_input_buffer. only_ports. Qed.
Lemma only_send_data v : only_at keyboard_port (send_data v).
Proof. unfold send_data, flush_input_buffer. only_ports. Qed.
Lemma only_flush_output : only_at keyboard_port flush_output_buffer.
Proof. unfold flush_output_buffer. only_ports. Qed.
Lemma only_expect_data : only_at keyboard_port expect_data.
Proof. unfold expect_data. only_ports. Qed.

Lemma controller_step {A} (m : M HW A) d0 d k k' (P : A -> Prop) :
  reached d0 d k -> only_at keyboard_port m ->
  wp m (ports d) (fun a h' => P a /\ idle h' k') -> wp (on_ports m) d (fun a d' => P a /\ reached d0 d' k').
Proof.
  intros [Hd F _] Hm Hw. unfold on_ports. wp_step. eapply wp_mono; [by apply wp_only|].
  intros a h' [[Hp Hi] F']. split; [done|]. split; [by rewrite Hd|by etrans|done].
Qed.

Lemma command_step d0 d cmd k :
  reached d0 d k -> wp (on_ports (send_command cmd)) d (fun _ d' => True /\ reached d0 d' (command (u8 cmd) k)).
Proof.
  intros Hr. eapply controller_step; [done|apply only_send_command|].
  eapply wp_mono; [apply send_command_ok; [done|exact (re_idle _ _ _ Hr)]|]. by intros [] h' [? _].
Qed.

Lemma data_step d0 d v k :
  reached d0 d k -> wp (on_ports (send_data v)) d (fun _ d' => True /\ reached d0 d' (kbc_data (u8 v) k)).
Proof.
  intros Hr. eapply controller_step; [done|apply only_send_data|].
  eapply wp_mono; [apply send_data_ok; [done|exact (re_idle _ _ _ Hr)]|]. by intros [] h' ?.
Qed.

Lemma answer_step d0 d c b w :
  reached d0 d (Kbc c [b] w) -> wp (on_ports expect_data) d (fun v d' => (v = b /\ is_u8 b) /\ reached d0 d' (Kbc c [] w)).
Proof.
  intros Hr. eapply controller_step; [done|apply only_expect_data|].
  eapply wp_mono; [apply expect_data_ok; [done|exact (re_idle _ _ _ Hr)]|]. by intros v h' (? & ? & ?).
Qed.

Lemma reached_console d0 d k : console_ok d0 -> reached d0 d k -> console_ok d.
Proof.
  intros [Hi Hp Ht] [-> F _]. split; [|done|done]. apply (uart_framed (ports d0)); [|done].
  eapply framed_mono; [|exact F]. unfold keyboard_port, uart_away, clear_of, COM1. lia.
Qed.

(** A failed test ends in a panic, with a message from the pieces [ps]. *)
Lemma assert_step d0 d k line condition message (ps : Z -> list piece) tmp value Q (P : string -> Prop) :
  console_ok d0 -> reached d0 d k -> is_u8 tmp -> 0 <= line < 2 ^ 31 ->
  (forall n, 0 <= n < 256 -> pieces_ok (ps n) /\ args_of (ps n) = [VInt n] /\
     chars "Assertion Error: (" ++ chars condition ++ chars ") == false" ++ [10] ++ chars message = format_of (ps n)) ->
  (tmp = value -> Q tt d) -> (tmp <> value -> forall w, P w) ->
  wpp (assert_data line condition message tmp value) d Q P.
Proof.
  intros Hd Hr Htmp Hl Hps HQ HP. unfold assert_data. destruct (Z.eqb_spec tmp value) as [E|E]; [by apply wpp_wp, wp_ret, HQ|].
  destruct (Hps tmp Htmp) as (Hok & Ha & ->). rewrite <- Ha. unfold wpp.
  destruct (kernel_panic_panics (A := unit) Hpatience Hresult (source_path "keyboard.c") line (ps tmp) d) as [why ->]; [done|done| |by apply HP].
  by eapply reached_console.
Qed.

(** A command that gives no answer does not delay the bytes that wait. *)
Lemma quiet_step d0 d cmd k :
  reached d0 d k -> kbc_lag (ports d) = O -> kb_out (command (u8 cmd) k) = kb_out k ->
  wp (on_ports (send_command cmd)) d (fun _ d' => kbc_lag (ports d') = O /\ reached d0 d' (command (u8 cmd) k)).
Proof.
  intros [Hd F Hi] Hl Hout. unfold on_ports. wp_step.
  eapply wp_mono; [apply wp_only; [by apply send_command_ok|apply only_send_command]|].
  intros [] h' [[Hi' Hl'] F']. specialize (Hl' Hout). split; [cbn; lia|]. split; [by rewrite Hd|by etrans|done].
Qed.

Lemma flush_step d0 d c out w :
  reached d0 d (Kbc c out w) -> kbc_lag (ports d) = O -> (length out < patience)%nat ->
  wp (on_ports flush_output_buffer) d (fun _ d' => True /\ reached d0 d' (Kbc c [] w)).
Proof.
  intros Hr Hl Hlen. eapply controller_step; [done|apply only_flush_output|].
  eapply wp_mono; [by eapply flush_output_ok; [done|exact (re_idle _ _ _ Hr)|..]|]. by intros [] h' ?.
Qed.

(** The configuration at the end: interrupts of the first port on, of the second off,
    the second port disabled, no translation; the other bits as they were. *)
Definition final_config (c : Z) : Z := Z.lor (Z.land c 0x8C) 0x21.

Lemma final_config_ok c :
  is_u8 c -> u8 (Z.lor (Z.land (u8 (Z.land (Z.lor (Z.lor c 0x10) 0x20) 188)) 0xEF) 1) = final_config c.
Proof.
  intros Hc. assert (Forall (fun n => let c := Z.of_nat n in
    u8 (Z.lor (Z.land (u8 (Z.land (Z.lor (Z.lor c 0x10) 0x20) 188)) 0xEF) 1) = final_config c) (seq 0 256)) as Hall by decide_now.
  rewrite Forall_forall in Hall. specialize (Hall (Z.to_nat c)). unfold in_width in Hc.
  cbv zeta in Hall. rewrite Z2Nat.id in Hall by lia. apply Hall, elem_of_seq. lia.
Qed.

Definition test_message (condition message : string) (n : Z) : list piece :=
  [Text (chars "Assertion Error: (" ++ chars condition ++ chars ") == false" ++ [10] ++ chars message); Int false [] false Hexadecimal n; Text (chars ")")].

(** The interrupt of the keyboard is unmasked; its controller is not touched. *)
Lemma unmask_step d k :
  console_ok d -> idle (ports d) k -> kbc_lag (ports d) = O ->
  wp (on_ports (irq_clear_mask 1)) d (fun _ d' => console_ok d' /\ irq_enabled (ports d') 1 = true /\
    interrupt_handlers d' = interrupt_handlers d /\ reached d' d' k /\ kbc_lag (ports d') = O).
Proof.
  intros Hd [Hk Ho Hb Hl] Hlag. unfold on_ports. wp_step. eapply wp_mono.
  { apply wp_only; [|apply irq_clear_mask_ports]. apply irq_clear_mask_uart; [|apply Hd]. apply irq_clear_mask_ok. lia. }
  intros [] h2 [(Hen & Hi2 & _) F2].
  destruct (F2 (fun x => kbc_inv x /\ kbc_of x = k /\ kbc_busy x = O /\ kbc_lag x = O)) as (? & ? & ? & ?); [|done|].
  { intros x w p v Hp Hx. apply kbc_elsewhere; [|done]. unfold pic_ports, clear_of in *. set_unfold in Hp. lia. }
  assert (console_ok (with_ports h2 d)) as Hd2 by (destruct Hd; by split).
  split; [exact Hd2|]. split; [cbn; by rewrite Hen by lia|]. split; [done|].
  split; [split; [done|done|split; [done..|cbn; lia]]|done].
Qed.

Lemma keyboard_init_ok d c stale :
  console_ok d -> length (interrupt_handlers d) = 256%nat ->
  idle (ports d) (Kbc c stale false) -> kbc_lag (ports d) = O -> is_u8 c -> (length stale < patience)%nat ->
  wpp keyboard_init d (fun _ d' => (kbc_self_test = 0x55 /\ kbc_port_test = 0) /\ console_ok d' /\
      interrupt_handlers d' = <[33%nat := Some keyboard_handler_fn]> (interrupt_handlers d) /\
      idle (ports d') (Kbc (final_config c) [] false) /\ irq_enabled (ports d') 1 = true)
    (fun _ => ~ (kbc_self_test = 0x55 /\ kbc_port_test = 0)).
Proof.
  intros Hd Hlen Hidle Hlag Hc Hstale. unfold keyboard_init.
  apply wpp_bind. eapply wpp_wp_mono; [by apply irq_register_ok|]. intros [] d1 ->. change (Z.to_nat IRQ1) with 33%nat.
  apply wpp_bind. eapply wpp_wp_mono; [apply unmask_step; [by destruct Hd; split|exact Hidle|exact Hlag]|].
  intros [] d2 (Hd2 & Hen2 & Hh2 & R2 & L2). cbn [interrupt_handlers with_handlers] in Hh2.
  (* the ports are disabled and the buffer is emptied *)
  apply wpp_bind. eapply wpp_wp_mono; [by apply quiet_step|]. intros [] d3 [L3 R3].
  apply wpp_bind. eapply wpp_wp_mono; [by apply quiet_step|]. intros [] d4 [L4 R4].
  apply wpp_bind. eapply wpp_wp_mono; [eapply flush_step; [exact R4|exact L4|exact Hstale]|]. intros [] d5 [_ R5].
  (* the configuration *)
  apply wpp_bind. eapply wpp_wp_mono; [by eapply command_step|]. intros [] d6 [_ R6].
  apply wpp_bind. eapply wpp_wp_mono; [eapply answer_step; exact R6|]. intros conf d7 [[-> _] R7].
  apply wpp_bind. eapply wpp_wp_mono; [by eapply command_step|]. intros [] d8 [_ R8].
  apply wpp_bind. eapply wpp_wp_mono; [by eapply data_step|]. intros [] d9 [_ R9].
  (* the tests *)
  apply wpp_bind. eapply wpp_wp_mono; [by eapply command_step|]. intros [] d10 [_ R10].
  apply wpp_bind. eapply wpp_wp_mono; [eapply answer_step; exact R10|]. intros tmp d11 [[-> U11] R11].
  apply wpp_bind. eapply (assert_step d2 _ _ 68 _ _ (test_message "tmp == 0x55" "Keyboard Self Test fail (0x")); [done|exact R11|done|lia| | |by intros E w [? ?]].
  { intros n Hn. assert (int_fits n (radix_base Hexadecimal) (signed_conv false Hexadecimal)) as Hfit by (apply int_fits_hex; lia).
    split; [|split; reflexivity]. unfold test_message. solve_pieces. }
  intros T1. apply wpp_bind. eapply wpp_wp_mono; [by eapply command_step|]. intros [] d12 [_ R12].
  apply wpp_bind. eapply wpp_wp_mono; [eapply answer_step; exact R12|]. intros tmp d13 [[-> U13] R13].
  apply wpp_bind. eapply (assert_step d2 _ _ 72 _ _ (test_message "tmp == 0x00" "Keyboard first port fail (0x")); [done|exact R13|done|lia| | |by intros E w [? ?]].
  { intros n Hn. assert (int_fits n (radix_base Hexadecimal) (signed_conv false Hexadecimal)) as Hfit by (apply int_fits_hex; lia).
    split; [|split; reflexivity]. unfold test_message. solve_pieces. }
  intros T2.
  (* the first port *)
  apply wpp_bind. eapply wpp_wp_mono; [by eapply command_step|]. intros [] d14 [_ R14].
  apply wpp_bind. eapply wpp_wp_mono; [by eapply command_step|]. intros [] d15 [_ R15].
  apply wpp_bind. eapply wpp_wp_mono; [eapply answer_step; exact R15|]. intros conf d16 [[-> _] R16].
  apply wpp_bind. eapply wpp_wp_mono; [by eapply command_step|]. intros [] d17 [_ R17].
  eapply wpp_wp_mono; [by eapply data_step|]. intros [] d18 [_ R18].
  pose proof (re_devices _ _ _ R18) as E18. split; [done|]. split; [by eapply reached_console|].
  split; [by rewrite E18|]. split; [rewrite <- final_config_ok by done; exact (re_idle _ _ _ R18)|].
  rewrite (pic_framed (ports d2)); [done|]. eapply framed_mono; [|exact (re_frame _ _ _ R18)].
  unfold keyboard_port, pic_away, clear_of. lia.
Qed.

(** C40: [keyboard_init] registers the handler of the keyboard, enables its interrupt, drops
    what was waiting, and leaves the controller with the first port and its interrupts
    on and the second port off, when both self tests pass; otherwise it ends in a panic.
    The polling loops end, however long the controller takes within its bound. *)
Theorem keyboard_init_correct d c stale :
  console_ok d -> length (interrupt_handlers d) = 256%nat ->
  idle (ports d) (Kbc c stale false) -> kbc_lag (ports d) = O -> is_u8 c -> (length stale < patience)%nat ->
  if decide (kbc_self_test = 0x55 /\ kbc_port_test = 0) then
    exists d', keyboard_init d = Ok (tt, d') /\ console_ok d' /\
      interrupt_handlers d' = <[33%nat := Some keyboard_handler_fn]> (interrupt_handlers d) /\
      kbc_of (ports d') = Kbc (final_config c) [] false /\ irq_enabled (ports d') 1 = true
  else exists why, keyboard_init d = Panic why.
Proof.
  intros Hd Hlen Hi Hl Hc Hs. pose proof (keyboard_init_ok d c stale Hd Hlen Hi Hl Hc Hs) as Hw.
  unfold wpp in Hw. destruct (keyboard_init d) as [[[] d']|why| |]; [| |done..].
  - destruct Hw as (Ht & Hd' & Hh & Hk & He). rewrite decide_True by done. exists d'.
    split; [done|]. split; [done|]. split; [done|]. split; [apply Hk|done].
  - rewrite decide_False by done. by exists why.
Qed.
End Setup.

(** ** Witness: a controller that answers at once *)

Section Examples.
#[local] Existing Instances ready_uart register_pic.
#[local] Instance keyboard_patience : Patience := 2%nat.
#[local] Instance ex_source : SourcePath := chars.

(** Plain registers and a keyboard controller. *)
Record keyboard_machine : Type := Keyboard { km_regs : register_machine; km_kbc : kbc }.

#[local] Instance keyboard_is_machine : Machine keyboard_machine := {
  port_write := fun w p v h =>
    if p =? 0x64 then Keyboard (km_regs h) (kbc_command 0x55 0 v (km_kbc h))
    else if p =? 0x60 then Keyboard (km_regs h) (kbc_data v (km_kbc h))
    else Keyboard (port_write w p v (km_regs h)) (km_kbc h);
  port_read := fun w p h =>
    if p =? 0x64 then (if decide (kb_out (km_kbc h) = []) then 0 else 1, h)
    else if p =? 0x60 then
      (default 0 (head (kb_out (km_kbc h))),
       Keyboard (km_regs h) (Kbc (kb_config (km_kbc h)) (tail (kb_out (km_kbc h))) (kb_wants (km_kbc h))))
    else ((port_read w p (km_regs h)).1, h)
}.

#[local] Instance keyboard_result : PutcharResult keyboard_machine := { putchar_result := fun _ => 0 }.

(** The other devices see the registers. *)
#[local, refine] Instance keyboard_uart : UartLaws keyboard_machine := {
  uart_attached := fun h => uart_attached (km_regs h);
  uart_inv := fun h => uart_inv (km_regs h);
  uart_busy := fun h => uart_busy (km_regs h);
  uart_pending := fun h => uart_pending (km_regs h);
  uart_sent := fun h => uart_sent (km_regs h);
  uart_bound := uart_bound (HW := register_machine)
}.
Proof.
  - intros h. exact (uart_start (km_regs h)).
  - intros h. exact (uart_busy_le (km_regs h)).
  - intros h. exact (uart_pending_le (km_regs h)).
  - intros h. exact (uart_status (km_regs h)).
  - intros h. exact (uart_read (km_regs h)).
  - intros h. exact (uart_write (km_regs h)).
  - intros l. destruct (uart_elsewhere (HW := register_machine) l) as [S1 S2].
    split; intros h w p v Hp Hx; cbn; destruct (p =? 0x64), (p =? 0x60); (split; [|exact Hx]);
      try exact Hx; [apply (S1 (km_regs h) w p v Hp Hx)|apply (S2 (km_regs h) w p v Hp Hx)].
Defined.

#[local, refine] Instance keyboard_pic : PicLaws keyboard_machine := { pic_mask := fun h => pic_mask (km_regs h) }.
Proof.
  - intros h port [-> | ->]; [exact (pic_read (km_regs h) _ (or_introl eq_refl))|exact (pic_read (km_regs h) _ (or_intror eq_refl))].
  - intros h port v [-> | ->]; [exact (pic_write (km_regs h) _ v (or_introl eq_refl))|exact (pic_write (km_regs h) _ v (or_intror eq_refl))].
  - intros m h w p v Hp Hx. cbn. destruct (p =? 0x64), (p =? 0x60); (split; [|exact Hx]); try exact Hx.
    apply (pic_elsewhere (HW := register_machine) m (km_regs h) w p v Hp Hx).
Defined.

Definition kbc_bytes (k : kbc) : Prop := is_u8 (kb_config k) /\ Forall (fun b => is_u8 b) (kb_out k).

Lemma u8_lor a b : is_u8 a -> is_u8 b -> is_u8 (Z.lor a b).
Proof.
  intros Ha Hb. apply in_width_bits; [lia|apply Z.lor_nonneg; unfold in_width in *; lia|].
  intros i Hi. by rewrite Z.lor_spec, (in_width_bit_high 8 a), (in_width_bit_high 8 b).
Qed.
Lemma u8_land a b : is_u8 a -> is_u8 b -> is_u8 (Z.land a b).
Proof.
  intros Ha Hb. apply in_width_bits; [lia|apply Z.land_nonneg; unfold in_width in *; lia|].
  intros i Hi. by rewrite Z.land_spec, (in_width_bit_high 8 a), (in_width_bit_high 8 b).
Qed.

Lemma kbc_command_bytes cmd k : kbc_bytes k -> kbc_bytes (kbc_command 0x55 0 cmd k).
Proof.
  intros [Hc Ho]. assert (is_u8 0x10 /\ is_u8 0x20 /\ is_u8 0xEF /\ is_u8 0x55 /\ is_u8 0) as (C1 & C2 & C3 & C4 & C5) by done.
  unfold kbc_command. repeat case_match; split; cbn; try done; try (by apply u8_lor); try (by apply u8_land);
    by apply Forall_app_2, Forall_singleton.
Qed.

#[local, refine] Instance keyboard_controller : KbcLaws keyboard_machine := {
  kbc_inv := fun h => kbc_bytes (km_kbc h);
  kbc_of := km_kbc;
  kbc_busy := fun _ => O;
  kbc_lag := fun _ => O;
  kbc_bound := O;
  kbc_self_test := 0x55;
  kbc_port_test := 0
}.
Proof.
  - intros h Hi. unfold wp, inb. cbn. case_decide as E; cbn; (do 4 (split; [done|])); split; split; try done; by intros [].
  - intros h c b out w Hi _ Hk. unfold wp, inb. cbn. unfold kbc_bytes in *. rewrite Hk in *. cbn in *.
    destruct Hi as [Hc [Hb Ho]%Forall_cons]. split; [by apply wrap_small|]. done.
  - intros h cmd Hi _. unfold wp. cbn. split; [by apply kbc_command_bytes|]. done.
  - intros h v [Hc Ho] _. unfold wp. cbn. unfold kbc_data. split; [|done].
    destruct (kb_wants (km_kbc h)); split; cbn; try done. by apply wrap_range.
  - intros k h w p v Hp Hx. unfold clear_of in Hp. cbn.
    rewrite !(proj2 (Z.eqb_neq p _)) by lia. done.
Defined.

Definition ex_keyboard : devices keyboard_machine :=
  Devices (Keyboard (Regs (fun _ => 0x20) []) (Kbc 0x47 [0xFA] false)) (Tty 0 0 15 (replicate 2000 0)) COM1 (replicate 256 None) 0.

Lemma ex_keyboard_bounds :
  (uart_bound (HW := keyboard_machine) < patience)%nat /\ (kbc_bound (HW := keyboard_machine) < patience)%nat.
Proof. split; apply Nat.lt_0_succ. Qed.

Lemma keyboard_init_correct_witness :
  exists d', keyboard_init ex_keyboard = Ok (tt, d') /\ kbc_of (ports d') = Kbc 0x25 [] false.
Proof.
  pose proof (keyboard_init_correct (proj1 ex_keyboard_bounds) (proj2 ex_keyboard_bounds) (fun _ => Z.le_refl 0)
    ex_keyboard 0x47 [0xFA]) as Hk.
  rewrite decide_True in Hk by done. destruct Hk as (d' & Hrun & _ & _ & Hs & _).
  - split; [by repeat split|done|split; done].
  - done.
  - split; [split; [done|by repeat constructor]|done|done|done].
  - done.
  - done.
  - unfold patience, keyboard_patience. cbn. lia.
  - exists d'. split; [exact Hrun|exact Hs].
Defined.
End Examples.
