(* ===== verification/Isr.v ===== *)
(** * kernel/kernel/isr.c: interrupts

    The dispatch of exceptions and interrupt requests, and the report of a page fault.
    Registering a handler is in the file Devices. *)

From S2P Require Import Prelude Common Frames Pmm PmmFrames Vm VmPaging Port Tables Tty Devices Printf PrintfSpec Serial Panic Timer Keyboard.

(** ** Data *)

(** [registers_t]: what the entry points push. *)
Record registers_t : Type := Registers {
  dummy1 : Z; dummy2 : Z; ds : Z;
  edi : Z; esi : Z; ebp : Z; esp : Z; ebx : Z; edx : Z; ecx : Z; eax : Z;
  int_no : Z; err_code : Z; eip : Z
}.

(** The entries of page tables as the 32-bit words they are in memory. *)
Definition pde_word (e : pde_t) : Z :=
  pde_present e + 2 * pde_rw e + 4 * pde_user e + 8 * pde_pwt e + 16 * pde_pcd e + 32 * pde_accessed e
  + 64 * pde_dirty e + 128 * pde_page_size e + 256 * pde_ignored e + 4096 * pde_page_table e.
Definition pte_word (e : pte_t) : Z :=
  pte_present e + 2 * pte_rw e + 4 * pte_user e + 8 * pte_pwt e + 16 * pte_pcd e + 32 * pte_accessed e
  + 64 * pte_dirty e + 128 * pte_pat e + 256 * pte_global e + 512 * pte_ignored e + 4096 * pte_frame e.

(** ** Operations *)

Section Isr.
Context {HW : Type} `{Machine HW} `{Patience} `{PutcharResult HW} `{SourcePath}.
Context {PS : Type} `{FrameAllocator PS} `{Layout}.
(** The register CR2 and the state of the virtual memory manager, which a page fault
    reports; nothing here changes them. *)
Context (cr2 : Z) (vm : vm_state PS).

(** [printf] as a statement. *)
Definition say (format : string) (args : list va_item) : M (devices HW) unit :=
  _ ← printf (chars format ++ [10]) args; mret tt.

(** The tables of the current address space.  A [page_table] bit-field is an [int] in
    [page_table * PAGE_SIZE], which may overflow. *)
Definition report_tables (dir_idx tab_idx : Z) : M (devices HW) unit :=
  match spaces vm !! vm_current_as vm with
  | None => undef
  | Some a =>
      _ ← say "Directory is located at 0x%08x, Dir entry at 0x%08x"
            [VInt (s32 (as_directory_phys a)); VInt (s32 (as_directory_phys a + 4 * dir_idx))];
      let dir_entry := pde_at a dir_idx vm in
      _ ← say "Dir Entry: 0x%08x P:%d RW:%d Frame:%d"
            [VInt (s32 (pde_word dir_entry)); VInt (pde_present dir_entry); VInt (pde_rw dir_entry);
             VInt (pde_page_table dir_entry)];
      if pde_present dir_entry =? 0 then mret tt
      else if 2 ^ 31 <=? pde_page_table dir_entry * PAGE_SIZE then undef
      else
        _ ← say "Table is located at 0x%08x, Table entry at 0x%08x"
              [VInt (pde_page_table dir_entry * PAGE_SIZE);
               VInt (s32 (pde_page_table dir_entry * PAGE_SIZE + 4 * tab_idx))];
        match as_tables a !! dir_idx with
        | None => undef
        | Some table =>
            let page_entry := pte_at table tab_idx vm in
            say "Tab Entry: 0x%08x P:%d RW:%d Frame:%d"
              [VInt (s32 (pte_word page_entry)); VInt (pte_present page_entry); VInt (pte_rw page_entry);
               VInt (pte_frame page_entry)]
        end
  end.

Definition isr_handle_page_fault (err_code eip : Z) : M (devices HW) unit :=
  let addr := cr2 in
  let dir_idx := Z.shiftr addr 22 in
  let tab_idx := Z.land (Z.shiftr addr 12) (MASK 10) in
  let pag_idx := Z.land addr (MASK 12) in
  _ ← printf (10 :: chars "PAGE FAULT addr=0x%08x DIR=%d TAB=%d ADR=%d" ++ [10])
        [VInt (s32 addr); VInt dir_idx; VInt tab_idx; VInt pag_idx];
  _ ← (if vm_current_as vm =? 0 then mret tt else report_tables dir_idx tab_idx);
  kernel_panic (source_path "isr.c") 37 (chars "Page Fault: addr=0x%08x code=0x%x eip=0x%08x" ++ [10])
    [VInt (s32 addr); VInt (s32 err_code); VInt (s32 eip)].

Definition isr_handle_exception (int_no err_code eip : Z) : M (devices HW) unit :=
  if int_no =? 14 then isr_handle_page_fault err_code eip
  else say "ISR EXCEPTION #%d" [VInt int_no].

(** A call through the pointer of a handler. *)
Definition call_handler (f : isr_t) (int_no : Z) : M (devices HW) unit :=
  match f with
  | timer_handler_fn => timer_handler int_no
  | keyboard_handler_fn => keyboard_handler int_no
  | serial_handler_fn => serial_handler int_no
  end.

(** [int_no] is a [uint8_t], always an index of the table. *)
Definition isr_handle_irq (int_no : Z) : M (devices HW) unit :=
  _ ← (if 40 <=? int_no then on_ports (outb 0xA0 0x20) else mret tt);
  _ ← on_ports (outb 0x20 0x20);
  handlers ← gets interrupt_handlers;
  match handlers !! Z.to_nat int_no with
  | Some (Some handler) => call_handler handler int_no
  | Some None => say "IRQ%d" [VInt (int_no - 32)]
  | None => undef
  end.

Definition isr_handler (regs : registers_t) : M (devices HW) unit :=
  if int_no regs <=? 31 then isr_handle_exception (u8 (int_no regs)) (err_code regs) (eip regs)
  else isr_handle_irq (u8 (int_no regs)).
End Isr.

(** ** Specification *)

(** The end-of-interrupt commands for the vector [v]. *)
Definition acknowledged {HW} `{Machine HW} (v : Z) (h : HW) : HW :=
  port_write 8 0x20 0x20 (if 40 <=? v then port_write 8 0xA0 0x20 h else h).

Lemma acknowledged_framed {HW} `{Machine HW} v (h : HW) : framed pic_ports h (acknowledged v h).
Proof.
  intros V HV Hh. unfold acknowledged.
  assert (forall h p v, pic_ports p -> V h -> V (port_write 8 p v h)) as Hw by (intros; by apply HV).
  apply Hw; [unfold pic_ports; set_solver|]. destruct (40 <=? v); [|done]. apply Hw; [unfold pic_ports; set_solver|done].
Qed.

(** The ports of the keyboard controller. *)
Definition keyboard_ports (p : Z) : Prop := 0x60 <= p <= 0x64.

(** The clock after the handler of the vector [v] has run. *)
Definition clock_after {HW} (d : devices HW) (v : Z) : Z :=
  if decide (interrupt_handlers d !! Z.to_nat v = Some (Some timer_handler_fn))
  then u64 (ns_since_boot d + ns_per_tick) else ns_since_boot d.

Section Handlers.
Context {HW : Type} `{Machine HW} `{!UartLaws HW} `{Patience} `{PutcharResult HW} `{SourcePath}.
Context {PS : Type} `{FrameAllocator PS} `{Layout}.
Context (cr2 : Z) (vm : vm_state PS).
Hypothesis (Hpatience : (uart_bound < patience)%nat).
Hypothesis (Hresult : forall d : devices HW, 0 <= putchar_result d).
Implicit Types d : devices HW.

(** What is kept by everything that only prints. *)
Definition prints d d' : Prop := console_ok d' /\ same_drivers d d'.

Lemma prints_refl d : console_ok d -> prints d d.
Proof. by split. Qed.

Lemma prints_trans d1 d2 d3 : prints d1 d2 -> prints d2 d3 -> prints d1 d3.
Proof. intros [_ F] [? F']. split; [done|]. by etrans. Qed.

Lemma say_ok format ps d :
  chars format ++ [10] = format_of ps -> pieces_ok ps -> console_ok d ->
  wp (say format (args_of ps)) d (fun _ d' => prints d d').
Proof.
  intros Hf Hps Hd. unfold say. rewrite Hf. wp_step.
  eapply wp_mono; [by apply (console_printf_ok Hpatience Hresult)|]. intros r d' (_ & Hd' & F & _). by wp_step.
Qed.

(** The handlers of the kernel run to their end. *)
Lemma call_handler_ok f v d :
  console_ok d ->
  wp (call_handler f v) d (fun _ d' => console_ok d' /\ interrupt_handlers d' = interrupt_handlers d /\
    ns_since_boot d' = if decide (f = timer_handler_fn) then u64 (ns_since_boot d + ns_per_tick) else ns_since_boot d).
Proof.
  intros Hd. destruct f; cbn [call_handler].
  - unfold timer_handler. wp_step. split; [by destruct Hd|done].
  - unfold keyboard_handler, on_ports. wp_step. wp_step.
    eapply wp_mono; [apply (wp_only keyboard_ports); [apply inb_u8|by apply only_at_inb]|].
    intros c h [Hc F]. cbv beta.
    assert (console_ok (with_ports h d)) as Hd1.
    { destruct Hd as [Hi ? ?]. split; [|done|done]. apply (uart_framed (ports d)); [|done].
      eapply framed_mono; [|exact F]. unfold keyboard_ports, uart_away, clear_of, COM1. lia. }
    assert (int_fits c (radix_base Hexadecimal) (signed_conv false Hexadecimal)) as Hfit.
    { apply int_fits_hex. unfold in_width in Hc. lia. }
    wp_step. eapply wp_mono.
    { apply (console_printf_ok Hpatience Hresult _ [Text [48; 120]; Int false [] false Hexadecimal c; Text [10]]);
        [solve_pieces; done|done]. }
    intros r d' (_ & Hd' & [_ F1 F2 _] & _). wp_step. by split.
  - eapply wp_mono; [by apply serial_handler_ok|]. intros [] d' [Hd' [_ F1 F2 _]]. by split.
Qed.

Lemma acknowledge_ok v d :
  console_ok d -> console_ok (with_ports (acknowledged v (ports d)) d).
Proof.
  intros [Hi Hp Ht]. split; [|done|done]. apply (uart_framed (ports d)); [|done].
  apply (framed_mono pic_ports); [|apply acknowledged_framed].
  unfold pic_ports, uart_away, clear_of, COM1. intros p Hport. set_unfold in Hport. lia.
Qed.

Lemma isr_irq_run r d :
  32 <= int_no r < 256 ->
  isr_handler cr2 vm r d =
    match interrupt_handlers d !! Z.to_nat (int_no r) with
    | Some (Some f) => call_handler f (int_no r)
    | Some None => say "IRQ%d" [VInt (int_no r - 32)]
    | None => undef
    end (with_ports (acknowledged (int_no r) (ports d)) d).
Proof.
  intros Hv. unfold isr_handler. destruct (Z.leb_spec (int_no r) 31); [lia|].
  rewrite wrap_small by (unfold in_width; lia). unfold isr_handle_irq, acknowledged, mbind, M_bind.
  destruct (40 <=? int_no r); reflexivity.
Qed.

Lemma isr_irq_ok r d :
  console_ok d -> length (interrupt_handlers d) = 256%nat -> 32 <= int_no r < 256 ->
  wp (isr_handler cr2 vm r) d (fun _ d' => console_ok d' /\
    interrupt_handlers d' = interrupt_handlers d /\ ns_since_boot d' = clock_after d (int_no r)).
Proof.
  intros Hd Hlen Hv. pose proof (acknowledge_ok (int_no r) d Hd) as Hd1. unfold wp. rewrite isr_irq_run by done.
  destruct (lookup_lt_is_Some_2 (interrupt_handlers d) (Z.to_nat (int_no r))) as [[f|] Hf]; [lia| |];
    rewrite Hf; fold (wp (S := devices HW) (A := unit)); unfold clock_after; rewrite Hf.
  - eapply wp_mono; [by apply call_handler_ok|]. intros [] d' (H1' & H2' & H3'). split; [done|]. split; [done|].
    rewrite H3'. destruct (decide (f = timer_handler_fn)); case_decide; try done; congruence.
  - assert (int_fits (int_no r - 32) (radix_base Decimal) (signed_conv false Decimal)) as Hfit by (apply int_fits_dec; lia).
    eapply wp_mono.
    { apply (say_ok "IRQ%d" [Text (chars "IRQ"); Int false [] false Decimal (int_no r - 32); Text [10]] _ eq_refl); [|done].
      solve_pieces; done. }
    intros [] d' [Hd' [_ F1 F2 _]]. split; [done|]. split; [done|]. by rewrite decide_False.
Qed.
End Handlers.

(** ** Page faults *)

Section Faults.
Context {HW : Type} `{Machine HW} `{!UartLaws HW} `{Patience} `{PutcharResult HW} `{SourcePath}.
Context {PS : Type} `{FrameAllocator PS} `{Layout}.
Hypothesis (Hpatience : (uart_bound < patience)%nat).
Hypothesis (Hresult : forall d : devices HW, 0 <= putchar_result d).
Implicit Types (d : devices HW) (vm : vm_state PS).

(** The bit-fields of the entries hold bits, and page tables lie below 2 GB, as those of
    the kernel do. *)
Definition entry_fields vm : Prop :=
  map_Forall (fun _ e => 0 <= pde_present e < 2 /\ 0 <= pde_rw e < 2 /\ 0 <= pde_page_table e < 2 ^ 19) (pdes vm) /\
  map_Forall (fun _ e => 0 <= pte_present e < 2 /\ 0 <= pte_rw e < 2) (ptes vm).

Lemma pde_fields vm a i : entry_fields vm ->
  let e := pde_at a i vm in
  0 <= pde_present e < 2 /\ 0 <= pde_rw e < 2 /\ 0 <= pde_page_table e < 2 ^ 19.
Proof.
  intros [He _]. unfold pde_at. destruct (pdes vm !! _) as [e|] eqn:E; [by apply (He _ _ E)|done].
Qed.

Lemma pte_fields vm t i : entry_fields vm ->
  let e := pte_at t i vm in 0 <= pte_present e < 2 /\ 0 <= pte_rw e < 2.
Proof.
  intros [_ He]. unfold pte_at. destruct (ptes vm !! _) as [e|] eqn:E; [by apply (He _ _ E)|done].
Qed.

(** Numbers as [%08x] and [%d] print them. *)
Abbreviation Hex n := (Int true [56] false Hexadecimal n).
Abbreviation Dec n := (Int false [] false Decimal n).

Lemma fits_hex n : - 2 ^ 31 <= n < 2 ^ 31 -> int_fits n (radix_base Hexadecimal) (signed_conv false Hexadecimal).
Proof. apply int_fits_hex. Qed.
Lemma fits_dec n : - 2 ^ 31 < n < 2 ^ 31 -> int_fits n (radix_base Decimal) (signed_conv false Decimal).
Proof. apply int_fits_dec. Qed.

Ltac report :=
  solve_pieces; first [apply fits_hex, s32_range | apply fits_hex; lia | apply fits_dec; lia].

(** A [say] whose format is made of the given pieces. *)
Tactic Notation "say_pieces" uconstr(l) :=
  eapply wp_mono; [apply (say_ok Hpatience Hresult) with (ps := l); [reflexivity|report|done]|].

Lemma report_tables_ok vm dir_idx tab_idx d :
  console_ok d -> entry_fields vm -> paging_wf vm -> 0 <= dir_idx < 1024 ->
  wp (report_tables vm dir_idx tab_idx) d (fun _ d' => prints d d').
Proof.
  intros Hd He (a & Hsp & _) Hi. unfold report_tables. rewrite (sw_space _ _ _ Hsp).
  pose proof (pde_fields vm a dir_idx He) as (P1 & P2 & P3). pose proof (sw_pde _ _ _ Hsp _ Hi) as Ht.
  set (e := pde_at a dir_idx vm) in *.
  wp_step. say_pieces ([Text (chars "Directory is located at 0x"); Hex (s32 (as_directory_phys a));
    Text (chars ", Dir entry at 0x"); Hex (s32 (as_directory_phys a + 4 * dir_idx)); Text [10]]).
  intros [] d1 [Hd1 F1]. wp_step. say_pieces ([Text (chars "Dir Entry: 0x"); Hex (s32 (pde_word e)); Text (chars " P:");
    Dec (pde_present e); Text (chars " RW:"); Dec (pde_rw e); Text (chars " Frame:"); Dec (pde_page_table e); Text [10]]).
  intros [] d2 [Hd2 F2]. assert (prints d d2) as Hp2 by (split; [done|by etrans]).
  destruct (Z.eqb_spec (pde_present e) 0) as [E|E]; [by wp_step|].
  change PAGE_SIZE with 4096. destruct (Z.leb_spec (2 ^ 31) (pde_page_table e * 4096)); [lia|].
  wp_step. say_pieces ([Text (chars "Table is located at 0x"); Hex (pde_page_table e * 4096);
    Text (chars ", Table entry at 0x"); Hex (s32 (pde_page_table e * 4096 + 4 * tab_idx)); Text [10]]).
  intros [] d3 Hp3. pose proof (proj1 Hp3) as Hd3. destruct (as_tables a !! dir_idx) as [t|]; [|by rewrite Ht in E].
  pose proof (pte_fields vm t tab_idx He) as (T1 & T2).
  pose proof (pte_at_frame vm _ a t tab_idx Hsp) as T3. unfold in_width in T3. set (pe := pte_at t tab_idx vm) in *.
  say_pieces ([Text (chars "Tab Entry: 0x"); Hex (s32 (pte_word pe)); Text (chars " P:");
    Dec (pte_present pe); Text (chars " RW:"); Dec (pte_rw pe); Text (chars " Frame:"); Dec (pte_frame pe); Text [10]]).
  intros [] d4 Hp4. eapply prints_trans; [exact Hp2|]. by eapply prints_trans.
Qed.

Lemma page_fault_ok cr2 vm err eip d :
  console_ok d -> is_u32 cr2 -> entry_fields vm -> vm_current_as vm = 0 \/ paging_wf vm ->
  exists why, isr_handle_page_fault cr2 vm err eip d = Panic why.
Proof.
  intros Hd Ha He Hvm. unfold isr_handle_page_fault.
  assert (0 <= Z.shiftr cr2 22 < 1024) as Hdir by (rewrite dir_of_shift; by apply dir_range).
  assert (0 <= Z.land (Z.shiftr cr2 12) (MASK 10) < 1024) as Htab.
  { rewrite tab_of_shift. apply tab_range. }
  assert (0 <= Z.land cr2 (MASK 12) < 4096) as Hpag.
  { change (MASK 12) with (Z.ones 12). rewrite land_ones_mod by lia. by apply Z.mod_pos_bound. }
  eapply bind_panics.
  { change (10 :: chars "PAGE FAULT addr=0x%08x DIR=%d TAB=%d ADR=%d" ++ [10]) with (format_of
      [Text (10 :: chars "PAGE FAULT addr=0x"); Hex (s32 cr2); Text (chars " DIR="); Dec (Z.shiftr cr2 22);
       Text (chars " TAB="); Dec (Z.land (Z.shiftr cr2 12) (MASK 10)); Text (chars " ADR="); Dec (Z.land cr2 (MASK 12));
       Text [10]]).
    change [VInt (s32 cr2); _; _; _] with (args_of
      [Text (10 :: chars "PAGE FAULT addr=0x"); Hex (s32 cr2); Text (chars " DIR="); Dec (Z.shiftr cr2 22);
       Text (chars " TAB="); Dec (Z.land (Z.shiftr cr2 12) (MASK 10)); Text (chars " ADR="); Dec (Z.land cr2 (MASK 12));
       Text [10]]).
    apply (console_printf_ok Hpatience Hresult); [report|done]. }
  intros r d1 (_ & Hd1 & _). eapply (bind_panics _ _ _ (fun _ d' => prints d1 d')).
  { destruct (Z.eqb_spec (vm_current_as vm) 0) as [E|E]; [wp_step; by apply prints_refl|].
    apply report_tables_ok; [done|done| |done]. by destruct Hvm. }
  intros [] d2 [Hd2 _].
  apply (kernel_panic_panics Hpatience Hresult _ _ [Text (chars "Page Fault: addr=0x"); Hex (s32 cr2);
    Text (chars " code=0x"); Int false [] false Hexadecimal (s32 err); Text (chars " eip=0x"); Hex (s32 eip); Text [10]]);
    [lia|report|done].
Qed.

(** ** Theorems *)

(** C22: Every interrupt request is handled to its end, whichever of the kernel's handlers is
    registered for it, or none: it is acknowledged at the controllers it came through
    before the handler runs, the console keeps working, and the clock advances for the
    timer's requests alone. *)
Theorem isr_handler_correct cr2 vm r d :
  console_ok d -> length (interrupt_handlers d) = 256%nat -> 32 <= int_no r < 256 ->
  exists d', isr_handler cr2 vm r d = Ok (tt, d') /\ console_ok d' /\
    interrupt_handlers d' = interrupt_handlers d /\ ns_since_boot d' = clock_after d (int_no r) /\
    forall f, interrupt_handlers d !! Z.to_nat (int_no r) = Some (Some f) ->
      call_handler f (int_no r) (with_ports (acknowledged (int_no r) (ports d)) d) = Ok (tt, d').
Proof.
  intros Hd Hlen Hv. pose proof (isr_irq_ok cr2 vm Hpatience Hresult r d Hd Hlen Hv) as Hw.
  destruct (proj1 (wp_ok _ _ _) Hw) as ([] & d' & Hrun & H1' & H2' & H3'). exists d'. do 4 (split; [done|]).
  intros f Hf. by rewrite isr_irq_run, Hf in Hrun.
Qed.

End Faults.

(** ** Witnesses *)

Section Examples.
#[local] Existing Instances ex_patience ex_result ready_uart PmmFrames.pmm_allocator.
#[local] Instance ex_path : SourcePath := chars.

(** The registers of an interrupt with the given vector. *)
Definition ex_registers (v : Z) : registers_t := Registers 0 0 16 0 0 0 0 0 0 0 0 v 0 0xC0101234.

(** The console of the examples, with the clock's handler registered. *)
Definition ex_clock : devices register_machine :=
  with_handlers (<[32%nat := Some timer_handler_fn]> (interrupt_handlers ex_devices)) ex_devices.

Lemma ex_clock_ok : console_ok ex_clock.
Proof. split; [done|done|]. split; done. Qed.

(** Before [vm_init]: no address space is current. *)
Definition ex_paging : vm_state Pmm.pmm_state := vm_boot (Pmm.pmm_boot ∅).

Lemma isr_handler_correct_witness :
  exists d', isr_handler 0 ex_paging (ex_registers 32) ex_clock = Ok (tt, d') /\ ns_since_boot d' = ns_per_tick.
Proof.
  destruct (isr_handler_correct ex_patient ex_nonnegative 0 ex_paging (ex_registers 32) ex_clock ex_clock_ok)
    as (d' & Hrun & _ & _ & Hns & _); [reflexivity|cbn; lia|]. exists d'. split; [exact Hrun|].
  rewrite Hns. reflexivity.
Defined.

End Examples.
