(* ===== verification/Entry.v ===== *)
(** * kernel/kernel/isr.asm: the entry points of interrupts

    What the processor does when an interrupt arrives, the 48 entry points, the common
    stub that calls [isr_handler] and the way back.  The compiled [isr_handler] is the
    model of isr.c with the registers it may change; it is called with the frame on the
    stack as its argument. *)

From S2P Require Import Prelude Common Frames Cstring Port Tables Tty Devices Vm Printf PrintfSpec Serial Panic Timer Keyboard Isr Cpu.
From S2P Require Pmm PmmFrames.

(** ** The code *)

(** The exceptions whose macro is ISR_ERRCODE, and those for which the processor pushes an
    error code. *)
Definition has_errcode (v : Z) : bool := bool_decide (v ∈ [8; 10; 11; 12; 13; 14; 17]).
Definition pushes_error_code (v : Z) : bool := (v =? 8) || (10 <=? v) && (v <=? 14) || (v =? 17).

Definition isr_common_stub : list instr := [
  Pushad;
  Mov_rm EAX (Base ESP 40);
  Push_r EAX;
  Push_r EBP;
  Mov_rr EBP ESP;
  Mov_ws EAX DS;
  Push_r EAX;
  Mov_wi EAX 0x10;
  Mov_sw DS EAX;
  Mov_sw ES EAX;
  Mov_sw FS EAX;
  Mov_sw GS EAX;
  Call "isr_handler";
  Pop_r EAX;
  Mov_sw DS EAX;
  Mov_sw ES EAX;
  Mov_sw FS EAX;
  Mov_sw GS EAX;
  Add_ri ESP 8;
  Popad;
  Add_ri ESP 8;
  Sti;
  Iret
].

(** The stub is the first label of the file. *)
Definition ISR_NO_ERRCODE (v : Z) : list instr := [Cli; Push_i 0; Push_i v; Jmp 0].
Definition ISR_ERRCODE (v : Z) : list instr := [Cli; Push_i v; Jmp 0].
Definition isr_code (v : Z) : list instr := if has_errcode v then ISR_ERRCODE v else ISR_NO_ERRCODE v.

Definition isr_asm : list instr := isr_common_stub ++ concat (map isr_code (seqZ 0 48)).

(** The instruction at the label [isr<v>]. *)
Definition isr_label (v : Z) : nat := length isr_common_stub + length (concat (map isr_code (seqZ 0 v))).

Lemma isr_asm_lookup v j i : 0 <= v < 48 -> isr_code v !! j = Some i -> isr_asm !! (isr_label v + j)%nat = Some i.
Proof.
  intros Hv Hj. pose proof (lookup_lt_Some _ _ _ Hj) as Hlen. unfold isr_asm, isr_label. rewrite lookup_app_r by lia.
  replace 48 with (v + (48 - v)) at 1 by lia. rewrite seqZ_app, map_app, concat_app, lookup_app_r by lia.
  rewrite (seqZ_cons (0 + v)) by lia. cbn [map concat]. rewrite Z.add_0_l, lookup_app_l by lia. rewrite <- Hj. f_equal. lia.
Qed.

Lemma isr_label_lt v : 0 <= v < 48 -> (isr_label v < length isr_asm)%nat.
Proof.
  intros Hv. assert (exists i, isr_code v !! 0%nat = Some i) as [i Hi] by (unfold isr_code; destruct (has_errcode v); by eexists).
  apply (isr_asm_lookup v 0 i Hv), lookup_lt_Some in Hi. lia.
Qed.

Lemma stub_lookup j i : isr_common_stub !! j = Some i -> isr_asm !! j = Some i.
Proof. intros Hj. unfold isr_asm. by apply lookup_app_l_Some. Qed.

Lemma isr_asm_long : (23 < length isr_asm)%nat.
Proof. vm_compute. lia. Qed.

(** ** The machine *)

(** The memory of the kernel, by linear addresses, and its devices. *)
Record system {HW : Type} : Type := System { linear : gmap Z Z; drivers : devices HW }.
Arguments system : clear implicits.
Arguments System {HW}.

Section Entry.
Context {HW : Type} `{Machine HW} `{Patience} `{PutcharResult HW} `{SourcePath}.
Context {PS : Type} `{FrameAllocator PS} `{Layout} `{Encoding}.
Context (cr2 : Z) (vm : vm_state PS).
(** What the compiled [isr_handler] leaves in the registers and in memory. *)
Context (compiled : machine (system HW) -> machine (system HW)).

Definition with_linear (m : gmap Z Z) (s : system HW) : system HW := System m (drivers s).
Definition with_drivers (d : devices HW) (s : system HW) : system HW := System (linear s) d.

#[export] Instance linear_bus : Bus (system HW) := {
  bus_fetch := fun _ a => mret a;
  bus_load := fun _ a => zoom linear with_linear (load32 a);
  bus_store := fun _ a v => zoom linear with_linear (store32 a v)
}.

(** The argument of [isr_handler], passed by value: the dwords from [a] on. *)
Definition read_registers (a : Z) : M (machine (system HW)) registers_t :=
  dummy1 ← load a; dummy2 ← load (a + 4); ds ← load (a + 8);
  edi ← load (a + 12); esi ← load (a + 16); ebp ← load (a + 20); esp ← load (a + 24);
  ebx ← load (a + 28); edx ← load (a + 32); ecx ← load (a + 36); eax ← load (a + 40);
  int_no ← load (a + 44); err_code ← load (a + 48); eip ← load (a + 52);
  mret (Registers dummy1 dummy2 ds edi esi ebp esp ebx edx ecx eax int_no err_code eip).

(** A call: the return address is on top of the stack, the argument above it. *)
Definition call_isr_handler : M (machine (system HW)) unit :=
  sp ← get ESP;
  regs ← read_registers (sp + 4);
  _ ← zoom bus with_bus (zoom drivers with_drivers (isr_handler cr2 vm regs));
  _ ← modify compiled;
  a ← pop; jump a.

Definition callee (f : string) : M (machine (system HW)) unit :=
  if String.eqb f "isr_handler" then call_isr_handler else undef.

(** An interrupt or exception at privilege level 0 through an interrupt gate. *)
Definition interrupt (gate : idt_entry_t) (v err : Z) : M (machine (system HW)) unit :=
  f ← gets eflags; _ ← push f;
  c ← gets cs; _ ← push c;
  a ← gets eip; _ ← push a;
  _ ← (if pushes_error_code v then push err else mret tt);
  modify (fun s => with_eip (idt_offset gate) (with_cs (sel gate) (with_eflags (set_flag IF false (eflags s)) s))).

(** The convention for calls in C: the callee returns with the stack pointer, EBX, ESI,
    EDI, EBP and the segments as they were.  That it leaves its argument (and the rest of
    the interrupt's frame) alone is not part of that convention, but the stub needs it. *)
Definition cdecl : Prop := forall s,
  exists eax ecx edx fl m,
    compiled s = Cpu (Gprs eax ecx edx (r_ebx (gpr s)) (r_esp (gpr s)) (r_ebp (gpr s)) (r_esi (gpr s)) (r_edi (gpr s)))
      (seg s) (cs s) (ctl s) (eip s) fl (System m (drivers (bus s))) /\
    forall a, r_esp (gpr s) <= a < r_esp (gpr s) + 68 -> m !! a = linear (bus s) !! a.
End Entry.

(** ** The stack *)

(** The dwords from [a] on are [l]. *)
Fixpoint stack_at (m : gmap Z Z) (a : Z) (l : list Z) : Prop :=
  match l with [] => True | v :: l => dword m a = Some v /\ stack_at m (a + 4) l end.

Lemma stack_push m sp v l : forall a, sp <= a -> stack_at m a l -> stack_at (poke (sp - 4) v m) a l.
Proof.
  induction l as [|w l IH]; intros a Ha; [done|]. intros [Hw Hl]. split; [|by apply IH; [lia|]].
  by rewrite dword_poke_other by lia.
Qed.

Lemma stack_keep m m' l : forall a,
  (forall i, a <= i < a + 4 * Z.of_nat (length l) -> m' !! i = m !! i) -> stack_at m a l -> stack_at m' a l.
Proof.
  induction l as [|w l IH]; intros a Hm; [done|]. intros [Hw Hl]. simpl in Hm. split.
  - rewrite (dword_bytes m); [done|]. intros i Hi. apply Hm. lia.
  - apply IH; [|done]. intros i Hi. apply Hm. lia.
Qed.

Lemma stack_lookup m l : forall a i v, stack_at m a l -> l !! i = Some v -> dword m (a + 4 * Z.of_nat i) = Some v.
Proof.
  induction l as [|w l IH]; intros a i v; [done|]. intros [Hw Hl] Hi. destruct i as [|i].
  - injection Hi as <-. by rewrite Z.add_0_r.
  - rewrite <- (IH (a + 4) i v Hl Hi). f_equal. lia.
Qed.

Section Stack.
Context {HW : Type}.
Implicit Types (Q : unit -> machine (system HW) -> Prop) (dv : devices HW).

Lemma wp_push v a c d b sp bp si di sg c0 ct ip fl m dv l Q :
  4 <= sp < 2 ^ 32 -> is_u32 v -> stack_at m sp l ->
  (forall m', stack_at m' (sp - 4) (v :: l) ->
     Q tt (Cpu (Gprs a c d b (sp - 4) bp si di) sg c0 ct ip fl (System m' dv))) ->
  wp (push v) (Cpu (Gprs a c d b sp bp si di) sg c0 ct ip fl (System m dv)) Q.
Proof.
  intros Hsp Hv Hl HQ. unfold push, get, set, store. do 4 wp_step. cbn.
  rewrite (wrap_small 32 (sp - 4)) by (unfold in_width; lia).
  apply HQ. split; [by apply dword_poke_same|]. replace (sp - 4 + 4) with sp by lia. by apply stack_push.
Qed.

Lemma wp_load_linear k v a c d b sp bp si di sg c0 ct ip fl m dv (Q : Z -> machine (system HW) -> Prop) :
  is_u32 k -> dword m k = Some v -> Q v (Cpu (Gprs a c d b sp bp si di) sg c0 ct ip fl (System m dv)) ->
  wp (load k) (Cpu (Gprs a c d b sp bp si di) sg c0 ct ip fl (System m dv)) Q.
Proof.
  intros Hk Hv HQ. unfold load, on_bus. cbn. unfold zoom, wp. cbn. rewrite wrap_small by done.
  by rewrite (load32_dword _ _ _ Hv).
Qed.

Lemma wp_pop v a c d b sp bp si di sg c0 ct ip fl m dv l (Q : Z -> machine (system HW) -> Prop) :
  0 <= sp -> sp + 4 < 2 ^ 32 -> stack_at m sp (v :: l) ->
  (stack_at m (sp + 4) l -> Q v (Cpu (Gprs a c d b (sp + 4) bp si di) sg c0 ct ip fl (System m dv))) ->
  wp pop (Cpu (Gprs a c d b sp bp si di) sg c0 ct ip fl (System m dv)) Q.
Proof.
  intros Hsp Hsp4 [Hv Hl] HQ. unfold pop, get. do 3 wp_step. eapply wp_load_linear; [unfold in_width; cbn; lia|exact Hv|].
  unfold set. do 3 wp_step. cbn. rewrite wrap_small by (unfold in_width; lia). by apply HQ.
Qed.
End Stack.

(** ** Execution *)

#[local] Opaque isr_asm isr_label.

Section Execution.
Context {HW : Type} `{Machine HW} `{Patience} `{PutcharResult HW} `{SourcePath}.
Context {PS : Type} `{FrameAllocator PS} `{Layout} `{Encoding}.
Context (cr2 : Z) (vm : vm_state PS) (compiled : machine (system HW) -> machine (system HW)) (text : Z).
Hypothesis (Hsize : forall k, 0 < insn_size k).
Hypothesis (Htext : 0 <= text) (Hend : text + pos (length isr_asm) < 2 ^ 32).
Implicit Types (s : machine (system HW)) (dv : devices HW).

Abbreviation mstep := (step (callee cr2 vm compiled) isr_asm text).
Abbreviation mreaches := (reaches (callee cr2 vm compiled) isr_asm text).

Lemma pos_u32 k : (k < length isr_asm)%nat -> is_u32 (text + pos k).
Proof. intros Hk. pose proof (pos_range Hsize k (length isr_asm) ltac:(lia)). unfold in_width. lia. Qed.

Lemma insn_ok k i s Q :
  isr_asm !! k = Some i -> eip s = text + pos k ->
  wp (exec (callee cr2 vm compiled) (fun l => pos l - pos (S k)) i) (with_eip (text + pos (S k)) s) Q ->
  wp mstep s Q.
Proof. intros Hi He HQ. by apply (step_insn _ _ _ Hsize k i text). Qed.

(** The next instruction is the [k]-th of the file. *)
Ltac insn k :=
  apply reaches_step; eapply (insn_ok k);
  [ first [by apply stub_lookup | match goal with H : _ |- _ => by apply H end]
  | cbn [eip with_eip with_eflags with_gpr with_seg]; do 2 f_equal; lia
  | unfold with_eip, with_eflags; cbn [eip gpr seg cs ctl eflags bus] ].

(** A push of a register. *)
Ltac push_step :=
  unfold push_reg, get; repeat wp_step; regs;
  match goal with Hl : stack_at _ _ _ |- _ =>
    eapply wp_push; [lia | first [assumption | unfold in_width; lia] | exact Hl|]; clear Hl; intros ? ? end.

Lemma low_word x w : is_u16 w -> u16 (u32 (x / 2 ^ 16 * 2 ^ 16 + w)) = w.
Proof.
  intros Hw. unfold in_width, wrap in *. change (2 ^ 16) with 65536 in *. change (2 ^ 32) with 4294967296.
  Z.div_mod_to_equations. lia.
Qed.

(** Load the [i]-th dword of the stack. *)
Ltac load_dword i :=
  match goal with Hl : stack_at _ _ _ |- _ =>
    eapply wp_load_linear;
    [ unfold in_width; lia
    | etransitivity; [|exact (stack_lookup _ _ _ i _ Hl eq_refl)]; f_equal; lia |] end.

Ltac pop_step :=
  unfold pop_reg, set; repeat wp_step;
  match goal with Hl : stack_at _ _ _ |- _ =>
    eapply wp_pop; [lia | lia | exact Hl |]; clear Hl; intros Hl; repeat wp_step; regs;
    repeat match goal with Hu : is_u32 ?x |- _ => rewrite (wrap_small 32 x Hu) end end.

(** A jump to a label of the file. *)
Lemma wp_jump l k s (Q : unit -> machine (system HW) -> Prop) :
  (l < length isr_asm)%nat -> eip s = text + pos (S k) -> Q tt (with_eip (text + pos l) s) ->
  wp (exec (callee cr2 vm compiled) (fun l => pos l - pos (S k)) (Jmp l)) s Q.
Proof.
  intros Hl He HQ. cbn [exec]. unfold jump. do 3 wp_step. rewrite He.
  replace (text + pos (S k) + (pos l - pos (S k))) with (text + pos l) by lia.
  rewrite wrap_small; [done|]. by apply pos_u32.
Qed.

(** The entry point of the vector [v] leads to the common stub, with the vector and an error
    code on the stack. *)
Lemma entry_ok v err a c d b sp bp si di sg c0 ct fl m dv l :
  0 <= v < 48 -> 8 <= sp < 2 ^ 32 -> stack_at m sp (if has_errcode v then err :: l else l) ->
  mreaches (Cpu (Gprs a c d b sp bp si di) sg c0 ct (text + pos (isr_label v)) fl (System m dv)) (fun s' =>
    exists m' fl', let sp' := if has_errcode v then sp - 4 else sp - 8 in
      s' = Cpu (Gprs a c d b sp' bp si di) sg c0 ct (text + pos 0) fl' (System m' dv) /\
      stack_at m' sp' (v :: (if has_errcode v then err else 0) :: l)).
Proof.
  intros Hv Hsp Hl. pose proof (isr_asm_lookup v) as Hcode. unfold isr_code, ISR_ERRCODE, ISR_NO_ERRCODE in Hcode.
  assert (is_u32 v) as Hu by (unfold in_width; lia). destruct (has_errcode v).
  - insn (isr_label v + 0)%nat. cbn [exec]. wp_step.
    insn (isr_label v + 1)%nat. cbn [exec]. eapply wp_push; [lia|done|exact Hl|]. intros m1 H1'.
    insn (isr_label v + 2)%nat. apply wp_jump; [pose proof isr_asm_long; lia|done|]. apply reaches_done.
    eexists _, _. split; [reflexivity|done].
  - insn (isr_label v + 0)%nat. cbn [exec]. wp_step.
    insn (isr_label v + 1)%nat. cbn [exec]. eapply wp_push; [lia|done|exact Hl|]. intros m1 H1'.
    insn (isr_label v + 2)%nat. cbn [exec]. eapply wp_push; [lia|done|exact H1'|]. intros m2 H2'.
    insn (isr_label v + 3)%nat. apply wp_jump; [pose proof isr_asm_long; lia|done|]. apply reaches_done.
    replace (sp - 8) with (sp - 4 - 4) by lia. eexists _, _. split; [reflexivity|done].
Qed.

(** The frame of an interrupt, as [isr_handler] reads it. *)
Definition frame a c d b sp bp si di ds v err ip : list Z :=
  [ip / 2 ^ 16 * 2 ^ 16 + u16 ds; bp; ip; di; si; bp; sp; b; d; c; a; v; err; ip].

Lemma prologue_ok v err ip a c d b sp bp si di sg c0 ct fl m dv l :
  Forall is_u32 [a; c; d; b; bp; si; di; ip] -> 44 <= sp -> sp + 12 < 2 ^ 32 -> stack_at m sp (v :: err :: ip :: l) ->
  mreaches (Cpu (Gprs a c d b sp bp si di) sg c0 ct (text + pos 0) fl (System m dv)) (fun s' =>
    exists m' a', is_u32 a' /\
      s' = Cpu (Gprs a' c d b (sp - 44) (sp - 40) si di) (Segments 0x10 0x10 0x10 0x10) c0 ct (text + pos 12) fl (System m' dv) /\
      stack_at m' (sp - 44) (frame a c d b sp bp si di (s_ds sg) v err ip ++ l)).
Proof.
  intros Hg Hsp Hsp' Hl. destruct sg as [ds es fs gs]. cbn [s_ds]. repeat apply Forall_cons in Hg as [? Hg].
  insn 0%nat. cbn [exec]. do 8 push_step.
  replace (sp - 4 - 4 - 4 - 4 - 4 - 4 - 4 - 4) with (sp - 32) in * by lia.
  match goal with Hl : stack_at _ _ _ |- _ => pose proof (stack_lookup _ _ _ 10 _ Hl eq_refl) as Hip end.
  insn 1%nat. cbn [exec address]. unfold get, set. repeat wp_step. regs.
  rewrite (wrap_small 32 (sp - 32 + 40)) by (unfold in_width; lia).
  eapply wp_load_linear; [unfold in_width; lia|exact Hip|]. wp_step. regs. rewrite (wrap_small 32 ip) by done.
  insn 2%nat. cbn [exec]. push_step.
  insn 3%nat. cbn [exec]. push_step.
  replace (sp - 32 - 4 - 4) with (sp - 40) in * by lia.
  insn 4%nat. cbn [exec]. unfold get, set. repeat wp_step. regs. rewrite (wrap_small 32 (sp - 40)) by (unfold in_width; lia).
  insn 5%nat. cbn [exec]. unfold get, set. repeat wp_step. regs.
  pose proof (wrap_range 16 ds ltac:(lia)) as Hds.
  assert (is_u32 (ip / 2 ^ 16 * 2 ^ 16 + u16 ds)) as Hw by (unfold in_width in *; Z.div_mod_to_equations; lia).
  rewrite (wrap_small 32 _ Hw).
  insn 6%nat. cbn [exec]. push_step. replace (sp - 40 - 4) with (sp - 44) in * by lia.
  insn 7%nat. cbn [exec]. unfold get, set. repeat wp_step. regs.
  insn 8%nat. cbn [exec]. unfold get. repeat wp_step. regs.
  insn 9%nat. cbn [exec]. unfold get. repeat wp_step. regs.
  insn 10%nat. cbn [exec]. unfold get. repeat wp_step. regs.
  insn 11%nat. cbn [exec]. unfold get. repeat wp_step. regs.
  change (u16 16) with 16. rewrite low_word by done. apply reaches_done. eexists _, _.
  split; [apply wrap_range; lia|]. split; [reflexivity|done].
Qed.

(** The call of [isr_handler], with the frame as its argument. *)
Definition registers_of a c d b sp bp si di ds v err ip : registers_t :=
  Registers (ip / 2 ^ 16 * 2 ^ 16 + u16 ds) bp ip di si bp sp b d c a v err ip.

Lemma read_registers_ok a c d b sp bp si di ds v err ip l g sg c0 ct ei fl m dv
    (Q : registers_t -> machine (system HW) -> Prop) :
  0 <= r_esp g -> r_esp g + 4 + 56 < 2 ^ 32 ->
  stack_at m (r_esp g + 4) (frame a c d b sp bp si di ds v err ip ++ l) ->
  Q (registers_of a c d b sp bp si di ds v err ip) (Cpu g sg c0 ct ei fl (System m dv)) ->
  wp (read_registers (r_esp g + 4)) (Cpu g sg c0 ct ei fl (System m dv)) Q.
Proof.
  destruct g as [ga gc gd gb gsp gbp gsi gdi]. cbn [r_esp]. intros Hlo Hhi Hl HQ. unfold read_registers.
  wp_step. load_dword 0%nat. wp_step. load_dword 1%nat. wp_step. load_dword 2%nat. wp_step. load_dword 3%nat.
  wp_step. load_dword 4%nat. wp_step. load_dword 5%nat. wp_step. load_dword 6%nat. wp_step. load_dword 7%nat.
  wp_step. load_dword 8%nat. wp_step. load_dword 9%nat. wp_step. load_dword 10%nat. wp_step. load_dword 11%nat.
  wp_step. load_dword 12%nat. wp_step. load_dword 13%nat. wp_step. exact HQ.
Qed.

(** The handler runs on the frame and returns to the stub. *)
Lemma handler_ok a c d b sp bp si di ds v err ip rest ret g sg c0 ct ei fl m dv d' (Q : unit -> machine (system HW) -> Prop) :
  0 <= r_esp g -> r_esp g + 60 < 2 ^ 32 -> length rest = 2%nat -> cdecl compiled -> is_u32 ret ->
  stack_at m (r_esp g) (ret :: frame a c d b sp bp si di ds v err ip ++ rest) ->
  isr_handler cr2 vm (registers_of a c d b sp bp si di ds v err ip) dv = Ok (tt, d') ->
  (forall a' c' d0 fl' m', stack_at m' (r_esp g + 4) (frame a c d b sp bp si di ds v err ip ++ rest) ->
     Q tt (Cpu (Gprs a' c' d0 (r_ebx g) (r_esp g + 4) (r_ebp g) (r_esi g) (r_edi g)) sg c0 ct ret fl' (System m' d'))) ->
  wp (call_isr_handler cr2 vm compiled) (Cpu g sg c0 ct ei fl (System m dv)) Q.
Proof.
  intros Hlo Hhi Hrest Hc Hret Hl Hrun HQ. unfold call_isr_handler, get. do 3 wp_step. cbn [get_reg gpr].
  apply (read_registers_ok a c d b sp bp si di ds v err ip rest); [lia..|by destruct Hl|].
  wp_step. unfold wp at 1, zoom. cbn [bus drivers]. rewrite Hrun. unfold with_drivers. wp_step. wp_step.
  destruct (Hc (Cpu g sg c0 ct ei fl (System m d'))) as (a' & c' & d0 & fl' & m' & E & Hm).
  unfold with_bus. cbn [gpr seg cs ctl eip eflags bus linear drivers] in *. rewrite E.
  wp_step. eapply (wp_pop ret); [lia|lia| |].
  { eapply stack_keep; [|exact Hl]. intros i Hi. apply Hm. cbn [length frame app] in Hi. rewrite Hrest in Hi. lia. }
  intros Hl'. unfold jump. wp_step. rewrite wrap_small by done. by apply HQ.
Qed.

Lemma call_ok a c d b sp bp si di ds v err ip fl0 cs0 a' sg c0 ct fl m dv d' :
  48 <= sp -> sp + 24 < 2 ^ 32 -> cdecl compiled ->
  stack_at m (sp - 44) (frame a c d b sp bp si di ds v err ip ++ [cs0; fl0]) ->
  isr_handler cr2 vm (registers_of a c d b sp bp si di ds v err ip) dv = Ok (tt, d') ->
  mreaches (Cpu (Gprs a' c d b (sp - 44) (sp - 40) si di) sg c0 ct (text + pos 12) fl (System m dv)) (fun s' =>
    exists m' a' c' d0 fl',
      s' = Cpu (Gprs a' c' d0 b (sp - 44) (sp - 40) si di) sg c0 ct (text + pos 13) fl' (System m' d') /\
      stack_at m' (sp - 44) (frame a c d b sp bp si di ds v err ip ++ [cs0; fl0])).
Proof.
  intros Hsp Hsp' Hc Hl Hrun.
  insn 12%nat. cbn [exec]. do 3 wp_step. regs. assert (is_u32 (text + pos 13)) as Hret.
  { apply pos_u32. pose proof isr_asm_long. lia. }
  eapply wp_push; [lia|exact Hret|exact Hl|]. clear Hl. intros m1 Hl.
  change (callee cr2 vm compiled "isr_handler") with (call_isr_handler cr2 vm compiled).
  eapply (handler_ok a c d b sp bp si di ds v err ip [cs0; fl0]); [cbn; lia..|done|exact Hc|exact Hret|exact Hl|exact Hrun|]. cbn [r_esp r_ebx r_ebp r_esi r_edi].
  replace (sp - 44 - 4 + 4) with (sp - 44) by lia. intros a2 c2 d2 fl2 m2 Hl2. apply reaches_done.
  by exists m2, a2, c2, d2, fl2.
Qed.

(** The way back: registers and segments restored, and the return from the interrupt. *)
Lemma epilogue_ok a c d b sp bp si di ds v err ip fl0 cs0 a' c' d' b' bp' si' di' sg c0 ct fl m dv :
  Forall is_u32 [a; c; d; b; bp; si; di; ip] -> is_u16 ds -> is_u16 cs0 -> 48 <= sp -> sp + 24 < 2 ^ 32 ->
  stack_at m (sp - 44) (frame a c d b sp bp si di ds v err ip ++ [cs0; fl0]) ->
  mreaches (Cpu (Gprs a' c' d' b' (sp - 44) bp' si' di') sg c0 ct (text + pos 13) fl (System m dv)) (fun s' =>
    s' = Cpu (Gprs a c d b (sp + 20) bp si di) (Segments ds ds ds ds) cs0 ct ip fl0 (System m dv)).
Proof.
  intros Hg Hds Hcs Hsp Hsp' Hl. repeat apply Forall_cons in Hg as [? Hg]. destruct sg as [ds0 es0 fs0 gs0].
  insn 13%nat. cbn [exec]. pop_step.
  assert (forall x, u16 (u32 (x / 2 ^ 16 * 2 ^ 16 + u16 ds)) = ds) as Elow.
  { intros x. rewrite low_word by (apply wrap_range; lia). by apply wrap_small. }
  insn 14%nat. cbn [exec]. unfold get. repeat wp_step. regs. rewrite !Elow.
  insn 15%nat. cbn [exec]. unfold get. repeat wp_step. regs. rewrite !Elow.
  insn 16%nat. cbn [exec]. unfold get. repeat wp_step. regs. rewrite !Elow.
  insn 17%nat. cbn [exec]. unfold get. repeat wp_step. regs. rewrite !Elow.
  insn 18%nat. cbn [exec]. unfold get, set, arith. repeat wp_step. regs.
  replace (sp - 44 + 4 + 8) with (sp - 32) by lia. rewrite (wrap_small 32 (sp - 32)) by (unfold in_width; lia).
  destruct Hl as (_ & _ & Hl). replace (sp - 44 + 4 + 4 + 4) with (sp - 32) in Hl by lia.
  insn 19%nat. cbn [exec]. do 8 pop_step.
  replace (sp - 32 + 4 + 4 + 4 + 4 + 4 + 4 + 4 + 4) with sp in * by lia.
  insn 20%nat. cbn [exec]. unfold get, set, arith. repeat wp_step. regs.
  rewrite (wrap_small 32 (sp + 8)) by (unfold in_width; lia).
  destruct Hl as (_ & _ & Hl). replace (sp + 4 + 4) with (sp + 8) in Hl by lia.
  insn 21%nat. cbn [exec]. repeat wp_step. regs.
  insn 22%nat. cbn [exec]. do 3 pop_step. rewrite (wrap_small 16 cs0) by done.
  replace (sp + 8 + 4 + 4 + 4) with (sp + 20) by lia. by apply reaches_done.
Qed.

(** ** Interrupts *)

(** The state an interrupt may find: registers within their width, and room for the frame
    on the stack. *)
Record machine_ok s : Prop := {
  mo_regs : Forall is_u32 [r_eax (gpr s); r_ecx (gpr s); r_edx (gpr s); r_ebx (gpr s); r_ebp (gpr s); r_esi (gpr s);
    r_edi (gpr s); eip s];
  mo_flags : is_u32 (eflags s);
  mo_segments : is_u16 (cs s) /\ is_u16 (s_ds (seg s));
  mo_stack : 68 <= r_esp (gpr s) /\ r_esp (gpr s) + 4 < 2 ^ 32
}.

(** The registers [isr_handler] is given. *)
Definition registers_at s (v err : Z) : registers_t :=
  let g := gpr s in
  registers_of (r_eax g) (r_ecx g) (r_edx g) (r_ebx g) (r_esp g - 20) (r_ebp g) (r_esi g) (r_edi g) (s_ds (seg s)) v err
    (eip s).

(** The state after the interrupt: what was interrupted goes on. *)
Definition resumed s (m : gmap Z Z) dv : machine (system HW) :=
  let ds := s_ds (seg s) in
  Cpu (gpr s) (Segments ds ds ds ds) (cs s) (ctl s) (eip s) (eflags s) (System m dv).

Lemma error_codes_agree v : 0 <= v < 48 -> pushes_error_code v = has_errcode v.
Proof.
  intros Hv. assert (forallb (fun v => Bool.eqb (pushes_error_code v) (has_errcode v)) (seqZ 0 48) = true) as Hall
    by (vm_compute; reflexivity).
  rewrite forallb_forall in Hall. apply Bool.eqb_prop, Hall, list_elem_of_In, elem_of_seqZ. lia.
Qed.

(** From the entry point on. *)
Lemma stub_ok v err a c d b sp bp si di sg c0 ct fl m dv d' ip cs0 fl0 :
  0 <= v < 48 -> Forall is_u32 [a; c; d; b; bp; si; di; ip] -> is_u16 (s_ds sg) -> is_u16 cs0 ->
  (has_errcode v = false -> err = 0) -> cdecl compiled ->
  let sp0 := sp + 12 + (if has_errcode v then 4 else 0) in
  68 <= sp0 -> sp0 + 4 < 2 ^ 32 -> stack_at m sp ((if has_errcode v then [err] else []) ++ [ip; cs0; fl0]) ->
  isr_handler cr2 vm (registers_of a c d b (sp0 - 20) bp si di (s_ds sg) v err ip) dv = Ok (tt, d') ->
  mreaches (Cpu (Gprs a c d b sp bp si di) sg c0 ct (text + pos (isr_label v)) fl (System m dv)) (fun s' => exists m',
    s' = Cpu (Gprs a c d b sp0 bp si di) (Segments (s_ds sg) (s_ds sg) (s_ds sg) (s_ds sg)) cs0 ct ip fl0 (System m' d')).
Proof.
  intros Hv Hg Hds Hcs Herr Hc sp0 Hlo Hhi Hl Hrun.
  eapply reaches_trans.
  { apply (entry_ok v err) with (l := [ip; cs0; fl0]); [done|unfold sp0 in *; destruct (has_errcode v); lia|].
    by destruct (has_errcode v). }
  intros s1 (m1 & fl1 & -> & Hl1).
  replace (if has_errcode v then sp - 4 else sp - 8) with (sp0 - 20) in * by (unfold sp0; destruct (has_errcode v); lia).
  assert ((if has_errcode v then err else 0) = err) as E by (destruct (has_errcode v); [done|symmetry; by apply Herr]).
  rewrite E in Hl1. eapply reaches_trans; [by apply (prologue_ok v err ip); [exact Hg|lia|lia|]|].
  intros s2 (m2 & a2 & _ & -> & Hl2).
  eapply reaches_trans; [by eapply (call_ok a c d b (sp0 - 20)); [lia|lia|exact Hc|exact Hl2|]|].
  intros s3 (m3 & a3 & c3 & d3 & fl3 & -> & Hl3).
  eapply reaches_trans; [by apply (epilogue_ok a c d b (sp0 - 20) bp si di (s_ds sg) v err ip fl0 cs0); [exact Hg|..|lia|lia|]|].
  intros s4 ->. apply reaches_done. exists m3. by replace (sp0 - 20 + 20) with sp0 by lia.
Qed.

Lemma interrupt_ok gate v err s d' :
  0 <= v < 48 -> idt_offset gate = text + pos (isr_label v) -> machine_ok s -> is_u32 err ->
  (has_errcode v = false -> err = 0) -> cdecl compiled ->
  isr_handler cr2 vm (registers_at s v err) (drivers (bus s)) = Ok (tt, d') ->
  exists n m, (_ ← interrupt gate v err; run (callee cr2 vm compiled) isr_asm text n) s = Ok (tt, resumed s m d').
Proof.
  intros Hv Hgate [Hg Hf [Hcs Hds] [Hlo Hhi]] Hu Herr Hc Hrun.
  assert (wp (interrupt gate v err) s (fun _ s1 => mreaches s1 (fun s' => exists m, s' = resumed s m d'))) as Hw.
  { destruct s as [[a c d b sp bp si di] sg c0 ct ip fl [m dv]].
    cbn [gpr seg cs ctl eip eflags bus r_eax r_ecx r_edx r_ebx r_esp r_ebp r_esi r_edi drivers] in *.
    unfold interrupt. rewrite error_codes_agree by done.
    assert (stack_at m sp []) as Hl by done. pose proof Hg as Hg'. repeat apply Forall_cons in Hg' as [? Hg'].
    assert (is_u32 c0) by (unfold in_width in *; lia).
    do 3 push_step. wp_step.
    replace (sp - 4 - 4 - 4) with (sp - 12) in * by lia.
    apply (wp_mono _ _ (fun _ s' => exists m2, let sp' := sp - 12 - (if has_errcode v then 4 else 0) in
      s' = Cpu (Gprs a c d b sp' bp si di) sg c0 ct ip fl (System m2 dv) /\
      stack_at m2 sp' ((if has_errcode v then [err] else []) ++ [ip; c0; fl]))).
    { destruct (has_errcode v).
      - push_step. by eexists.
      - wp_step. rewrite Z.sub_0_r. by eexists. }
    intros [] s1 (m2 & -> & Hl2). wp_step. regs. rewrite Hgate. eapply reaches_trans.
    { apply (stub_ok v err) with (ip := ip) (cs0 := c0) (fl0 := fl) (d' := d'); try done; destruct (has_errcode v); lia. }
    intros s2 [m3 ->]. apply reaches_done. exists m3. unfold resumed. cbn. do 2 f_equal. destruct (has_errcode v); lia. }
  apply wp_ok in Hw as ([] & s1 & Hi & n & Hn). apply wp_ok in Hn as ([] & s2 & Hn & m & ->).
  exists n, m. unfold mbind, M_bind. by rewrite Hi.
Qed.
End Execution.

(** ** Theorems *)

Section Theorems.
Context {HW : Type} `{Machine HW} `{!UartLaws HW} `{Patience} `{PutcharResult HW} `{SourcePath}.
Context {PS : Type} `{FrameAllocator PS} `{Layout} `{Encoding} `{Addresses}.
Context (cr2 : Z) (vm : vm_state PS) (compiled : machine (system HW) -> machine (system HW)) (text : Z).
Implicit Types (s : machine (system HW)).

(** The code lies at [text], and the C code knows its labels. *)
Record placed : Prop := {
  pl_size : forall k, 0 < insn_size k;
  pl_text : 0 <= text /\ text + pos (length isr_asm) < 2 ^ 32;
  pl_labels : forall v, 0 <= v < 48 -> isr v = text + pos (isr_label v)
}.

Lemma gate_offset h t h' v gate :
  placed -> descriptor_tables_init (tables_boot, h) = Ok (tt, (t, h')) -> idt t !! Z.to_nat v = Some gate -> 0 <= v < 48 ->
  idt_offset gate = text + pos (isr_label v).
Proof.
  intros [Hsize [Htext Hend] Hisr] Hinit Hgate Hv. pose proof (descriptor_tables_init_ok h) as Hw.
  destruct (proj1 (wp_ok _ _ _) Hw) as ([] & s & Hrun & _ & _ & _ & _ & _ & Hidt). rewrite Hinit in Hrun. clear Hinit Hw.
  injection Hrun as <-. specialize (Hidt v ltac:(lia)). rewrite decide_True in Hidt by lia. cbn [fst] in Hidt.
  rewrite Hidt in Hgate. injection Hgate as <-. rewrite idt_entry_ok, Hisr; [done..|].
  rewrite Hisr by done. exact (pos_u32 text Hsize Htext Hend _ (isr_label_lt v Hv)).
Qed.

Lemma gate_entered (h : HW) v : 0 <= v < 48 -> exists t h' gate,
  descriptor_tables_init (tables_boot, h) = Ok (tt, (t, h')) /\ idt t !! Z.to_nat v = Some gate.
Proof.
  intros Hv. pose proof (descriptor_tables_init_ok h) as Hw.
  destruct (proj1 (wp_ok _ _ _) Hw) as ([] & [t h'] & Hrun & _ & _ & _ & _ & _ & Hidt). exists t, h'.
  eexists. split; [exact Hrun|]. cbn [fst] in Hidt. rewrite Hidt, decide_True by lia. reflexivity.
Qed.

(** C7: Interrupts and exceptions are transparent.  Through the gate [descriptor_tables_init]
    entered for its vector, the entry point and the common stub pass [isr_handler] the
    vector, the error code and the interrupted address; when the handler returns, the
    interrupted code goes on with all its registers, its stack pointer, its flags and
    its data segment (which ES, FS and GS then share). *)
Theorem isr_transparent h t h' v gate err s d' :
  placed -> descriptor_tables_init (tables_boot, h) = Ok (tt, (t, h')) -> idt t !! Z.to_nat v = Some gate -> 0 <= v < 48 ->
  machine_ok s -> is_u32 err -> (pushes_error_code v = false -> err = 0) -> cdecl compiled ->
  isr_handler cr2 vm (registers_at s v err) (drivers (bus s)) = Ok (tt, d') ->
  exists n m, (_ ← interrupt gate v err; run (callee cr2 vm compiled) isr_asm text n) s = Ok (tt, resumed s m d').
Proof.
  intros Hp Hinit Hgate Hv Hs Hu Herr Hc Hrun. rewrite error_codes_agree in Herr by done.
  pose proof (gate_offset _ _ _ _ _ Hp Hinit Hgate Hv) as Hoff. destruct Hp as [Hsize [Htext Hend] _].
  exact (interrupt_ok cr2 vm compiled text Hsize Htext Hend gate v err s d' Hv Hoff Hs Hu Herr Hc Hrun).
Qed.


(** What the fields of [registers_t] hold is not what they are called: [ds] is the address of
    the interrupted instruction, and the segment is in [dummy1], below the upper half of
    that address. *)
Lemma registers_misnamed s v err :
  ds (registers_at s v err) = eip s /\
  dummy1 (registers_at s v err) = eip s / 2 ^ 16 * 2 ^ 16 + u16 (s_ds (seg s)) /\
  dummy2 (registers_at s v err) = r_ebp (gpr s).
Proof. done. Qed.
End Theorems.

(** ** Witnesses: a tick of the clock, and an exception *)

Section Examples.
#[local] Existing Instances ex_patience ex_result ready_uart PmmFrames.pmm_allocator.
#[local] Existing Instances ex_path.
#[local] Instance ex_encoding : Encoding := {| insn_size := fun _ => 2 |}.
#[local] Instance ex_isr_addresses : Addresses :=
  {| addr_gdt := 0xC0108000; addr_idt := 0xC0108100; isr := fun v => 0xC0101000 + pos (isr_label v) |}.

Lemma ex_placed : placed 0xC0101000.
Proof. split; [done|vm_compute; split; congruence|done]. Qed.

Definition ex_cpu (d : devices register_machine) : machine (system register_machine) :=
  Cpu (Gprs 1 2 3 4 0xC010E000 6 7 8) (Segments 0x10 0x10 0x10 0x10) 8 (Controls 0x80000011 0x110000 0x10)
    0xC0102345 0x202 (System ∅ d).

Lemma ex_cpu_ok d : machine_ok (ex_cpu d).
Proof. split; cbn; [repeat constructor; done|done|done|lia]. Qed.

(** Compiled code that changes nothing more. *)
Lemma ex_cdecl : cdecl (fun s : machine (system register_machine) => s).
Proof. intros [[] sg c ct ip fl [m d]]. by eexists _, _, _, _, m. Qed.


(** A general protection fault with the error code 16 is reported, and returns. *)
Lemma isr_transparent_witness : exists gate n m d',
  (_ ← interrupt gate 13 16; run (callee 0 ex_paging (fun s => s)) isr_asm 0xC0101000 n) (ex_cpu ex_devices)
    = Ok (tt, resumed (ex_cpu ex_devices) m d').
Proof.
  destruct (gate_entered ex_machine 13) as (t & h' & gate & Hinit & Hgate); [lia|]. exists gate.
  assert (exists d', isr_handler 0 ex_paging (registers_at (ex_cpu ex_devices) 13 16) ex_devices = Ok (tt, d')) as [d' Hrun].
  { assert (value_of (isr_handler 0 ex_paging (registers_at (ex_cpu ex_devices) 13 16) ex_devices) = Some tt) as E
      by (vm_compute; reflexivity).
    destruct (isr_handler 0 ex_paging _ ex_devices) as [[[] d']| | |]; [|discriminate..]. by exists d'. }
  destruct (isr_transparent 0 ex_paging (fun s => s) 0xC0101000 ex_machine t h' 13 gate 16 (ex_cpu ex_devices) d' ex_placed
    Hinit Hgate) as (n & m & Hi); [lia|apply ex_cpu_ok|clear; done|clear; done|apply ex_cdecl|exact Hrun|]. exists n, m, d'. exact Hi.
Defined.
End Examples.
