(* ===== verification/Sleep.v ===== *)
(** * kernel/kernel/timer.c: sleep

    [sleep] halts the processor until enough time has passed.  Meanwhile interrupts of
    any kind arrive and are handled. *)

From S2P Require Import Prelude Common Frames Pmm PmmFrames Vm Port Tables Tty Devices Printf PrintfSpec Serial Panic Timer Keyboard Isr.

Section Sleep.
Context {HW : Type} `{Machine HW} `{Patience} `{PutcharResult HW} `{SourcePath}.
Context {PS : Type} `{FrameAllocator PS} `{Layout}.
Context (cr2 : Z) (vm : vm_state PS).

(** The loop of [sleep]: a round enables interrupts and halts the processor until one
    has been handled.  [arriving]: the interrupts to come; behind the last one it
    sleeps for ever. *)
Fixpoint sleep_loop (arriving : list registers_t) (end_time : Z) : M (devices HW) unit :=
  now ← gets ns_since_boot;
  if now <? end_time then
    match arriving with
    | [] => nofuel
    | regs :: arriving' => _ ← isr_handler cr2 vm regs; sleep_loop arriving' end_time
    end
  else mret tt.

Definition sleep (arriving : list registers_t) (millis : Z) : M (devices HW) unit :=
  now ← gets ns_since_boot;
  sleep_loop arriving (u64 (now + millis * 1000000)).
End Sleep.

Section Properties.
Context {HW : Type} `{Machine HW} `{!UartLaws HW} `{Patience} `{PutcharResult HW} `{SourcePath}.
Context {PS : Type} `{FrameAllocator PS} `{Layout}.
Context (cr2 : Z) (vm : vm_state PS).
Hypothesis (Hpatience : (uart_bound < patience)%nat).
Hypothesis (Hresult : forall d : devices HW, 0 <= putchar_result d).
Implicit Types d : devices HW.

(** The handlers: the clock's is registered for the timer's interrupt and for no other. *)
Record clock_registered d : Prop := {
  cr_table : length (interrupt_handlers d) = 256%nat;
  cr_clock : forall v, interrupt_handlers d !! v = Some (Some timer_handler_fn) <-> v = 32%nat
}.

(** How many of the interrupts are ticks of the clock. *)
Definition ticks (l : list registers_t) : Z := Z.of_nat (length (filter (fun r => int_no r = IRQ0) l)).

Lemma ticks_cons r l : ticks (r :: l) = (if decide (int_no r = IRQ0) then 1 else 0) + ticks l.
Proof.
  unfold ticks. rewrite filter_cons. case_decide; [|lia]. cbn [length]. lia.
Qed.

Lemma clock_step r d :
  clock_registered d -> 32 <= int_no r < 256 -> 0 <= ns_since_boot d -> ns_since_boot d + ns_per_tick < 2 ^ 64 ->
  clock_after d (int_no r) = ns_since_boot d + (if decide (int_no r = IRQ0) then ns_per_tick else 0).
Proof.
  intros [_ Hc] Hv Hn Hmax. unfold clock_after, IRQ0. assert (0 <= ns_per_tick) by done.
  assert (interrupt_handlers d !! Z.to_nat (int_no r) = Some (Some timer_handler_fn) <-> int_no r = 32) as Hiff
    by (rewrite Hc; lia).
  do 2 case_decide; try tauto; [|lia]. apply wrap_small. unfold in_width. lia.
Qed.

Lemma sleep_loop_ok l : forall d end_time,
  console_ok d -> clock_registered d -> Forall (fun r => 32 <= int_no r < 256) l -> 0 <= ns_since_boot d ->
  end_time <= ns_since_boot d + ticks l * ns_per_tick -> end_time + ns_per_tick < 2 ^ 64 ->
  wp (sleep_loop cr2 vm l end_time) d (fun _ d' =>
    console_ok d' /\ interrupt_handlers d' = interrupt_handlers d /\ end_time <= ns_since_boot d' /\
    (ns_since_boot d' = ns_since_boot d \/ ns_since_boot d' < end_time + ns_per_tick)).
Proof.
  assert (0 < ns_per_tick) as Htick by done.
  induction l as [|r l IH]; intros d end_time Hd Hc Hl Hn Hend Hmax; cbn [sleep_loop]; wp_step; wp_step;
    (destruct (Z.ltb_spec (ns_since_boot d) end_time) as [Hlt|Hge];
     [|wp_step; split; [done|]; split; [done|]; split; [lia|by left]]).
  - change (ticks []) with 0 in Hend. lia.
  - apply Forall_cons in Hl as [Hr Hl]. wp_step.
    eapply wp_mono; [by apply (isr_irq_ok cr2 vm Hpatience Hresult); [|apply Hc|]|].
    intros [] d1 (Hd1 & Hh & Hns). rewrite clock_step in Hns by (done || lia). rewrite ticks_cons in Hend.
    eapply wp_mono; [apply IH; [done| |done| | |done]|].
    + destruct Hc. split; by rewrite Hh.
    + rewrite Hns. case_decide; lia.
    + rewrite Hns. case_decide; lia.
    + intros [] d2 (Hd2 & Hh2 & Hge & Hor). split; [done|]. split; [congruence|]. split; [done|]. right.
      destruct Hor as [Heq|]; [|done]. rewrite Heq in *. rewrite Hns in *. case_decide; lia.
Qed.

Lemma sleep_ok l millis d :
  console_ok d -> clock_registered d -> Forall (fun r => 32 <= int_no r < 256) l ->
  0 <= ns_since_boot d -> 0 < millis < 2 ^ 32 ->
  millis * 1000000 <= ticks l * ns_per_tick -> ns_since_boot d + millis * 1000000 + ns_per_tick < 2 ^ 64 ->
  wp (sleep cr2 vm l millis) d (fun _ d' => console_ok d' /\ interrupt_handlers d' = interrupt_handlers d /\
    ns_since_boot d + millis * 1000000 <= ns_since_boot d' < ns_since_boot d + millis * 1000000 + ns_per_tick).
Proof.
  intros Hd Hc Hl Hn Hm Hn2 Hmax. assert (0 < ns_per_tick) as Htick by done.
  unfold sleep. wp_step. wp_step. rewrite wrap_small by (unfold in_width; lia).
  eapply wp_mono; [apply sleep_loop_ok; [done|done|done|done|lia|lia]|].
  intros [] d' (Hd' & Hh & Hge & [Heq|Hlt]); (split; [done|split; [done|lia]]).
Qed.

End Properties.

(** ** Witness: 100 ms, with a request of another device between two ticks *)

Section Examples.
#[local] Existing Instances ex_patience ex_result ready_uart PmmFrames.pmm_allocator ex_path.

End Examples.
