(* ===== verification/Debug.v ===== *)
(** * Debugging output

    The macro [DEBUG] of kernel/common.h, [print_stacktrace] of kernel/common.c (whose call
    is commented out), [pmm_debug] of kernel/memory/pmm.c and
    [debug_as] and [vm_debug] of kernel/memory/vm.c: what the developers of the kernel
    look at.  They read the state of the memory managers and print it on the console. *)

From S2P Require Import Prelude Common Frames Cstring Vm VmList VmRanges VmFree VmPaging Port Tty Devices Printf PrintfSpec Serial.
From S2P Require Bitset Pmm Cpu.

(** ** Operations *)

Definition DB_MEMORY : Z := 0x0001.
Definition DB_PCI : Z := 0x0002.
Definition DB_GFX : Z := 0x0004.

(** common.c: the variable is zero in the image, and the kernel never assigns it. *)
Definition dbflags : Z := 0.

Section Debug.
Context {HW : Type} `{Machine HW} `{Patience} `{PutcharResult HW}.

(** [DEBUG(d, ...)], with the value of [dbflags]. *)
Definition DEBUG (flags d : Z) (format : list Z) (args : list va_item) : M (devices HW) unit :=
  if Z.land flags d =? 0 then mret tt else _ ← printf format args; mret tt.

(** Reading the state of a memory manager. *)
Definition ask {S A} (s : S) (m : M S A) : M (devices HW) A := fun d =>
  match m s with
  | Ok (a, _) => Ok (a, d)
  | Panic why => Panic why
  | Undef => Undef
  | NoFuel => NoFuel
  end.

(** The variable [x] of the loop lies at [a] in the memory [m], and points to itself first,
    then up the stack. *)
Definition print_stacktrace (a : Z) (m : gmap Z Z) : M (devices HW) unit :=
  for_loop 20 0 (fun i =>
    let x := u32 (a + 4 * i) in
    match Cpu.dword (Cpu.poke a x m) x with
    | None => undef
    | Some w => _ ← printf (chars "%08x: %08x" ++ [10]) [VInt (s32 x); VInt (s32 w)]; mret tt
    end).

(** [pmm_debug]: a line for every level, a mark for every block of the first 64 frames. *)
Definition pmm_debug (p : Pmm.pmm_state) : M (devices HW) unit :=
  for_loop (Z.to_nat Pmm.PMM_NUM_BUDDIES) 0 (fun i =>
    let spacing := Z.shiftl 1 i - 1 in
    _ ← printf (chars "%d: ") [VInt i];
    _ ← for_loop (Z.to_nat (Z.shiftl 1 (6 - i))) 0 (fun j =>
          bit ← ask p (Pmm.on_buddy i (fun b => Bitset.bitset_read b j));
          _ ← printf (chars "%s") [VStr (if bit : bool then chars "#" else chars ".")];
          for_loop (Z.to_nat spacing) 0 (fun k => _ ← printf (chars " ") []; mret tt));
    _ ← printf [10] []; mret tt).

Context {PS : Type} `{FrameAllocator PS}.

Definition debug_as (v : vm_state PS) (asp addr : Z) : M (devices HW) unit :=
  let dir_idx := Z.shiftr addr 22 in
  let tab_idx := Z.land (Z.shiftr addr 12) (MASK 10) in
  let pag_idx := Z.land addr (MASK 12) in
  _ ← printf (chars "addr: %08x DIR: %d TAB: %d PAG: %d" ++ [10]) [VInt (s32 addr); VInt dir_idx; VInt tab_idx; VInt pag_idx];
  a ← ask v (space_at asp);
  _ ← printf (chars "Directory: %08x %08x" ++ [10]) [VInt (s32 (as_directory a)); VInt (s32 (as_directory_phys a))];
  let de := pde_at a dir_idx v in
  _ ← printf (chars "PDE: P: %d R/W: %d PS: %d Tab: %d" ++ [10])
        [VInt (pde_present de); VInt (pde_rw de); VInt (pde_page_size de); VInt (pde_page_table de)];
  mret tt.

(** The loop of [vm_debug]; there are no more rounds than buckets. *)
Fixpoint vm_debug_loop (fuel : nat) (flags : Z) (v : vm_state PS) (node : Z) : M (devices HW) unit :=
  match fuel with
  | O => nofuel
  | S fuel' =>
      if node =? 0 then mret tt
      else
        b ← ask v (bucket_at node);
        _ ← DEBUG flags DB_MEMORY (chars "* %08x (%08x)" ++ [10]) [VInt (s32 (b_pageno b)); VInt (s32 (b_size b))];
        vm_debug_loop fuel' flags v (b_next b)
  end.

Definition vm_debug (flags : Z) (v : vm_state PS) : M (devices HW) unit :=
  _ ← DEBUG flags DB_MEMORY (chars "VM DEBUG:" ++ [10]) [];
  vm_debug_loop (S (size (buckets v))) flags v (vm_kernel_buckets v).
End Debug.

(** ** Specification *)

(** A format whose numbers are 32-bit patterns in hexadecimal and small in decimal. *)
Ltac fits :=
  solve_pieces; first [apply int_fits_hex, s32_range | apply int_fits_hex; lia | apply int_fits_dec; lia].

Section Properties.
Context {HW : Type} `{UartLaws HW} `{Patience} `{PutcharResult HW}.
Hypothesis (Hpatience : (uart_bound < patience)%nat).
Hypothesis (Hresult : forall d : devices HW, 0 <= putchar_result d).
Implicit Types (d : devices HW).

(** [text] goes out on the console, and nothing else changes. *)
Definition printed d d' (text : list Z) : Prop :=
  console_ok d' /\ same_drivers d d' /\ uart_sent (ports d') = uart_sent (ports d) ++ (text ≫= (fun c => serial_emit (u8 c))).

Lemma printed_nil d : console_ok d -> printed d d [].
Proof. intros Hd. split; [done|]. split; [done|]. by rewrite app_nil_r. Qed.

Lemma printed_trans d d1 d2 t1 t2 : printed d d1 t1 -> printed d1 d2 t2 -> printed d d2 (t1 ++ t2).
Proof.
  intros (_ & F1 & E1) (H2' & F2 & E2). split; [done|]. split; [by etrans|]. by rewrite E2, E1, bind_app, app_assoc.
Qed.

Lemma printf_printed format args ps d (Q : Z -> devices HW -> Prop) :
  format = format_of ps -> args = args_of ps -> pieces_ok ps -> console_ok d ->
  (forall r d', printed d d' (text_of ps) -> Q r d') -> wp (printf format args) d Q.
Proof.
  intros -> -> Hps Hd HQ. eapply wp_mono; [by apply (console_printf_ok Hpatience Hresult)|].
  intros r d' (_ & Hd' & F & Ho). by apply HQ.
Qed.

(** A loop whose round [i] prints [f i]. *)
Lemma loop_printed (f : Z -> list Z) body n : forall start d,
  (forall i d, start <= i < start + Z.of_nat n -> console_ok d -> wp (body i) d (fun _ d' => printed d d' (f i))) ->
  console_ok d -> wp (for_loop n start body) d (fun _ d' => printed d d' (seqZ start (Z.of_nat n) ≫= f)).
Proof.
  induction n as [|n IH]; intros start d Hbody Hd; cbn [for_loop]; [by apply wp_ret, printed_nil|].
  rewrite seqZ_cons by lia. cbn [mbind list_bind]. wp_step. eapply wp_mono; [apply Hbody; [lia|done]|].
  intros [] d1 P1. eapply wp_mono; [apply IH; [intros; apply Hbody; [lia|done]|apply P1]|].
  intros [] d2 P2. replace (Z.pred (Z.of_nat (S n))) with (Z.of_nat n) by lia. by eapply printed_trans.
Qed.

(** ** [pmm_debug] *)

(** The line of the level [i]: a mark for every block, as wide as the block. *)
Definition buddy_mark (p : Pmm.pmm_state) (i j : Z) : list Z :=
  (if Pmm.cover p (Z.to_nat i) (j * 2 ^ i) then 35 else 46) :: replicate (Z.to_nat (2 ^ i - 1)) 32.
Definition buddy_line (p : Pmm.pmm_state) (i : Z) : list Z :=
  [48 + i; 58; 32] ++ (seqZ 0 (2 ^ (6 - i)) ≫= buddy_mark p i) ++ [10].

Lemma ask_ok {S A} (s s' : S) (m : M S A) a d (Q : A -> devices HW -> Prop) :
  m s = Ok (a, s') -> Q a d -> wp (ask s m) d Q.
Proof. unfold wp, ask. by intros ->. Qed.

Lemma buddy_bit p i j :
  Pmm.pmm_wf p -> 64 <= Pmm.n_frames p -> 0 <= i < 7 -> 0 <= j < 2 ^ (6 - i) ->
  Pmm.on_buddy i (fun b => Bitset.bitset_read b j) p = Ok (Pmm.cover p (Z.to_nat i) (j * 2 ^ i), p).
Proof.
  intros Hwf Hn Hi Hj. destruct (Pmm.wf_level p (Z.to_nat i) Hwf ltac:(lia)) as (b & Hb & Hok & Hlen & Hrun).
  rewrite Z2Nat.id in Hlen, Hrun by lia.
  assert (0 < 2 ^ i) as Hpos by (apply Z.pow_pos_nonneg; lia).
  assert (2 ^ (6 - i) * 2 ^ i = 64) as E by (rewrite <- Z.pow_add_r by lia; by replace (6 - i + i) with 6 by lia).
  unfold Pmm.on_buddy, mbind, M_bind. rewrite Hrun. unfold zoom.
  rewrite (Bitset.bitset_read_ok _ _ _ Hok) by nia. unfold Pmm.cover. rewrite Hb, Z2Nat.id by lia.
  rewrite Z.div_mul by lia. by destruct p.
Qed.

Lemma digit_text i : 0 <= i < 7 -> text_of [Int false [] false Decimal i; Text [58; 32]] = [48 + i; 58; 32].
Proof.
  intros Hi. assert (i ∈ seqZ 0 7) as Hin by (apply elem_of_seqZ; lia). revert i Hi Hin. 
  enough (Forall (fun i => text_of [Int false [] false Decimal i; Text [58; 32]] = [48 + i; 58; 32]) (seqZ 0 7)) as Hall.
  { intros i _ Hi. rewrite Forall_forall in Hall. by apply Hall. }
  repeat constructor.
Qed.

Lemma spaces_text n start : seqZ start (Z.of_nat n) ≫= (fun _ => [32]) = replicate n 32.
Proof.
  revert start. induction n as [|n IH]; intros start; [done|]. rewrite seqZ_cons by lia. cbn [mbind list_bind replicate].
  replace (Z.pred (Z.of_nat (S n))) with (Z.of_nat n) by lia. by rewrite IH.
Qed.

Lemma buddy_mark_ok p i j d :
  console_ok d ->
  wp (_ ← printf (chars "%s") [VStr (if Pmm.cover p (Z.to_nat i) (j * 2 ^ i) then chars "#" else chars ".")];
      for_loop (Z.to_nat (2 ^ i - 1)) 0 (fun _ => _ ← printf (chars " ") []; mret tt)) d
    (fun _ d' => printed d d' (buddy_mark p i j)).
Proof.
  intros Hd. wp_step. set (t := if Pmm.cover _ _ _ then _ else _).
  apply (printf_printed _ _ [Str false [] t]); [done|done|solve_pieces|done|]. intros r d1 P1.
  eapply wp_mono.
  { apply (loop_printed (fun _ => [32])); [|apply P1]. intros k d2 _ Hd2. wp_step.
    apply (printf_printed _ _ [Text [32]]); [done|done|solve_pieces|done|]. intros r2 d3 P3. by wp_step. }
  intros [] d2 P2. rewrite spaces_text in P2. replace (buddy_mark p i j) with (text_of [Str false [] t] ++
    replicate (Z.to_nat (2 ^ i - 1)) 32); [by eapply printed_trans|].
  unfold buddy_mark, t. by destruct (Pmm.cover _ _ _).
Qed.

Lemma pmm_debug_ok p d :
  Pmm.pmm_wf p -> 64 <= Pmm.n_frames p -> console_ok d ->
  wp (pmm_debug p) d (fun _ d' => printed d d' (seqZ 0 7 ≫= buddy_line p)).
Proof.
  intros Hwf Hn Hd. unfold pmm_debug. change (Z.to_nat Pmm.PMM_NUM_BUDDIES) with 7%nat. change 7 with (Z.of_nat 7). apply loop_printed; [|done].
  intros i d0 Hi Hd0. assert (int_fits i 10 true) as Hfit by (apply int_fits_dec; lia).
  rewrite !shiftl_1 by lia.
  wp_step. apply (printf_printed _ _ [Int false [] false Decimal i; Text [58; 32]]); [done|done|solve_pieces|done|].
  intros r1 d1 P1. rewrite digit_text in P1 by lia. wp_step. eapply wp_mono.
  { apply (loop_printed (buddy_mark p i)); [|apply P1]. intros j d2 Hj Hd2.
    assert (0 < 2 ^ (6 - i)) by (apply Z.pow_pos_nonneg; lia).
    wp_step. eapply ask_ok; [apply buddy_bit; [done|done|lia|lia]|]. by apply buddy_mark_ok. }
  intros [] d2 P2. assert (0 < 2 ^ (6 - i)) by (apply Z.pow_pos_nonneg; lia). rewrite Z2Nat.id in P2 by lia.
  wp_step. apply (printf_printed _ _ [Text [10]]); [done|done|solve_pieces|apply P2|]. intros r3 d3 P3. wp_step.
  unfold buddy_line. eapply printed_trans; [exact P1|]. by eapply printed_trans.
Qed.

(** ** [vm_debug] *)

Definition bucket_pieces (n : node) : list piece :=
  [Text (chars "* "); Int true [56] false Hexadecimal (s32 (n_page n)); Text (chars " (");
   Int true [56] false Hexadecimal (s32 (n_size n)); Text [41; 10]].

(** What is printed with the given value of [dbflags]. *)
Definition vm_report (flags : Z) (K : list node) : list Z :=
  if Z.land flags DB_MEMORY =? 0 then [] else chars "VM DEBUG:" ++ [10] ++ (K ≫= fun n => text_of (bucket_pieces n)).

Context {PS : Type} `{FrameAllocator PS}.

Lemma debug_printed flags format args ps d :
  format = format_of ps -> args = args_of ps -> pieces_ok ps -> console_ok d ->
  wp (DEBUG flags DB_MEMORY format args) d (fun _ d' =>
    printed d d' (if Z.land flags DB_MEMORY =? 0 then [] else text_of ps)).
Proof.
  intros Hf Ha Hps Hd. unfold DEBUG. destruct (Z.land flags DB_MEMORY =? 0); [by apply wp_ret, printed_nil|].
  wp_step. apply (printf_printed _ _ ps); [done..|]. intros r d' P. by wp_step.
Qed.

Lemma vm_debug_loop_ok flags (v : vm_state PS) K : forall fuel p hd d,
  dll (buckets v) p hd K -> (length K < fuel)%nat -> console_ok d ->
  wp (vm_debug_loop fuel flags v hd) d (fun _ d' =>
    printed d d' (if Z.land flags DB_MEMORY =? 0 then [] else K ≫= fun n => text_of (bucket_pieces n))).
Proof.
  induction K as [|n K IH]; intros fuel p hd d HK Hf Hd; (destruct fuel as [|fuel]; [simpl in Hf; lia|]); cbn [vm_debug_loop].
  - simpl in HK. subst hd. cbn [Z.eqb]. apply wp_ret. destruct (_ =? 0); by apply printed_nil.
  - destruct HK as (-> & Hne & nx & Hn & HK). destruct (Z.eqb_spec (n_addr n) 0); [done|].
    wp_step. eapply ask_ok; [unfold bucket_at; by rewrite Hn|]. cbn [b_pageno b_size b_next].
    pose proof (int_fits_hex _ (s32_range (n_page n))). pose proof (int_fits_hex _ (s32_range (n_size n))).
    wp_step. eapply wp_mono; [apply (debug_printed _ _ _ (bucket_pieces n)); [done|done|unfold bucket_pieces; solve_pieces|done]|].
    intros [] d1 P1. simpl in Hf. eapply wp_mono; [apply (IH _ _ _ _ HK); [lia|apply P1]|]. intros [] d2 P2.
    destruct (_ =? 0); [exact (printed_trans _ _ _ [] [] P1 P2)|]. cbn [mbind list_bind]. by eapply printed_trans.
Qed.

Lemma vm_debug_ok flags (v : vm_state PS) K W q d :
  vm_lists v K W q -> console_ok d ->
  wp (vm_debug flags v) d (fun _ d' => printed d d' (vm_report flags K)).
Proof.
  intros [HK _ Hnd] Hd. unfold vm_debug. wp_step.
  eapply wp_mono; [apply (debug_printed _ _ _ [Text (chars "VM DEBUG:" ++ [10])]); [done|done|solve_pieces|done]|].
  intros [] d1 P1. eapply wp_mono.
  { eapply vm_debug_loop_ok; [exact HK| |apply P1].
    apply nodup_app_addrs in Hnd as (Hnd & _). pose proof (dll_length _ _ _ _ HK Hnd). lia. }
  intros [] d2 P2. unfold vm_report. destruct (_ =? 0); [exact (printed_trans _ _ _ [] [] P1 P2)|].
  exact (printed_trans _ _ _ (chars "VM DEBUG:" ++ [10]) _ P1 P2).
Qed.

(** ** [debug_as] *)

Abbreviation Hex n := (Int true [56] false Hexadecimal n).
Abbreviation Dec n := (Int false [] false Decimal n).

Definition address_pieces (addr : Z) : list piece :=
  [Text (chars "addr: "); Hex (s32 addr); Text (chars " DIR: "); Dec (dir_of addr); Text (chars " TAB: "); Dec (tab_of addr);
   Text (chars " PAG: "); Dec (addr mod 4096); Text [10]].
Definition directory_pieces (a : as_t) : list piece :=
  [Text (chars "Directory: "); Hex (s32 (as_directory a)); Text [32]; Hex (s32 (as_directory_phys a)); Text [10]].
Definition entry_pieces (de : pde_t) : list piece :=
  [Text (chars "PDE: P: "); Dec (pde_present de); Text (chars " R/W: "); Dec (pde_rw de); Text (chars " PS: ");
   Dec (pde_page_size de); Text (chars " Tab: "); Dec (pde_page_table de); Text [10]].

(** The bit-fields of an entry hold what fits them. *)
Definition pde_fits (de : pde_t) : Prop :=
  in_width 1 (pde_present de) /\ in_width 1 (pde_rw de) /\ in_width 1 (pde_page_size de) /\ in_width 20 (pde_page_table de).

Lemma debug_as_ok (v : vm_state PS) asp a addr d :
  spaces v !! asp = Some a -> is_u32 addr -> pde_fits (pde_at a (dir_of addr) v) -> console_ok d ->
  wp (debug_as v asp addr) d (fun _ d' => printed d d'
    (text_of (address_pieces addr) ++ text_of (directory_pieces a) ++ text_of (entry_pieces (pde_at a (dir_of addr) v)))).
Proof.
  intros Ha Hu (F1 & F2 & F3 & F4) Hd. unfold debug_as. rewrite dir_of_shift. change (MASK 10) with 0x3FF. rewrite tab_of_shift.
  change (MASK 12) with (Z.ones 12). rewrite land_ones_mod by lia. change (2 ^ 12) with 4096.
  pose proof (dir_range addr Hu). pose proof (tab_range addr). pose proof (Z.mod_pos_bound addr 4096 ltac:(lia)).
  unfold in_width in *. set (de := pde_at a (dir_of addr) v) in *.
  wp_step. apply (printf_printed _ _ (address_pieces addr)); [done|done|unfold address_pieces; fits|done|]. intros r1 d1 P1.
  wp_step. eapply ask_ok; [unfold space_at; by rewrite Ha|]. fold de.
  wp_step. apply (printf_printed _ _ (directory_pieces a)); [done|done|unfold directory_pieces; fits|apply P1|]. intros r2 d2 P2.
  wp_step. apply (printf_printed _ _ (entry_pieces de)); [done|done|unfold entry_pieces; fits|apply P2|]. intros r3 d3 P3.
  wp_step. eapply printed_trans; [exact P1|]. by eapply printed_trans.
Qed.

(** ** [print_stacktrace] *)

Definition word_pieces (a w : Z) : list piece := [Hex (s32 a); Text [58; 32]; Hex (s32 w); Text [10]].

(** The words of the stack from [a] on; the first is the pointer itself. *)
Lemma print_stacktrace_ok a m (word : Z -> Z) d :
  0 <= a -> a + 80 < 2 ^ 32 -> (forall i, 1 <= i < 20 -> Cpu.dword m (a + 4 * i) = Some (word i)) -> word 0 = a ->
  console_ok d ->
  wp (print_stacktrace a m) d (fun _ d' =>
    printed d d' (seqZ 0 20 ≫= fun i => text_of (word_pieces (a + 4 * i) (word i)))).
Proof.
  intros Ha Hend Hm H0' Hd. unfold print_stacktrace. change (seqZ 0 20) with (seqZ 0 (Z.of_nat 20)). apply loop_printed; [|done].
  intros i d0 Hi Hd0. rewrite (wrap_small 32 (a + 4 * i)) by (unfold in_width; lia).
  assert (Cpu.dword (Cpu.poke a (a + 4 * i) m) (a + 4 * i) = Some (word i)) as ->.
  { destruct (decide (i = 0)) as [->|Hne].
    - rewrite Z.mul_0_r, Z.add_0_r, H0'. apply Cpu.dword_poke_same. unfold in_width. lia.
    - rewrite Cpu.dword_poke_other by lia. apply Hm. lia. }
  wp_step. apply (printf_printed _ _ (word_pieces (a + 4 * i) (word i))); [done|done|unfold word_pieces; fits|done|].
  intros r d' P. by wp_step.
Qed.

(** ** Theorems *)

(** [pmm_debug] draws the buddies of the first 64 frames: a line for every level, with a
    mark for every block of that level, [#] where it is free, as many columns apart as the
    block has frames. *)
Theorem pmm_debug_draws p d :
  Pmm.pmm_wf p -> 64 <= Pmm.n_frames p -> console_ok d ->
  exists d', pmm_debug p d = Ok (tt, d') /\ console_ok d' /\ same_drivers d d' /\
    uart_sent (ports d') = uart_sent (ports d) ++ ((seqZ 0 7 ≫= buddy_line p) ≫= (fun c => serial_emit (u8 c))).
Proof.
  intros Hwf Hn Hd. destruct (proj1 (wp_ok _ _ _) (pmm_debug_ok p d Hwf Hn Hd)) as ([] & d' & Hrun & Hpost). by exists d'.
Qed.

(** [vm_debug] follows the list of free ranges to its end, and prints them if the bit
    [DB_MEMORY] of [dbflags] is set; as the kernel leaves it, nothing is printed. *)
Theorem vm_debug_lists flags (v : vm_state PS) K W q d :
  vm_lists v K W q -> console_ok d ->
  exists d', vm_debug flags v d = Ok (tt, d') /\ console_ok d' /\ same_drivers d d' /\
    uart_sent (ports d') = uart_sent (ports d) ++ (vm_report flags K ≫= (fun c => serial_emit (u8 c))) /\
    vm_report dbflags K = [].
Proof.
  intros HL Hd. destruct (proj1 (wp_ok _ _ _) (vm_debug_ok flags v K W q d HL Hd)) as ([] & d' & Hrun & Hpost).
  exists d'. split; [exact Hrun|]. by destruct Hpost as (? & ? & ?).
Qed.
End Properties.
