(* ===== verification/Pci.v ===== *)
(** * kernel/io/pci.c: the PCI bus *)

From S2P Require Import Prelude Port Tty Devices Printf PrintfSpec Serial Debug.

(** ** Operations *)


Section Pci.
Context {HW : Type} `{Machine HW}.

Definition pci_config_read_long (bus slot func offset : Z) : M HW Z :=
  let address := u32 (Z.lor (Z.lor (Z.lor (Z.lor (Z.shiftl bus 16) (Z.shiftl slot 11))
                       (Z.shiftl func 8)) (Z.land offset 0xFC)) 0x80000000) in
  _ ← outl 0xCF8 address;
  inl 0xCFC.

Definition pci_config_read_word (bus slot func offset : Z) : M HW Z :=
  val ← pci_config_read_long bus slot func offset;
  let shift := Z.land offset 2 * 8 in
  mret (Z.land (Z.shiftr val shift) 0xFFFF).

Definition pci_config_read_byte (bus slot func offset : Z) : M HW Z :=
  val ← pci_config_read_long bus slot func offset;
  let shift := Z.land offset 3 * 8 in
  mret (Z.land (Z.shiftr val shift) 0xFF).

Context `{Patience} `{PutcharResult HW}.

Definition pci_init : M (devices HW) unit :=
  for_loop 256 0 (fun i =>
    vendor ← on_ports (pci_config_read_word 0 (u8 i) 0 0);
    if vendor =? 0xFFFF then mret tt
    else
      device ← on_ports (pci_config_read_word 0 (u8 i) 0 2);
      class_code ← on_ports (pci_config_read_byte 0 (u8 i) 0 11);
      subclass ← on_ports (pci_config_read_byte 0 (u8 i) 0 10);
      DEBUG dbflags DB_PCI (chars "[PCI] %d: %04x %04x %02x %02x" ++ [10])
        [VInt i; VInt vendor; VInt device; VInt class_code; VInt subclass]).
End Pci.

(** ** Specification *)

(** The address register of configuration mechanism 1: the enable bit, and the numbers of
    bus, device, function and double word in fields of their own. *)
Definition pci_address (bus device func dword : Z) : Z :=
  2 ^ 31 + bus * 2 ^ 16 + device * 2 ^ 11 + func * 2 ^ 8 + dword * 4.

(** The configuration space behind the two ports. *)
Class PciLaws (HW : Type) `{Machine HW} : Type := {
  pci_inv : HW -> Prop;
  pci_config : HW -> Z -> Z -> Z -> Z -> Z;    (* bus, device, function, double word *)
  pci_config_range : forall h b d f w, is_u32 (pci_config h b d f w);
  pci_select : forall h bus device func dword,
    pci_inv h -> is_u8 bus -> 0 <= device < 32 -> 0 <= func < 8 -> 0 <= dword < 64 ->
    wp (_ ← outl 0xCF8 (pci_address bus device func dword); inl 0xCFC) h (fun v h' =>
      v = pci_config h bus device func dword /\ pci_inv h' /\
      forall b d f w, pci_config h' b d f w = pci_config h b d f w);
  (* other devices do not reach the two ports *)
  pci_elsewhere : stable_at (fun p => clear_of 0xCF8 0xD00 p) pci_inv
}.

(** The fields of the address do not overlap, but for a slot beyond 31. *)
Lemma slot_bus_range bus slot : is_u8 bus -> is_u8 slot -> is_u8 (Z.lor bus (slot / 32)).
Proof.
  intros Hb Hs. assert (is_u8 (slot / 32)) as Hd by (unfold in_width in *; Z.div_mod_to_equations; lia).
  apply in_width_bits; [lia| |].
  - apply Z.lor_nonneg. unfold in_width in *. lia.
  - intros i Hi. by rewrite Z.lor_spec, (in_width_bit_high 8 bus), (in_width_bit_high 8 (slot / 32)).
Qed.

Lemma address_fields bus slot func offset :
  is_u8 bus -> is_u8 slot -> 0 <= func < 8 -> is_u8 offset ->
  u32 (Z.lor (Z.lor (Z.lor (Z.lor (Z.shiftl bus 16) (Z.shiftl slot 11)) (Z.shiftl func 8))
         (Z.land offset 0xFC)) 0x80000000)
    = pci_address (Z.lor bus (slot / 32)) (slot mod 32) func (offset / 4).
Proof.
  intros Hb Hs Hf Ho. unfold in_width in *.
  assert (0 <= slot / 32 < 8) as Hd by (Z.div_mod_to_equations; lia).
  pose proof (Z.mod_pos_bound slot 32 ltac:(lia)) as Hm.
  assert (0 <= offset / 4 < 64) as Hw by (Z.div_mod_to_equations; lia).
  assert (Z.land offset 0xFC = Z.shiftl (offset / 4) 2) as ->.
  { change 0xFC with (Z.ldiff (Z.ones 8) (Z.ones 2)). rewrite Z.ldiff_land, Z.land_assoc.
    rewrite land_ones_mod, Z.mod_small by lia. rewrite land_lnot_ones, Z.shiftl_mul_pow2 by lia.
    change (2 ^ 2) with 4. Z.div_mod_to_equations. lia. }
  assert (slot = Z.lor (slot mod 32) (Z.shiftl (slot / 32) 5)) as Hslot.
  { rewrite lor_shiftl_add by (unfold in_width; lia). change (2 ^ 5) with 32. Z.div_mod_to_equations. lia. }
  pose proof (slot_bus_range bus slot Hb Hs) as Hor. unfold in_width in Hor.
  assert (Z.lor (Z.shiftl bus 16) (Z.shiftl slot 11) =
    Z.shiftl (Z.lor (slot mod 32) (Z.shiftl (Z.lor bus (slot / 32)) 5)) 11) as ->.
  { rewrite Hslot at 1. rewrite !Z.shiftl_lor, !Z.shiftl_shiftl by lia. change (5 + 11) with 16.
    rewrite Z.lor_assoc, (Z.lor_comm (Z.shiftl bus 16)), <- !Z.lor_assoc. done. }
  rewrite (lor_shiftl_add (slot mod 32)) by (unfold in_width; lia).
  set (x := slot mod 32 + Z.lor bus (slot / 32) * 2 ^ 5).
  assert (0 <= x < 2 ^ 13) as Hx by (subst x; lia).
  assert (Z.lor (Z.shiftl x 11) (Z.shiftl func 8) = Z.shiftl (func + x * 2 ^ 3) 8) as ->.
  { rewrite <- lor_shiftl_add by (unfold in_width; lia). rewrite Z.shiftl_lor, Z.shiftl_shiftl by lia.
    apply Z.lor_comm. }
  rewrite (Z.lor_comm (Z.shiftl _ 8)), lor_shiftl_add; [|rewrite Z.shiftl_mul_pow2; unfold in_width; lia|lia].
  rewrite (Z.shiftl_mul_pow2 (offset / 4)) by lia. change 0x80000000 with (Z.shiftl 1 31).
  rewrite lor_shiftl_add by (unfold in_width; lia). rewrite wrap_small by (unfold in_width; lia).
  unfold pci_address. subst x. lia.
Qed.

(** The two ports. *)
Definition pci_ports (p : Z) : Prop := p = 0xCF8 \/ p = 0xCFC.

Lemma read_long_ports `{Machine HW} bus slot func offset : only_at pci_ports (pci_config_read_long bus slot func offset).
Proof.
  apply only_at_bind; [apply only_at_outl; by left|]. intros _. apply only_at_inl. by right.
Qed.

Section Properties.
Context {HW : Type} `{PciLaws HW}.
Implicit Types (h : HW).

(** The configuration space is as it was. *)
Definition same_config h h' : Prop := forall b d f w, pci_config h' b d f w = pci_config h b d f w.

(** The function a slot number selects. *)
Definition config_dword h bus slot func offset : Z :=
  pci_config h (Z.lor bus (slot / 32)) (slot mod 32) func (offset / 4).

Lemma read_long_ok h bus slot func offset :
  pci_inv h -> is_u8 bus -> is_u8 slot -> 0 <= func < 8 -> is_u8 offset ->
  wp (pci_config_read_long bus slot func offset) h (fun v h' =>
    v = config_dword h bus slot func offset /\ pci_inv h' /\ same_config h h' /\ framed pci_ports h h').
Proof.
  intros Hi Hb Hs Hf Ho.
  assert (wp (pci_config_read_long bus slot func offset) h (fun v h' =>
    v = config_dword h bus slot func offset /\ pci_inv h' /\ same_config h h')) as Hw.
  { unfold pci_config_read_long. cbv zeta. rewrite address_fields by done.
    apply pci_select; [done|by apply slot_bus_range| |done|]; unfold in_width in *; Z.div_mod_to_equations; lia. }
  eapply wp_mono; [exact (wp_only pci_ports _ _ _ Hw (read_long_ports _ _ _ _))|].
  by intros v h' [(? & ? & ?) ?].
Qed.

(** Part [n] of width [k] bytes of a double word. *)
Lemma part_ok v offset k :
  is_u8 offset -> k = 1 \/ k = 2 ->
  Z.land (Z.shiftr v (Z.land offset (4 - k) * 8)) (Z.ones (8 * k)) =
    v / 2 ^ (8 * (offset mod 4 - offset mod k)) mod 2 ^ (8 * k).
Proof.
  intros Ho Hk. rewrite land_ones_mod by lia.
  assert (Z.land offset (4 - k) = offset mod 4 - offset mod k) as ->.
  { destruct Hk as [-> | ->].
    - change (4 - 1) with (Z.ones 2). rewrite land_ones_mod by lia. change (2 ^ 2) with 4. rewrite Z.mod_1_r. lia.
    - change (4 - 2) with (Z.land (Z.ones 2) (Z.lnot (Z.ones 1))). rewrite Z.land_assoc, land_ones_mod, land_lnot_ones by lia.
      change (2 ^ 1) with 2. change (2 ^ 2) with 4. Z.div_mod_to_equations. lia. }
  rewrite Z.shiftr_div_pow2; [f_equal; f_equal; f_equal; lia|].
  destruct Hk as [-> | ->]; Z.div_mod_to_equations; lia.
Qed.

Lemma read_word_ok h bus slot func offset :
  pci_inv h -> is_u8 bus -> is_u8 slot -> 0 <= func < 8 -> is_u8 offset ->
  wp (pci_config_read_word bus slot func offset) h (fun v h' =>
    v = config_dword h bus slot func offset / 2 ^ (8 * (offset mod 4 - offset mod 2)) mod 2 ^ 16 /\
    pci_inv h' /\ same_config h h' /\ framed pci_ports h h').
Proof.
  intros Hi Hb Hs Hf Ho. unfold pci_config_read_word. wp_step.
  eapply wp_mono; [by apply read_long_ok|]. intros v h' (-> & Hi' & Hc). wp_step. split; [|done].
  change 0xFFFF with (Z.ones (8 * 2)). apply (part_ok _ offset 2); [done|by right].
Qed.

Lemma read_byte_ok h bus slot func offset :
  pci_inv h -> is_u8 bus -> is_u8 slot -> 0 <= func < 8 -> is_u8 offset ->
  wp (pci_config_read_byte bus slot func offset) h (fun v h' =>
    v = config_dword h bus slot func offset / 2 ^ (8 * (offset mod 4)) mod 2 ^ 8 /\
    pci_inv h' /\ same_config h h' /\ framed pci_ports h h').
Proof.
  intros Hi Hb Hs Hf Ho. unfold pci_config_read_byte. wp_step.
  eapply wp_mono; [by apply read_long_ok|]. intros v h' (-> & Hi' & Hc). wp_step. split; [|done].
  change 0xFF with (Z.ones (8 * 1)). rewrite (part_ok _ offset 1) by (done || by left). by rewrite Z.mod_1_r, Z.sub_0_r.
Qed.

Lemma config_dword_small h bus slot func offset :
  0 <= slot < 32 -> config_dword h bus slot func offset = pci_config h bus slot func (offset / 4).
Proof.
  intros Hs. unfold config_dword. by rewrite (Z.div_small slot), (Z.mod_small slot), Z.lor_0_r by lia.
Qed.

(** The three functions read the configuration space of the function they are given: the
    double word at the offset, and of it the word and the byte at the offset, the lowest
    first.  They change nothing in it. *)
Theorem pci_config_read_correct h bus slot func offset :
  pci_inv h -> is_u8 bus -> 0 <= slot < 32 -> 0 <= func < 8 -> is_u8 offset ->
  let dword := pci_config h bus slot func (offset / 4) in
  (exists h', pci_config_read_long bus slot func offset h = Ok (dword, h') /\ pci_inv h' /\ same_config h h') /\
  (offset mod 2 = 0 -> exists h', pci_config_read_word bus slot func offset h =
     Ok (dword / 2 ^ (8 * (offset mod 4)) mod 2 ^ 16, h') /\ pci_inv h' /\ same_config h h') /\
  (exists h', pci_config_read_byte bus slot func offset h =
     Ok (dword / 2 ^ (8 * (offset mod 4)) mod 2 ^ 8, h') /\ pci_inv h' /\ same_config h h').
Proof.
  intros Hi Hb Hs Hf Ho dword. assert (is_u8 slot) as Hs8 by (unfold in_width; lia).
  assert (config_dword h bus slot func offset = dword) as Hd by by apply config_dword_small.
  pose proof (read_long_ok h bus slot func offset Hi Hb Hs8 Hf Ho) as (v1 & h1 & R1 & -> & P1)%wp_ok.
  pose proof (read_word_ok h bus slot func offset Hi Hb Hs8 Hf Ho) as (v2 & h2 & R2 & -> & P2)%wp_ok.
  pose proof (read_byte_ok h bus slot func offset Hi Hb Hs8 Hf Ho) as (v3 & h3 & R3 & -> & P3)%wp_ok.
  rewrite Hd in *. destruct P1 as (? & ? & _), P2 as (? & ? & _), P3 as (? & ? & _).
  split; [by exists h1|]. split; [|by exists h3]. intros Heven. exists h2. split; [|done]. by rewrite R2, Heven, Z.sub_0_r.
Qed.

(** A slot number beyond 31 spills into the number of the bus: the slots 32 to 255 that
    [pci_init] asks for on bus 0 are the devices of the buses 1 to 7. *)
Theorem pci_slot_is_other_bus h slot func offset :
  pci_inv h -> 32 <= slot < 256 -> 0 <= func < 8 -> is_u8 offset ->
  exists h', pci_config_read_long 0 slot func offset h =
      Ok (pci_config h (slot / 32) (slot mod 32) func (offset / 4), h') /\
    pci_inv h' /\ same_config h h' /\ 1 <= slot / 32 < 8.
Proof.
  intros Hi Hs Hf Ho. assert (is_u8 slot /\ is_u8 0) as [Hs8 Hz] by (unfold in_width; lia).
  pose proof (read_long_ok h 0 slot func offset Hi Hz Hs8 Hf Ho) as (v & h' & R & -> & P1 & P2 & _)%wp_ok.
  exists h'. split; [exact R|]. split; [done|]. split; [done|]. Z.div_mod_to_equations. lia.
Qed.
End Properties.

Section Scan.
Context {HW : Type} `{PciLaws HW} `{Patience} `{PutcharResult HW}.
Implicit Types (d : devices HW).

(** [pci_init] reads, and, with no debug flag set, does nothing else. *)
Lemma pci_init_ok d :
  pci_inv (ports d) ->
  wp pci_init d (fun _ d' => d' = with_ports (ports d') d /\ pci_inv (ports d') /\
    same_config (ports d) (ports d') /\ framed pci_ports (ports d) (ports d')).
Proof.
  set (I := fun h => pci_inv h /\ same_config (ports d) h /\ framed pci_ports (ports d) h).
  intros Hi. unfold pci_init.
  assert (forall h h', I h -> pci_inv h' /\ same_config h h' /\ framed pci_ports h h' -> I h') as Hnext.
  { intros h h' (_ & A & F) (? & B & F'). split; [done|]. split; [|by etrans]. intros b dv f w. by rewrite B, A. }
  eapply (wp_for 256 _ (fun _ d' => d' = with_ports (ports d') d /\ I (ports d'))).
  { split; [by destruct d|]. by split. }
  intros i d1 _ [Hd1 Hi1]. assert (is_u8 (u8 i) /\ is_u8 0) as [Hu Hz] by (split; [by apply wrap_range|done]).
  wp_step. unfold on_ports. wp_step. eapply wp_mono; [apply read_word_ok; [exact (proj1 Hi1)|done|done|done|done]|].
  intros v h2 [_ H2']. apply (Hnext _ _ Hi1) in H2'.
  destruct (v =? 0xFFFF); [wp_step; by rewrite Hd1|].
  wp_step. wp_step. eapply wp_mono; [apply read_word_ok; [exact (proj1 H2')|done|done|done|done]|].
  intros v3 h3 [_ H3']. apply (Hnext _ _ H2') in H3'.
  wp_step. wp_step. eapply wp_mono; [apply read_byte_ok; [exact (proj1 H3')|done|done|done|done]|].
  intros v4 h4 [_ H4']. apply (Hnext _ _ H3') in H4'.
  wp_step. wp_step. eapply wp_mono; [apply read_byte_ok; [exact (proj1 H4')|done|done|done|done]|].
  intros v5 h5 [_ H5']. apply (Hnext _ _ H4') in H5'.
  change (DEBUG dbflags DB_PCI ?f ?a) with (mret (M := M (devices HW)) tt). wp_step. by rewrite Hd1.
Qed.
End Scan.

(** ** Witnesses *)

Section Examples.

(** A bus on which every register reads the same. *)
#[local, refine] Instance uniform_pci : PciLaws register_machine := {
  pci_inv := fun _ => True;
  pci_config := fun h _ _ _ _ => u32 (regs h 0xCFC)
}.
Proof.
  - intros. by apply wrap_range.
  - intros h bus device func dword _ Hb Hd Hf Hw. done.
  - done.
Defined.

Lemma ex_pci (h : register_machine) : pci_inv h.
Proof. exact I. Qed.

Definition ex_bus : register_machine := Regs (fun _ => 0x12348086) [].

Lemma pci_config_read_correct_witness :
  (exists h', pci_config_read_word 0 3 0 2 ex_bus = Ok (0x1234, h')) /\
  (exists h', pci_config_read_byte 0 3 0 1 ex_bus = Ok (0x80, h')).
Proof.
  split.
  - destruct (pci_config_read_correct ex_bus 0 3 0 2 (ex_pci ex_bus)) as (_ & Hw & _); [done|lia|lia|done|].
    destruct (Hw eq_refl) as (h' & R & _). exists h'. exact R.
  - destruct (pci_config_read_correct ex_bus 0 3 0 1 (ex_pci ex_bus)) as (_ & _ & h' & R & _); [done|lia|lia|done|].
    exists h'. exact R.
Defined.

Lemma pci_slot_is_other_bus_witness :
  exists h', pci_config_read_long 0 33 0 0 ex_bus = Ok (pci_config ex_bus 1 1 0 0, h').
Proof.
  destruct (pci_slot_is_other_bus ex_bus 33 0 0 (ex_pci ex_bus)) as (h' & R & _); [lia|lia|done|]. exists h'. exact R.
Defined.
End Examples.
