(* ===== verification/KernelInit.v ===== *)
(** * kernel/kernel/kernel.cpp and kernel/gfx/gfx.cpp: the state and the start of the kernel

    The state composes the components: the descriptor tables, the devices, and the heap on
    the virtual memory on the page frames.  [kernel_init] starts the terminal, the tables, the
    serial line, the memory managers, the clock and the PCI bus. *)

From S2P Require Import Prelude Common Frames Pmm PmmFrames Cstring Vm VmList VmPaging VmInit VmAlloc VmProps Port Tables Tty Devices Printf PrintfSpec Serial Timer Debug Pci.
From S2P Require Import Liballoc Stdlib.

(** ** Data *)

Record multiboot_t : Type := Multiboot {
  flags : Z; mem_lower : Z; mem_upper : Z; boot_device : Z; cmdline : Z;
  framebuffer_addr : Z; framebuffer_addr_high : Z; framebuffer_pitch : Z;
  framebuffer_width : Z; framebuffer_height : Z; framebuffer_bpp : Z; framebuffer_type : Z
}.

Definition MB_FLAG_FRAMEBUFFER : Z := Z.shiftl 1 12.

(** The state of all components. *)
Record kernel {HW : Type} : Type := Kernel {
  k_tables : tables;
  k_devices : devices HW;
  k_heap : la_state (vm_state Pmm.pmm_state);
  gfx_enabled : bool;
  gfx_fb_size : Z
}.
Arguments kernel : clear implicits.
Arguments Kernel {HW}.

Definition k_vm {HW : Type} (k : kernel HW) : vm_state Pmm.pmm_state := source (k_heap k).

(** ** Operations *)

Section Kernel.
Context {HW : Type} `{Machine HW} `{Patience} `{PutcharResult HW} `{Addresses} `{Layout}.
#[local] Existing Instance PmmFrames.pmm_allocator.
Implicit Types (k : kernel HW).

Definition with_tables (s : tables * HW) k : kernel HW :=
  Kernel s.1 (with_ports s.2 (k_devices k)) (k_heap k) (gfx_enabled k) (gfx_fb_size k).
Definition with_devices (d : devices HW) k : kernel HW :=
  Kernel (k_tables k) d (k_heap k) (gfx_enabled k) (gfx_fb_size k).
Definition with_heap (s : la_state (vm_state Pmm.pmm_state)) k : kernel HW :=
  Kernel (k_tables k) (k_devices k) s (gfx_enabled k) (gfx_fb_size k).
Definition with_vm (s : vm_state Pmm.pmm_state) k : kernel HW := with_heap (with_source s (k_heap k)) k.
Definition with_gfx (b : bool) (size : Z) k : kernel HW :=
  Kernel (k_tables k) (k_devices k) (k_heap k) b size.

Definition on_tables {A} (m : M (tables * HW) A) : M (kernel HW) A :=
  zoom (fun k => (k_tables k, ports (k_devices k))) with_tables m.
Definition on_devices {A} (m : M (devices HW) A) : M (kernel HW) A := zoom k_devices with_devices m.
Definition on_heap {A} (m : M (la_state (vm_state Pmm.pmm_state)) A) : M (kernel HW) A := zoom k_heap with_heap m.
Definition on_vm {A} (m : M (vm_state Pmm.pmm_state) A) : M (kernel HW) A := zoom k_vm with_vm m.

(** gfx.cpp. *)
Definition gfx_framebuffer : Z := 0xFF000000.

Definition gfx_init (mb : multiboot_t) : M (kernel HW) bool :=
  if Z.land (flags mb) MB_FLAG_FRAMEBUFFER =? 0 then mret false
  else if framebuffer_type mb =? 2 then
    _ ← on_devices (DEBUG dbflags DB_GFX (chars "[GFX] Framebuffer type is 2: text mode" ++ [10]) []);
    mret false
  else
    let pixels := u32 (framebuffer_width mb * framebuffer_height mb) in
    let size := u32 (pixels * framebuffer_bpp mb) / 8 in
    enabled ← gets gfx_enabled;
    _ ← modify (with_gfx enabled size);
    _ ← on_vm (vm_dma (framebuffer_addr mb) gfx_framebuffer size);
    _ ← on_vm (in_ram (memset gfx_framebuffer 100 size));
    _ ← modify (with_gfx true size);
    mret true.

Definition gfx_apply (buffer : Z) : M (kernel HW) Z :=
  size ← gets gfx_fb_size;
  on_vm (in_ram (memcpy gfx_framebuffer buffer size)).

(** The initialisation, in the order of [kernel_main]. *)
Definition kernel_init (mb : multiboot_t) : M (kernel HW) unit :=
  _ ← on_devices (on_screen_of tty_init);
  _ ← on_tables descriptor_tables_init;
  _ ← on_devices (serial_init COM1);
  _ ← on_vm (in_frames (Pmm.pmm_init (u32 (mem_upper mb * KiB + 1 * MiB))));
  _ ← on_vm vm_init;
  _ ← on_devices timer_init;
  on_devices pci_init.

Definition println (format : string) (args : list va_item) : M (kernel HW) unit :=
  on_devices (_ ← printf (chars format ++ [10]) args; mret tt).

(** [kernel_main] up to the test for the frame buffer. *)
Definition kernel_start (mb : multiboot_t) : M (kernel HW) unit :=
  _ ← kernel_init mb;
  _ ← println "Hello, World!!" [];
  _ ← println "Multiboot flags: %012b" [VInt (s32 (flags mb))];
  println "Screen: %dx%d %d bpp pitch: %d"
    [VInt (s32 (framebuffer_width mb)); VInt (s32 (framebuffer_height mb));
     VInt (framebuffer_bpp mb); VInt (s32 (framebuffer_pitch mb))].

End Kernel.

(** ** Specification *)

Section Boot.
Context {HW : Type} `{Machine HW} `{!UartLaws HW} `{!PicLaws HW} `{!PciLaws HW} `{Patience} `{PutcharResult HW}.
Context `{Addresses} `{Layout}.
#[local] Existing Instances PmmFrames.pmm_allocator PmmFrames.pmm_allocator_laws.
Hypothesis (Hpatience : (uart_bound < patience)%nat).
Hypothesis (Hresult : forall d : devices HW, 0 <= putchar_result d).
Implicit Types (h : HW) (k : kernel HW).

(** The state before [kernel_main]. *)
Definition kernel_boot h (cells : list Z) (mem : gmap Z Z) : kernel HW :=
  Kernel tables_boot (devices_boot h cells) (la_boot (vm_boot (Pmm.pmm_boot mem))) false 0.

Definition upper_memory (mb : multiboot_t) : Z := u32 (mem_upper mb * KiB + 1 * MiB).

(** What [kernel_init] establishes. *)
Record initialised k : Prop := {
  ki_console : console_ok (k_devices k);
  ki_gdt : gdtr (k_tables k) = Some (Descriptor 39 addr_gdt);
  ki_idt : idtr (k_tables k) = Some (Descriptor 2047 addr_idt);
  ki_interrupts : interrupt_flag (k_tables k) = true;
  ki_gates : forall i, 0 <= i < 48 -> idt (k_tables k) !! Z.to_nat i = Some (idt_entry_of (isr i) 0x08 0x8E);
  ki_handlers : interrupt_handlers (k_devices k) =
    <[32%nat := Some timer_handler_fn]> (<[36%nat := Some serial_handler_fn]> (replicate 256 None));
  ki_enabled : forall irq, 0 <= irq < 16 ->
    irq_enabled (ports (k_devices k)) irq = bool_decide (irq = 0) || bool_decide (irq = 4);
  ki_time : ns_since_boot (k_devices k) = 0;
  ki_heap : k_heap k = la_boot (k_vm k);
  ki_spaces : upper_half (k_vm k) /\ ram (k_vm k) = ∅;
  ki_memory : vm_inv (k_vm k) [Node addr_vm_first_bucket 0xC0800 0xC1800] [] 0;
  ki_frames : forall f, 0 <= f < Pmm.n_frames (frames (k_vm k)) -> Pmm.frame_free (frames (k_vm k)) f = true;
  ki_mapped : forall v, is_u32 v -> mmu (k_vm k) v =
    if decide (KERNEL_OFFSET <= v < KERNEL_BOOT_MAPPED) then Some (v - KERNEL_OFFSET) else None
}.

Record boot_ok (mb : multiboot_t) h (cells : list Z) (mem : gmap Z Z) : Prop := {
  bo_cells : length cells = 2000%nat;
  bo_isr : forall i, is_u32 (isr i);
  bo_uart : uart_attached h;
  bo_pci : pci_inv h;
  bo_layout : layout_ok;
  bo_memory : Pmm.pmm_boot_ok (upper_memory mb) mem
}.

(** The ports of the devices are apart. *)
Lemma pic_uart_away p : pic_ports p -> uart_away p.
Proof. unfold pic_ports, uart_away, clear_of, COM1. intros Hp. set_unfold in Hp. lia. Qed.
Lemma pic_pci_away p : pic_ports p -> clear_of 0xCF8 0xD00 p.
Proof. unfold pic_ports, clear_of. intros Hp. set_unfold in Hp. lia. Qed.
Lemma uart_pic_away p : uart_ports p -> pic_away p.
Proof. unfold uart_ports, pic_away, clear_of, COM1. lia. Qed.
Lemma uart_pci_away p : uart_ports p -> clear_of 0xCF8 0xD00 p.
Proof. unfold uart_ports, clear_of, COM1. lia. Qed.

Lemma pit_pci_away p : pit_ports p -> clear_of 0xCF8 0xD00 p.
Proof. unfold pit_ports, clear_of. lia. Qed.

Lemma pci_framed P h h' :
  framed P h h' -> (forall p, P p -> clear_of 0xCF8 0xD00 p) -> pci_inv h -> pci_inv h'.
Proof. intros F HP Hi. apply (F pci_inv); [|done]. intros x w p v Hp. by apply pci_elsewhere, HP. Qed.

(** The terminal, the tables and the serial line are running; the memory is as before. *)
Record drivers_started h mem k : Prop := {
  ds_console : console_ok (k_devices k);
  ds_heap : k_heap k = la_boot (vm_boot (Pmm.pmm_boot mem));
  ds_gdt : gdtr (k_tables k) = Some (Descriptor 39 addr_gdt);
  ds_idt : idtr (k_tables k) = Some (Descriptor 2047 addr_idt);
  ds_interrupts : interrupt_flag (k_tables k) = true;
  ds_gates : forall i, 0 <= i < 48 -> idt (k_tables k) !! Z.to_nat i = Some (idt_entry_of (isr i) 0x08 0x8E);
  ds_handlers : interrupt_handlers (k_devices k) = <[36%nat := Some serial_handler_fn]> (replicate 256 None);
  ds_time : ns_since_boot (k_devices k) = 0;
  ds_sent : uart_sent (ports (k_devices k)) = uart_sent h;
  ds_pci : pci_inv (ports (k_devices k));
  ds_enabled : forall irq, 0 <= irq < 16 -> irq_enabled (ports (k_devices k)) irq = bool_decide (irq = 4)
}.

Lemma drivers_start_ok mb h cells mem {A} (rest : M (kernel HW) A) Q :
  boot_ok mb h cells mem -> (forall k, drivers_started h mem k -> wp rest k Q) ->
  wp (_ ← on_devices (on_screen_of tty_init); _ ← on_tables descriptor_tables_init; _ ← on_devices (serial_init COM1); rest)
    (kernel_boot h cells mem) Q.
Proof.
  intros [Hcells Hisr Hu Hpci _ _] Hrest. unfold on_devices, on_tables, on_screen_of.
  do 3 wp_step. unfold tty_init, tty_clear. do 3 wp_step. cbn [tty_row tty_column tty_buf tty_boot k_devices kernel_boot screen devices_boot].
  set (t0 := Tty _ _ _ _). assert (tty_wf t0) as Ht by (split; done).
  wp_step. wp_step. cbn [k_tables k_devices with_devices kernel_boot ports with_screen devices_boot].
  eapply wp_mono; [apply descriptor_tables_init_ok|].
  intros [] [t h1] (E1 & E2 & E3 & E4 & _ & E6). cbn [fst snd] in E1, E2, E3, E4, E6.
  assert (framed pic_ports h h1) as F1 by (rewrite E1; apply pic_sequence_framed).
  assert (forall irq, irq_enabled h1 irq = false) as M1 by (intros; rewrite E1; apply pic_sequence_masks).
  clear E1.
  assert (uart_attached h1 /\ uart_sent h1 = uart_sent h) as [Hu1 Hs1].
  { apply (F1 (fun x => uart_attached x /\ uart_sent x = uart_sent h)); [|done].
    intros x w p v Hp Hx. apply (proj1 (uart_elsewhere (uart_sent h))); [|done]. by apply pic_uart_away. }
  assert (pci_inv h1) as Hp1.
  { apply (F1 pci_inv); [|done]. intros x w p v Hp Hx. apply pci_elsewhere; [|done]. by apply pic_pci_away. }
  wp_step. wp_step. cbn [k_devices with_tables ports with_ports fst snd].
  eapply wp_mono; [apply (serial_init_ok _ (fun x _ x' =>
    forall irq, 0 <= irq < 16 -> irq_enabled x' irq = bool_decide (irq = 4) || irq_enabled x irq)); try done|].
  { intros x. apply irq_clear_mask_ok. lia. }
  intros [] d2 (Hd2 & Hscr2 & Hh2 & Hns2 & Hs2 & ha & hb & Fa & Fb & Mb & Fc).
  cbn [k_devices with_devices kernel_boot with_ports with_screen devices_boot interrupt_handlers ns_since_boot ports]
    in Hh2, Hns2, Hs2, Fa.
  assert (pci_inv (ports d2)) as Hp2.
  { pose proof (pci_framed _ _ _ Fa uart_pci_away Hp1) as Hpa.
    pose proof (pci_framed _ _ _ Fb pic_pci_away Hpa) as Hpb. exact (pci_framed _ _ _ Fc uart_pci_away Hpb). }
  assert (forall irq, 0 <= irq < 16 -> irq_enabled (ports d2) irq = bool_decide (irq = 4)) as M2.
  { intros irq Hirq. rewrite (pic_framed hb), Mb, (pic_framed h1), M1, orb_false_r; try done;
      by eapply framed_mono; [exact uart_pic_away|]. }
  apply Hrest. split; cbn [k_devices k_tables k_heap with_devices with_tables kernel_boot fst snd]; try done.
  - intros i Hi. rewrite E6, decide_True by lia. done.
  - by rewrite Hs2, Hs1.
Qed.

Lemma kernel_init_ok mb h cells mem :
  boot_ok mb h cells mem ->
  wp (kernel_init mb) (kernel_boot h cells mem) (fun _ k => initialised k /\
    uart_sent (ports (k_devices k)) = uart_sent h ++ (text_of timer_message ≫= (fun c => serial_emit (u8 c))) /\
    forall p, Pmm.pmm_init (upper_memory mb) (Pmm.pmm_boot mem) = Ok (tt, p) -> frames (k_vm k) = p).
Proof.
  intros Hb. unfold kernel_init. apply (drivers_start_ok mb); [done|].
  intros k2 [Hd2 Hheap E2 E3 E4 E6 Hh2 Hns2 Hs2 Hp2 M2]. destruct Hb as [_ _ _ _ Hlay Hmem]. unfold on_devices, on_vm.
  assert (k_vm k2 = vm_boot (Pmm.pmm_boot mem)) as Hv by (unfold k_vm; by rewrite Hheap).
  unfold in_frames. do 3 wp_step. rewrite Hv. cbn [frames vm_boot].
  eapply wp_mono; [apply wp_run, Pmm.pmm_init_ok; exact Hmem|]. intros [] p [(Hpi & _ & _ & _ & _ & _ & Hfree) Hprun].
  wp_step. wp_step. cbn [k_vm k_heap with_vm with_heap with_source source]. rewrite ?Hv, ?Hheap.
  change (with_frames p _) with (vm_boot p).
  eapply wp_mono; [by apply vm_init_inv|]. intros [] s (Hvm & Hsp & Hfr & _ & _ & _ & Hmmu).
  wp_step. wp_step. cbn [k_devices with_vm with_heap with_devices].
  eapply wp_mono; [apply (timer_init_ok Hpatience Hresult); [done|by rewrite Hh2, length_insert]|].
  intros [] d3 (Hd3 & Hh3 & Hns3 & Hs3 & hc & Fd & Hrun & M3).
  assert (pci_inv (ports d3)) as Hp3.
  { assert (framed pic_ports (pit_programmed hc) (ports d3)) as Fe by (by eapply irq_clear_mask_ports).
    pose proof (pci_framed _ _ _ Fd uart_pci_away Hp2) as Hpc.
    pose proof (pci_framed _ _ _ (pit_framed hc) pit_pci_away Hpc) as Hpd.
    exact (pci_framed _ _ _ Fe pic_pci_away Hpd). }
  wp_step. cbn [k_devices with_vm with_heap with_devices].
  eapply wp_mono; [by apply pci_init_ok|]. intros [] d4 (Hd4 & _ & _ & Ff). destruct (uart_framed (ports d3) (ports d4)) as [Hi4 Hs4].
  { eapply framed_mono; [|exact Ff]. unfold pci_ports, uart_away, clear_of, COM1. lia. }
  { apply Hd3. }
  destruct Hd3 as [_ Hport3 Htty3]. rewrite Hd4 in *. cbn [ports with_ports] in *.
  split; [split; cbn [k_devices k_tables k_vm k_heap source with_source with_devices with_vm with_heap with_tables kernel_boot fst snd interrupt_handlers with_ports]|].
  - by split.
  - exact E2.
  - exact E3.
  - exact E4.
  - exact E6.
  - by rewrite Hh3, Hh2.
  - intros irq Hirq. cbn [ports with_ports]. rewrite (pic_framed (ports d3)), M3, (pic_framed (ports (k_devices k2))), M2; try done.
    + eapply framed_mono; [exact uart_pic_away|exact Fd].
    + eapply framed_mono; [|exact Ff]. unfold pci_ports, pic_away, clear_of. lia.
  - cbn. by rewrite Hns3, Hns2.
  - rewrite Hheap. done.
  - exact Hsp.
  - exact Hvm.
  - rewrite Hfr. exact Hfree.
  - exact Hmmu.
  - split; [cbn; rewrite Hs4, Hs3, Hs2; done|]. intros p' Hp'. fold (upper_memory mb) in Hprun.
    rewrite Hprun in Hp'. injection Hp' as <-. exact Hfr.
Qed.

(** Using the console keeps what has been initialised. *)
Lemma initialised_console k d :
  initialised k -> console_ok d -> interrupt_handlers d = interrupt_handlers (k_devices k) ->
  ns_since_boot d = ns_since_boot (k_devices k) ->
  framed uart_ports (ports (k_devices k)) (ports d) -> initialised (with_devices d k).
Proof.
  intros [] Hd Hh Hns F. split; try done; [by cbn; rewrite Hh| |by cbn; rewrite Hns]. intros irq Hirq. cbn.
  rewrite (pic_framed (ports (k_devices k))); [by auto|]. eapply framed_mono; [exact uart_pic_away|exact F].
Qed.

Definition sent k : list Z := uart_sent (ports (k_devices k)).
Definition line_of (ps : list piece) : list Z := text_of ps ≫= (fun c => serial_emit (u8 c)).

Lemma println_ok format ps k :
  chars format ++ [10] = format_of ps -> pieces_ok ps -> initialised k ->
  wp (println format (args_of ps)) k
    (fun _ k' => initialised k' /\ sent k' = sent k ++ line_of ps /\ k_heap k' = k_heap k).
Proof.
  intros Hf Hps Hk. unfold println, on_devices. rewrite Hf. wp_step. wp_step.
  eapply wp_mono; [apply (console_printf_ok Hpatience Hresult); [done|apply Hk]|].
  intros r d (_ & Hd & [F1 F2 F3 _] & Hs). wp_step. split; [by apply initialised_console|]. split; [exact Hs|done].
Qed.

Lemma setcolor_ok color k :
  initialised k ->
  wp (on_devices (on_screen_of (tty_setcolor color))) k (fun _ k' => initialised k' /\ sent k' = sent k).
Proof.
  intros Hk. unfold on_devices, on_screen_of, tty_setcolor. do 3 wp_step. split; [|done].
  apply initialised_console; [done| |done|done|done]. destruct Hk as [[? ? []]]. by split.
Qed.

(** The lines of [kernel_main]. *)
Definition flags_line (mb : multiboot_t) : list piece :=
  [Text (chars "Multiboot flags: "); Int true [49; 50] false Binary (s32 (flags mb)); Text [10]].
Definition screen_line (mb : multiboot_t) : list piece :=
  [Text (chars "Screen: "); Int false [] false Decimal (s32 (framebuffer_width mb)); Text (chars "x");
   Int false [] false Decimal (s32 (framebuffer_height mb)); Text (chars " ");
   Int false [] false Decimal (framebuffer_bpp mb); Text (chars " bpp pitch: ");
   Int false [] false Decimal (s32 (framebuffer_pitch mb)); Text [10]].


(** The boot information can be printed: the flags fit the buffer of [%b]. *)
Record printable (mb : multiboot_t) : Prop := {
  tb_flags : 0 <= flags mb < 2 ^ 15;
  tb_width : 0 <= framebuffer_width mb < 2 ^ 31;
  tb_height : 0 <= framebuffer_height mb < 2 ^ 31;
  tb_pitch : 0 <= framebuffer_pitch mb < 2 ^ 31;
  tb_bpp : is_u8 (framebuffer_bpp mb)
}.

(** Text mode: no frame buffer. *)
Record text_boot (mb : multiboot_t) : Prop := {
  tb_lines : printable mb;
  tb_mode : Z.land (flags mb) MB_FLAG_FRAMEBUFFER = 0 \/ framebuffer_type mb = 2
}.

Lemma flags_line_ok mb : 0 <= flags mb < 2 ^ 15 -> pieces_ok (flags_line mb).
Proof.
  intros Hf. assert (int_fits (s32 (flags mb)) (radix_base Binary) (signed_conv false Binary)) as Hfit.
  { rewrite s32_small by lia. split; [lia|]. split; [done|]. cbn [signed_conv andb radix_base].
    rewrite wrap_small by (unfold in_width; lia). lia. }
  unfold flags_line. solve_pieces.
Qed.

Lemma screen_line_ok mb : printable mb -> pieces_ok (screen_line mb).
Proof.
  intros [_ Hw Hh Hp Hb]. unfold in_width in Hb.
  assert (forall n, 0 <= n < 2 ^ 31 -> int_fits n (radix_base Decimal) (signed_conv false Decimal)) as Hfit
    by (intros; apply int_fits_dec; lia).
  unfold screen_line. rewrite !s32_small by done. solve_pieces; apply Hfit; lia.
Qed.

(** The text up to the test for the frame buffer. *)
Definition start_text (mb : multiboot_t) : list Z :=
  line_of timer_message ++ line_of [Text (chars "Hello, World!!" ++ [10])] ++ line_of (flags_line mb) ++ line_of (screen_line mb).

Lemma kernel_start_ok mb h cells mem :
  boot_ok mb h cells mem -> printable mb ->
  wp (kernel_start mb) (kernel_boot h cells mem) (fun _ k => initialised k /\ sent k = uart_sent h ++ start_text mb /\
    forall p, Pmm.pmm_init (upper_memory mb) (Pmm.pmm_boot mem) = Ok (tt, p) -> frames (k_vm k) = p).
Proof.
  intros Hb Ht. unfold kernel_start. wp_step. eapply wp_mono; [by apply kernel_init_ok|]. intros [] k1 (I1 & S1 & P1).
  wp_step. eapply wp_mono; [apply (println_ok _ [Text (chars "Hello, World!!" ++ [10])]); [done|solve_pieces|done]|].
  intros [] k2 (I2 & S2 & P2). wp_step.
  eapply wp_mono; [apply (println_ok _ (flags_line mb)); [done|apply flags_line_ok, Ht|done]|].
  intros [] k3 (I3 & S3 & P3).
  eapply wp_mono; [apply (println_ok _ (screen_line mb)); [done|by apply screen_line_ok|done]|].
  intros [] k4 (I4 & S4 & P4). split; [done|]. fold (sent k1) in S1. split.
  - rewrite S4, S3, S2, S1. unfold start_text, line_of. by rewrite <- !app_assoc.
  - intros p Hp. rewrite <- (P1 p Hp). unfold k_vm. by rewrite P4, P3, P2.
Qed.
End Boot.
