(* ===== verification/Graphics.v ===== *)
(** * kernel/gfx/gfx.cpp and the animation of kernel.cpp

    [gfx_init], [gfx_apply] and the rounds of the animation on the state of the kernel: the
    picture is drawn into a block of the heap and copied to the frame buffer. *)

From S2P Require Import Prelude Common Frames Pmm PmmFrames Cstring Vm VmList VmFree VmPaging VmInit VmAlloc VmProps.
From S2P Require Import Liballoc LiballocProofs HeapFirst Stdlib LiballocHeap LiballocSpec LiballocProps HeapPages HeapErase KernelHeap.
From S2P Require Import Port Tables Tty Devices Printf PrintfSpec Serial Panic Timer Keyboard Isr Sleep.
From S2P Require Import Float Math Colors Animation KernelInit.

(** ** Operations *)

Section Operations.
Context {HW : Type} `{Machine HW} `{Patience} `{PutcharResult HW} `{SourcePath} `{Addresses} `{Layout} `{X87}.
#[local] Existing Instance PmmFrames.pmm_allocator.
Context (cr2 : Z).

(** [sleep(100)]; [arriving]: the interrupts to come. *)
Definition sleep_100 (arriving : list registers_t) : M (kernel HW) unit := fun k =>
  on_devices (sleep cr2 (k_vm k) arriving 100) k.

(** A round of the animation; the result is the time of the next. *)
Definition frame (back_buffer width height : Z) (arriving : list registers_t) (time : float) : M (kernel HW) float :=
  _ ← on_heap (in_memory (draw back_buffer width height time));
  _ ← gfx_apply back_buffer;
  let time := advance time in
  _ ← sleep_100 arriving;
  mret time.

(** The loop, as far as the interrupts are given. *)
Fixpoint animate (back_buffer width height : Z) (arrivals : list (list registers_t)) (time : float) : M (kernel HW) float :=
  match arrivals with
  | [] => mret time
  | arriving :: arrivals' =>
      time ← frame back_buffer width height arriving time;
      animate back_buffer width height arrivals' time
  end.

Definition buffer_size (mb : multiboot_t) : Z :=
  u32 (u32 (framebuffer_width mb * framebuffer_height mb) * (framebuffer_bpp mb / 8)).

(** The graphical mode of [kernel_main]. *)
Definition graphics_main (mb : multiboot_t) (arrivals : list (list registers_t)) : M (kernel HW) (Z * float) :=
  back_buffer ← on_heap (malloc (buffer_size mb));
  time ← animate back_buffer (framebuffer_width mb) (framebuffer_height mb) arrivals (float_const 10);
  mret (back_buffer, time).
End Operations.

(** ** Specification *)

(** A frame buffer of 32 bits per pixel that fits behind [gfx_framebuffer]. *)
Record graphics_mode (mb : multiboot_t) : Prop := {
  gm_flag : Z.land (flags mb) MB_FLAG_FRAMEBUFFER <> 0;
  gm_type : framebuffer_type mb <> 2;
  gm_bpp : framebuffer_bpp mb = 32;
  gm_width : 0 < framebuffer_width mb;
  gm_height : 0 < framebuffer_height mb;
  gm_size : framebuffer_width mb * framebuffer_height mb <= 2 ^ 22;
  gm_addr : 0 <= framebuffer_addr mb /\ framebuffer_addr mb mod 4096 = 0 /\
    framebuffer_addr mb + 4 * (framebuffer_width mb * framebuffer_height mb) <= 2 ^ 32
}.

Definition pixels (mb : multiboot_t) : Z := framebuffer_width mb * framebuffer_height mb.


Lemma pixels_bounds mb : 0 < framebuffer_width mb -> 0 < framebuffer_height mb ->
  0 < pixels mb /\ framebuffer_width mb <= pixels mb /\ framebuffer_height mb <= pixels mb.
Proof. unfold pixels. nia. Qed.

Lemma pixels_ok mb : graphics_mode mb ->
  0 < pixels mb <= 2 ^ 22 /\ framebuffer_width mb <= pixels mb /\ framebuffer_height mb <= pixels mb.
Proof. intros [_ _ _ Hw Hh Hs _]. destruct (pixels_bounds mb Hw Hh). unfold pixels in *. lia. Qed.

Lemma buffer_size_ok mb : graphics_mode mb -> buffer_size mb = 4 * pixels mb.
Proof.
  intros Hm. destruct (pixels_ok mb Hm) as (Hpx & _). unfold buffer_size. rewrite (gm_bpp _ Hm). fold (pixels mb).
  change (32 / 8) with 4. rewrite !wrap_small by (unfold in_width; rewrite ?wrap_small; unfold in_width; lia). lia.
Qed.


(** The bytes of a picture. *)
Lemma picture_byte_ok `{X87Laws} mb time j :
  0 < framebuffer_width mb -> 0 < framebuffer_height mb -> pixels mb <= 2 ^ 22 -> time_ok time -> 0 <= j < 4 * pixels mb ->
  exists b, picture_byte time (framebuffer_width mb) j = Some b /\ is_u8 b.
Proof.
  intros Hw Hh Hpx Ht Hj. destruct (pixels_bounds mb Hw Hh) as (_ & Hw' & Hh'). unfold pixels in *.
  set (w := framebuffer_width mb) in *. unfold picture_byte.
  assert (0 <= j / 4 < w * framebuffer_height mb) as Hj4 by (Z.div_mod_to_equations; lia).
  pose proof (Z.mod_pos_bound (j / 4) w ltac:(lia)).
  assert (0 <= j / 4 / w < framebuffer_height mb) as Hy.
  { split; [apply Z.div_pos; lia|]. apply Z.div_lt_upper_bound; lia. }
  destruct (picture_ok time ((j / 4) mod w) (j / 4 / w) Ht) as (col & -> & _); [lia|lia|].
  eexists. split; [reflexivity|]. apply wrap_range. lia.
Qed.


Section Specification.
Context {HW : Type} `{Machine HW} `{!UartLaws HW} `{!PicLaws HW} `{!PciLaws HW} `{Patience} `{PutcharResult HW} `{SourcePath} `{Addresses} `{Layout}.
Context `{X87Laws}.
#[local] Existing Instances PmmFrames.pmm_allocator PmmFrames.pmm_allocator_laws.
Context (cr2 : Z).
Hypothesis (Hpatience : (uart_bound < patience)%nat).
Hypothesis (Hresult : forall d : devices HW, 0 <= putchar_result d).
Implicit Types (k : kernel HW) (mb : multiboot_t).

(** The whole pages of the frame buffer are mapped to it. *)
Definition shown mb (v : vm_state Pmm.pmm_state) : Prop := forall i,
  0 <= i < 4 * pixels mb / 4096 * 4096 -> mmu v (gfx_framebuffer + i) = Some (framebuffer_addr mb + i).

Record framebuffer_ready mb k : Prop := {
  fr_size : gfx_fb_size k = 4 * pixels mb;
  fr_heap : k_heap k = la_boot (k_vm k);
  fr_memory : vm_inv (k_vm k) [Node addr_vm_first_bucket 0xC0800 0xC1800] [] 0;
  fr_upper : upper_half (k_vm k);
  fr_bytes : bytes_ok (ram (k_vm k));
  fr_shown : shown mb (k_vm k)
}.

Lemma gfx_init_ok mb k :
  initialised k -> graphics_mode mb ->
  wp (gfx_init mb) k (fun r k' => r = true /\ framebuffer_ready mb k' /\ k_devices k' = k_devices k /\
    frames (k_vm k') = frames (k_vm k)).
Proof.
  intros Hk Hm. destruct (pixels_ok mb Hm) as (Hpx & _ & _). destruct Hm as [Hf Ht Hb Hw Hh Hs (Ha0 & Ha & Ha1)].
  fold (pixels mb) in Hs, Ha1. unfold gfx_init. rewrite (proj2 (Z.eqb_neq _ _) Hf), (proj2 (Z.eqb_neq _ _) Ht). cbv zeta.
  assert (u32 (u32 (framebuffer_width mb * framebuffer_height mb) * framebuffer_bpp mb) / 8 = 4 * pixels mb) as ->.
  { fold (pixels mb). rewrite Hb, !wrap_small by (unfold in_width; rewrite ?wrap_small; unfold in_width; lia).
    rewrite <- (Z.div_mul (4 * pixels mb) 8) by lia. f_equal. lia. }
  wp_step. wp_step. wp_step. wp_step. wp_step. unfold on_vm. wp_step.
  change (k_vm (with_gfx _ _ k)) with (k_vm k).
  destruct (vi_paging _ _ _ _ (ki_memory _ Hk)) as (a & Hwf & Hcr3).
  eapply wp_mono; [apply (vm_dma_ok _ a); unfold gfx_framebuffer, KERNEL_OFFSET; (done || lia)|].
  intros [] v1 (Ho & Hwf1 & Hwalk). destruct (loaded _ _ _ Ho Hwf1 Hcr3) as [Hpg Hmmu].
  wp_step. unfold in_ram. wp_step. wp_step. cbn [k_vm k_heap source with_vm with_heap with_source].
  eapply wp_mono; [apply memset_ok; lia|]. intros r m [-> Hmem]. wp_step. wp_step. wp_step.
  destruct Ho as [pt ->]. split; [done|]. split; [|done].
  pose proof (ki_heap _ Hk) as Hheap. destruct (ki_spaces _ Hk) as [Hup Hram]. pose proof (ki_memory _ Hk) as [_ M2 M3 M4 M5].
  split; [done|..].
  - cbn. rewrite Hheap. done.
  - split; [exists a; split; [destruct Hwf1; by split|exact Hcr3]|exact M2|exact M3|exact M4|exact M5].
  - exact Hup.
  - cbn. eapply written_ok; [|exact Hmem|].
    + cbn. rewrite Hram. apply map_Forall_empty.
    + intros i b _ [= <-]. apply wrap_range. lia.
  - intros i Hi. assert (4 * pixels mb / 4096 * 4096 <= 4 * pixels mb) by (Z.div_mod_to_equations; lia).
    change (mmu _ (gfx_framebuffer + i)) with (mmu (with_paging (vm_current_as (k_vm k)) (spaces (k_vm k))
      (pdes (k_vm k)) pt (cr3 (k_vm k)) (k_vm k)) (gfx_framebuffer + i)).
    rewrite Hmmu, Hwalk, decide_True by (unfold in_width, gfx_framebuffer; lia). f_equal. lia.
Qed.

(** ** The back buffer *)

(** The state between two rounds, for a buffer at [p]. *)
Record drawable mb (p : Z) k : Prop := {
  dr_size : gfx_fb_size k = 4 * pixels mb;
  dr_bytes : bytes_ok (ram (k_vm k));
  dr_read : forall i, 0 <= i < 4 * pixels mb -> is_Some (ram (k_vm k) !! (p + i));
  dr_shown : shown mb (k_vm k);
  dr_heap : tracked (k_heap k) {[p := 4 * pixels mb]}
}.

Definition back_buffer : Z := 0xC0800000 + sizeof_tag.

Lemma malloc_buffer_ok mb k :
  framebuffer_ready mb k -> graphics_mode mb ->
  ~ fewer_frames (frames (k_vm k)) (Z.to_nat (request_pages (4 * pixels mb))) ->
  wp (on_heap (malloc (buffer_size mb))) k (fun p k' => p = back_buffer /\ drawable mb p k' /\ k_devices k' = k_devices k).
Proof.
  intros [Hsize Hheap Hvm Hup Hby Hsh] Hm Hfr. destruct (pixels_ok mb Hm) as (Hpx & _).
  rewrite (buffer_size_ok mb Hm). unfold on_heap. wp_step. rewrite Hheap. set (v := k_vm k) in *.
  set (n := 4 * pixels mb) in *. assert (0 < n <= 2 ^ 24) as Hn by lia.
  destruct (request_pages_ok n) as (P1 & P2 & P3); [lia|unfold sizeof_tag; lia|]. unfold sizeof_tag in P2, P3.
  set (pages := request_pages n) in *.
  assert (pages <= 5000) as Hpg by (Z.div_mod_to_equations; lia).
  pose proof (vm_alloc_kpages_ok v _ _ _ pages Hvm ltac:(lia)
    ltac:(intros pn Hpn; apply boot_lowest in Hpn; lia)) as Halloc.
  pose proof (malloc_first n v ltac:(lia) ltac:(unfold sizeof_tag; lia)) as Hfirst. fold pages in Hfirst.
  cbn [liballoc_alloc kernel_pages] in Hfirst.
  assert (record_inv v ∅) as Hrec.
  { apply (no_regions_recorded v _ _ _ Hvm); [intros x Hx%boot_free_page; lia|done|done]. }
  assert (tracked (la_boot v) ∅) as Htr.
  { exists (la_boot (Recorded v ∅)). split; [done|]. by apply boot_allocated. }
  pose proof (tracked_malloc (la_boot v) ∅ n Htr ltac:(lia) ltac:(unfold sizeof_tag; lia)) as Htm.
  unfold wpp in Halloc, Htm. unfold wp.
  destruct (vm_alloc_kpages pages v) as [[r v']| w| |]; [| |done|done].
  2: { destruct Halloc as [[_ Hno]|[_ Hno]]; [|done]. destruct (Hno 0xC0800). intros x Hx. apply boot_free_page. lia. }
  destruct Halloc as (pn & fs & [K1 K2 K3 _ K5 K6 _ _]). apply boot_lowest in K2; [|lia]. subst pn r.
  destruct (malloc n (la_boot v)) as [[p s']| | |]; [|done..]. destruct Hfirst as [Hsrc Hp].
  change (0xC0800 * 4096 =? 0) with false in Hp. rewrite wrap_small in Hp by (unfold in_width, sizeof_tag; lia).
  change (p = back_buffer) in Hp. subst p. split; [reflexivity|]. split; [|reflexivity].
  change (back_buffer =? 0) with false in Htm. assert (k_vm (with_heap s' k) = v') as Ev by exact Hsrc. split; rewrite ?Ev.
  - exact Hsize.
  - eapply written_ok; [exact Hby|exact K6|]. intros i b _ [= <-]. unfold in_width. lia.
  - intros i Hi. rewrite K6, decide_True; [by eexists|]. unfold back_buffer, sizeof_tag. lia.
  - intros i Hi. fold n in Hi. assert (n / 4096 * 4096 <= n) by (Z.div_mod_to_equations; lia). rewrite K5, decide_False.
    + by apply Hsh.
    + rewrite K3. assert (0xFF000 <= (gfx_framebuffer + i) / 4096); [|lia].
      apply Z.div_le_lower_bound; [done|]. destruct Hi as [Hi _]. clear - Hi. unfold gfx_framebuffer. lia.
    + unfold in_width, gfx_framebuffer. lia.
  - exact Htm.
Qed.

(** ** A round *)

(** The frame buffer holds the picture of the time. *)
Definition picture_shown mb (time : float) k : Prop :=
  forall x y, 0 <= x < framebuffer_width mb -> 0 <= y < framebuffer_height mb ->
  exists col, picture time x y = Some col /\ 0 <= col < 2 ^ 24 /\ forall i, 0 <= i < 4 ->
    ram (k_vm k) !! (gfx_framebuffer + 4 * (y * framebuffer_width mb + x) + i) = Some (u8 (col / 2 ^ (8 * i))).

Lemma picture_byte_of mb time j :
  graphics_mode mb -> time_ok time -> 0 <= j < 4 * pixels mb ->
  exists b, picture_byte time (framebuffer_width mb) j = Some b /\ is_u8 b.
Proof. intros [_ _ _ Hw Hh Hs _] Ht Hj. by apply picture_byte_ok. Qed.

(** The bytes of the picture in the frame buffer show it. *)
Lemma picture_bytes_shown mb time k :
  graphics_mode mb -> time_ok time ->
  (forall j, 0 <= j < 4 * pixels mb -> ram (k_vm k) !! (gfx_framebuffer + j) = picture_byte time (framebuffer_width mb) j) ->
  picture_shown mb time k.
Proof.
  intros Hm Ht Hb x y Hx Hy. destruct (pixels_ok mb Hm) as (Hpx & Hw & Hh). unfold pixels in *.
  destruct (picture_ok time x y Ht) as (col & Hc & Hcol); [lia|lia|]. exists col. split; [done|]. split; [done|].
  intros i Hi. set (w := framebuffer_width mb) in *. rewrite <- Z.add_assoc, Hb by nia.
  unfold picture_byte. rewrite (Z.mul_comm 4 (y * w + x)), (Z.add_comm _ i), Z.div_add, Z.mod_add by lia.
  rewrite (Z.div_small i 4), (Z.mod_small i 4), Z.add_0_l by lia.
  rewrite (Z.add_comm (y * w) x), Z.mod_add, Z.mod_small, Z.div_add, Z.div_small, Z.add_0_l by lia. by rewrite Hc.
Qed.

Lemma drawable_written mb p k m dest (f : Z -> option Z) :
  drawable mb p k -> written (ram (k_vm k)) m dest (4 * pixels mb) f ->
  (forall j, 0 <= j < 4 * pixels mb -> exists b, f j = Some b /\ is_u8 b) ->
  drawable mb p (with_vm (with_ram m (k_vm k)) k).
Proof.
  intros [D1 D2 D3 D4 D5] Hw Hf.
  assert (forall x, is_Some (ram (k_vm k) !! x) -> is_Some (m !! x)) as Hkeep.
  { intros x Hx. rewrite Hw. case_decide as Hin; [|done]. destruct (Hf (x - dest)) as (b & -> & _); [lia|by eexists]. }
  assert (bytes_ok m) as Hbm.
  { eapply written_ok; [exact D2|exact Hw|]. intros j b Hj Hb. destruct (Hf j Hj) as (b' & E & Hu). congruence. }
  split; [exact D1|exact Hbm| |exact D4|by apply tracked_memory].
  intros i Hi. apply Hkeep, D3, Hi.
Qed.

(** Drawing and showing a picture. *)
Lemma show_ok mb k time :
  graphics_mode mb -> time_ok time -> drawable mb back_buffer k ->
  wp (_ ← on_heap (in_memory (draw back_buffer (framebuffer_width mb) (framebuffer_height mb) time)); gfx_apply back_buffer) k
    (fun _ k' => drawable mb back_buffer k' /\ picture_shown mb time k' /\ k_devices k' = k_devices k).
Proof.
  intros Hm Ht Hd. destruct (pixels_ok mb Hm) as (Hpx & Hw & Hh). pose proof (gm_width _ Hm). pose proof (gm_height _ Hm).
  wp_step. unfold on_heap, in_memory, in_source. wp_step. wp_step. wp_step.
  eapply wp_mono; [apply draw_ok; [lia|lia|]|].
  { intros x y Hx Hy. destruct (picture_ok time x y Ht) as (col & -> & _); [lia|lia|by eexists]. }
  intros r m Hwr. cbv beta in Hwr. change (framebuffer_width mb * framebuffer_height mb) with (pixels mb) in Hwr.
  change (memory (source (k_heap k))) with (ram (k_vm k)) in Hwr.
  change (with_heap _ k) with (with_vm (with_ram m (k_vm k)) k).
  pose proof (drawable_written mb _ k m _ _ Hd Hwr ltac:(intros j; by apply picture_byte_of)) as Hd1.
  set (k1 := with_vm (with_ram m (k_vm k)) k) in *. pose proof Hd1 as [D1 D2 D3 D4 D5].
  unfold gfx_apply. wp_step. wp_step. rewrite D1. unfold on_vm, in_ram. wp_step. wp_step.
  eapply wp_mono; [apply memcpy_ok; [lia|exact D2|exact D3|right; unfold back_buffer, sizeof_tag, gfx_framebuffer; lia|lia]|].
  intros r' m2 [_ Hcp]. unfold copied in Hcp. change (with_vm (with_ram m2 (k_vm k1)) k1) with (with_vm (with_ram m2 (k_vm k1)) k1).
  change (ram (k_vm k1)) with m in Hcp.
  assert (forall j, 0 <= j < 4 * pixels mb -> m !! (back_buffer + j) = picture_byte time (framebuffer_width mb) j) as Hbuf.
  { intros j Hj. rewrite Hwr, decide_True by lia. f_equal. lia. }
  split; [|split; [|done]].
  - apply (drawable_written mb _ k1 m2 gfx_framebuffer _ Hd1 Hcp). intros j Hj. rewrite Hbuf by done. by apply picture_byte_of.
  - apply picture_bytes_shown; [done|done|]. intros j Hj. change (ram _) with m2. rewrite Hcp, decide_True by lia.
    replace (gfx_framebuffer + j - gfx_framebuffer) with j by lia. by apply Hbuf.
Qed.

Record animating mb k : Prop := {
  an_drawable : drawable mb back_buffer k;
  an_console : console_ok (k_devices k);
  an_clock : clock_registered (k_devices k)
}.

(** Interrupts that let [sleep(100)] return. *)
Definition arriving_ok (l : list registers_t) : Prop :=
  Forall (fun r => 32 <= int_no r < 256) l /\ 100000000 <= ticks l * ns_per_tick.

Abbreviation now k := (ns_since_boot (k_devices k)).

Lemma frame_ok mb k l time :
  graphics_mode mb -> time_ok time -> animating mb k -> arriving_ok l -> 0 <= now k ->
  now k + 100000000 + ns_per_tick < 2 ^ 64 ->
  wp (frame cr2 back_buffer (framebuffer_width mb) (framebuffer_height mb) l time) k (fun time' k' =>
    time' = advance time /\ animating mb k' /\ picture_shown mb time k' /\
    now k + 100000000 <= now k' < now k + 100000000 + ns_per_tick).
Proof.
  intros Hm Ht [A1 A2 A3] [L1 L2] Hn Hmax. pose proof (show_ok mb k time Hm Ht A1) as Hs.
  unfold frame. unfold wp in Hs |- *. unfold mbind, M_bind in Hs |- *.
  destruct (on_heap _ k) as [[r1 k1]| | |]; [|done..]. destruct (gfx_apply back_buffer k1) as [[r2 k2]| | |]; [|done..].
  destruct Hs as (D & Hp & Hdev). rewrite <- Hdev in *.
  match goal with |- match ?m with _ => _ end => change (wp (_ ← sleep_100 cr2 l; mret (advance time)) k2 (fun time' k' =>
    time' = advance time /\ animating mb k' /\ picture_shown mb time k' /\
    now k2 + 100000000 <= now k' < now k2 + 100000000 + ns_per_tick)) end.
  wp_step. unfold sleep_100, on_devices.
  pose proof (sleep_ok cr2 (k_vm k2) Hpatience Hresult l 100 (k_devices k2) A2 A3 L1 Hn ltac:(lia) L2 Hmax) as Hsl.
  unfold wp in Hsl |- *. unfold zoom. destruct (sleep cr2 (k_vm k2) l 100 (k_devices k2)) as [[r3 d]| | |]; [|done..].
  destruct Hsl as (Hc & Hh & Hns). cbn [mret M_ret]. split; [done|]. split; [split|].
  - destruct D. split; done.
  - exact Hc.
  - destruct A3. split; cbn; by rewrite Hh.
  - split; [exact Hp|exact Hns].
Qed.

(** ** The animation *)

(** The time of the [n]-th picture. *)
Definition picture_time (n : nat) : float := Nat.iter n advance (float_const 10).

Lemma picture_time_ok n : time_ok (picture_time n).
Proof. induction n as [|n IH]; [exact time_10_ok|]. by apply advance_ok. Qed.

Lemma animate_ok mb arrivals : forall n k,
  graphics_mode mb -> animating mb k -> Forall arriving_ok arrivals -> 0 <= now k ->
  now k + Z.of_nat (length arrivals) * (100000000 + ns_per_tick) < 2 ^ 64 ->
  wp (animate cr2 back_buffer (framebuffer_width mb) (framebuffer_height mb) arrivals (picture_time n)) k (fun time k' =>
    time = picture_time (n + length arrivals) /\ animating mb k' /\
    forall j, length arrivals = S j -> picture_shown mb (picture_time (n + j)) k').
Proof.
  assert (0 < ns_per_tick) as Htick by done.
  induction arrivals as [|l arrivals IH]; intros n k Hm Hk Hl Hn Hmax; cbn [animate].
  - wp_step. cbn [length]. rewrite Nat.add_0_r. split; [done|]. split; [done|]. by intros j.
  - apply Forall_cons in Hl as [Hl1 Hl2]. cbn [length] in *. wp_step.
    eapply wp_mono; [apply frame_ok; [done|apply picture_time_ok|done|done|done|lia]|].
    intros t k1 (-> & Hk1 & Hshow & Hns). change (advance (picture_time n)) with (picture_time (S n)).
    destruct arrivals as [|l2 arrivals].
    + cbn [animate]. wp_step. cbn [length]. split; [f_equal; lia|]. split; [done|]. intros j [= <-]. by rewrite Nat.add_0_r.
    + eapply wp_mono; [apply IH; [done|done|done|lia|cbn [length] in *; lia]|].
      intros t k2 (-> & Hk2 & Hs2). split; [f_equal; lia|]. split; [done|]. intros j [= <-].
      replace (n + S (length arrivals))%nat with (S n + length arrivals)%nat by lia. by apply Hs2.
Qed.

Lemma initialised_clock k : initialised k -> clock_registered (k_devices k).
Proof.
  intros Hk. pose proof (ki_handlers _ Hk) as Hh. split; rewrite Hh; [by rewrite !length_insert, length_replicate|].
  intros v. destruct (decide (v = 32%nat)) as [->|Hv].
  { rewrite list_lookup_insert_eq by (by rewrite length_insert, length_replicate; lia). done. }
  rewrite list_lookup_insert_ne by done. split; [|done]. intros E. destruct (decide (v = 36%nat)) as [->|Hv'].
  - rewrite list_lookup_insert_eq in E by (rewrite length_replicate; lia). discriminate E.
  - rewrite list_lookup_insert_ne in E by done. apply lookup_replicate_1 in E as [E _]. discriminate E.
Qed.

(** After [kernel_start]: from the frame buffer on. *)
Lemma graphics_ok mb arrivals k :
  initialised k -> graphics_mode mb -> Forall arriving_ok arrivals -> 0 <= now k ->
  now k + Z.of_nat (length arrivals) * (100000000 + ns_per_tick) < 2 ^ 64 ->
  ~ fewer_frames (frames (k_vm k)) (Z.to_nat (request_pages (4 * pixels mb))) ->
  wp (_ ← gfx_init mb; graphics_main cr2 mb arrivals) k (fun r k' =>
    r = (back_buffer, picture_time (length arrivals)) /\ animating mb k' /\
    forall j, length arrivals = S j -> picture_shown mb (picture_time j) k').
Proof.
  intros Hk Hm Hl Hn Hmax Hfr. wp_step. eapply wp_mono; [by apply gfx_init_ok|].
  intros _ k1 (_ & Hr & Hd1 & Hf1). unfold graphics_main. wp_step.
  eapply wp_mono; [apply malloc_buffer_ok; [done|done|by rewrite Hf1]|].
  intros p k2 (-> & Hd & Hd2). wp_step. rewrite <- Hd1, <- Hd2 in Hn, Hmax.
  eapply wp_mono; [apply (animate_ok mb arrivals 0); [done| |done|done|done]|].
  - split; [done|rewrite Hd2, Hd1; apply Hk|rewrite Hd2, Hd1; by apply initialised_clock].
  - intros t k3 (-> & Hk3 & Hs3). wp_step. split; [done|]. by split.
Qed.
End Specification.

(** ** Frame buffers of 24 bits per pixel *)

(** C28: The back buffer has a byte for every 8 bits of a pixel, but the loop stores four bytes for
    each pixel.  With 24 bits per pixel the drawing runs over the end of its block: the
    [width * height] bytes behind it are overwritten with the picture. *)
Theorem drawing_overruns `{X87Laws} mb p time m :
  framebuffer_bpp mb = 24 -> 0 < framebuffer_width mb -> 0 < framebuffer_height mb -> pixels mb <= 2 ^ 22 -> time_ok time ->
  exists r m', draw p (framebuffer_width mb) (framebuffer_height mb) time m = Ok (r, m') /\
    buffer_size mb = 3 * pixels mb /\ 3 * pixels mb < 4 * pixels mb /\
    forall a, p + 3 * pixels mb <= a < p + 4 * pixels mb ->
      exists b, m' !! a = Some b /\ picture_byte time (framebuffer_width mb) (a - p) = Some b.
Proof.
  intros Hb Hw Hh Hpx Ht. destruct (pixels_bounds mb Hw Hh) as (Hpos & Hw' & Hh').
  assert (wp (draw p (framebuffer_width mb) (framebuffer_height mb) time) m (fun _ m' =>
    written m m' p (4 * pixels mb) (picture_byte time (framebuffer_width mb)))) as Hd.
  { apply draw_ok; [lia|lia|]. intros x y Hx Hy.
    destruct (picture_ok time x y Ht) as (col & -> & _); [lia|lia|by eexists]. }
  destruct (proj1 (wp_ok _ _ _) Hd) as (r & m' & Hrun & Hm). exists r, m'. split; [exact Hrun|]. split; [|split; [lia|]].
  - unfold buffer_size. rewrite Hb. fold (pixels mb). change (24 / 8) with 3.
    rewrite !wrap_small by (unfold in_width; rewrite ?wrap_small; unfold in_width; lia). lia.
  - intros a Ha. destruct (picture_byte_ok mb time (a - p) Hw Hh Hpx Ht ltac:(lia)) as (b & Hb' & _). exists b.
    split; [|exact Hb']. rewrite Hm, decide_True by lia. exact Hb'.
Qed.

(** ** Witness *)

Lemma drawing_overruns_witness :
  exists r m', @draw ex_x87 0xD0000000 2 2 (float_const 10) ∅ = Ok (r, m') /\ is_Some (m' !! 0xD000000C).
Proof.
  destruct (@drawing_overruns ex_x87 ex_x87_laws (Multiboot 0x124F 0 0 0 0 0xFD000000 0 8 2 2 24 1) 0xD0000000 (float_const 10) ∅)
    as (r & m' & Hrun & _ & _ & Hm); [reflexivity|reflexivity|reflexivity|vm_compute; discriminate|exact time_10_ok|].
  exists r, m'. split; [exact Hrun|]. destruct (Hm 0xD000000C) as (b & Hb & _); [vm_compute; split; [discriminate|reflexivity]|].
  by exists b.
Defined.
