(* ===== verification/Kernel.v ===== *)
(** * kernel/kernel/kernel.cpp: [kernel_main]

    The kernel from its start: in text mode to its end, in graphical mode through the
    animation, for as long as interrupts are given. *)

From S2P Require Import Prelude Common Frames Pmm PmmFrames Cstring Vm VmList VmFree VmPaging VmInit VmAlloc VmProps.
From S2P Require Import Liballoc HeapFirst Stdlib KernelHeap Port Tables Tty Devices Printf PrintfSpec Serial Panic Timer Keyboard Isr Sleep Pci.
From S2P Require Import Float Math Colors Animation KernelInit Graphics.

Section Kernel.
Context {HW : Type} `{Machine HW} `{Patience} `{PutcharResult HW} `{SourcePath} `{Addresses} `{Layout} `{X87}.
#[local] Existing Instance PmmFrames.pmm_allocator.
Context (cr2 : Z).

(** [arrivals]: the interrupts that arrive during each round of the animation; behind the
    last one the model stops. *)
Definition kernel_main (mb : multiboot_t) (arrivals : list (list registers_t)) : M (kernel HW) unit :=
  _ ← kernel_start mb;
  graphics ← gfx_init mb;
  if graphics : bool then
    _ ← graphics_main cr2 mb arrivals;
    nofuel
  else
    _ ← on_devices (on_screen_of (tty_setcolor (tty_makecolor TTY_COLOR_BLACK TTY_COLOR_LIGHT_RED)));
    _ ← println "Graphics not supported!" [];
    _ ← on_devices (on_screen_of (tty_setcolor (color_code TTY_COLOR_WHITE)));
    println "Done" [].
End Kernel.

Section Boot.
Context {HW : Type} `{Machine HW} `{!UartLaws HW} `{!PicLaws HW} `{!PciLaws HW} `{Patience} `{PutcharResult HW} `{SourcePath}.
Context `{Addresses} `{Layout} `{X87Laws}.
#[local] Existing Instances PmmFrames.pmm_allocator PmmFrames.pmm_allocator_laws.
Context (cr2 : Z).
Hypothesis (Hpatience : (uart_bound < patience)%nat).
Hypothesis (Hresult : forall d : devices HW, 0 <= putchar_result d).
Implicit Types (h : HW) (k : kernel HW).

(** ** Text mode *)

Definition boot_text (mb : multiboot_t) : list Z :=
  start_text mb ++ line_of [Text (chars "Graphics not supported!" ++ [10])] ++ line_of [Text (chars "Done" ++ [10])].

Lemma gfx_init_text mb k : text_boot mb -> gfx_init mb k = Ok (false, k).
Proof.
  intros [_ Hm]. unfold gfx_init. destruct (Z.eqb_spec (Z.land (flags mb) MB_FLAG_FRAMEBUFFER) 0); [done|].
  destruct Hm as [?| ->]; [done|]. by destruct k as [? [] ? ? ?].
Qed.

Lemma kernel_main_ok mb arrivals h cells mem :
  boot_ok mb h cells mem -> text_boot mb ->
  wp (kernel_main cr2 mb arrivals) (kernel_boot h cells mem) (fun _ k => initialised k /\ sent k = uart_sent h ++ boot_text mb).
Proof.
  intros Hb Ht. unfold kernel_main. wp_step. eapply wp_mono; [by apply kernel_start_ok, Ht|]. intros [] k4 (I4 & S4 & _).
  wp_step. unfold wp at 1. rewrite gfx_init_text by done. cbv iota beta.
  wp_step. eapply wp_mono; [by apply setcolor_ok|]. intros [] k5 [I5 S5].
  wp_step. eapply wp_mono; [apply (println_ok Hpatience Hresult _ [Text (chars "Graphics not supported!" ++ [10])]); [done|solve_pieces|done]|].
  intros [] k6 (I6 & S6 & _). wp_step. eapply wp_mono; [by apply setcolor_ok|]. intros [] k7 [I7 S7].
  eapply wp_mono; [apply (println_ok Hpatience Hresult _ [Text (chars "Done" ++ [10])]); [done|solve_pieces|done]|].
  intros [] k8 (I8 & S8 & _). split; [done|].
  rewrite S8, S7, S6, S5, S4. unfold boot_text, line_of. by rewrite <- !app_assoc.
Qed.

(** ** Graphical mode *)

(** Interrupts that keep the animation going, and memory for the back buffer. *)
Record animation_boot (mb : multiboot_t) (arrivals : list (list registers_t)) (mem : gmap Z Z) : Prop := {
  ab_lines : printable mb;
  ab_mode : graphics_mode mb;
  ab_arrivals : Forall arriving_ok arrivals;
  ab_time : Z.of_nat (length arrivals) * (100000000 + ns_per_tick) < 2 ^ 64;
  ab_memory : exists pm, Pmm.pmm_init (upper_memory mb) (Pmm.pmm_boot mem) = Ok (tt, pm) /\
    request_pages (4 * pixels mb) <= Pmm.n_frames pm
}.

Lemma kernel_graphics_ok mb arrivals h cells mem :
  boot_ok mb h cells mem -> animation_boot mb arrivals mem ->
  wp (_ ← kernel_start mb; _ ← gfx_init mb; graphics_main cr2 mb arrivals) (kernel_boot h cells mem) (fun r k =>
    r = (back_buffer, picture_time (length arrivals)) /\ animating mb k /\
    forall j, length arrivals = S j -> picture_shown mb (picture_time j) k).
Proof.
  intros Hb [A1 A2 A3 A4 (pm & Hpm & Hmem)]. wp_step. eapply wp_mono; [by apply kernel_start_ok|].
  intros [] k (Hk & _ & Hf). specialize (Hf pm Hpm). pose proof (ki_time _ Hk) as Hns.
  apply (graphics_ok cr2 Hpatience Hresult); [exact Hk|exact A2|exact A3|rewrite Hns; done|rewrite Hns; exact A4|].
  destruct (request_pages_ok (4 * pixels mb)) as (P1 & _).
  { destruct (pixels_ok _ A2). lia. }
  { destruct (pixels_ok _ A2). unfold sizeof_tag. lia. }
  apply free_frames_enough; [apply (ki_frames _ Hk)|]. rewrite Hf, Z2Nat.id by lia. exact Hmem.
Qed.

Lemma gfx_init_graphics mb k : graphics_mode mb -> forall b k', gfx_init mb k = Ok (b, k') -> b = true.
Proof.
  intros [Hf Ht _ _ _ _ _] b k'. unfold gfx_init. rewrite (proj2 (Z.eqb_neq _ _) Hf), (proj2 (Z.eqb_neq _ _) Ht).
  cbv zeta. unfold mbind, M_bind. cbn [gets modify mret M_ret].
  destruct (on_vm (vm_dma _ _ _) _) as [[? ?]| | |]; [|done..].
  destruct (on_vm (in_ram _) _) as [[? ?]| | |]; [|done..]. by intros [= <- _].
Qed.

(** A run that takes the branch and is not followed further. *)
Lemma branch_nofuel {S A B} (m1 : M S unit) (m2 : M S bool) (m3 : M S A) (m4 : M S B) s r :
  (_ ← m1; _ ← m2; m3) s = Ok r -> (forall s' b s'', m2 s' = Ok (b, s'') -> b = true) ->
  (_ ← m1; b ← m2; if b : bool then _ ← m3; nofuel else m4) s = NoFuel.
Proof.
  intros Hrun Hb. unfold mbind, M_bind in *. destruct (m1 s) as [[a s1]| | |]; [|discriminate..].
  destruct (m2 s1) as [[b s2]| | |] eqn:E; [|discriminate..]. apply Hb in E. subst b.
  destruct (m3 s2) as [[x s3]| | |]; [|discriminate..]. reflexivity.
Qed.

(** ** Theorems *)

(** C3: The kernel boots: on a machine in text mode [kernel_main] runs to its end.  Then the
    segment and interrupt tables are loaded, the 48 gates lead to their entry points,
    exactly the requests of the clock and of the serial line are enabled, with their
    handlers registered; every frame is available, the kernel is mapped and the
    invariant of the virtual memory holds; the console works and has shown the
    messages. *)
Theorem kernel_boots mb arrivals h cells mem :
  boot_ok mb h cells mem -> text_boot mb ->
  exists k, kernel_main cr2 mb arrivals (kernel_boot h cells mem) = Ok (tt, k) /\ initialised k /\
    sent k = uart_sent h ++ boot_text mb.
Proof.
  intros Hb Ht. destruct (proj1 (wp_ok _ _ _) (kernel_main_ok mb arrivals h cells mem Hb Ht)) as ([] & k & Hrun & Hpost).
  exists k. split; [exact Hrun|exact Hpost].
Qed.

End Boot.

(** ** Witness: 13 MiB of memory *)

Section Examples.
#[local] Existing Instances ex_patience ex_result ready_uart register_pic uniform_pci ex_addresses example_layout ex_path ex_x87.

Definition ex_multiboot : multiboot_t := Multiboot 0x24F 640 12420 0 0 0 0 160 80 25 16 2.

Lemma ex_boot : boot_ok ex_multiboot (Regs (fun _ => 0x20) []) (replicate 2000 0) Pmm.ex_words.
Proof.
  split; [reflexivity| |reflexivity|exact I|exact ex_layout_ok|exact Pmm.ex_boot_ok].
  intros i. unfold in_width. cbn. pose proof (Z.mod_pos_bound i 48 ltac:(lia)). lia.
Qed.

Lemma kernel_boots_witness :
  exists k, kernel_main 0 ex_multiboot [] (kernel_boot (Regs (fun _ => 0x20) []) (replicate 2000 0) Pmm.ex_words) = Ok (tt, k) /\
    irq_enabled (ports (k_devices k)) 0 = true /\ mmu (k_vm k) 0xC0100123 = Some 0x100123.
Proof.
  destruct (kernel_boots 0 ex_patient ex_nonnegative ex_multiboot [] (Regs (fun _ => 0x20) []) (replicate 2000 0) Pmm.ex_words ex_boot)
    as (k & Hrun & Hk & _).
  - split; [cbn; lia..|done|by right].
  - exists k. split; [exact Hrun|]. split.
    + rewrite (ki_enabled _ Hk) by lia. reflexivity.
    + rewrite (ki_mapped _ Hk) by (unfold in_width; lia). reflexivity.
Defined.

(** A frame buffer of 40 x 30 pixels, and two ticks of the clock in each of two rounds. *)
Definition ex_graphics : multiboot_t := Multiboot 0x124F 640 12420 0 0 0xFD000000 0 160 40 30 32 1.
Definition ex_arrivals : list (list registers_t) :=
  [[ex_registers 32; ex_registers 32]; [ex_registers 32; ex_registers 32]].

Lemma ex_animation : animation_boot ex_graphics ex_arrivals Pmm.ex_words.
Proof.
  split.
  - split; cbn; unfold in_width; lia.
  - split; cbn; try lia; done.
  - assert (arriving_ok [ex_registers 32; ex_registers 32]) as Hl
      by (split; [repeat constructor; cbn; lia|vm_compute; discriminate]).
    apply Forall_cons. split; [exact Hl|]. apply Forall_cons. split; [exact Hl|]. by apply Forall_nil.
  - vm_compute. reflexivity.
  - exists Pmm.ex_pmm. split; [exact ex_pmm_run|]. change (Pmm.n_frames Pmm.ex_pmm) with 2048. vm_compute. discriminate.
Qed.

End Examples.
